(** * MASSP WAES/WS: the Encoder and the Audit, embedded and verified

    Shallow embedding of [src/instance.py], [src/build_waes.py],
    [src/build_ws.py], [src/audit.py], of the polling of
    [src/cuopt_server.py] and of the solution unpacking and the mode runs of
    [src/solve.py].

    Conventions of the embedding:
    - a Python [int] is a [Z]; a Python [float] is an exact rational [Q]:
      the floats of the embedding are finite ([inf] and [nan] are outside
      it) and their arithmetic is exact (the rounding of IEEE doubles is not
      modelled); [float(z)] of an int raises [OverflowError] beyond the
      range of doubles, which is modelled; statements whose truth depends
      on the rounding are made for inputs on which the arithmetic of
      doubles is exact ([exact_in_doubles]);
    - a Python [dict] is a [gmap]; a lookup [d[k]] that can raise [KeyError]
      is an [option]; a function that can raise returns [option], [None]
      standing for the raised exception;
    - tuples used as index sets ([N], [M], [A], ...) are lists, [set(...)] is
      a [gset];
    - [for] loops over mutable locals are folds that pass the locals along;
    - iterating over the items of a dict follows the enumeration of the map
      ([map_to_list]) rather than the insertion order; only the order in
      which the integrality issues are recorded depends on it. *)

From Stdlib Require Import QArith Qabs Qround Lqa ZArith Lia.
From stdpp Require Import gmap strings list fin_maps sorting pretty.

Local Open Scope Z_scope.

(** ** Python prelude *)

(** [range(lo, hi)]. *)
Definition range (lo hi : Z) : list Z := seqZ lo (hi - lo).

(** [for x in l: body], threading the mutated locals [st]; stops at the first
    exception. *)
Fixpoint for_ {A S : Type} (l : list A) (body : A → S → option S) (st : S)
  : option S :=
  match l with
  | [] => Some st
  | x :: l' => st' ← body x st; for_ l' body st'
  end.

(** [sum(f(x) for x in l)]: starts from 0 and adds from left to right. A
    generator with several [for] clauses runs over the tuples of its ranges
    in order; where an inner range is a lookup that can raise (Eq. (9) of
    the Audit), the accumulation is written as nested loops instead, so that
    the lookup happens once per outer element, as in the source. *)
Definition sum_ {A : Type} (l : list A) (f : A → option Q) : option Q :=
  for_ l (λ x acc, t ← f x; Some (acc + t)%Q) 0%Q.

(** [sorted(s)] for a set of ints. *)
Definition sorted (s : gset Z) : list Z := merge_sort Z.le (elements s).

(** [max(l)] for a tuple of ints; [ValueError] on an empty tuple. *)
Definition max_ (l : list Z) : option Z :=
  match l with
  | [] => None
  | x :: l' => Some (foldl Z.max x l')
  end.

(** The first int beyond the range of doubles: [float(z)] raises
    [OverflowError] when [|z| >= 2^1024 - 2^970], the midpoint between the
    largest double and [2^1024]. *)
Definition float_overflow : Z := 2 ^ 1024 - 2 ^ 970.

(** [float(z)] for an int, also where an int meets a float in [*], [+] or
    [-]: the int as a float, or [OverflowError]. *)
Definition float_ (z : Z) : option Q :=
  if bool_decide (Z.abs z < float_overflow) then Some (inject_Z z) else None.

(** [s.lower()], on the ASCII letters. The other characters do not matter
    to the prefix test of [_collect_solution]: none of them lowers to a
    letter of ["infeasible"] alone. *)
Definition lower_ascii (c : Ascii.ascii) : Ascii.ascii :=
  let n := Ascii.nat_of_ascii c in
  if ((65 <=? n) && (n <=? 90))%nat then Ascii.ascii_of_nat (n + 32) else c.

Fixpoint lower (s : string) : string :=
  match s with
  | EmptyString => EmptyString
  | String c s' => String (lower_ascii c) (lower s')
  end.

(** [s.startswith(p)]. *)
Definition startswith (s p : string) : bool := String.prefix p s.

(** [round(x)] on a finite float: nearest integer, ties to the even one.
    On [nan] and on an infinity Python raises; the embedding has no such
    float. *)
Definition round (x : Q) : Z :=
  let fl := Qfloor x in
  let frac := (x - inject_Z fl)%Q in
  match (frac ?= 1 # 2)%Q with
  | Lt => fl
  | Gt => fl + 1
  | Eq => if Z.even fl then fl else fl + 1
  end.

(** [Bound = Union[float, str]]: a number, or one of the sentinels ["inf"]
    and ["ninf"]. *)
Inductive Bound :=
  | BNum (x : Q)
  | BStr (s : string).

(** Formatting of ints and of tuples of ints, as f-strings print them. *)
Definition str (z : Z) : string := pretty z.
Definition str2 (k : Z * Z) : string :=
  let '(a, b) := k in "(" +:+ str a +:+ ", " +:+ str b +:+ ")".
Definition str4 (k : Z * Z * Z * Z) : string :=
  let '(a, b, c, d) := k in
  "(" +:+ str a +:+ ", " +:+ str b +:+ ", " +:+ str c +:+ ", " +:+ str d +:+ ")".

(** ** src/instance.py *)

Module instance.

Record InstanceData := {
  name : string;
  n : Z;
  N : list Z;
  M1 : list Z;
  M2 : list Z;
  M : list Z;
  A : list Z;
  B : list Z;
  C : list Z;
  A1 : list Z;
  A2 : list Z;
  T : list Z;
  Ga : gmap Z (list Z);
  d : gmap (Z * Z) Q;
  s : gmap (Z * Z) Q;
  v : gmap Z Z;
  r : gmap Z Z;
  Ta : gmap Z (list Z);
  Ht : gmap Z (list Z);
  c : gmap Z Q;
  q : Z;
  p : Z;
  f : Z;
  Oj : gmap Z (list Z);
  w : Q;
  b : gmap (Z * Z) Z;
  shift_start : gmap Z Z;
  shift_length : gmap Z Z;
  shift_cost_multiplier : gmap Z Q;
  paper_expected_objective : gmap string Q;
  paper_objective_tolerance : Q
}.

(** [d.get(k, ())] for a dict of tuples. *)
Definition get_tuple (m : gmap Z (list Z)) (k : Z) : list Z := default [] (m !! k).

(** [validate_instance]: the function appends one message per failed check
    and raises [ValueError] when any was appended. The embedding returns
    [true] exactly when no message is appended (the function returns
    normally); the checks are in source order. *)
Definition validate_instance (inst : InstanceData) : bool :=
  let set_M1 : gset Z := list_to_set (M1 inst) in
  let set_M2 : gset Z := list_to_set (M2 inst) in
  let set_M : gset Z := list_to_set (M inst) in
  let set_A : gset Z := list_to_set (A inst) in
  let set_B : gset Z := list_to_set (B inst) in
  let set_C : gset Z := list_to_set (C inst) in
  let set_A1 : gset Z := list_to_set (A1 inst) in
  let set_A2 : gset Z := list_to_set (A2 inst) in
  let set_T : gset Z := list_to_set (T inst) in
  let set_N : gset Z := list_to_set (N inst) in
  bool_decide (set_M1 ∩ set_M2 = ∅)
  && bool_decide (set_M = set_M1 ∪ set_M2)
  && bool_decide (set_B ∩ set_C = ∅)
  && bool_decide (set_A = set_B ∪ set_C)
  && bool_decide (set_A1 ∩ set_A2 = ∅)
  && bool_decide (set_A = set_A1 ∪ set_A2)
  && bool_decide (N inst = range 1 (n inst + 1))
  && forallb (λ j,
       bool_decide (is_Some (shift_start inst !! j))
       && bool_decide (is_Some (shift_length inst !! j))
       && bool_decide (is_Some (shift_cost_multiplier inst !! j))
       && forallb (λ k,
            match b inst !! (k, j) with
            | None => false
            | Some bkj => bool_decide (bkj = 0 ∨ bkj = 1)
            end) (N inst)) (M inst)
  && forallb (λ a,
       forallb (λ i, bool_decide (is_Some (d inst !! (a, i)))) (N inst))
       (B inst)
  && forallb (λ a,
       match Ga inst !! a with
       | None => false
       | Some parents =>
           forallb (λ a_parent, bool_decide (is_Some (s inst !! (a, a_parent))))
             parents
       end) (C inst)
  && forallb (λ a, bool_decide (is_Some (v inst !! a))) (A1 inst)
  && forallb (λ a, bool_decide (is_Some (r inst !! a))) (A2 inst)
  && forallb (λ a,
       match Ta inst !! a with
       | None | Some [] => false
       | Some _ => true
       end) (A inst)
  && forallb (λ t,
       match Ht inst !! t with
       | None | Some [] => false
       | Some _ => true
       end
       && bool_decide (is_Some (c inst !! t))) (T inst)
  && forallb (λ a,
       forallb (λ t,
         bool_decide (t ∈ set_T)
         && bool_decide (a ∈ (list_to_set (get_tuple (Ht inst) t) : gset Z)))
         (get_tuple (Ta inst) a)) (A inst)
  && forallb (λ t,
       forallb (λ a,
         bool_decide (a ∈ set_A)
         && bool_decide (t ∈ (list_to_set (get_tuple (Ta inst) a) : gset Z)))
         (get_tuple (Ht inst) t)) (T inst)
  && forallb (λ j,
       match Oj inst !! j with
       | None => false
       | Some win =>
           bool_decide (Z.of_nat (length win) = f inst)
           && forallb (λ i, bool_decide (i ∈ set_N)) win
       end) (M1 inst)
  && (Qle_bool 0 (w inst) && Qle_bool (w inst) 1)
  && bool_decide (0 < q inst)
  && bool_decide (0 <= p inst)
  && bool_decide (0 < f inst).

(** [_to_sorted_tuple]: [tuple(sorted(int(v) for v in values))], for values
    that are ints already. *)
Definition _to_sorted_tuple (values : list Z) : list Z := merge_sort Z.le values.

(** [_compute_b_matrix]: [b[(k, j)]] is 1 on the intervals that shift [j]
    covers, cut at the last interval, and 0 elsewhere. *)
Definition _compute_b_matrix (N M : list Z) (shift_start shift_length : gmap Z Z)
  : option (gmap (Z * Z) Z) :=
  n ← max_ N;
  for_ M (λ j b,
    start ← shift_start !! j;
    length ← shift_length !! j;
    let end_ := Z.min n (start + length - 1) in
    for_ N (λ k b,
      Some (<[(k, j) := if bool_decide (start <= k ∧ k <= end_) then 1 else 0]> b))
      b) ∅.

(** [_compute_break_windows]: the break window of a full-time shift, from
    the offsets relative to its start; offsets that fall outside [N] are
    left out. *)
Definition _compute_break_windows (M1 : list Z) (shift_start : gmap Z Z)
    (break_window_relative : list Z) (N : list Z) : option (gmap Z (list Z)) :=
  let n_set : gset Z := list_to_set N in
  for_ M1 (λ j Oj,
    start ← shift_start !! j;
    Some (<[j := (λ rel, start + rel - 1)
                 <$> filter (λ rel, start + rel - 1 ∈ n_set) break_window_relative]>
            Oj)) ∅.

End instance.

Abbreviation InstanceData := instance.InstanceData.

(** Symbolic keys of the decision variables: [XKey] is [(a, i, j, k)],
    [YIKey] is [(t, i, j, a)], [YSKey] is [(t, j)]. *)
Abbreviation XKey := (Z * Z * Z * Z)%type.
Abbreviation YIKey := (Z * Z * Z * Z)%type.
Abbreviation YSKey := (Z * Z)%type.

(** A constraint row under construction, [Dict[int, float]]: variable index
    to coefficient. *)
Abbreviation Row := (gmap nat Q).

(** ** src/solution_types.py *)

Module solution_types.

Record SolvedValues := {
  mode : string;
  objective : Q;
  x_aijk : gmap XKey Q;
  y_tija : gmap YIKey Q;
  y_tj : gmap YSKey Q;
  status : string;
  solver_time : option Q;
  mip_gap : option Q;
  solution_bound : option Q
}.

End solution_types.

Abbreviation SolvedValues := solution_types.SolvedValues.

(** ** src/build_waes.py *)

Module build_waes.

Record WAESModel := {
  variable_names : list string;
  variable_types : list string;
  objective_coeffs : list Q;
  variable_lb : list Bound;
  variable_ub : list Bound;
  csr_offsets : list nat;
  csr_indices : list nat;
  csr_values : list Q;
  constraint_lb : list Bound;
  constraint_ub : list Bound;
  x_aijk : gmap XKey nat;
  y_tija : gmap YIKey nat;
  y_tj : gmap YSKey nat;
  ws_mode : bool
}.

(** The JSON payload of [to_server_payload]; [solver_config] is present only
    when the given configuration is not empty. *)
Record ServerPayload := {
  csr_constraint_matrix : list nat * list nat * list Q;  (* offsets, indices, values *)
  constraint_bounds : list Bound * list Bound;           (* upper_bounds, lower_bounds *)
  objective_data : list Q * Q * Q;        (* coefficients, scalability_factor, offset *)
  variable_bounds : list Bound * list Bound;             (* upper_bounds, lower_bounds *)
  maximize : bool;
  payload_variable_names : list string;
  payload_variable_types : list string;
  solver_config : option (gmap string string)
}.

Definition to_server_payload (self : WAESModel) (config : gmap string string)
  : ServerPayload :=
  {| csr_constraint_matrix := (csr_offsets self, csr_indices self, csr_values self);
     constraint_bounds := (constraint_ub self, constraint_lb self);
     objective_data := (objective_coeffs self, 1%Q, 0%Q);
     variable_bounds := (variable_ub self, variable_lb self);
     maximize := false;
     payload_variable_names := variable_names self;
     payload_variable_types := variable_types self;
     solver_config := if decide (config = ∅) then None else Some config |}.

Definition _until_a1 (inst : InstanceData) (i_or_k a : Z) (ws_mode : bool)
  : option Z :=
  v_a ← (if ws_mode then Some 0 else instance.v inst !! a);
  Some (Z.min (i_or_k + v_a) (instance.n inst)).

Definition _until_a2 (inst : InstanceData) (i_or_k a : Z) (ws_mode : bool)
  : option Z :=
  if ws_mode then Some i_or_k
  else
    r_a ← instance.r inst !! a;
    if bool_decide (r_a <= 0) then Some i_or_k
    else Some (Z.max i_or_k (Z.min r_a (instance.n inst))).

(** *** Variable creation *)

(** The locals of [build_waes_model] that the variable loops mutate. *)
Module vars.
Record t := {
  variable_names : list string;
  variable_types : list string;
  objective_coeffs : list Q;
  variable_lb : list Bound;
  variable_ub : list Bound;
  x_aijk : gmap XKey nat;
  y_tija : gmap YIKey nat;
  y_tj : gmap YSKey nat
}.
Definition init : t :=
  {| variable_names := []; variable_types := []; objective_coeffs := [];
     variable_lb := []; variable_ub := [];
     x_aijk := ∅; y_tija := ∅; y_tj := ∅ |}.
End vars.

Definition add_var (name : string) (obj : Q) (lb ub : Bound) (vtype : string)
    (vs : vars.t) : nat * vars.t :=
  let idx := length (vars.variable_names vs) in
  (idx,
   {| vars.variable_names := vars.variable_names vs ++ [name];
      vars.objective_coeffs := vars.objective_coeffs vs ++ [obj];
      vars.variable_lb := vars.variable_lb vs ++ [lb];
      vars.variable_ub := vars.variable_ub vs ++ [ub];
      vars.variable_types := vars.variable_types vs ++ [vtype];
      vars.x_aijk := vars.x_aijk vs;
      vars.y_tija := vars.y_tija vs;
      vars.y_tj := vars.y_tj vs |}).

(** [x_aijk[key] = idx], [y_tija[key] = idx], [y_tj[key] = idx]. *)
Definition set_x (key : XKey) (idx : nat) (vs : vars.t) : vars.t :=
  {| vars.variable_names := vars.variable_names vs;
     vars.objective_coeffs := vars.objective_coeffs vs;
     vars.variable_lb := vars.variable_lb vs;
     vars.variable_ub := vars.variable_ub vs;
     vars.variable_types := vars.variable_types vs;
     vars.x_aijk := <[key := idx]> (vars.x_aijk vs);
     vars.y_tija := vars.y_tija vs;
     vars.y_tj := vars.y_tj vs |}.

Definition set_y_tija (key : YIKey) (idx : nat) (vs : vars.t) : vars.t :=
  {| vars.variable_names := vars.variable_names vs;
     vars.objective_coeffs := vars.objective_coeffs vs;
     vars.variable_lb := vars.variable_lb vs;
     vars.variable_ub := vars.variable_ub vs;
     vars.variable_types := vars.variable_types vs;
     vars.x_aijk := vars.x_aijk vs;
     vars.y_tija := <[key := idx]> (vars.y_tija vs);
     vars.y_tj := vars.y_tj vs |}.

Definition set_y_tj (key : YSKey) (idx : nat) (vs : vars.t) : vars.t :=
  {| vars.variable_names := vars.variable_names vs;
     vars.objective_coeffs := vars.objective_coeffs vs;
     vars.variable_lb := vars.variable_lb vs;
     vars.variable_ub := vars.variable_ub vs;
     vars.variable_types := vars.variable_types vs;
     vars.x_aijk := vars.x_aijk vs;
     vars.y_tija := vars.y_tija vs;
     vars.y_tj := <[key := idx]> (vars.y_tj vs) |}.

(** Eq. (11): the three variable loops, lines 110-146. *)
Definition create_x (inst : InstanceData) (vs : vars.t) : option vars.t :=
  for_ (instance.A inst) (λ a,
  for_ (instance.N inst) (λ i,
  for_ (instance.M inst) (λ j,
  for_ (instance.N inst) (λ k vs,
    let key := (a, i, j, k) in
    ub ← float_ (instance.q inst);
    let '(idx, vs) :=
      add_var ("x_a" +:+ str a +:+ "_i" +:+ str i +:+ "_j" +:+ str j
                 +:+ "_k" +:+ str k)
        0%Q (BNum 0) (BNum ub) "I" vs in
    Some (set_x key idx vs))))) vs.

Definition create_y_tija (inst : InstanceData) (vs : vars.t) : option vars.t :=
  for_ (instance.T inst) (λ t,
  for_ (instance.N inst) (λ i,
  for_ (instance.M inst) (λ j,
  for_ (instance.A inst) (λ a vs,
    let key := (t, i, j, a) in
    ub ← float_ (instance.q inst);
    let '(idx, vs) :=
      add_var ("y_t" +:+ str t +:+ "_i" +:+ str i +:+ "_j" +:+ str j
                 +:+ "_a" +:+ str a)
        0%Q (BNum 0) (BNum ub) "I" vs in
    Some (set_y_tija key idx vs))))) vs.

Definition create_y_tj (inst : InstanceData) (vs : vars.t) : option vars.t :=
  for_ (instance.T inst) (λ t,
  for_ (instance.M inst) (λ j vs,
    let key := (t, j) in
    c_t ← instance.c inst !! t;
    mult_j ← instance.shift_cost_multiplier inst !! j;
    ub ← float_ (instance.q inst);
    let '(idx, vs) :=
      add_var ("y_t" +:+ str t +:+ "_j" +:+ str j)
        (c_t * mult_j)%Q (BNum 0) (BNum ub) "I" vs in
    Some (set_y_tj key idx vs))) vs.

Definition create_variables (inst : InstanceData) : option vars.t :=
  vs ← create_x inst vars.init;
  vs ← create_y_tija inst vs;
  create_y_tj inst vs.

(** *** Constraint rows *)

(** The locals that [add_row] mutates. *)
Module csr.
Record t := {
  csr_offsets : list nat;
  csr_indices : list nat;
  csr_values : list Q;
  constraint_lb : list Bound;
  constraint_ub : list Bound
}.
Definition init : t :=
  {| csr_offsets := [0%nat]; csr_indices := []; csr_values := [];
     constraint_lb := []; constraint_ub := [] |}.
End csr.

(** [sorted(coeffs.items())]: the keys of a dict are distinct, so the items
    are ordered by key. *)
Definition item_le (e1 e2 : nat * Q) : Prop := (e1.1 ≤ e2.1)%nat.

#[global] Instance item_le_dec : RelDecision item_le.
Proof. intros e1 e2. unfold item_le. apply _. Defined.

Definition sorted_items (coeffs : Row) : list (nat * Q) :=
  merge_sort item_le (map_to_list coeffs).

(** The drop threshold [1e-12] of [add_row]. *)
Definition drop_threshold : Q := 1 # 1000000000000.

Definition add_row (coeffs : Row) (lb ub : Bound) (cs : csr.t) : csr.t :=
  let '(indices, values) :=
    foldl (λ '(indices, values) '(var_idx, coeff),
             if Qle_bool (Qabs coeff) drop_threshold then (indices, values)
             else (indices ++ [var_idx], values ++ [coeff]))
          (csr.csr_indices cs, csr.csr_values cs) (sorted_items coeffs) in
  {| csr.csr_indices := indices;
     csr.csr_values := values;
     csr.csr_offsets := csr.csr_offsets cs ++ [length indices];
     csr.constraint_lb := csr.constraint_lb cs ++ [lb];
     csr.constraint_ub := csr.constraint_ub cs ++ [ub] |}.

(** [row[idx] = row.get(idx, 0.0) + coeff] and [row[idx] = row.get(idx, 0.0) - coeff]. *)
Definition row_add (idx : nat) (coeff : Q) (row : Row) : Row :=
  <[idx := (default 0 (row !! idx) + coeff)%Q]> row.
Definition row_sub (idx : nat) (coeff : Q) (row : Row) : Row :=
  <[idx := (default 0 (row !! idx) - coeff)%Q]> row.

Section rows.
Context (inst : InstanceData) (ws_mode : bool).
Context (x_aijk : gmap XKey nat) (y_tija : gmap YIKey nat) (y_tj : gmap YSKey nat).

Definition set_BA1 : gset Z := list_to_set (instance.B inst) ∩ list_to_set (instance.A1 inst).
Definition set_BA2 : gset Z := list_to_set (instance.B inst) ∩ list_to_set (instance.A2 inst).
Definition set_CA1 : gset Z := list_to_set (instance.C inst) ∩ list_to_set (instance.A1 inst).
Definition set_CA2 : gset Z := list_to_set (instance.C inst) ∩ list_to_set (instance.A2 inst).

(** The loop nest that Eq. (2)-(5) all start with: the covered execution
    terms of activity [a] with origin [i], over the window [i..until]. *)
Definition window_terms (a i until : Z) (row : Row) : option Row :=
  for_ (instance.M inst) (λ j,
  for_ (range i (until + 1)) (λ k row,
    idx ← x_aijk !! (a, i, j, k);
    b_kj ← instance.b inst !! (k, j);
    coeff ← float_ b_kj;
    Some (row_add idx coeff row))) row.

(** The second loop nest of Eq. (4) and (5): the parents' execution at [k]. *)
Definition parent_terms (a k : Z) (row : Row) : option Row :=
  parents ← instance.Ga inst !! a;
  for_ parents (λ a_parent row,
    coeff ← instance.s inst !! (a, a_parent);
    for_ (instance.M inst) (λ j,
    for_ (instance.N inst) (λ i row,
      idx ← x_aijk !! (a_parent, i, j, k);
      Some (row_sub idx coeff row))) row) row.

Definition row_eq2 (i a : Z) : option (Row * Bound * Bound) :=
  until ← _until_a1 inst i a ws_mode;
  row ← window_terms a i until ∅;
  rhs ← instance.d inst !! (a, i);
  Some (row, BNum rhs, BNum rhs).

Definition row_eq3 (i a : Z) : option (Row * Bound * Bound) :=
  until ← _until_a2 inst i a ws_mode;
  row ← window_terms a i until ∅;
  rhs ← instance.d inst !! (a, i);
  Some (row, BNum rhs, BNum rhs).

Definition row_eq4 (k a : Z) : option (Row * Bound * Bound) :=
  until ← _until_a1 inst k a ws_mode;
  row ← window_terms a k until ∅;
  row ← parent_terms a k row;
  Some (row, BNum 0, BStr "inf").

Definition row_eq5 (k a : Z) : option (Row * Bound * Bound) :=
  until ← _until_a2 inst k a ws_mode;
  row ← window_terms a k until ∅;
  row ← parent_terms a k row;
  Some (row, BNum 0, BStr "inf").

Definition row_eq6 (k j a : Z) : option (Row * Bound * Bound) :=
  row ← for_ (range 1 (k + 1)) (λ i row,
           idx ← x_aijk !! (a, i, j, k);
           Some (row_add idx 1 row)) ∅;
  profiles ← instance.Ta inst !! a;
  row ← for_ profiles (λ t row,
           idx ← y_tija !! (t, k, j, a);
           Some (row_sub idx 1 row)) row;
  Some (row, BStr "ninf", BNum 0).

Definition row_eq7 (i j t : Z) : option (Row * Bound * Bound) :=
  acts ← instance.Ht inst !! t;
  row ← for_ acts (λ a row,
           idx ← y_tija !! (t, i, j, a);
           Some (row_add idx 1 row)) ∅;
  idx_shift ← y_tj !! (t, j);
  Some (row_sub idx_shift 1 row, BStr "ninf", BNum 0).

Definition row_eq8 (i : Z) : option (Row * Bound * Bound) :=
  row ← for_ (instance.T inst) (λ t,
         for_ (instance.M inst) (λ j,
         for_ (instance.A inst) (λ a row,
           idx ← y_tija !! (t, i, j, a);
           Some (row_add idx 1 row)))) ∅;
  ub ← float_ (instance.q inst);
  Some (row, BStr "ninf", BNum ub).

Definition row_eq9 (t j : Z) : option (Row * Bound * Bound) :=
  window ← instance.Oj inst !! j;
  row ← for_ window (λ i row,
         acts ← instance.Ht inst !! t;
         for_ acts (λ a row,
           idx ← y_tija !! (t, i, j, a);
           Some (row_add idx 1 row)) row) ∅;
  idx_shift ← y_tj !! (t, j);
  coeff ← float_ (instance.f inst - instance.p inst);
  Some (row_sub idx_shift coeff row, BStr "ninf", BNum 0).

Definition row_eq10 : option (Row * Bound * Bound) :=
  row ← for_ (instance.M2 inst) (λ j,
         for_ (instance.T inst) (λ t row,
           idx ← y_tj !! (t, j);
           Some (row_add idx 1 row))) ∅;
  row ← for_ (instance.M inst) (λ j,
         for_ (instance.T inst) (λ t row,
           idx ← y_tj !! (t, j);
           Some (row_sub idx (instance.w inst) row))) row;
  Some (row, BStr "ninf", BNum 0).

(** The body shared by all the row loops: build the row, then [add_row]. *)
Definition emit (mk : option (Row * Bound * Bound)) (cs : csr.t) : option csr.t :=
  '(row, lb, ub) ← mk; Some (add_row row lb ub cs).

(** Lines 169-288: the ten families in order. *)
Definition create_rows (cs : csr.t) : option csr.t :=
  cs ← for_ (instance.N inst) (λ i,
        for_ (sorted set_BA1) (λ a, emit (row_eq2 i a))) cs;
  cs ← for_ (instance.N inst) (λ i,
        for_ (sorted set_BA2) (λ a, emit (row_eq3 i a))) cs;
  cs ← for_ (instance.N inst) (λ k,
        for_ (sorted set_CA1) (λ a, emit (row_eq4 k a))) cs;
  cs ← for_ (instance.N inst) (λ k,
        for_ (sorted set_CA2) (λ a, emit (row_eq5 k a))) cs;
  cs ← for_ (instance.N inst) (λ k,
        for_ (instance.M inst) (λ j,
        for_ (instance.A inst) (λ a, emit (row_eq6 k j a)))) cs;
  cs ← for_ (instance.N inst) (λ i,
        for_ (instance.M inst) (λ j,
        for_ (instance.T inst) (λ t, emit (row_eq7 i j t)))) cs;
  cs ← for_ (instance.N inst) (λ i, emit (row_eq8 i)) cs;
  cs ← for_ (instance.T inst) (λ t,
        for_ (instance.M1 inst) (λ j, emit (row_eq9 t j))) cs;
  emit row_eq10 cs.

End rows.

Definition build_waes_model (inst : InstanceData) (ws_mode : bool)
  : option WAESModel :=
  vs ← create_variables inst;
  cs ← create_rows inst ws_mode (vars.x_aijk vs) (vars.y_tija vs) (vars.y_tj vs)
         csr.init;
  Some {| variable_names := vars.variable_names vs;
          variable_types := vars.variable_types vs;
          objective_coeffs := vars.objective_coeffs vs;
          variable_lb := vars.variable_lb vs;
          variable_ub := vars.variable_ub vs;
          csr_offsets := csr.csr_offsets cs;
          csr_indices := csr.csr_indices cs;
          csr_values := csr.csr_values cs;
          constraint_lb := csr.constraint_lb cs;
          constraint_ub := csr.constraint_ub cs;
          x_aijk := vars.x_aijk vs;
          y_tija := vars.y_tija vs;
          y_tj := vars.y_tj vs;
          ws_mode := ws_mode |}.

End build_waes.

Abbreviation WAESModel := build_waes.WAESModel.

(** ** src/build_ws.py *)

Module build_ws.

Definition build_ws_model (inst : InstanceData) : option WAESModel :=
  build_waes.build_waes_model inst true.

End build_ws.

(** ** src/audit.py *)

Module audit.

Record AuditIssue := {
  equation : string;
  detail : string;
  violation : Q
}.

Record AuditReport := {
  passed : bool;
  tolerance : Q;
  issues : list AuditIssue
}.

(** The default of the parameter [tol] of [run_audits]: [1e-4], the double
    nearest to 1/10000. *)
Definition default_tol : Q := 7378697629483821 # 73786976294838206464.

Definition _until_a1 (inst : InstanceData) (i_or_k a : Z) (ws_mode : bool)
  : option Z :=
  v_a ← (if ws_mode then Some 0 else instance.v inst !! a);
  Some (Z.min (i_or_k + v_a) (instance.n inst)).

Definition _until_a2 (inst : InstanceData) (i_or_k a : Z) (ws_mode : bool)
  : option Z :=
  if ws_mode then Some i_or_k
  else
    r_a ← instance.r inst !! a;
    if bool_decide (r_a <= 0) then Some i_or_k
    else Some (Z.max i_or_k (Z.min r_a (instance.n inst))).

(** [gap > tol]. *)
Definition exceeds (gap tol : Q) : bool := negb (Qle_bool gap tol).

Section checks.
Context (tol : Q).

Definition check_eq (eq : string) (lhs rhs : Q) (detail : string)
    (issues : list AuditIssue) : list AuditIssue :=
  let gap := Qabs (lhs - rhs) in
  if exceeds gap tol
  then issues ++ [{| equation := eq; detail := detail; violation := gap |}]
  else issues.

Definition check_le (eq : string) (lhs rhs : Q) (detail : string)
    (issues : list AuditIssue) : list AuditIssue :=
  let gap := (lhs - rhs)%Q in
  if exceeds gap tol
  then issues ++ [{| equation := eq; detail := detail; violation := gap |}]
  else issues.

Definition check_ge (eq : string) (lhs rhs : Q) (detail : string)
    (issues : list AuditIssue) : list AuditIssue :=
  let gap := (rhs - lhs)%Q in
  if exceeds gap tol
  then issues ++ [{| equation := eq; detail := detail; violation := gap |}]
  else issues.

End checks.

Section audits.
Context (inst : InstanceData) (solved : SolvedValues) (ws_mode : bool) (tol : Q).

Definition set_BA1 : gset Z := list_to_set (instance.B inst) ∩ list_to_set (instance.A1 inst).
Definition set_BA2 : gset Z := list_to_set (instance.B inst) ∩ list_to_set (instance.A2 inst).
Definition set_CA1 : gset Z := list_to_set (instance.C inst) ∩ list_to_set (instance.A1 inst).
Definition set_CA2 : gset Z := list_to_set (instance.C inst) ∩ list_to_set (instance.A2 inst).

(** [sum(solved.x_aijk[(a, i, j, k)] * instance.b[(k, j)]
        for j in instance.M for k in range(i, until + 1))]. *)
Definition executed (a i until : Z) : option Q :=
  sum_ (j ← instance.M inst; k ← range i (until + 1); [(j, k)])
    (λ '(j, k),
       x ← solution_types.x_aijk solved !! (a, i, j, k);
       b_kj ← instance.b inst !! (k, j);
       b_float ← float_ b_kj;
       Some (x * b_float)%Q).

(** [sum(instance.s[(a, a_parent)]
          * sum(solved.x_aijk[(a_parent, i, j, k)]
                for j in instance.M for i in instance.N)
        for a_parent in instance.Ga[a])].
    Here as everywhere in the Audit and the Encoder the sums and products
    are those of the rationals. They are the results of the code where
    every one of them is a double; elsewhere the code's result is off by
    the rounding of doubles, and a check whose gap is within that rounding
    of the tolerance can come out differently. *)
Definition required (a k : Z) : option Q :=
  parents ← instance.Ga inst !! a;
  sum_ parents (λ a_parent,
    share ← instance.s inst !! (a, a_parent);
    volume ← sum_ (j ← instance.M inst; i ← instance.N inst; [(j, i)])
                (λ '(j, i), solution_types.x_aijk solved !! (a_parent, i, j, k));
    Some (share * volume)%Q).

Definition audit_eq2 (i a : Z) (issues : list AuditIssue) : option (list AuditIssue) :=
  until ← _until_a1 inst i a ws_mode;
  lhs ← executed a i until;
  rhs ← instance.d inst !! (a, i);
  Some (check_eq tol "Eq(2)" lhs rhs ("i=" +:+ str i +:+ ", a=" +:+ str a) issues).

Definition audit_eq3 (i a : Z) (issues : list AuditIssue) : option (list AuditIssue) :=
  until ← _until_a2 inst i a ws_mode;
  lhs ← executed a i until;
  rhs ← instance.d inst !! (a, i);
  Some (check_eq tol "Eq(3)" lhs rhs ("i=" +:+ str i +:+ ", a=" +:+ str a) issues).

Definition audit_eq4 (k a : Z) (issues : list AuditIssue) : option (list AuditIssue) :=
  until ← _until_a1 inst k a ws_mode;
  lhs ← executed a k until;
  rhs ← required a k;
  Some (check_ge tol "Eq(4)" lhs rhs ("k=" +:+ str k +:+ ", a=" +:+ str a) issues).

Definition audit_eq5 (k a : Z) (issues : list AuditIssue) : option (list AuditIssue) :=
  until ← _until_a2 inst k a ws_mode;
  lhs ← executed a k until;
  rhs ← required a k;
  Some (check_ge tol "Eq(5)" lhs rhs ("k=" +:+ str k +:+ ", a=" +:+ str a) issues).

Definition audit_eq6 (k j a : Z) (issues : list AuditIssue) : option (list AuditIssue) :=
  lhs ← sum_ (range 1 (k + 1))
          (λ i, solution_types.x_aijk solved !! (a, i, j, k));
  profiles ← instance.Ta inst !! a;
  rhs ← sum_ profiles (λ t, solution_types.y_tija solved !! (t, k, j, a));
  Some (check_le tol "Eq(6)" lhs rhs
          ("k=" +:+ str k +:+ ", j=" +:+ str j +:+ ", a=" +:+ str a) issues).

Definition audit_eq7 (i j t : Z) (issues : list AuditIssue) : option (list AuditIssue) :=
  acts ← instance.Ht inst !! t;
  lhs ← sum_ acts (λ a, solution_types.y_tija solved !! (t, i, j, a));
  rhs ← solution_types.y_tj solved !! (t, j);
  Some (check_le tol "Eq(7)" lhs rhs
          ("i=" +:+ str i +:+ ", j=" +:+ str j +:+ ", t=" +:+ str t) issues).

Definition audit_eq8 (i : Z) (issues : list AuditIssue) : option (list AuditIssue) :=
  lhs ← sum_ (t ← instance.T inst; j ← instance.M inst; a ← instance.A inst;
              [(t, j, a)])
          (λ '(t, j, a), solution_types.y_tija solved !! (t, i, j, a));
  rhs ← float_ (instance.q inst);
  Some (check_le tol "Eq(8)" lhs rhs ("i=" +:+ str i) issues).

Definition audit_eq9 (t j : Z) (issues : list AuditIssue) : option (list AuditIssue) :=
  window ← instance.Oj inst !! j;
  lhs ← for_ window (λ i acc,
          acts ← instance.Ht inst !! t;
          for_ acts (λ a acc,
            y ← solution_types.y_tija solved !! (t, i, j, a);
            Some (acc + y)%Q) acc) 0%Q;
  y ← solution_types.y_tj solved !! (t, j);
  break_free ← float_ (instance.f inst - instance.p inst);
  let rhs := (break_free * y)%Q in
  Some (check_le tol "Eq(9)" lhs rhs ("t=" +:+ str t +:+ ", j=" +:+ str j) issues).

Definition audit_eq10 (issues : list AuditIssue) : option (list AuditIssue) :=
  lhs ← sum_ (j ← instance.M2 inst; t ← instance.T inst; [(t, j)])
          (λ key, solution_types.y_tj solved !! key);
  total ← sum_ (j ← instance.M inst; t ← instance.T inst; [(t, j)])
            (λ key, solution_types.y_tj solved !! key);
  let rhs := (instance.w inst * total)%Q in
  Some (check_le tol "Eq(10)" lhs rhs "part-time-share" issues).

(** Eq. (11): one [check_eq] per item of a solved dict. *)
Definition audit_integrality {K : Type} (prefix : string) (fmt : K → string)
    (items : list (K * Q)) (issues : list AuditIssue) : list AuditIssue :=
  foldl (λ issues '(key, value),
           check_eq tol "Eq(11)" value (inject_Z (round value))
             (prefix +:+ fmt key) issues)
        issues items.

Definition run_audits : option AuditReport :=
  let issues := [] in
  issues ← for_ (instance.N inst) (λ i,
            for_ (sorted set_BA1) (λ a, audit_eq2 i a)) issues;
  issues ← for_ (instance.N inst) (λ i,
            for_ (sorted set_BA2) (λ a, audit_eq3 i a)) issues;
  issues ← for_ (instance.N inst) (λ k,
            for_ (sorted set_CA1) (λ a, audit_eq4 k a)) issues;
  issues ← for_ (instance.N inst) (λ k,
            for_ (sorted set_CA2) (λ a, audit_eq5 k a)) issues;
  issues ← for_ (instance.N inst) (λ k,
            for_ (instance.M inst) (λ j,
            for_ (instance.A inst) (λ a, audit_eq6 k j a))) issues;
  issues ← for_ (instance.N inst) (λ i,
            for_ (instance.M inst) (λ j,
            for_ (instance.T inst) (λ t, audit_eq7 i j t))) issues;
  issues ← for_ (instance.N inst) (λ i, audit_eq8 i) issues;
  issues ← for_ (instance.T inst) (λ t,
            for_ (instance.M1 inst) (λ j, audit_eq9 t j)) issues;
  issues ← audit_eq10 issues;
  let issues := audit_integrality "x" str4
                  (map_to_list (solution_types.x_aijk solved)) issues in
  let issues := audit_integrality "y_tija" str4
                  (map_to_list (solution_types.y_tija solved)) issues in
  let issues := audit_integrality "y_tj" str2
                  (map_to_list (solution_types.y_tj solved)) issues in
  Some {| passed := bool_decide (issues = []);
          tolerance := tol;
          issues := issues |}.

End audits.

End audit.

(** ** src/cuopt_server.py: polling for the solver response *)

Module cuopt_server.

(** The responses of the service as far as the polling reads them: the keys
    ["response"] and ["reqId"] of a response, and the key
    ["solver_response"] of a wrapped response. *)
Record Wrapped (R : Type) := { solver_response : option R }.
Record Response (R : Type) := {
  response : option (Wrapped R);
  reqId : option string
}.
Arguments solver_response {R}.
Arguments response {R}.
Arguments reqId {R}.

Inductive Error := RuntimeError | TimeoutError | ValueError | OverflowError.

(** A normal return or a raised exception. *)
Inductive Outcome (R : Type) :=
  | Returned (r : R)
  | Raised (e : Error).
Arguments Returned {R}.
Arguments Raised {R}.

Definition _extract_solver_response {R : Type} (resp : Response R) : Outcome R :=
  match response resp with
  | None => Raised RuntimeError
  | Some wrapped =>
      match solver_response wrapped with
      | None => Raised RuntimeError
      | Some r => Returned r
      end
  end.

Section polling.
Context {R P : Type}.
(** The client: [get_LP_solve] answers a payload, [repoll] answers the
    [tries]-th repoll of a request id. *)
Context (get_LP_solve : P → Response R) (repoll : nat → string → Response R).
(** [time.sleep]: [None] when the call returns after the delay, the
    exception when it raises ([ValueError] on a negative length,
    [OverflowError] on one too large for the clock). How long the call
    takes is not modelled. *)
Context (sleep : Q → option Error).

(** The [while] loop of [solve_milp_payload]. [budget] is
    [repoll_tries - tries], so that [tries >= repoll_tries] is [budget = 0].
    The sleep follows every repoll, also the one whose answer ends the
    loop. *)
Fixpoint poll (repoll_interval : Q) (budget tries : nat) (resp : Response R)
  : Outcome R :=
  match response resp with
  | Some _ => _extract_solver_response resp
  | None =>
      match reqId resp with
      | None => Raised RuntimeError
      | Some req =>
          match budget with
          | O => Raised TimeoutError
          | S budget' =>
              let resp' := repoll tries req in
              match sleep repoll_interval with
              | Some e => Raised e
              | None => poll repoll_interval budget' (S tries) resp'
              end
          end
      end
  end.

Definition solve_milp_payload (payload : P) (repoll_tries : Z)
    (repoll_interval : Q) : Outcome R :=
  poll repoll_interval (Z.to_nat repoll_tries) 0 (get_LP_solve payload).

End polling.

End cuopt_server.

(** ** src/solve.py: unpacking of the solution vector *)

Module solve.

Definition _build_mode (inst : InstanceData) (mode : string) : option WAESModel :=
  if decide (mode = "waes") then build_waes.build_waes_model inst false
  else if decide (mode = "ws") then build_ws.build_ws_model inst
  else None.

(** [{key: vector[idx] for key, idx in index.items()}]; [IndexError] when an
    index is outside the vector. *)
Definition values_of {K : Type} `{Countable K} (index : gmap K nat)
    (vector : list Q) : option (gmap K Q) :=
  if forallb (λ e, e.2 <? length vector)%nat (map_to_list index)
  then Some ((λ idx, default 0%Q (vector !! idx)) <$> index)
  else None.

(** [_solution_vector_from_response] on a solution that carries the list
    [primal_solution]: [RuntimeError] when its length is not the number of
    variables of the model. (The list that the function assembles from a
    [vars] mapping instead has that length by construction.) *)
Definition _solution_vector_from_response (model : WAESModel) (primal : list Q)
  : option (list Q) :=
  let n_vars := length (build_waes.variable_names model) in
  if bool_decide (length primal ≠ n_vars) then None else Some primal.

(** [_collect_solution] on a solver response with the given [status], a
    solution with the list [primal] as its [primal_solution], the given
    [objective] and the optional statistics: [RuntimeError] when the status
    starts with ["infeasible"] in any letter case. The parsing of the
    response into these fields is outside the embedding. *)
Definition _collect_solution (model : WAESModel) (mode status : string)
    (primal : list Q) (objective : Q) (solver_time mip_gap solution_bound : option Q)
  : option SolvedValues :=
  if startswith (lower status) "infeasible" then None else
  vector ← _solution_vector_from_response model primal;
  x_vals ← values_of (build_waes.x_aijk model) vector;
  y_interval_vals ← values_of (build_waes.y_tija model) vector;
  y_shift_vals ← values_of (build_waes.y_tj model) vector;
  Some {| solution_types.mode := mode;
          solution_types.objective := objective;
          solution_types.x_aijk := x_vals;
          solution_types.y_tija := y_interval_vals;
          solution_types.y_tj := y_shift_vals;
          solution_types.status := status;
          solution_types.solver_time := solver_time;
          solution_types.mip_gap := mip_gap;
          solution_types.solution_bound := solution_bound |}.

(** What [_collect_solution] reads out of the solver response before it
    unpacks the vector. *)
Record Reading := {
  read_status : string;
  read_vector : list Q;
  read_objective : Q;
  read_solver_time : option Q;
  read_mip_gap : option Q;
  read_solution_bound : option Q
}.

Section run.
(** The collaborators of [_run_one_mode] that are outside the embedding:
    [solve_and_read] is the exchange with the solver service
    ([solve_milp_payload]) followed by the reading of the status, the
    vector, the objective and the statistics out of its response, and
    [write_solution_csvs] is the CSV export; [None] stands for a raised
    exception. *)
Context (solve_and_read : WAESModel → build_waes.ServerPayload → option Reading).
Context (write_solution_csvs : InstanceData → SolvedValues → option unit).

Definition _run_one_mode (inst : InstanceData) (mode : string) (audit_tol : Q)
    (solver_cfg : gmap string string) : option SolvedValues :=
  model ← _build_mode inst mode;
  let payload := build_waes.to_server_payload model solver_cfg in
  reading ← solve_and_read model payload;
  solved ← _collect_solution model mode (read_status reading)
              (read_vector reading) (read_objective reading)
              (read_solver_time reading) (read_mip_gap reading)
              (read_solution_bound reading);
  audit ← audit.run_audits inst solved (bool_decide (mode = "ws")) audit_tol;
  if negb (audit.passed audit) then None
  else
    write_solution_csvs inst solved ≫= λ _, Some solved.

End run.

End solve.

(** ** Reading an encoded model *)

(** Row [r] of a CSR matrix holds the entries stored at the positions
    [offsets[r] .. offsets[r+1] - 1]. *)
Fixpoint split_rows {A : Type} (start : nat) (offsets : list nat)
    (entries : list A) : list (list A) :=
  match offsets with
  | [] => []
  | o :: offsets' =>
      take (o - start) entries :: split_rows o offsets' (drop (o - start) entries)
  end.

(** The constraint rows of a model: stored (index, coefficient) entries,
    lower bound, upper bound. *)
Definition model_rows (m : WAESModel) : list (list (nat * Q) * Bound * Bound) :=
  zip (zip (split_rows 0 (tail (build_waes.csr_offsets m))
              (zip (build_waes.csr_indices m) (build_waes.csr_values m)))
           (build_waes.constraint_lb m))
      (build_waes.constraint_ub m).

(** [vector[idx]] where the index is known to be in range. *)
Definition value_at (vector : list Q) (idx : nat) : Q := default 0%Q (vector !! idx).

(** Row times vector. *)
Definition dot (entries : list (nat * Q)) (vector : list Q) : Q :=
  foldr (λ e acc, (e.2 * value_at vector e.1 + acc)%Q) 0%Q entries.

(** The linear form of an accumulated row. *)
Definition row_dot (row : Row) (vector : list Q) : Q := dot (map_to_list row) vector.




(** The value is an exact integer. *)
Definition is_integer (x : Q) : bool := Qeq_bool x (inject_Z (Qfloor x)).


(** The rows in the order [create_rows] hands them to [add_row], before
    [add_row] drops the near-zero coefficients. *)
Section accumulated.
Context (inst : InstanceData) (ws_mode : bool).
Context (x_aijk : gmap XKey nat) (y_tija : gmap YIKey nat) (y_tj : gmap YSKey nat).

Definition accumulated_rows : option (list (Row * Bound * Bound)) :=
  r2 ← mapM (λ '(i, a), build_waes.row_eq2 inst ws_mode x_aijk i a)
        (i ← instance.N inst; a ← sorted (build_waes.set_BA1 inst); [(i, a)]);
  r3 ← mapM (λ '(i, a), build_waes.row_eq3 inst ws_mode x_aijk i a)
        (i ← instance.N inst; a ← sorted (build_waes.set_BA2 inst); [(i, a)]);
  r4 ← mapM (λ '(k, a), build_waes.row_eq4 inst ws_mode x_aijk k a)
        (k ← instance.N inst; a ← sorted (build_waes.set_CA1 inst); [(k, a)]);
  r5 ← mapM (λ '(k, a), build_waes.row_eq5 inst ws_mode x_aijk k a)
        (k ← instance.N inst; a ← sorted (build_waes.set_CA2 inst); [(k, a)]);
  r6 ← mapM (λ '(k, j, a), build_waes.row_eq6 inst x_aijk y_tija k j a)
        (k ← instance.N inst; j ← instance.M inst; a ← instance.A inst;
         [(k, j, a)]);
  r7 ← mapM (λ '(i, j, t), build_waes.row_eq7 inst y_tija y_tj i j t)
        (i ← instance.N inst; j ← instance.M inst; t ← instance.T inst;
         [(i, j, t)]);
  r8 ← mapM (λ i, build_waes.row_eq8 inst y_tija i) (instance.N inst);
  r9 ← mapM (λ '(t, j), build_waes.row_eq9 inst y_tija y_tj t j)
        (t ← instance.T inst; j ← instance.M1 inst; [(t, j)]);
  r10 ← build_waes.row_eq10 inst y_tj;
  Some (r2 ++ r3 ++ r4 ++ r5 ++ r6 ++ r7 ++ r8 ++ r9 ++ [r10]).

End accumulated.

(** [add_row] over a list of rows. *)
Definition push (rows : list (Row * Bound * Bound)) (cs : build_waes.csr.t)
  : build_waes.csr.t :=
  foldl (λ cs r, build_waes.add_row r.1.1 r.1.2 r.2 cs) cs rows.

(** The CSR arrays that hold a list of rows. *)
Fixpoint offsets_from (start : nat) (rows : list (list (nat * Q))) : list nat :=
  match rows with
  | [] => []
  | entries :: rows' =>
      (start + length entries)%nat :: offsets_from (start + length entries) rows'
  end.

(** What [add_row] stores of an accumulated row. *)
Definition stored (coeffs : Row) : list (nat * Q) :=
  filter (λ e, Qle_bool (Qabs e.2) build_waes.drop_threshold = false)
    (build_waes.sorted_items coeffs).

Definition stored_row (r : Row * Bound * Bound) : list (nat * Q) * Bound * Bound :=
  (stored r.1.1, r.1.2, r.2).

(** The arrays represent the rows [rows] with the bounds [lbs], [ubs]. *)
Definition holds (cs : build_waes.csr.t) (rows : list (list (nat * Q) * Bound * Bound))
  : Prop :=
  build_waes.csr.csr_offsets cs = 0%nat :: offsets_from 0 (rows.*1.*1)
  ∧ build_waes.csr.csr_indices cs = (concat (rows.*1.*1)).*1
  ∧ build_waes.csr.csr_values cs = (concat (rows.*1.*1)).*2
  ∧ build_waes.csr.constraint_lb cs = rows.*1.*2
  ∧ build_waes.csr.constraint_ub cs = rows.*2.

(** No accumulated coefficient lies in the dropped band without being zero:
    each is [0] or larger than [1e-12] in magnitude. *)
Definition well_scaled (coeffs : Row) : bool :=
  forallb (λ e, Qeq_bool e.2 0 || negb (Qle_bool (Qabs e.2) build_waes.drop_threshold))
    (map_to_list coeffs).

Definition drops_only_zeros (inst : InstanceData) (ws_mode : bool) (m : WAESModel)
  : bool :=
  match accumulated_rows inst ws_mode (build_waes.x_aijk m) (build_waes.y_tija m)
          (build_waes.y_tj m) with
  | Some rows => forallb (λ r, well_scaled r.1.1) rows
  | None => false
  end.

(** A decision variable, by kind and symbolic key. *)
Inductive var_key :=
  | KX (key : XKey)
  | KYI (key : YIKey)
  | KYS (key : YSKey).

#[global] Instance var_key_eq_dec : EqDecision var_key.
Proof. solve_decision. Defined.

(** The flat index of a variable under the three index maps. *)
Definition index_in (x_aijk : gmap XKey nat) (y_tija : gmap YIKey nat)
    (y_tj : gmap YSKey nat) (vk : var_key) : option nat :=
  match vk with
  | KX key => x_aijk !! key
  | KYI key => y_tija !! key
  | KYS key => y_tj !! key
  end.

(** The flat index that the variable loops have given to a variable so far. *)
Definition index_of (vs : build_waes.vars.t) (vk : var_key) : option nat :=
  index_in (build_waes.vars.x_aijk vs) (build_waes.vars.y_tija vs)
    (build_waes.vars.y_tj vs) vk.

(** Every coefficient slot of the row belongs to a variable other than [vk0]. *)
Definition avoids (x_aijk : gmap XKey nat) (y_tija : gmap YIKey nat)
    (y_tj : gmap YSKey nat) (vk0 : var_key) (row : Row) : Prop :=
  ∀ idx, is_Some (row !! idx) →
    ∃ vk, index_in x_aijk y_tija y_tj vk = Some idx ∧ vk ≠ vk0.

(** The objective coefficient that the source gives to a variable. *)
Definition objective_of (inst : InstanceData) (vk : var_key) (obj : Q) : Prop :=
  match vk with
  | KX _ | KYI _ => obj = 0%Q
  | KYS (t, j) =>
      ∃ c_t mult_j, instance.c inst !! t = Some c_t
        ∧ instance.shift_cost_multiplier inst !! j = Some mult_j
        ∧ obj = (c_t * mult_j)%Q
  end.

(** The variable catalog is consistent with [log], the list of the
    variables in creation order: an index map sends a key to a slot created
    for that key, and the slot holds the key's objective coefficient. *)
Definition catalog_ok (inst : InstanceData) (vs : build_waes.vars.t)
    (log : list var_key) : Prop :=
  length (build_waes.vars.variable_names vs) = length log
  ∧ length (build_waes.vars.objective_coeffs vs) = length log
  ∧ (∀ vk idx, index_of vs vk = Some idx → log !! idx = Some vk)
  ∧ (∀ idx vk, log !! idx = Some vk →
       ∃ obj, build_waes.vars.objective_coeffs vs !! idx = Some obj
              ∧ objective_of inst vk obj).

(** The solved value of a variable, 0 where the solved dicts have none. *)
Definition solved_value (solved : SolvedValues) (vk : var_key) : Q :=
  match vk with
  | KX key => default 0%Q (solution_types.x_aijk solved !! key)
  | KYI key => default 0%Q (solution_types.y_tija solved !! key)
  | KYS key => default 0%Q (solution_types.y_tj solved !! key)
  end.

(** The dense symbolic key space of an instance. *)
Definition x_keys (inst : InstanceData) : list XKey :=
  a ← instance.A inst; i ← instance.N inst; j ← instance.M inst;
  k ← instance.N inst; [(a, i, j, k)].
Definition y_tija_keys (inst : InstanceData) : list YIKey :=
  t ← instance.T inst; i ← instance.N inst; j ← instance.M inst;
  a ← instance.A inst; [(t, i, j, a)].
Definition y_tj_keys (inst : InstanceData) : list YSKey :=
  t ← instance.T inst; j ← instance.M inst; [(t, j)].

(** The solved values cover exactly the dense key space. *)
Definition dense (inst : InstanceData) (solved : SolvedValues) : Prop :=
  dom (solution_types.x_aijk solved) = list_to_set (x_keys inst)
  ∧ dom (solution_types.y_tija solved) = list_to_set (y_tija_keys inst)
  ∧ dom (solution_types.y_tj solved) = list_to_set (y_tj_keys inst).

(** Number of distinct elements of an index tuple. *)
Definition card (l : list Z) : nat := size (list_to_set l : gset Z).

(** Number of constraint rows, family by family in emission order. *)
Definition family_sizes (inst : InstanceData) : list nat :=
  [ length (instance.N inst) * length (sorted (build_waes.set_BA1 inst));
    length (instance.N inst) * length (sorted (build_waes.set_BA2 inst));
    length (instance.N inst) * length (sorted (build_waes.set_CA1 inst));
    length (instance.N inst) * length (sorted (build_waes.set_CA2 inst));
    length (instance.N inst) * (length (instance.M inst) * length (instance.A inst));
    length (instance.N inst) * (length (instance.M inst) * length (instance.T inst));
    length (instance.N inst);
    length (instance.T inst) * length (instance.M1 inst);
    1 ]%nat.

Definition row_count (inst : InstanceData) : nat := foldr Nat.add 0%nat (family_sizes inst).

(** Number of the first row of the [k]-th family (counting from 0). *)
Definition family_start (inst : InstanceData) (k : nat) : nat :=
  foldr Nat.add 0%nat (take k (family_sizes inst)).

(** The Eq. (11) issues of a report. *)
Definition eq11_issues (issues : list audit.AuditIssue) : list audit.AuditIssue :=
  filter (λ issue, audit.equation issue = "Eq(11)") issues.

(** The distance of a value to its nearest integer exceeds the tolerance. *)
Definition far_from_integer (tol value : Q) : bool :=
  audit.exceeds (Qabs (value - inject_Z (round value))) tol.

(** The issues that the integrality check records for the items of one
    solved dict: one per value that is far from its nearest integer. *)
Definition integrality_issues {K : Type} (tol : Q) (prefix : string)
    (fmt : K → string) (items : list (K * Q)) : list audit.AuditIssue :=
  items ≫= λ item,
    if far_from_integer tol item.2
    then [ {| audit.equation := "Eq(11)";
              audit.detail := prefix +:+ fmt item.1;
              audit.violation := Qabs (item.2 - inject_Z (round item.2)) |} ]
    else [].

(** What [validate_instance] establishes, as far as the Encoder and the
    Audit rely on it. *)
Record validated (inst : InstanceData) : Prop := {
  valid_N : instance.N inst = range 1 (instance.n inst + 1);
  valid_M1 : ∀ j, j ∈ instance.M1 inst → j ∈ instance.M inst;
  valid_M2 : ∀ j, j ∈ instance.M2 inst → j ∈ instance.M inst;
  valid_B : ∀ a, a ∈ instance.B inst → a ∈ instance.A inst;
  valid_C : ∀ a, a ∈ instance.C inst → a ∈ instance.A inst;
  valid_b : ∀ j k, j ∈ instance.M inst → k ∈ instance.N inst →
            is_Some (instance.b inst !! (k, j));
  valid_mult : ∀ j, j ∈ instance.M inst →
               is_Some (instance.shift_cost_multiplier inst !! j);
  valid_d : ∀ a i, a ∈ instance.B inst → i ∈ instance.N inst →
            is_Some (instance.d inst !! (a, i));
  valid_Ga : ∀ a, a ∈ instance.C inst →
             ∃ parents, instance.Ga inst !! a = Some parents
               ∧ ∀ a_parent, a_parent ∈ parents →
                   is_Some (instance.s inst !! (a, a_parent));
  valid_v : ∀ a, a ∈ instance.A1 inst → is_Some (instance.v inst !! a);
  valid_r : ∀ a, a ∈ instance.A2 inst → is_Some (instance.r inst !! a);
  valid_Ta : ∀ a, a ∈ instance.A inst →
             ∃ profiles, instance.Ta inst !! a = Some profiles
               ∧ ∀ t, t ∈ profiles → t ∈ instance.T inst;
  valid_Ht : ∀ t, t ∈ instance.T inst →
             ∃ acts, instance.Ht inst !! t = Some acts
               ∧ ∀ a, a ∈ acts → a ∈ instance.A inst;
  valid_c : ∀ t, t ∈ instance.T inst → is_Some (instance.c inst !! t);
  valid_Oj : ∀ j, j ∈ instance.M1 inst →
             ∃ window, instance.Oj inst !! j = Some window
               ∧ ∀ i, i ∈ window → i ∈ instance.N inst;
  valid_b01 : ∀ j k b_kj, j ∈ instance.M inst → k ∈ instance.N inst →
              instance.b inst !! (k, j) = Some b_kj → b_kj = 0 ∨ b_kj = 1
}.

(** [float(z)] returns: the int is within the range of doubles. *)
Definition in_float_range (z : Z) : Prop := Z.abs z < float_overflow.

(** Every parent named by the dependency graph of a dependent activity is
    an activity of the instance. [validate_instance] does not check this. *)
Definition parents_known (inst : InstanceData) : Prop :=
  ∀ a parents a_parent,
    a ∈ instance.C inst → instance.Ga inst !! a = Some parents →
    a_parent ∈ parents → a_parent ∈ instance.A inst.

(** ** The checks of the Audit *)

(** What the three check functions do with a check, given as the issue
    that it would record: record it when its violation exceeds the
    tolerance. *)
Definition record (tol : Q) (check : audit.AuditIssue)
    (issues : list audit.AuditIssue) : list audit.AuditIssue :=
  if audit.exceeds (audit.violation check) tol then issues ++ [check] else issues.

(** The checks that a tolerance records. *)
Definition recorded (tol : Q) (checks : list audit.AuditIssue) : list audit.AuditIssue :=
  filter (λ check, audit.exceeds (audit.violation check) tol = true) checks.

(** A part of the Audit that runs a list of checks that does not depend on
    the tolerance nor on the issues recorded so far, all of them with the
    property [P], and raises when their computation does. *)
Definition runs_checks (P : audit.AuditIssue → Prop)
    (part : Q → list audit.AuditIssue → option (list audit.AuditIssue)) : Prop :=
  ∃ checks : option (list audit.AuditIssue),
    (∀ tol issues, part tol issues = cs ← checks; Some (issues ++ recorded tol cs))
    ∧ (∀ cs, checks = Some cs → Forall P cs).

(** The equation tags of the Audit. *)
Definition equation_tags : list string :=
  ["Eq(2)"; "Eq(3)"; "Eq(4)"; "Eq(5)"; "Eq(6)"; "Eq(7)"; "Eq(8)"; "Eq(9)";
   "Eq(10)"; "Eq(11)"].

(** ** Rows and values within a tolerance *)

Definition lower_within (tol : Q) (lb : Bound) (x : Q) : bool :=
  match lb with
  | BNum l => Qle_bool (l - tol) x
  | BStr s => bool_decide (s = "ninf")
  end.

Definition upper_within (tol : Q) (ub : Bound) (x : Q) : bool :=
  match ub with
  | BNum u => Qle_bool x (u + tol)
  | BStr s => bool_decide (s = "inf")
  end.

(** [lb - tol ≤ row · vector ≤ ub + tol]. *)
Definition within (tol : Q) (vector : list Q) (row : list (nat * Q) * Bound * Bound)
  : bool :=
  let '(entries, lb, ub) := row in
  lower_within tol lb (dot entries vector) && upper_within tol ub (dot entries vector).

(** Every solved value is within [tol] of its nearest integer. *)
Definition near_integer (tol : Q) (solved : SolvedValues) : bool :=
  forallb (λ e, negb (far_from_integer tol e.2))
    (map_to_list (solution_types.x_aijk solved))
  && forallb (λ e, negb (far_from_integer tol e.2))
       (map_to_list (solution_types.y_tija solved))
  && forallb (λ e, negb (far_from_integer tol e.2))
       (map_to_list (solution_types.y_tj solved)).

(** ** The variable catalog in creation order *)

(** The name that the source gives to a variable. *)
Definition name_of (vk : var_key) : string :=
  match vk with
  | KX (a, i, j, k) =>
      "x_a" +:+ str a +:+ "_i" +:+ str i +:+ "_j" +:+ str j +:+ "_k" +:+ str k
  | KYI (t, i, j, a) =>
      "y_t" +:+ str t +:+ "_i" +:+ str i +:+ "_j" +:+ str j +:+ "_a" +:+ str a
  | KYS (t, j) => "y_t" +:+ str t +:+ "_j" +:+ str j
  end.

(** The variables in the order of the three variable loops. *)
Definition creation_order (inst : InstanceData) : list var_key :=
  (KX <$> x_keys inst) ++ (KYI <$> y_tija_keys inst) ++ (KYS <$> y_tj_keys inst).

(** The parallel variable lists hold, slot by slot, the data of the
    variables of [log]. *)
Definition layout_ok (inst : InstanceData) (vs : build_waes.vars.t)
    (log : list var_key) : Prop :=
  build_waes.vars.variable_names vs = name_of <$> log
  ∧ build_waes.vars.variable_types vs = (λ _, "I") <$> log
  ∧ build_waes.vars.variable_lb vs = (λ _, BNum 0) <$> log
  ∧ build_waes.vars.variable_ub vs
    = (λ _, BNum (inject_Z (instance.q inst))) <$> log.

(** ** Inputs on which the arithmetic of doubles is exact *)

(** The value is a multiple of [2^-k]. *)
Definition on_grid (k : nat) (x : Q) : bool :=
  is_integer (x * inject_Z (2 ^ Z.of_nat k)).

(** No index tuple of the instance has more entries than this, and the
    horizon is not longer; at least 1. The Encoder and the Audit nest at
    most three loops over such tuples and accumulate no number in more than
    two loop nests: no sum has more than [2 * longest ^ 3] terms. *)
Definition longest (inst : InstanceData) : Z :=
  Z.of_nat
    (max_list ([1%nat; Z.to_nat (instance.n inst); length (instance.N inst);
                length (instance.M inst); length (instance.M1 inst);
                length (instance.M2 inst); length (instance.A inst);
                length (instance.T inst)]
               ++ (length <$> (map_to_list (instance.Ga inst)).*2)
               ++ (length <$> (map_to_list (instance.Ta inst)).*2)
               ++ (length <$> (map_to_list (instance.Ht inst)).*2)
               ++ (length <$> (map_to_list (instance.Oj inst)).*2))).

(** The floats that the Encoder and the Audit compute with: the demands,
    the shares, the part-time cap, the costs and their multipliers, and the
    entries of the solution vector. *)
Definition floats_of (inst : InstanceData) (vector : list Q) : list Q :=
  (map_to_list (instance.d inst)).*2 ++ (map_to_list (instance.s inst)).*2
  ++ [instance.w inst]
  ++ (map_to_list (instance.c inst)).*2
  ++ (map_to_list (instance.shift_cost_multiplier inst)).*2
  ++ vector.

(** No number that enters the arithmetic exceeds this in magnitude: the
    floats above and the ints [q], [f - p] and [b]. At least 1. *)
Definition largest (inst : InstanceData) (vector : list Q) : Z :=
  foldr Z.max 1
    ([Z.abs (instance.q inst); Z.abs (instance.f inst - instance.p inst)]
     ++ (Z.abs <$> (map_to_list (instance.b inst)).*2)
     ++ ((λ x, Qceiling (Qabs x)) <$> floats_of inst vector)).

(** The instance and the solution vector are such that the code computes
    exactly: every float is a multiple of [2^-k], and
    [2 * longest^3 * largest^2 * 4^k <= 2^53].

    Every number that the Encoder or the Audit computes from such inputs is
    one of these floats or ints, a product of two of them, a sum of such
    terms, or the gap between the two sides of a check. Family by family,
    a coefficient of a row is a sum of at most [2 * longest^3] terms of
    magnitude at most [largest]; a side of a check is a sum of at most
    [longest^3] terms of magnitude at most [largest^2], and one of the two
    sides has at most [longest^2] terms. So every partial result is a
    multiple of [4^-k] of magnitude at most [2 * longest^3 * largest^2],
    that is [n / 4^k] for an integer [|n| <= 2^53], which a double holds
    exactly. An operation on doubles whose exact result is a double returns
    that result, whatever the order of a sum and with or without
    compensated summation, and doubles compare exactly: on these inputs the
    exact arithmetic of the embedding is the arithmetic of the code. *)
Definition exact_in_doubles (k : nat) (inst : InstanceData) (vector : list Q) : bool :=
  forallb (on_grid k) (floats_of inst vector)
  && (2 * longest inst ^ 3 * largest inst vector ^ 2 * 4 ^ Z.of_nat k <=? 2 ^ 53).

(** ** The answers of the solver service *)

Section answers.
Context {R P : Type}.
Context (get_LP_solve : P → cuopt_server.Response R)
        (repoll : nat → string → cuopt_server.Response R).

(** The answers in order: the first one to the payload, then one per repoll
    of the request id that the answer before carries. *)
Fixpoint answer (payload : P) (k : nat) : option (cuopt_server.Response R) :=
  match k with
  | O => Some (get_LP_solve payload)
  | S k' =>
      resp ← answer payload k';
      req ← cuopt_server.reqId resp;
      Some (repoll k' req)
  end.

End answers.

(** An answer without ["response"] that carries a request id. *)
Definition pending {R : Type} (resp : cuopt_server.Response R) : bool :=
  match cuopt_server.response resp, cuopt_server.reqId resp with
  | None, Some _ => true
  | _, _ => false
  end.

(** ** Concrete instances *)

(** Two intervals, a full-time and a part-time shift, an independent
    deadline-bounded activity 1, a dependent release-bounded activity 2 fed
    by activity 1, and two profiles, of which profile 2 cannot perform
    activity 1. *)
Definition demo : InstanceData :=
  {| instance.name := "demo"; instance.n := 2; instance.N := [1; 2];
     instance.M1 := [1]; instance.M2 := [2]; instance.M := [1; 2];
     instance.A := [1; 2]; instance.B := [1]; instance.C := [2];
     instance.A1 := [1]; instance.A2 := [2]; instance.T := [1; 2];
     instance.Ga := {[ 2 := [1] ]};
     instance.d := {[ (1, 1) := 3%Q; (1, 2) := 2%Q ]};
     instance.s := {[ (2, 1) := (1 # 2)%Q ]};
     instance.v := {[ 1 := 1 ]};
     instance.r := {[ 2 := 2 ]};
     instance.Ta := {[ 1 := [1]; 2 := [1; 2] ]};
     instance.Ht := {[ 1 := [1; 2]; 2 := [2] ]};
     instance.c := {[ 1 := 10%Q; 2 := 8%Q ]};
     instance.q := 10; instance.p := 1; instance.f := 2;
     instance.Oj := {[ 1 := [1; 2] ]};
     instance.w := (1 # 2)%Q;
     instance.b := {[ (1, 1) := 1; (2, 1) := 1; (1, 2) := 1; (2, 2) := 0 ]};
     instance.shift_start := {[ 1 := 1; 2 := 1 ]};
     instance.shift_length := {[ 1 := 2; 2 := 1 ]};
     instance.shift_cost_multiplier := {[ 1 := 1%Q; 2 := (3 # 4)%Q ]};
     instance.paper_expected_objective := ∅;
     instance.paper_objective_tolerance := 1%Q |}.

(** One interval, one full-time shift, one independent deadline-bounded
    activity and one profile: three variables and six rows. *)
Definition tiny : InstanceData :=
  {| instance.name := "tiny"; instance.n := 1; instance.N := [1];
     instance.M1 := [1]; instance.M2 := []; instance.M := [1];
     instance.A := [1]; instance.B := [1]; instance.C := [];
     instance.A1 := [1]; instance.A2 := []; instance.T := [1];
     instance.Ga := ∅;
     instance.d := {[ (1, 1) := 2%Q ]};
     instance.s := ∅;
     instance.v := {[ 1 := 0 ]};
     instance.r := ∅;
     instance.Ta := {[ 1 := [1] ]};
     instance.Ht := {[ 1 := [1] ]};
     instance.c := {[ 1 := 5%Q ]};
     instance.q := 4; instance.p := 0; instance.f := 1;
     instance.Oj := {[ 1 := [1] ]};
     instance.w := (1 # 2)%Q;
     instance.b := {[ (1, 1) := 1 ]};
     instance.shift_start := {[ 1 := 1 ]};
     instance.shift_length := {[ 1 := 1 ]};
     instance.shift_cost_multiplier := {[ 1 := 1%Q ]};
     instance.paper_expected_objective := ∅;
     instance.paper_objective_tolerance := 1%Q |}.

(** [tiny] with a worker cap [q = 2^1024], which no double holds. *)
Definition tiny_huge_q : InstanceData :=
  {| instance.name := "tiny-huge-q"; instance.n := 1; instance.N := [1];
     instance.M1 := [1]; instance.M2 := []; instance.M := [1];
     instance.A := [1]; instance.B := [1]; instance.C := [];
     instance.A1 := [1]; instance.A2 := []; instance.T := [1];
     instance.Ga := ∅;
     instance.d := {[ (1, 1) := 2%Q ]};
     instance.s := ∅;
     instance.v := {[ 1 := 0 ]};
     instance.r := ∅;
     instance.Ta := {[ 1 := [1] ]};
     instance.Ht := {[ 1 := [1] ]};
     instance.c := {[ 1 := 5%Q ]};
     instance.q := 2 ^ 1024; instance.p := 0; instance.f := 1;
     instance.Oj := {[ 1 := [1] ]};
     instance.w := (1 # 2)%Q;
     instance.b := {[ (1, 1) := 1 ]};
     instance.shift_start := {[ 1 := 1 ]};
     instance.shift_length := {[ 1 := 1 ]};
     instance.shift_cost_multiplier := {[ 1 := 1%Q ]};
     instance.paper_expected_objective := ∅;
     instance.paper_objective_tolerance := 1%Q |}.

(** [demo] with the fields [v], [s] or [Ga] replaced. *)
Definition demo_with (v : gmap Z Z) (s : gmap (Z * Z) Q) (Ga : gmap Z (list Z))
  : InstanceData :=
  {| instance.name := "demo"; instance.n := 2; instance.N := [1; 2];
     instance.M1 := [1]; instance.M2 := [2]; instance.M := [1; 2];
     instance.A := [1; 2]; instance.B := [1]; instance.C := [2];
     instance.A1 := [1]; instance.A2 := [2]; instance.T := [1; 2];
     instance.Ga := Ga;
     instance.d := {[ (1, 1) := 3%Q; (1, 2) := 2%Q ]};
     instance.s := s;
     instance.v := v;
     instance.r := {[ 2 := 2 ]};
     instance.Ta := {[ 1 := [1]; 2 := [1; 2] ]};
     instance.Ht := {[ 1 := [1; 2]; 2 := [2] ]};
     instance.c := {[ 1 := 10%Q; 2 := 8%Q ]};
     instance.q := 10; instance.p := 1; instance.f := 2;
     instance.Oj := {[ 1 := [1; 2] ]};
     instance.w := (1 # 2)%Q;
     instance.b := {[ (1, 1) := 1; (2, 1) := 1; (1, 2) := 1; (2, 2) := 0 ]};
     instance.shift_start := {[ 1 := 1; 2 := 1 ]};
     instance.shift_length := {[ 1 := 2; 2 := 1 ]};
     instance.shift_cost_multiplier := {[ 1 := 1%Q; 2 := (3 # 4)%Q ]};
     instance.paper_expected_objective := ∅;
     instance.paper_objective_tolerance := 1%Q |}.

(** A deadline offset of -1 for activity 1. *)
Definition demo_negative_v : InstanceData :=
  demo_with {[ 1 := -1 ]} {[ (2, 1) := (1 # 2)%Q ]} {[ 2 := [1] ]}.


(** Activity 2 depends on an activity 99 that is not in [A]. *)
Definition demo_unknown_parent : InstanceData :=
  demo_with {[ 1 := 1 ]} {[ (2, 99) := (1 # 2)%Q ]} {[ 2 := [99] ]}.



(** [demo_vector] with the fractional values 2.00004 (slot 0) and 2.0002
    (slot 5). *)
Definition demo_fractional_vector : list Q :=
  [200004 # 100000; 0; 0; 0; 0; 20002 # 10000; 0; 0;  2; 0; 0; 0; 0; 1; 0; 0;
   3; 0; 0; 0; 2; 0; 0; 0;  0; 2; 0; 0; 0; 1; 0; 0;
   5; 0; 3; 0]%Q.

(** The all-zero solved values over the dense key space of an instance. *)
Definition zero_solution (inst : InstanceData) : SolvedValues :=
  {| solution_types.mode := "waes";
     solution_types.objective := 0%Q;
     solution_types.x_aijk := gset_to_gmap 0%Q (list_to_set (x_keys inst));
     solution_types.y_tija := gset_to_gmap 0%Q (list_to_set (y_tija_keys inst));
     solution_types.y_tj := gset_to_gmap 0%Q (list_to_set (y_tj_keys inst));
     solution_types.status := "Optimal";
     solution_types.solver_time := None;
     solution_types.mip_gap := None;
     solution_types.solution_bound := None |}.

(** * Auxiliary lemmas *)

(** ** Conversions of ints to floats *)

Lemma float__Some z x : float_ z = Some x → x = inject_Z z ∧ in_float_range z.
Proof.
  unfold float_, in_float_range. case_bool_decide; [|done].
  by intros [= <-].
Qed.

Lemma float__in_range z : in_float_range z → float_ z = Some (inject_Z z).
Proof. unfold float_, in_float_range. intros Hz. by rewrite bool_decide_eq_true_2. Qed.

Lemma float__None z : ¬ in_float_range z → float_ z = None.
Proof. unfold float_, in_float_range. intros Hz. by rewrite bool_decide_eq_false_2. Qed.

Lemma float__01 z : z = 0 ∨ z = 1 → float_ z = Some (inject_Z z).
Proof. by intros [->| ->]. Qed.

(** ** Loops *)

Section loops.
Context {A S : Type}.
Implicit Types (l : list A) (body : A → S → option S).

Lemma for__app l1 l2 body st :
  for_ (l1 ++ l2) body st = for_ l1 body st ≫= for_ l2 body.
Proof.
  revert st. induction l1 as [|x l1 IH]; intros st; simpl; [done |].
  destruct (body x st) as [st'|]; simpl; [apply IH | done].
Qed.

Lemma for__singletons {B : Type} (g : B → A) (l : list B) body st :
  for_ (l ≫= λ y, [g y]) body st = for_ l (λ y, body (g y)) st.
Proof.
  revert st. induction l as [|y l IH]; intros st; [done |].
  cbn. destruct (body (g y) st) as [st'|]; cbn; [apply IH | done].
Qed.

(** An invariant of the loop body is an invariant of the loop. *)
Lemma for__inv (P : S → Prop) l body :
  (∀ x st st', x ∈ l → P st → body x st = Some st' → P st') →
  ∀ st st', P st → for_ l body st = Some st' → P st'.
Proof.
  induction l as [|x l IH]; intros Hbody st st' HP Hrun; simpl in Hrun.
  - by simplify_eq.
  - destruct (body x st) as [st1|] eqn:Hx; simpl in Hrun; [|done].
    eapply IH; [| |exact Hrun].
    + intros y s s' Hy. apply Hbody. by right.
    + eapply Hbody; [by left | exact HP | exact Hx].
Qed.

(** A loop whose body never changes the state and never raises. *)
Lemma for__skip l body st :
  (∀ x, x ∈ l → body x st = Some st) → for_ l body st = Some st.
Proof.
  induction l as [|x l IH]; intros Hbody; simpl; [done |].
  rewrite Hbody by (by left). simpl. apply IH.
  intros y Hy. apply Hbody. by right.
Qed.

End loops.

(** Nested loops run over the product of their ranges. *)
Lemma for__nested {A B S : Type} (l1 : list A) (l2 : A → list B)
    (body : A → B → S → option S) st :
  for_ l1 (λ x, for_ (l2 x) (body x)) st
  = for_ (x ← l1; y ← l2 x; [(x, y)]) (λ p, body p.1 p.2) st.
Proof.
  revert st. induction l1 as [|x l1 IH]; intros st; [done |].
  cbn. rewrite for__app, (for__singletons (λ y, (x, y))). cbn.
  destruct (for_ (l2 x) (body x) st) as [st'|]; cbn; [apply IH | done].
Qed.

(** Two loops over the same list that keep a relation between their states:
    when the first completes, so does the second. *)
Lemma for__sim {A S1 S2 : Type} (R : S1 → S2 → Prop) (l : list A)
    (body1 : A → S1 → option S1) (body2 : A → S2 → option S2) :
  (∀ x s1 s1' s2, x ∈ l → R s1 s2 → body1 x s1 = Some s1' →
     ∃ s2', body2 x s2 = Some s2' ∧ R s1' s2') →
  ∀ s1 s1' s2, R s1 s2 → for_ l body1 s1 = Some s1' →
     ∃ s2', for_ l body2 s2 = Some s2' ∧ R s1' s2'.
Proof.
  induction l as [|x l IH]; intros Hstep s1 s1' s2 HR Hrun; simpl in *.
  - simplify_eq. eauto.
  - destruct (body1 x s1) as [t1|] eqn:Hx; simpl in Hrun; [|done].
    destruct (Hstep x s1 t1 s2) as (t2 & Hy & HR'); [by left | done | done |].
    rewrite Hy. simpl. eapply IH; [| exact HR' | exact Hrun].
    intros y u1 u1' u2 Hin. apply Hstep. by right.
Qed.

(** ** Rows as linear forms *)

Lemma dot_app (l1 l2 : list (nat * Q)) vector :
  (dot (l1 ++ l2) vector == dot l1 vector + dot l2 vector)%Q.
Proof.
  induction l1 as [|e l1 IH]; simpl; [ring |]. rewrite IH. ring.
Qed.

Lemma dot_perm (l1 l2 : list (nat * Q)) vector :
  l1 ≡ₚ l2 → (dot l1 vector == dot l2 vector)%Q.
Proof.
  induction 1 as [|e l1 l2 _ IH|e1 e2 l|l1 l2 l3 _ IH1 _ IH2]; simpl.
  - reflexivity.
  - rewrite IH. reflexivity.
  - ring.
  - rewrite IH1. exact IH2.
Qed.

Lemma row_dot_empty vector : (row_dot ∅ vector == 0)%Q.
Proof. unfold row_dot. rewrite map_to_list_empty. reflexivity. Qed.

Lemma row_dot_insert_fresh (row : Row) idx coeff vector :
  row !! idx = None →
  (row_dot (<[idx := coeff]> row) vector
   == coeff * value_at vector idx + row_dot row vector)%Q.
Proof.
  intros Hfresh. unfold row_dot.
  rewrite (dot_perm _ _ vector (map_to_list_insert row idx coeff Hfresh)).
  reflexivity.
Qed.

Lemma row_dot_insert (row : Row) idx coeff vector :
  (row_dot (<[idx := coeff]> row) vector
   == row_dot row vector
      + (coeff - default 0%Q (row !! idx)) * value_at vector idx)%Q.
Proof.
  destruct (row !! idx) as [old|] eqn:Hold; simpl.
  - rewrite <- (insert_delete_eq row idx coeff).
    rewrite row_dot_insert_fresh by apply lookup_delete_eq.
    rewrite <- (insert_delete_id row idx old Hold) at 2.
    rewrite (row_dot_insert_fresh (delete idx row) idx old)
      by apply lookup_delete_eq.
    ring.
  - rewrite row_dot_insert_fresh by done. ring.
Qed.

Lemma row_dot_add (row : Row) idx coeff vector :
  (row_dot (build_waes.row_add idx coeff row) vector
   == row_dot row vector + coeff * value_at vector idx)%Q.
Proof. unfold build_waes.row_add. rewrite row_dot_insert. ring. Qed.

Lemma row_dot_sub (row : Row) idx coeff vector :
  (row_dot (build_waes.row_sub idx coeff row) vector
   == row_dot row vector - coeff * value_at vector idx)%Q.
Proof. unfold build_waes.row_sub. rewrite row_dot_insert. ring. Qed.

Lemma dot_filter (keep : nat * Q → bool) (l : list (nat * Q)) vector :
  (∀ e, e ∈ l → keep e = false → (e.2 == 0)%Q) →
  (dot (filter (λ e, keep e = true) l) vector == dot l vector)%Q.
Proof.
  induction l as [|e l IH]; intros Hdrop; [reflexivity |].
  rewrite filter_cons. destruct (decide (keep e = true)) as [Hk|Hk]; simpl.
  - rewrite IH; [reflexivity |]. intros e' He'. apply Hdrop. by right.
  - rewrite IH by (intros e' He'; apply Hdrop; by right).
    rewrite (Hdrop e); [ring | by left | by destruct (keep e)].
Qed.

Lemma sorted_items_perm (coeffs : Row) :
  build_waes.sorted_items coeffs ≡ₚ map_to_list coeffs.
Proof. apply merge_sort_Permutation. Qed.

Lemma stored_spec (coeffs : Row) e :
  e ∈ stored coeffs
  ↔ coeffs !! e.1 = Some e.2
    ∧ Qle_bool (Qabs e.2) build_waes.drop_threshold = false.
Proof.
  unfold stored. rewrite list_elem_of_filter, sorted_items_perm.
  destruct e as [idx coeff]. rewrite elem_of_map_to_list. simpl. tauto.
Qed.

(** When the dropped coefficients are zeros, the stored row is the
    accumulated linear form. *)
Lemma dot_stored (coeffs : Row) vector :
  well_scaled coeffs = true →
  (dot (stored coeffs) vector == row_dot coeffs vector)%Q.
Proof.
  intros Hscaled. unfold stored, row_dot.
  rewrite <- (dot_perm _ _ vector (sorted_items_perm coeffs)).
  rewrite <- (dot_filter
    (λ e, negb (Qle_bool (Qabs e.2) build_waes.drop_threshold))
    (build_waes.sorted_items coeffs) vector).
  - erewrite list_filter_iff; [reflexivity |].
    intros e. simpl. destruct (Qle_bool _ _); simpl; split; done.
  - intros e He Hdropped.
    rewrite sorted_items_perm in He.
    unfold well_scaled in Hscaled. rewrite forallb_forall in Hscaled.
    specialize (Hscaled e). rewrite <- list_elem_of_In in Hscaled.
    specialize (Hscaled He).
    apply orb_true_iff in Hscaled as [Hz|Hbig].
    + by apply Qeq_bool_iff.
    + rewrite Hbig in Hdropped. done.
Qed.

(** ** The CSR arrays *)

Lemma split_rows_offsets_from (start : nat) (rows : list (list (nat * Q))) :
  split_rows start (offsets_from start rows) (concat rows) = rows.
Proof.
  revert start. induction rows as [|entries rows IH]; intros start; [done |].
  simpl. replace (start + length entries - start)%nat with (length entries) by lia.
  rewrite take_app_length, drop_app_length. by rewrite IH.
Qed.

Lemma offsets_from_app start rows1 rows2 :
  offsets_from start (rows1 ++ rows2)
  = offsets_from start rows1
    ++ offsets_from (start + length (concat rows1)) rows2.
Proof.
  revert start. induction rows1 as [|entries rows1 IH]; intros start; simpl.
  - by rewrite Nat.add_0_r.
  - rewrite IH, length_app. do 3 f_equal. lia.
Qed.

Lemma length_offsets_from start rows : length (offsets_from start rows) = length rows.
Proof. revert start. induction rows; intros; simpl; auto. Qed.

(** The entries appended by the loop of [add_row]. *)
Lemma add_row_loop (items : list (nat * Q)) indices values :
  foldl (λ '(indices, values) '(var_idx, coeff),
           if Qle_bool (Qabs coeff) build_waes.drop_threshold
           then (indices, values)
           else (indices ++ [var_idx], values ++ [coeff]))
        (indices, values) items
  = (indices ++ (filter (λ e, Qle_bool (Qabs e.2) build_waes.drop_threshold = false) items).*1,
     values ++ (filter (λ e, Qle_bool (Qabs e.2) build_waes.drop_threshold = false) items).*2).
Proof.
  revert indices values. induction items as [|[idx coeff] items IH];
    intros indices values; simpl.
  - by rewrite !app_nil_r.
  - rewrite filter_cons. simpl.
    destruct (Qle_bool (Qabs coeff) build_waes.drop_threshold) eqn:Hdrop.
    + rewrite decide_False by done. apply IH.
    + rewrite decide_True by done. rewrite IH. simpl.
      by rewrite <- !app_assoc.
Qed.

Lemma holds_init : holds build_waes.csr.init [].
Proof. by repeat split. Qed.

Lemma holds_add_row cs rows coeffs lb ub :
  holds cs rows →
  holds (build_waes.add_row coeffs lb ub cs) (rows ++ [stored_row (coeffs, lb, ub)]).
Proof.
  intros (Hoff & Hidx & Hval & Hlb & Hub).
  unfold build_waes.add_row. rewrite add_row_loop. fold (stored coeffs).
  unfold holds. simpl. rewrite !fmap_app, concat_app, !fmap_app. simpl.
  rewrite app_nil_r, Hoff, Hidx, Hval, Hlb, Hub.
  repeat split.
  rewrite offsets_from_app. simpl. rewrite length_app, !length_fmap. done.
Qed.

Lemma holds_push rows' cs rows :
  holds cs rows →
  holds (push rows' cs) (rows ++ (stored_row <$> rows')).
Proof.
  revert cs rows. induction rows' as [|[[coeffs lb] ub] rows' IH];
    intros cs rows Hcs; simpl.
  - by rewrite app_nil_r.
  - rewrite cons_middle, app_assoc. apply IH. by apply holds_add_row.
Qed.

Lemma push_app rows1 rows2 cs : push (rows1 ++ rows2) cs = push rows2 (push rows1 cs).
Proof. apply foldl_app. Qed.

Lemma mapM_app {A B : Type} (f : A → option B) (l1 l2 : list A) :
  mapM f (l1 ++ l2) = k1 ← mapM f l1; k2 ← mapM f l2; Some (k1 ++ k2).
Proof.
  induction l1 as [|x l1 IH]; cbn.
  - by destruct (mapM f l2).
  - destruct (f x); cbn; [|done]. rewrite IH.
    destruct (mapM f l1); cbn; [|done]. by destruct (mapM f l2).
Qed.

(** ** The row loops hand the accumulated rows to [add_row] in order *)

Lemma emit_loop {A : Type} (l : list A)
    (body : A → build_waes.csr.t → option build_waes.csr.t)
    (mk : A → option (Row * Bound * Bound)) cs :
  (∀ x cs, body x cs = build_waes.emit (mk x) cs) →
  for_ l body cs = rows ← mapM mk l; Some (push rows cs).
Proof.
  intros Hbody. revert cs. induction l as [|x l IH]; intros cs; [done |].
  simpl. rewrite Hbody. unfold build_waes.emit at 1.
  destruct (mk x) as [[[row lb] ub]|]; simpl; [|done].
  rewrite IH. by destruct (mapM mk l).
Qed.

Lemma emit_loop1 {A : Type} (l : list A) (mk : A → option (Row * Bound * Bound)) cs :
  for_ l (λ x, build_waes.emit (mk x)) cs = rows ← mapM mk l; Some (push rows cs).
Proof. by apply emit_loop. Qed.

Lemma emit_loop2 {A B : Type} (l1 : list A) (l2 : list B)
    (mk : A → B → option (Row * Bound * Bound)) cs :
  for_ l1 (λ x, for_ l2 (λ y, build_waes.emit (mk x y))) cs
  = rows ← mapM (λ '(x, y), mk x y) (x ← l1; y ← l2; [(x, y)]);
    Some (push rows cs).
Proof.
  rewrite (for__nested l1 (λ _, l2) (λ x y, build_waes.emit (mk x y))).
  apply emit_loop. by intros [x y] ?.
Qed.

Lemma emit_loop3 {A B C : Type} (l1 : list A) (l2 : list B) (l3 : list C)
    (mk : A → B → C → option (Row * Bound * Bound)) cs :
  for_ l1 (λ x, for_ l2 (λ y, for_ l3 (λ z, build_waes.emit (mk x y z)))) cs
  = rows ← mapM (λ '(x, y, z), mk x y z)
             (x ← l1; y ← l2; z ← l3; [(x, y, z)]);
    Some (push rows cs).
Proof.
  revert cs. induction l1 as [|x l1 IH]; intros cs; [done |].
  cbn [for_]. rewrite (emit_loop2 l2 l3 (mk x)). cbn [mbind list_bind].
  rewrite mapM_app.
  assert (Hx : mapM (λ '(x0, y, z), mk x0 y z)
                 (l2 ≫= λ y, l3 ≫= λ z, [(x, y, z)])
               = mapM (λ '(y, z), mk x y z) (l2 ≫= λ y, l3 ≫= λ z, [(y, z)])).
  { clear. induction l2 as [|y l2 IHy]; [done |].
    cbn [mbind list_bind]. rewrite !mapM_app, IHy. f_equal.
    clear. induction l3 as [|z l3 IHz]; [done |].
    cbn. cbn in IHz. by rewrite IHz. }
  rewrite Hx.
  destruct (mapM (λ '(y, z), mk x y z) _) as [rows1|]; cbn; [|done].
  rewrite IH.
  destruct (mapM _ (l1 ≫= _)) as [rows2|]; cbn; [|done].
  by rewrite push_app.
Qed.

Lemma create_rows_spec inst ws_mode x_aijk y_tija y_tj cs :
  build_waes.create_rows inst ws_mode x_aijk y_tija y_tj cs
  = rows ← accumulated_rows inst ws_mode x_aijk y_tija y_tj;
    Some (push rows cs).
Proof.
  unfold build_waes.create_rows, accumulated_rows.
  rewrite (emit_loop2 _ _ (build_waes.row_eq2 inst ws_mode x_aijk)).
  destruct (mapM _ _) as [r2|]; [|done]. cbn [mbind option_bind].
  rewrite (emit_loop2 _ _ (build_waes.row_eq3 inst ws_mode x_aijk)).
  destruct (mapM _ _) as [r3|]; [|done]. cbn [mbind option_bind].
  rewrite (emit_loop2 _ _ (build_waes.row_eq4 inst ws_mode x_aijk)).
  destruct (mapM _ _) as [r4|]; [|done]. cbn [mbind option_bind].
  rewrite (emit_loop2 _ _ (build_waes.row_eq5 inst ws_mode x_aijk)).
  destruct (mapM _ _) as [r5|]; [|done]. cbn [mbind option_bind].
  rewrite (emit_loop3 _ _ _ (build_waes.row_eq6 inst x_aijk y_tija)).
  destruct (mapM _ _) as [r6|]; [|done]. cbn [mbind option_bind].
  rewrite (emit_loop3 _ _ _ (build_waes.row_eq7 inst y_tija y_tj)).
  destruct (mapM _ _) as [r7|]; [|done]. cbn [mbind option_bind].
  rewrite (emit_loop1 _ (build_waes.row_eq8 inst y_tija)).
  destruct (mapM _ _) as [r8|]; [|done]. cbn [mbind option_bind].
  rewrite (emit_loop2 _ _ (build_waes.row_eq9 inst y_tija y_tj)).
  destruct (mapM _ _) as [r9|]; [|done]. cbn [mbind option_bind].
  unfold build_waes.emit.
  destruct (build_waes.row_eq10 inst y_tj) as [[[row lb] ub]|]; [|done].
  cbn [mbind option_bind]. f_equal.
  rewrite !push_app. reflexivity.
Qed.

Lemma model_rows_of_holds m cs rows :
  holds cs rows →
  build_waes.csr_offsets m = build_waes.csr.csr_offsets cs →
  build_waes.csr_indices m = build_waes.csr.csr_indices cs →
  build_waes.csr_values m = build_waes.csr.csr_values cs →
  build_waes.constraint_lb m = build_waes.csr.constraint_lb cs →
  build_waes.constraint_ub m = build_waes.csr.constraint_ub cs →
  model_rows m = rows.
Proof.
  intros (Hoff & Hidx & Hval & Hlb & Hub) E1 E2 E3 E4 E5.
  unfold model_rows. rewrite E1, E2, E3, E4, E5, Hoff, Hidx, Hval, Hlb, Hub.
  simpl. rewrite zip_fst_snd, split_rows_offsets_from.
  by rewrite !zip_fst_snd.
Qed.

(** The rows of an encoded model are what [add_row] stores of the
    accumulated rows; the variable part is that of [create_variables]. *)
Lemma build_waes_model_spec inst ws_mode m :
  build_waes.build_waes_model inst ws_mode = Some m →
  ∃ vs rows,
    build_waes.create_variables inst = Some vs
    ∧ accumulated_rows inst ws_mode (build_waes.x_aijk m) (build_waes.y_tija m)
        (build_waes.y_tj m) = Some rows
    ∧ model_rows m = stored_row <$> rows
    ∧ build_waes.variable_names m = build_waes.vars.variable_names vs
    ∧ build_waes.variable_types m = build_waes.vars.variable_types vs
    ∧ build_waes.objective_coeffs m = build_waes.vars.objective_coeffs vs
    ∧ build_waes.variable_lb m = build_waes.vars.variable_lb vs
    ∧ build_waes.variable_ub m = build_waes.vars.variable_ub vs
    ∧ build_waes.x_aijk m = build_waes.vars.x_aijk vs
    ∧ build_waes.y_tija m = build_waes.vars.y_tija vs
    ∧ build_waes.y_tj m = build_waes.vars.y_tj vs.
Proof.
  unfold build_waes.build_waes_model. intros Hbuild.
  destruct (build_waes.create_variables inst) as [vs|]; [|done].
  cbn [mbind option_bind] in Hbuild. rewrite create_rows_spec in Hbuild.
  destruct (accumulated_rows _ _ _ _ _) as [rows|] eqn:Hrows; [|done].
  cbn in Hbuild. injection Hbuild as <-. cbn.
  exists vs, rows. repeat split; try done.
  eapply model_rows_of_holds; [|done..].
  apply (holds_push rows _ [] holds_init).
Qed.

(** ** More on loops: flattening and prefix invariants *)

Lemma for__ext {A S : Type} (l : list A) (body1 body2 : A → S → option S) st :
  (∀ x st, body1 x st = body2 x st) → for_ l body1 st = for_ l body2 st.
Proof.
  intros Hext. revert st. induction l as [|x l IH]; intros st; simpl; [done |].
  rewrite Hext. destruct (body2 x st); simpl; auto.
Qed.

Lemma for__bind {A B S : Type} (l : list A) (f : A → list B)
    (body : B → S → option S) st :
  for_ (l ≫= f) body st = for_ l (λ x, for_ (f x) body) st.
Proof.
  revert st. induction l as [|x l IH]; intros st; [done |].
  cbn. rewrite for__app. destruct (for_ (f x) body st); cbn; auto.
Qed.

Lemma for__one {A S : Type} (x : A) (body : A → S → option S) st :
  for_ [x] body st = body x st.
Proof. simpl. by destruct (body x st). Qed.

(** An invariant that mentions the elements processed so far. *)
Lemma for__inv_prefix {A S : Type} (P : list A → S → Prop) (l : list A)
    (body : A → S → option S) :
  (∀ pre x st st', P pre st → body x st = Some st' → P (pre ++ [x]) st') →
  ∀ st st', P [] st → for_ l body st = Some st' → P l st'.
Proof.
  intros Hstep.
  assert (Hgen : ∀ l pre st st', P pre st → for_ l body st = Some st' → P (pre ++ l) st').
  { clear l. induction l as [|x l IH]; intros pre st st' HP Hrun; simpl in Hrun.
    - simplify_eq. by rewrite app_nil_r.
    - destruct (body x st) as [st1|] eqn:Hx; simpl in Hrun; [|done].
      rewrite cons_middle, app_assoc. eapply IH; [|exact Hrun]. eauto. }
  intros st st'. apply (Hgen l []).
Qed.

(** ** The variable catalog *)

Lemma create_x_flat inst vs :
  build_waes.create_x inst vs
  = for_ (x_keys inst) (λ key vs,
      let '(a, i, j, k) := key in
      ub ← float_ (instance.q inst);
      let '(idx, vs) :=
        build_waes.add_var
          ("x_a" +:+ str a +:+ "_i" +:+ str i +:+ "_j" +:+ str j +:+ "_k" +:+ str k)
          0%Q (BNum 0) (BNum ub) "I" vs in
      Some (build_waes.set_x key idx vs)) vs.
Proof.
  unfold build_waes.create_x, x_keys.
  rewrite for__bind. apply for__ext. intros a st1.
  rewrite for__bind. apply for__ext. intros i st2.
  rewrite for__bind. apply for__ext. intros j st3.
  rewrite for__bind. apply for__ext. intros k st4.
  by rewrite for__one.
Qed.

Lemma create_y_tija_flat inst vs :
  build_waes.create_y_tija inst vs
  = for_ (y_tija_keys inst) (λ key vs,
      let '(t, i, j, a) := key in
      ub ← float_ (instance.q inst);
      let '(idx, vs) :=
        build_waes.add_var
          ("y_t" +:+ str t +:+ "_i" +:+ str i +:+ "_j" +:+ str j +:+ "_a" +:+ str a)
          0%Q (BNum 0) (BNum ub) "I" vs in
      Some (build_waes.set_y_tija key idx vs)) vs.
Proof.
  unfold build_waes.create_y_tija, y_tija_keys.
  rewrite for__bind. apply for__ext. intros t st1.
  rewrite for__bind. apply for__ext. intros i st2.
  rewrite for__bind. apply for__ext. intros j st3.
  rewrite for__bind. apply for__ext. intros a st4.
  by rewrite for__one.
Qed.

Lemma create_y_tj_flat inst vs :
  build_waes.create_y_tj inst vs
  = for_ (y_tj_keys inst) (λ key vs,
      let '(t, j) := key in
      c_t ← instance.c inst !! t;
      mult_j ← instance.shift_cost_multiplier inst !! j;
      ub ← float_ (instance.q inst);
      let '(idx, vs) :=
        build_waes.add_var ("y_t" +:+ str t +:+ "_j" +:+ str j)
          (c_t * mult_j)%Q (BNum 0) (BNum ub) "I" vs in
      Some (build_waes.set_y_tj key idx vs)) vs.
Proof.
  unfold build_waes.create_y_tj, y_tj_keys.
  rewrite for__bind. apply for__ext. intros t st1.
  rewrite for__bind. apply for__ext. intros j st2.
  by rewrite for__one.
Qed.

Lemma catalog_ok_init inst : catalog_ok inst build_waes.vars.init [].
Proof.
  repeat split; try done.
  - intros [key|key|key] idx; simpl; by rewrite lookup_empty.
Qed.

(** Creating a variable for [vk] and recording its index keeps the catalog
    consistent. *)
Lemma catalog_ok_add inst vs vs' log vk name obj :
  catalog_ok inst vs log →
  build_waes.vars.variable_names vs' = build_waes.vars.variable_names vs ++ [name] →
  build_waes.vars.objective_coeffs vs' = build_waes.vars.objective_coeffs vs ++ [obj] →
  (∀ vk', index_of vs' vk'
          = if decide (vk' = vk)
            then Some (length (build_waes.vars.variable_names vs))
            else index_of vs vk') →
  objective_of inst vk obj →
  catalog_ok inst vs' (log ++ [vk]).
Proof.
  intros (Hnames & Hobjs & Hidx & Hobj) Enames Eobjs Eidx Hvk.
  unfold catalog_ok. rewrite Enames, Eobjs, !length_app. simpl.
  split; [lia |]. split; [lia |]. split.
  - intros vk' idx. rewrite Eidx. case_decide as Hcase.
    + intros [= <-]. subst vk'. rewrite Hnames.
      rewrite lookup_app_r by lia. by rewrite Nat.sub_diag.
    + intros Hold. apply lookup_app_l_Some. by apply Hidx.
  - intros idx vk'. rewrite lookup_app_Some. intros [Hold|[Hge Hnew]].
    + destruct (Hobj idx vk' Hold) as (obj' & Hl & Hok).
      exists obj'. split; [|done]. by apply lookup_app_l_Some.
    + apply list_lookup_singleton_Some in Hnew as [Hz <-].
      exists obj. split; [|done].
      rewrite lookup_app_r by lia.
      replace (idx - length (build_waes.vars.objective_coeffs vs))%nat with 0%nat by lia.
      done.
Qed.

Lemma catalog_ok_inj inst vs log vk1 vk2 idx :
  catalog_ok inst vs log →
  index_of vs vk1 = Some idx → index_of vs vk2 = Some idx → vk1 = vk2.
Proof.
  intros (_ & _ & Hidx & _) H1 H2.
  apply Hidx in H1, H2. congruence.
Qed.

Lemma catalog_ok_lt inst vs log vk idx :
  catalog_ok inst vs log →
  index_of vs vk = Some idx →
  (idx < length (build_waes.vars.variable_names vs))%nat.
Proof.
  intros (Hnames & _ & Hidx & _) H1. rewrite Hnames.
  apply Hidx in H1. by apply lookup_lt_Some in H1.
Qed.

Lemma dom_step {K V : Type} `{Countable K} (m : gmap K V) (D : gset K)
    (key : K) (value : V) (pre : list K) :
  dom m = D ∪ list_to_set pre →
  dom (<[key := value]> m) = D ∪ list_to_set (pre ++ [key]).
Proof.
  intros Hdom. rewrite dom_insert_L, Hdom, list_to_set_app_L. cbn.
  apply set_eq. intros x.
  rewrite !elem_of_union, elem_of_singleton, elem_of_empty. tauto.
Qed.

Lemma create_x_ok inst vs vs' log :
  catalog_ok inst vs log →
  build_waes.create_x inst vs = Some vs' →
  ∃ log', catalog_ok inst vs' log'
    ∧ dom (build_waes.vars.x_aijk vs')
      = dom (build_waes.vars.x_aijk vs) ∪ list_to_set (x_keys inst)
    ∧ build_waes.vars.y_tija vs' = build_waes.vars.y_tija vs
    ∧ build_waes.vars.y_tj vs' = build_waes.vars.y_tj vs.
Proof.
  intros Hok. rewrite create_x_flat.
  apply (for__inv_prefix (λ pre st,
    ∃ log', catalog_ok inst st log'
      ∧ dom (build_waes.vars.x_aijk st)
        = dom (build_waes.vars.x_aijk vs) ∪ list_to_set pre
      ∧ build_waes.vars.y_tija st = build_waes.vars.y_tija vs
      ∧ build_waes.vars.y_tj st = build_waes.vars.y_tj vs)).
  - intros pre [[[a i] j] k] st st' (log1 & Hst & Hdom & Hyi & Hys) Hbody.
    cbn in Hbody.
    destruct (float_ (instance.q inst)) as [ub|] eqn:Hub; [|done].
    cbn in Hbody. injection Hbody as <-.
    exists (log1 ++ [KX (a, i, j, k)]). cbn. split; [|split_and!; try done].
    + eapply catalog_ok_add; [exact Hst | reflexivity | reflexivity | | reflexivity].
      intros [key|key|key]; cbn; try (rewrite decide_False by done; done).
      rewrite lookup_insert. repeat case_decide; congruence.
    + by apply dom_step.
  - exists log. split_and!; try done. cbn. by rewrite union_empty_r_L.
Qed.

Lemma create_y_tija_ok inst vs vs' log :
  catalog_ok inst vs log →
  build_waes.create_y_tija inst vs = Some vs' →
  ∃ log', catalog_ok inst vs' log'
    ∧ dom (build_waes.vars.y_tija vs')
      = dom (build_waes.vars.y_tija vs) ∪ list_to_set (y_tija_keys inst)
    ∧ build_waes.vars.x_aijk vs' = build_waes.vars.x_aijk vs
    ∧ build_waes.vars.y_tj vs' = build_waes.vars.y_tj vs.
Proof.
  intros Hok. rewrite create_y_tija_flat.
  apply (for__inv_prefix (λ pre st,
    ∃ log', catalog_ok inst st log'
      ∧ dom (build_waes.vars.y_tija st)
        = dom (build_waes.vars.y_tija vs) ∪ list_to_set pre
      ∧ build_waes.vars.x_aijk st = build_waes.vars.x_aijk vs
      ∧ build_waes.vars.y_tj st = build_waes.vars.y_tj vs)).
  - intros pre [[[t i] j] a] st st' (log1 & Hst & Hdom & Hx & Hys) Hbody.
    cbn in Hbody.
    destruct (float_ (instance.q inst)) as [ub|] eqn:Hub; [|done].
    cbn in Hbody. injection Hbody as <-.
    exists (log1 ++ [KYI (t, i, j, a)]). cbn. split; [|split_and!; try done].
    + eapply catalog_ok_add; [exact Hst | reflexivity | reflexivity | | reflexivity].
      intros [key|key|key]; cbn; try (rewrite decide_False by done; done).
      rewrite lookup_insert. repeat case_decide; congruence.
    + by apply dom_step.
  - exists log. split_and!; try done. cbn. by rewrite union_empty_r_L.
Qed.

Lemma create_y_tj_ok inst vs vs' log :
  catalog_ok inst vs log →
  build_waes.create_y_tj inst vs = Some vs' →
  ∃ log', catalog_ok inst vs' log'
    ∧ dom (build_waes.vars.y_tj vs')
      = dom (build_waes.vars.y_tj vs) ∪ list_to_set (y_tj_keys inst)
    ∧ build_waes.vars.x_aijk vs' = build_waes.vars.x_aijk vs
    ∧ build_waes.vars.y_tija vs' = build_waes.vars.y_tija vs.
Proof.
  intros Hok. rewrite create_y_tj_flat.
  apply (for__inv_prefix (λ pre st,
    ∃ log', catalog_ok inst st log'
      ∧ dom (build_waes.vars.y_tj st)
        = dom (build_waes.vars.y_tj vs) ∪ list_to_set pre
      ∧ build_waes.vars.x_aijk st = build_waes.vars.x_aijk vs
      ∧ build_waes.vars.y_tija st = build_waes.vars.y_tija vs)).
  - intros pre [t j] st st' (log1 & Hst & Hdom & Hx & Hyi) Hbody.
    cbn in Hbody.
    destruct (instance.c inst !! t) as [c_t|] eqn:Hc; [|done].
    destruct (instance.shift_cost_multiplier inst !! j) as [mult_j|] eqn:Hm; [|done].
    cbn in Hbody.
    destruct (float_ (instance.q inst)) as [ub|] eqn:Hub; [|done].
    cbn in Hbody. injection Hbody as <-.
    exists (log1 ++ [KYS (t, j)]). cbn. split; [|split_and!; try done].
    + eapply catalog_ok_add; [exact Hst | reflexivity | reflexivity | | ].
      * intros [key|key|key]; cbn; try (rewrite decide_False by done; done).
        rewrite lookup_insert. repeat case_decide; congruence.
      * cbn. eauto.
    + by apply dom_step.
  - exists log. split_and!; try done. cbn. by rewrite union_empty_r_L.
Qed.

(** The catalog produced by the three variable loops. *)
Lemma create_variables_ok inst vs :
  build_waes.create_variables inst = Some vs →
  ∃ log, catalog_ok inst vs log
    ∧ dom (build_waes.vars.x_aijk vs) = list_to_set (x_keys inst)
    ∧ dom (build_waes.vars.y_tija vs) = list_to_set (y_tija_keys inst)
    ∧ dom (build_waes.vars.y_tj vs) = list_to_set (y_tj_keys inst).
Proof.
  unfold build_waes.create_variables. intros Hrun.
  destruct (build_waes.create_x inst _) as [vs1|] eqn:H1; [|done].
  cbn in Hrun.
  destruct (build_waes.create_y_tija inst vs1) as [vs2|] eqn:H2; [|done].
  cbn in Hrun.
  destruct (create_x_ok _ _ _ _ (catalog_ok_init inst) H1)
    as (log1 & Hok1 & Hd1 & Hyi1 & Hys1).
  destruct (create_y_tija_ok _ _ _ _ Hok1 H2) as (log2 & Hok2 & Hd2 & Hx2 & Hys2).
  destruct (create_y_tj_ok _ _ _ _ Hok2 Hrun) as (log3 & Hok3 & Hd3 & Hx3 & Hyi3).
  exists log3. split; [done |].
  rewrite Hx3, Hx2, Hd1, Hyi3, Hd2, Hyi1, Hd3, Hys2, Hys1. cbn.
  rewrite !dom_empty_L, !union_empty_l_L. done.
Qed.

(** ** The Audit recomputes the linear forms of the Encoder's rows *)

Lemma values_of_spec {K : Type} `{Countable K} (index : gmap K nat) vector vals :
  solve.values_of index vector = Some vals → vals = value_at vector <$> index.
Proof. unfold solve.values_of. destruct (forallb _ _); [|done]. by intros [= <-]. Qed.

Lemma collect_solution_spec m mode status vector objective t g bd solved :
  solve._collect_solution m mode status vector objective t g bd = Some solved →
  solution_types.x_aijk solved = value_at vector <$> build_waes.x_aijk m
  ∧ solution_types.y_tija solved = value_at vector <$> build_waes.y_tija m
  ∧ solution_types.y_tj solved = value_at vector <$> build_waes.y_tj m.
Proof.
  unfold solve._collect_solution, solve._solution_vector_from_response. intros Hrun.
  destruct (startswith _ _); [done |].
  case_bool_decide; [done |]. cbn in Hrun.
  destruct (solve.values_of (build_waes.x_aijk m) vector) as [xv|] eqn:Hx; [|done].
  destruct (solve.values_of (build_waes.y_tija m) vector) as [yiv|] eqn:Hyi; [|done].
  destruct (solve.values_of (build_waes.y_tj m) vector) as [ysv|] eqn:Hys; [|done].
  cbn in Hrun. injection Hrun as <-. cbn.
  by rewrite (values_of_spec _ _ _ Hx), (values_of_spec _ _ _ Hyi),
             (values_of_spec _ _ _ Hys).
Qed.

(** The two checks that [_collect_solution] makes before it unpacks. *)
Lemma collect_solution_checks m mode status vector objective t g bd :
  solve._collect_solution m mode status vector objective t g bd
  = if startswith (lower status) "infeasible" then None
    else if bool_decide (length vector = length (build_waes.variable_names m))
    then x_vals ← solve.values_of (build_waes.x_aijk m) vector;
         y_interval_vals ← solve.values_of (build_waes.y_tija m) vector;
         y_shift_vals ← solve.values_of (build_waes.y_tj m) vector;
         Some {| solution_types.mode := mode;
                 solution_types.objective := objective;
                 solution_types.x_aijk := x_vals;
                 solution_types.y_tija := y_interval_vals;
                 solution_types.y_tj := y_shift_vals;
                 solution_types.status := status;
                 solution_types.solver_time := t;
                 solution_types.mip_gap := g;
                 solution_types.solution_bound := bd |}
    else None.
Proof.
  unfold solve._collect_solution, solve._solution_vector_from_response.
  destruct (startswith _ _); [done |].
  destruct (decide (length vector = length (build_waes.variable_names m))) as [E|E].
  - by rewrite bool_decide_eq_false_2, bool_decide_eq_true_2 by auto.
  - by rewrite bool_decide_eq_true_2, bool_decide_eq_false_2 by auto.
Qed.

Lemma collect_solution_mode m mode status vector objective t g bd solved :
  solve._collect_solution m mode status vector objective t g bd = Some solved →
  solution_types.mode solved = mode ∧ solution_types.status solved = status.
Proof.
  rewrite collect_solution_checks. intros Hrun.
  destruct (startswith _ _); [done |]. case_bool_decide; [|done].
  repeat (apply bind_Some in Hrun as (? & _ & Hrun)). by injection Hrun as <-.
Qed.

(** A row loop and a sum over the same range stay in step: each iteration
    adds to the row's linear form [scale] times what it adds to the sum. *)
Lemma sync_loop (vector : list Q) (scale : Q) {A : Type} (l : list A)
    (body_row : A → Row → option Row) (body_sum : A → Q → option Q) :
  (∀ x row row' acc, body_row x row = Some row' →
     ∃ acc', body_sum x acc = Some acc'
       ∧ (row_dot row' vector - row_dot row vector == scale * (acc' - acc))%Q) →
  ∀ row row' acc, for_ l body_row row = Some row' →
     ∃ acc', for_ l body_sum acc = Some acc'
       ∧ (row_dot row' vector - row_dot row vector == scale * (acc' - acc))%Q.
Proof.
  intros Hstep row row' acc Hrun.
  apply (for__sim
    (λ r s, (row_dot r vector - row_dot row vector == scale * (s - acc))%Q)
    l body_row body_sum) with (s1 := row); [| ring | exact Hrun].
  intros x r r' s _ HR Hx.
  destruct (Hstep x r r' s Hx) as (s' & Hs & Hd).
  exists s'. split; [done |].
  assert (E : (row_dot r' vector - row_dot row vector
               == (row_dot r' vector - row_dot r vector)
                  + (row_dot r vector - row_dot row vector))%Q) by ring.
  rewrite E, Hd, HR. ring.
Qed.

Section recompute.
Context (inst : InstanceData) (ws_mode : bool) (vector : list Q).
Context (x_aijk : gmap XKey nat) (y_tija : gmap YIKey nat) (y_tj : gmap YSKey nat).
Context (solved : SolvedValues).
Context (Hx : solution_types.x_aijk solved = value_at vector <$> x_aijk).
Context (Hyi : solution_types.y_tija solved = value_at vector <$> y_tija).
Context (Hys : solution_types.y_tj solved = value_at vector <$> y_tj).

Lemma window_terms_executed a i until row row' :
  build_waes.window_terms inst x_aijk a i until row = Some row' →
  ∃ e, audit.executed inst solved a i until = Some e
       ∧ (row_dot row' vector == row_dot row vector + e)%Q.
Proof.
  unfold build_waes.window_terms, audit.executed, sum_. intros Hrun.
  rewrite (for__nested _ (λ _, range i (until + 1))) in Hrun.
  eapply (sync_loop vector 1) with (acc := 0%Q) in Hrun as (e & He & Hd).
  - exists e. split; [exact He |].
    assert (E : (row_dot row' vector
                 == row_dot row' vector - row_dot row vector + row_dot row vector)%Q)
      by ring.
    rewrite E, Hd. ring.
  - intros [j k] r r' acc Hb. cbn in Hb. cbn.
    rewrite Hx, lookup_fmap.
    destruct (x_aijk !! (a, i, j, k)) as [idx|]; [|done]. cbn in *.
    destruct (instance.b inst !! (k, j)) as [b_kj|]; [|done]. cbn in *.
    destruct (float_ b_kj) as [b_float|]; [|done]. cbn in *.
    injection Hb as <-. eexists. split; [reflexivity |].
    rewrite row_dot_add. ring.
Qed.

Lemma parent_terms_required a k row row' :
  build_waes.parent_terms inst x_aijk a k row = Some row' →
  ∃ rq, audit.required inst solved a k = Some rq
        ∧ (row_dot row' vector == row_dot row vector - rq)%Q.
Proof.
  unfold build_waes.parent_terms, audit.required, sum_. intros Hrun.
  destruct (instance.Ga inst !! a) as [parents|]; [|done]. cbn in *.
  eapply (sync_loop vector (-1)) with (acc := 0%Q) in Hrun as (rq & Hrq & Hd).
  - exists rq. split; [exact Hrq |].
    assert (E : (row_dot row' vector
                 == row_dot row' vector - row_dot row vector + row_dot row vector)%Q)
      by ring.
    rewrite E, Hd. ring.
  - intros a_parent r r' acc Hb. cbn in Hb. cbn.
    destruct (instance.s inst !! (a, a_parent)) as [coeff|]; [|done]. cbn in *.
    rewrite (for__nested _ (λ _, instance.N inst)) in Hb.
    eapply (sync_loop vector (- coeff)) with (acc := 0%Q) in Hb as (vol & Hvol & Hd).
    + unfold sum_. rewrite Hvol. cbn. eexists. split; [reflexivity |].
      rewrite Hd. ring.
    + intros [j i] r1 r1' acc1 Hb1. cbn in Hb1. cbn.
      rewrite Hx, lookup_fmap.
      destruct (x_aijk !! (a_parent, i, j, k)) as [idx|]; [|done]. cbn in *.
      injection Hb1 as <-. eexists. split; [reflexivity |].
      rewrite row_dot_sub. ring.
Qed.

End recompute.

Lemma for__flat3 {A B C S : Type} (l1 : list A) (l2 : list B) (l3 : list C)
    (body : A * B * C → S → option S) st :
  for_ (x ← l1; y ← l2; z ← l3; [(x, y, z)]) body st
  = for_ l1 (λ x, for_ l2 (λ y, for_ l3 (λ z, body (x, y, z)))) st.
Proof.
  rewrite for__bind. apply for__ext. intros x st1.
  rewrite for__bind. apply for__ext. intros y st2.
  rewrite for__bind. apply for__ext. intros z st3.
  by rewrite for__one.
Qed.

Lemma for__flat2 {A B S : Type} (l1 : list A) (l2 : list B)
    (body : A * B → S → option S) st :
  for_ (x ← l1; y ← l2; [(x, y)]) body st
  = for_ l1 (λ x, for_ l2 (λ y, body (x, y))) st.
Proof.
  rewrite for__bind. apply for__ext. intros x st1.
  rewrite for__bind. apply for__ext. intros y st2.
  by rewrite for__one.
Qed.

(** ** Checks that record nothing *)

Section passes.
Context (tol : Q) (Htol : (0 <= tol)%Q).





End passes.




(** ** Family by family: a satisfied row passes its audit *)

Section families.
Context (inst : InstanceData) (ws_mode : bool) (vector : list Q).
Context (x_aijk : gmap XKey nat) (y_tija : gmap YIKey nat) (y_tj : gmap YSKey nat).
Context (solved : SolvedValues).
Context (Hx : solution_types.x_aijk solved = value_at vector <$> x_aijk).
Context (Hyi : solution_types.y_tija solved = value_at vector <$> y_tija).
Context (Hys : solution_types.y_tj solved = value_at vector <$> y_tj).
Context (tol : Q) (Htol : (0 <= tol)%Q).

(** One iteration of a row loop against one term of a sum. *)
Ltac sync_step :=
  cbn in *; rewrite ?Hx, ?Hyi, ?Hys, ?lookup_fmap;
  match goal with
  | Hb : (?m !! ?key ≫= _) = Some _ |- _ =>
      destruct (m !! key); [|done]; cbn in *;
      injection Hb as <-; eexists; split; [reflexivity |];
      rewrite ?row_dot_add, ?row_dot_sub; ring
  end.

Ltac finish_sum row row' Hd :=
  let E := fresh "E" in
  assert (E : (row_dot row' vector
               == row_dot row' vector - row_dot row vector + row_dot row vector)%Q)
    by ring;
  rewrite E, Hd; ring.










End families.

(** ** The whole audit *)

Lemma mapM_elem {A B : Type} (f : A → option B) (l : list A) (k : list B) x :
  mapM f l = Some k → x ∈ l → ∃ y, y ∈ k ∧ f x = Some y.
Proof.
  intros Hk%mapM_Some_1 Hx. induction Hk as [|x' y' l k Hxy _ IH].
  - by apply elem_of_nil in Hx.
  - apply elem_of_cons in Hx as [->|Hx].
    + exists y'. split; [by left | done].
    + destruct (IH Hx) as (y & Hy & Hf). exists y. split; [by right | done].
Qed.

Lemma elem_of_pairs {A B : Type} (l1 : list A) (l2 : list B) x y :
  (x, y) ∈ (x ← l1; y ← l2; [(x, y)]) ↔ x ∈ l1 ∧ y ∈ l2.
Proof.
  rewrite list_elem_of_bind. split.
  - intros (x' & Hin & Hx'). apply list_elem_of_bind in Hin as (y' & Hin & Hy').
    apply list_elem_of_singleton in Hin. by simplify_eq.
  - intros [Hx Hy]. exists x. split; [|done].
    apply list_elem_of_bind. exists y. split; [|done].
    by apply list_elem_of_singleton.
Qed.

Lemma elem_of_triples {A B C : Type} (l1 : list A) (l2 : list B) (l3 : list C) x y z :
  (x, y, z) ∈ (x ← l1; y ← l2; z ← l3; [(x, y, z)]) ↔ x ∈ l1 ∧ y ∈ l2 ∧ z ∈ l3.
Proof.
  rewrite list_elem_of_bind. split.
  - intros (x' & Hin & Hx'). apply list_elem_of_bind in Hin as (y' & Hin & Hy').
    apply list_elem_of_bind in Hin as (z' & Hin & Hz').
    apply list_elem_of_singleton in Hin. by simplify_eq.
  - intros (Hx & Hy & Hz). exists x. split; [|done].
    apply list_elem_of_bind. exists y. split; [|done].
    apply list_elem_of_bind. exists z. split; [|done].
    by apply list_elem_of_singleton.
Qed.



Section whole.
Context (inst : InstanceData) (ws_mode : bool) (vector : list Q).
Context (x_aijk : gmap XKey nat) (y_tija : gmap YIKey nat) (y_tj : gmap YSKey nat).
Context (solved : SolvedValues).
Context (Hx : solution_types.x_aijk solved = value_at vector <$> x_aijk).
Context (Hyi : solution_types.y_tija solved = value_at vector <$> y_tija).
Context (Hys : solution_types.y_tj solved = value_at vector <$> y_tj).
Context (tol : Q) (Htol : (0 <= tol)%Q).


End whole.

(** ** Sizes *)

Lemma length_bind_const {A B : Type} (f : A → list B) (l : list A) (c : nat) :
  (∀ x, length (f x) = c) → length (l ≫= f) = (length l * c)%nat.
Proof.
  intros Hc. induction l as [|x l IH]; [done |].
  cbn. rewrite length_app, Hc. cbn in IH. rewrite IH. lia.
Qed.

Lemma length_pairs {A B : Type} (l1 : list A) (l2 : list B) :
  length (x ← l1; y ← l2; [(x, y)]) = (length l1 * length l2)%nat.
Proof.
  apply length_bind_const. intros x.
  rewrite (length_bind_const _ _ 1%nat); [lia | done].
Qed.

Lemma length_triples {A B C : Type} (l1 : list A) (l2 : list B) (l3 : list C) :
  length (x ← l1; y ← l2; z ← l3; [(x, y, z)])
  = (length l1 * (length l2 * length l3))%nat.
Proof.
  apply length_bind_const. intros x.
  apply length_bind_const. intros y.
  rewrite (length_bind_const _ _ 1%nat); [lia | done].
Qed.

Lemma length_quads {A B C D : Type} (l1 : list A) (l2 : list B) (l3 : list C)
    (l4 : list D) :
  length (x ← l1; y ← l2; z ← l3; u ← l4; [(x, y, z, u)])
  = (length l1 * (length l2 * (length l3 * length l4)))%nat.
Proof.
  apply length_bind_const. intros x.
  apply length_bind_const. intros y.
  apply length_bind_const. intros z.
  rewrite (length_bind_const _ _ 1%nat); [lia | done].
Qed.

Lemma elem_of_quads {A B C D : Type} (l1 : list A) (l2 : list B) (l3 : list C)
    (l4 : list D) x y z u :
  (x, y, z, u) ∈ (x ← l1; y ← l2; z ← l3; u ← l4; [(x, y, z, u)])
  ↔ x ∈ l1 ∧ y ∈ l2 ∧ z ∈ l3 ∧ u ∈ l4.
Proof.
  rewrite list_elem_of_bind. split.
  - intros (x' & Hin & Hx'). apply list_elem_of_bind in Hin as (y' & Hin & Hy').
    apply list_elem_of_bind in Hin as (z' & Hin & Hz').
    apply list_elem_of_bind in Hin as (u' & Hin & Hu').
    apply list_elem_of_singleton in Hin. by simplify_eq.
  - intros (Hx & Hy & Hz & Hu). exists x. split; [|done].
    apply list_elem_of_bind. exists y. split; [|done].
    apply list_elem_of_bind. exists z. split; [|done].
    apply list_elem_of_bind. exists u. split; [|done].
    by apply list_elem_of_singleton.
Qed.

Lemma NoDup_pairs {A B : Type} (l1 : list A) (l2 : list B) :
  NoDup l1 → NoDup l2 → NoDup (x ← l1; y ← l2; [(x, y)]).
Proof.
  intros H1 H2. apply NoDup_bind; [| |done].
  - intros x1 x2 p _ _ Hp1 Hp2.
    apply list_elem_of_bind in Hp1 as (? & ->%list_elem_of_singleton & _).
    apply list_elem_of_bind in Hp2 as (? & [= -> ->]%list_elem_of_singleton & _).
    done.
  - intros x _. apply NoDup_bind; [| |done].
    + intros y1 y2 p _ _ ->%list_elem_of_singleton [= ->]%list_elem_of_singleton.
      done.
    + intros y _. apply NoDup_singleton.
Qed.

Lemma NoDup_quads {A B C D : Type} (l1 : list A) (l2 : list B) (l3 : list C)
    (l4 : list D) :
  NoDup l1 → NoDup l2 → NoDup l3 → NoDup l4 →
  NoDup (x ← l1; y ← l2; z ← l3; u ← l4; [(x, y, z, u)]).
Proof.
  intros H1 H2 H3 H4. apply NoDup_bind; [| |done].
  { intros x1 x2 p _ _ Hp1 Hp2.
    apply list_elem_of_bind in Hp1 as (? & Hp1 & _).
    apply list_elem_of_bind in Hp1 as (? & Hp1 & _).
    apply list_elem_of_bind in Hp1 as (? & ->%list_elem_of_singleton & _).
    apply list_elem_of_bind in Hp2 as (? & Hp2 & _).
    apply list_elem_of_bind in Hp2 as (? & Hp2 & _).
    apply list_elem_of_bind in Hp2 as (? & Hp2%list_elem_of_singleton & _).
    by simplify_eq. }
  intros x _. apply NoDup_bind; [| |done].
  { intros y1 y2 p _ _ Hp1 Hp2.
    apply list_elem_of_bind in Hp1 as (? & Hp1 & _).
    apply list_elem_of_bind in Hp1 as (? & ->%list_elem_of_singleton & _).
    apply list_elem_of_bind in Hp2 as (? & Hp2 & _).
    apply list_elem_of_bind in Hp2 as (? & Hp2%list_elem_of_singleton & _).
    by simplify_eq. }
  intros y _. apply NoDup_bind; [| |done].
  { intros z1 z2 p _ _ Hp1 Hp2.
    apply list_elem_of_bind in Hp1 as (? & ->%list_elem_of_singleton & _).
    apply list_elem_of_bind in Hp2 as (? & Hp2%list_elem_of_singleton & _).
    by simplify_eq. }
  intros z _. apply NoDup_bind; [| |done].
  { intros u1 u2 p _ _ ->%list_elem_of_singleton Hp2%list_elem_of_singleton.
    by simplify_eq. }
  intros u _. apply NoDup_singleton.
Qed.

Lemma card_length_elements (l : list Z) :
  card l = length (elements (list_to_set l : gset Z)).
Proof. reflexivity. Qed.

(** The number of distinct keys of a four-fold product of index tuples. *)
Lemma size_quads (l1 l2 l3 l4 : list Z) :
  size (list_to_set (x ← l1; y ← l2; z ← l3; u ← l4; [(x, y, z, u)])
          : gset (Z * Z * Z * Z))
  = (card l1 * (card l2 * (card l3 * card l4)))%nat.
Proof.
  rewrite !card_length_elements, <- length_quads.
  rewrite <- (size_list_to_set (C := gset (Z * Z * Z * Z)))
    by (apply NoDup_quads; apply NoDup_elements).
  f_equal. apply set_eq. intros [[[x y] z] u].
  rewrite !elem_of_list_to_set, !elem_of_quads, !elem_of_elements,
    !elem_of_list_to_set. done.
Qed.

Lemma size_pairs (l1 l2 : list Z) :
  size (list_to_set (x ← l1; y ← l2; [(x, y)]) : gset (Z * Z))
  = (card l1 * card l2)%nat.
Proof.
  rewrite !card_length_elements, <- length_pairs.
  rewrite <- (size_list_to_set (C := gset (Z * Z)))
    by (apply NoDup_pairs; apply NoDup_elements).
  f_equal. apply set_eq. intros [x y].
  rewrite !elem_of_list_to_set, !elem_of_pairs, !elem_of_elements,
    !elem_of_list_to_set. done.
Qed.

Lemma card_NoDup (l : list Z) : NoDup l → card l = length l.
Proof. apply size_list_to_set. Qed.

(** The number of accumulated rows does not depend on the mode. *)
Lemma length_accumulated_rows inst ws_mode x_aijk y_tija y_tj rows :
  accumulated_rows inst ws_mode x_aijk y_tija y_tj = Some rows →
  length rows = row_count inst.
Proof.
  unfold accumulated_rows. intros Hrows.
  apply bind_Some in Hrows as (r2 & H2%length_mapM & Hrows).
  apply bind_Some in Hrows as (r3 & H3%length_mapM & Hrows).
  apply bind_Some in Hrows as (r4 & H4%length_mapM & Hrows).
  apply bind_Some in Hrows as (r5 & H5%length_mapM & Hrows).
  apply bind_Some in Hrows as (r6 & H6%length_mapM & Hrows).
  apply bind_Some in Hrows as (r7 & H7%length_mapM & Hrows).
  apply bind_Some in Hrows as (r8 & H8%length_mapM & Hrows).
  apply bind_Some in Hrows as (r9 & H9%length_mapM & Hrows).
  apply bind_Some in Hrows as (r10 & H10 & Hrows).
  injection Hrows as <-.
  rewrite length_pairs in H2, H3, H4, H5, H9. rewrite length_triples in H6, H7.
  rewrite !length_app. cbn. unfold row_count, family_sizes. cbn. lia.
Qed.

(** ** What validation guarantees *)

Ltac split_validation H :=
  unfold instance.validate_instance in H; cbv zeta in H;
  repeat (let H' := fresh "Hv" in apply andb_true_iff in H as [H H']).

Lemma validated_N inst :
  instance.validate_instance inst = true →
  instance.N inst = range 1 (instance.n inst + 1).
Proof.
  intros H. split_validation H.
  match goal with
  | Hn : bool_decide (instance.N inst = _) = true |- _ =>
      by apply bool_decide_eq_true in Hn
  end.
Qed.

Lemma validated_Ht_Ta inst t a :
  instance.validate_instance inst = true →
  t ∈ instance.T inst →
  a ∈ instance.get_tuple (instance.Ht inst) t →
  t ∈ instance.get_tuple (instance.Ta inst) a.
Proof.
  intros H Ht Ha. split_validation H.
  match goal with
  | Hc : forallb (λ t, forallb (λ a, bool_decide (a ∈ _) && _) _) (instance.T inst) = true
    |- _ => rename Hc into Hcons
  end.
  rewrite forallb_forall in Hcons.
  specialize (Hcons t). rewrite <- list_elem_of_In in Hcons.
  specialize (Hcons Ht). rewrite forallb_forall in Hcons.
  specialize (Hcons a). rewrite <- list_elem_of_In in Hcons.
  specialize (Hcons Ha). apply andb_true_iff in Hcons as [_ Hin].
  apply bool_decide_eq_true in Hin. by apply elem_of_list_to_set in Hin.
Qed.

Lemma length_range lo hi : length (range lo hi) = Z.to_nat (hi - lo).
Proof. unfold range. apply length_seqZ. Qed.

Lemma validated_card_N inst :
  instance.validate_instance inst = true →
  card (instance.N inst) = Z.to_nat (instance.n inst)
  ∧ length (instance.N inst) = Z.to_nat (instance.n inst).
Proof.
  intros HN%validated_N. rewrite HN.
  rewrite card_NoDup by apply NoDup_seqZ.
  rewrite length_range. split; f_equal; lia.
Qed.

(** ** Which variables a row mentions *)

Section avoiding.
Context (x_aijk : gmap XKey nat) (y_tija : gmap YIKey nat) (y_tj : gmap YSKey nat).
Context (vk0 : var_key).

Lemma avoids_empty : avoids x_aijk y_tija y_tj vk0 ∅.
Proof. intros idx [c Hc]. by rewrite lookup_empty in Hc. Qed.

Lemma avoids_insert vk idx coeff row :
  index_in x_aijk y_tija y_tj vk = Some idx → vk ≠ vk0 →
  avoids x_aijk y_tija y_tj vk0 row →
  avoids x_aijk y_tija y_tj vk0 (<[idx := coeff]> row).
Proof.
  intros Hidx Hne Hrow idx' Hsome.
  destruct (decide (idx = idx')) as [<-|Hdiff]; [eauto |].
  rewrite lookup_insert_ne in Hsome by done. auto.
Qed.

Lemma avoids_add vk idx coeff row :
  index_in x_aijk y_tija y_tj vk = Some idx → vk ≠ vk0 →
  avoids x_aijk y_tija y_tj vk0 row →
  avoids x_aijk y_tija y_tj vk0 (build_waes.row_add idx coeff row).
Proof. apply avoids_insert. Qed.

Lemma avoids_sub vk idx coeff row :
  index_in x_aijk y_tija y_tj vk = Some idx → vk ≠ vk0 →
  avoids x_aijk y_tija y_tj vk0 row →
  avoids x_aijk y_tija y_tj vk0 (build_waes.row_sub idx coeff row).
Proof. apply avoids_insert. Qed.

Lemma avoids_loop {A : Type} (l : list A) (body : A → Row → option Row) :
  (∀ x r r', x ∈ l → avoids x_aijk y_tija y_tj vk0 r → body x r = Some r' →
     avoids x_aijk y_tija y_tj vk0 r') →
  ∀ row row', avoids x_aijk y_tija y_tj vk0 row → for_ l body row = Some row' →
    avoids x_aijk y_tija y_tj vk0 row'.
Proof. apply for__inv. Qed.

End avoiding.

(** The rows of the demand families mention [x] variables only. *)
Section x_rows.
Context (inst : InstanceData) (ws_mode : bool).
Context (x_aijk : gmap XKey nat) (y_tija : gmap YIKey nat) (y_tj : gmap YSKey nat).
Context (vk0 : var_key) (Hkind : ∀ key, vk0 ≠ KX key).

Lemma window_terms_avoids a i until row row' :
  avoids x_aijk y_tija y_tj vk0 row →
  build_waes.window_terms inst x_aijk a i until row = Some row' →
  avoids x_aijk y_tija y_tj vk0 row'.
Proof.
  unfold build_waes.window_terms. apply avoids_loop. intros j r r' _.
  apply avoids_loop. intros k r1 r1' _ Hr Hbody.
  destruct (x_aijk !! (a, i, j, k)) as [idx|] eqn:Hidx; [|done]. cbn in Hbody.
  destruct (instance.b inst !! (k, j)) as [b_kj|]; [|done]. cbn in Hbody.
  destruct (float_ b_kj); [|done]. cbn in Hbody.
  injection Hbody as <-. by apply (avoids_add _ _ _ _ (KX (a, i, j, k))).
Qed.

Lemma parent_terms_avoids a k row row' :
  avoids x_aijk y_tija y_tj vk0 row →
  build_waes.parent_terms inst x_aijk a k row = Some row' →
  avoids x_aijk y_tija y_tj vk0 row'.
Proof.
  unfold build_waes.parent_terms. intros Hrow Hrun.
  destruct (instance.Ga inst !! a) as [parents|]; [|done]. cbn in Hrun.
  revert Hrow Hrun. apply avoids_loop. intros a_parent r r' _ Hr Hbody.
  destruct (instance.s inst !! (a, a_parent)) as [coeff|]; [|done]. cbn in Hbody.
  revert Hr Hbody. apply avoids_loop. intros j r1 r1' _.
  apply avoids_loop. intros i r2 r2' _ Hr Hbody.
  destruct (x_aijk !! (a_parent, i, j, k)) as [idx|] eqn:Hidx; [|done].
  cbn in Hbody. injection Hbody as <-.
  by apply (avoids_sub _ _ _ _ (KX (a_parent, i, j, k))).
Qed.

Lemma row_eq2_avoids i a r :
  build_waes.row_eq2 inst ws_mode x_aijk i a = Some r →
  avoids x_aijk y_tija y_tj vk0 r.1.1.
Proof.
  unfold build_waes.row_eq2. intros Hrow.
  apply bind_Some in Hrow as (until & _ & Hrow).
  apply bind_Some in Hrow as (row & Hw & Hrow).
  apply bind_Some in Hrow as (rhs & _ & Hrow). injection Hrow as <-. cbn.
  eapply window_terms_avoids; [apply avoids_empty | exact Hw].
Qed.

Lemma row_eq3_avoids i a r :
  build_waes.row_eq3 inst ws_mode x_aijk i a = Some r →
  avoids x_aijk y_tija y_tj vk0 r.1.1.
Proof.
  unfold build_waes.row_eq3. intros Hrow.
  apply bind_Some in Hrow as (until & _ & Hrow).
  apply bind_Some in Hrow as (row & Hw & Hrow).
  apply bind_Some in Hrow as (rhs & _ & Hrow). injection Hrow as <-. cbn.
  eapply window_terms_avoids; [apply avoids_empty | exact Hw].
Qed.

Lemma row_eq4_avoids k a r :
  build_waes.row_eq4 inst ws_mode x_aijk k a = Some r →
  avoids x_aijk y_tija y_tj vk0 r.1.1.
Proof.
  unfold build_waes.row_eq4. intros Hrow.
  apply bind_Some in Hrow as (until & _ & Hrow).
  apply bind_Some in Hrow as (row & Hw & Hrow).
  apply bind_Some in Hrow as (row2 & Hp & Hrow). injection Hrow as <-. cbn.
  eapply parent_terms_avoids; [|exact Hp].
  eapply window_terms_avoids; [apply avoids_empty | exact Hw].
Qed.

Lemma row_eq5_avoids k a r :
  build_waes.row_eq5 inst ws_mode x_aijk k a = Some r →
  avoids x_aijk y_tija y_tj vk0 r.1.1.
Proof.
  unfold build_waes.row_eq5. intros Hrow.
  apply bind_Some in Hrow as (until & _ & Hrow).
  apply bind_Some in Hrow as (row & Hw & Hrow).
  apply bind_Some in Hrow as (row2 & Hp & Hrow). injection Hrow as <-. cbn.
  eapply parent_terms_avoids; [|exact Hp].
  eapply window_terms_avoids; [apply avoids_empty | exact Hw].
Qed.

End x_rows.

(** The rows of the staffing families and an assignment variable
    [y_assign[t0, i0, j0, a0]] of a profile that cannot perform [a0]. *)
Section y_rows.
Context (inst : InstanceData).
Context (x_aijk : gmap XKey nat) (y_tija : gmap YIKey nat) (y_tj : gmap YSKey nat).
Context (t0 i0 j0 a0 : Z).
Context (Hta : t0 ∉ instance.get_tuple (instance.Ta inst) a0).
Context (Hht : a0 ∉ instance.get_tuple (instance.Ht inst) t0).

Lemma row_eq6_avoids k j a r :
  build_waes.row_eq6 inst x_aijk y_tija k j a = Some r →
  avoids x_aijk y_tija y_tj (KYI (t0, i0, j0, a0)) r.1.1.
Proof.
  unfold build_waes.row_eq6. intros Hrow.
  apply bind_Some in Hrow as (row1 & H1 & Hrow).
  apply bind_Some in Hrow as (profiles & Hprof & Hrow).
  apply bind_Some in Hrow as (row2 & H2 & Hrow). injection Hrow as <-. cbn.
  revert H2. apply avoids_loop.
  - intros t r r' Ht Hr Hbody.
    destruct (y_tija !! (t, k, j, a)) as [idx|] eqn:Hidx; [|done].
    cbn in Hbody. injection Hbody as <-.
    apply (avoids_sub _ _ _ _ (KYI (t, k, j, a))); [done | | done].
    intros [= -> -> -> ->]. apply Hta.
    unfold instance.get_tuple. by rewrite Hprof.
  - revert H1. apply avoids_loop; [|apply avoids_empty].
    intros i r r' _ Hr Hbody.
    destruct (x_aijk !! (a, i, j, k)) as [idx|] eqn:Hidx; [|done].
    cbn in Hbody. injection Hbody as <-.
    by apply (avoids_add _ _ _ _ (KX (a, i, j, k))).
Qed.

Lemma row_eq7_avoids i j t r :
  build_waes.row_eq7 inst y_tija y_tj i j t = Some r →
  avoids x_aijk y_tija y_tj (KYI (t0, i0, j0, a0)) r.1.1.
Proof.
  unfold build_waes.row_eq7. intros Hrow.
  apply bind_Some in Hrow as (acts & Hacts & Hrow).
  apply bind_Some in Hrow as (row1 & H1 & Hrow).
  apply bind_Some in Hrow as (idx_shift & Hshift & Hrow). injection Hrow as <-. cbn.
  apply (avoids_sub _ _ _ _ (KYS (t, j))); [done | done |].
  revert H1. apply avoids_loop; [|apply avoids_empty].
  intros a r r' Ha Hr Hbody.
  destruct (y_tija !! (t, i, j, a)) as [idx|] eqn:Hidx; [|done].
  cbn in Hbody. injection Hbody as <-.
  apply (avoids_add _ _ _ _ (KYI (t, i, j, a))); [done | | done].
  intros [= -> -> -> ->]. apply Hht.
  unfold instance.get_tuple. by rewrite Hacts.
Qed.

Lemma row_eq8_avoids i r :
  i ≠ i0 →
  build_waes.row_eq8 inst y_tija i = Some r →
  avoids x_aijk y_tija y_tj (KYI (t0, i0, j0, a0)) r.1.1.
Proof.
  unfold build_waes.row_eq8. intros Hne Hrow.
  apply bind_Some in Hrow as (row1 & H1 & Hrow).
  apply bind_Some in Hrow as (ub & _ & Hrow). injection Hrow as <-. cbn.
  revert H1. apply avoids_loop; [|apply avoids_empty].
  intros t r r' _. apply avoids_loop. intros j r1 r1' _.
  apply avoids_loop. intros a r2 r2' _ Hr Hbody.
  destruct (y_tija !! (t, i, j, a)) as [idx|] eqn:Hidx; [|done].
  cbn in Hbody. injection Hbody as <-.
  apply (avoids_add _ _ _ _ (KYI (t, i, j, a))); [done | | done].
  intros [= -> -> -> ->]. done.
Qed.

Lemma row_eq9_avoids t j r :
  build_waes.row_eq9 inst y_tija y_tj t j = Some r →
  avoids x_aijk y_tija y_tj (KYI (t0, i0, j0, a0)) r.1.1.
Proof.
  unfold build_waes.row_eq9. intros Hrow.
  apply bind_Some in Hrow as (window & _ & Hrow).
  apply bind_Some in Hrow as (row1 & H1 & Hrow).
  apply bind_Some in Hrow as (idx_shift & Hshift & Hrow).
  apply bind_Some in Hrow as (coeff & _ & Hrow). injection Hrow as <-. cbn.
  apply (avoids_sub _ _ _ _ (KYS (t, j))); [done | done |].
  revert H1. apply avoids_loop; [|apply avoids_empty].
  intros i r r' _ Hr Hbody.
  apply bind_Some in Hbody as (acts & Hacts & Hbody).
  revert Hr Hbody. apply avoids_loop. intros a r1 r1' Ha Hr Hbody.
  destruct (y_tija !! (t, i, j, a)) as [idx|] eqn:Hidx; [|done].
  cbn in Hbody. injection Hbody as <-.
  apply (avoids_add _ _ _ _ (KYI (t, i, j, a))); [done | | done].
  intros [= -> -> -> ->]. apply Hht.
  unfold instance.get_tuple. by rewrite Hacts.
Qed.

Lemma row_eq10_avoids r :
  build_waes.row_eq10 inst y_tj = Some r →
  avoids x_aijk y_tija y_tj (KYI (t0, i0, j0, a0)) r.1.1.
Proof.
  unfold build_waes.row_eq10. intros Hrow.
  apply bind_Some in Hrow as (row1 & H1 & Hrow).
  apply bind_Some in Hrow as (row2 & H2 & Hrow). injection Hrow as <-. cbn.
  revert H2. apply avoids_loop.
  - intros j r r' _. apply avoids_loop. intros t r1 r1' _ Hr Hbody.
    destruct (y_tj !! (t, j)) as [idx|] eqn:Hidx; [|done].
    cbn in Hbody. injection Hbody as <-.
    by apply (avoids_sub _ _ _ _ (KYS (t, j))).
  - revert H1. apply avoids_loop; [|apply avoids_empty].
    intros j r r' _. apply avoids_loop. intros t r1 r1' _ Hr Hbody.
    destruct (y_tj !! (t, j)) as [idx|] eqn:Hidx; [|done].
    cbn in Hbody. injection Hbody as <-.
    by apply (avoids_add _ _ _ _ (KYS (t, j))).
Qed.

(** The concurrency-cap row of interval [i0] counts the variable. *)
Lemma row_eq8_counts r idx :
  t0 ∈ instance.T inst → j0 ∈ instance.M inst → a0 ∈ instance.A inst →
  y_tija !! (t0, i0, j0, a0) = Some idx →
  build_waes.row_eq8 inst y_tija i0 = Some r →
  r.1.2 = BStr "ninf" ∧ r.2 = BNum (inject_Z (instance.q inst))
  ∧ ∃ coeff, r.1.1 !! idx = Some coeff ∧ (1 <= coeff)%Q.
Proof.
  unfold build_waes.row_eq8. intros Ht Hj Ha Hidx Hrow.
  apply bind_Some in Hrow as (row1 & H1 & Hrow).
  apply bind_Some in Hrow as (ub & [-> _]%float__Some & Hrow).
  injection Hrow as <-. cbn.
  split; [done |]. split; [done |].
  assert (Hflat :
    for_ (t ← instance.T inst; j ← instance.M inst; a ← instance.A inst; [(t, j, a)])
      (λ '(t, j, a) row,
         idx ← y_tija !! (t, i0, j, a); Some (build_waes.row_add idx 1 row)) ∅
    = Some row1) by (rewrite for__flat3; exact H1).
  apply (for__inv_prefix (λ pre row,
    (∀ idx c, row !! idx = Some c → (1 <= c)%Q)
    ∧ (∀ t j a idx, (t, j, a) ∈ pre → y_tija !! (t, i0, j, a) = Some idx →
         is_Some (row !! idx)))) in Hflat as [Hge Hin].
  - destruct (Hin t0 j0 a0 idx) as [coeff Hc]; [by apply elem_of_triples | done |].
    exists coeff. split; [done |]. by apply (Hge idx).
  - intros pre [[t j] a] row row' [Hge Hin] Hbody.
    destruct (y_tija !! (t, i0, j, a)) as [idx'|] eqn:Hidx'; [|done].
    cbn in Hbody. injection Hbody as <-. unfold build_waes.row_add. split.
    + intros idx1 c. rewrite lookup_insert. case_decide as Hcase.
      * intros [= <-]. destruct (row !! idx') as [old|] eqn:Hold; cbn.
        -- specialize (Hge _ _ Hold). lra.
        -- lra.
      * apply Hge.
    + intros t1 j1 a1 idx1 Hpre Hl. rewrite lookup_insert. case_decide; [done |].
      apply elem_of_app in Hpre as [Hpre|Hpre%list_elem_of_singleton].
      * by apply (Hin t1 j1 a1).
      * simplify_eq.
  - split.
    + intros idx1 c. by rewrite lookup_empty.
    + intros t1 j1 a1 idx1 Hpre. by apply elem_of_nil in Hpre.
Qed.

End y_rows.

Lemma mapM_lookup_r {A B : Type} (f : A → option B) (l : list A) (k : list B) p y :
  mapM f l = Some k → k !! p = Some y → ∃ x, l !! p = Some x ∧ f x = Some y.
Proof.
  intros Hk%mapM_Some_1 Hy.
  destruct (Forall2_lookup_r _ _ _ _ _ Hk Hy) as (x & Hx & Hf). eauto.
Qed.

Lemma mapM_lookup_l {A B : Type} (f : A → option B) (l : list A) (k : list B) p x :
  mapM f l = Some k → l !! p = Some x → ∃ y, k !! p = Some y ∧ f x = Some y.
Proof.
  intros Hk%mapM_Some_1 Hx.
  destruct (Forall2_lookup_l _ _ _ _ _ Hk Hx) as (y & Hy & Hf). eauto.
Qed.

(** A row that avoids a variable does not store its index. *)
Lemma avoids_not_stored inst vs log vk0 idx row :
  catalog_ok inst vs log →
  index_of vs vk0 = Some idx →
  avoids (build_waes.vars.x_aijk vs) (build_waes.vars.y_tija vs)
    (build_waes.vars.y_tj vs) vk0 row →
  idx ∉ (stored row).*1.
Proof.
  intros Hok Hidx Havoid Hin.
  apply list_elem_of_fmap in Hin as ([idx' coeff] & -> & Hin).
  apply stored_spec in Hin as [Hrow _]. cbn in Hrow.
  destruct (Havoid idx') as (vk & Hvk & Hne); [by eexists |].
  apply Hne. eapply catalog_ok_inj; eauto.
Qed.

Lemma big_coefficient_stored (row : Row) idx coeff :
  row !! idx = Some coeff → (1 <= coeff)%Q → (idx, coeff) ∈ stored row.
Proof.
  intros Hrow Hge. apply stored_spec. split; [done |]. cbn.
  destruct (Qle_bool (Qabs coeff) build_waes.drop_threshold) eqn:Hdrop; [|done].
  apply Qle_bool_iff in Hdrop. rewrite Qabs_pos in Hdrop by lra.
  unfold build_waes.drop_threshold in Hdrop.
  assert (Hsmall : (1 # 1000000000000 < 1)%Q) by reflexivity. lra.
Qed.

Lemma range_lookup (lo hi i : Z) :
  i ∈ range lo hi → range lo hi !! Z.to_nat (i - lo) = Some i.
Proof.
  unfold range. intros Hi%elem_of_seqZ.
  rewrite lookup_seqZ. split; [lia | lia].
Qed.

Lemma range_lookup_inv (lo hi i : Z) p :
  range lo hi !! p = Some i → p = Z.to_nat (i - lo).
Proof. unfold range. intros [-> _]%lookup_seqZ. lia. Qed.

Lemma lookup_app_plus {A : Type} (l1 l2 : list A) p :
  (l1 ++ l2) !! (length l1 + p)%nat = l2 !! p.
Proof. rewrite lookup_app_r by lia. f_equal. lia. Qed.

(** ** The issues of the integrality check *)

Section other_families.
Context (tol : Q) (eq : string) (Heq : eq ≠ "Eq(11)").

Lemma eq11_check_eq lhs rhs detail issues :
  eq11_issues (audit.check_eq tol eq lhs rhs detail issues) = eq11_issues issues.
Proof.
  unfold audit.check_eq, eq11_issues. destruct (audit.exceeds _ _); [|done].
  rewrite filter_app, filter_cons, decide_False by done. by rewrite app_nil_r.
Qed.

Lemma eq11_check_le lhs rhs detail issues :
  eq11_issues (audit.check_le tol eq lhs rhs detail issues) = eq11_issues issues.
Proof.
  unfold audit.check_le, eq11_issues. destruct (audit.exceeds _ _); [|done].
  rewrite filter_app, filter_cons, decide_False by done. by rewrite app_nil_r.
Qed.

Lemma eq11_check_ge lhs rhs detail issues :
  eq11_issues (audit.check_ge tol eq lhs rhs detail issues) = eq11_issues issues.
Proof.
  unfold audit.check_ge, eq11_issues. destruct (audit.exceeds _ _); [|done].
  rewrite filter_app, filter_cons, decide_False by done. by rewrite app_nil_r.
Qed.

End other_families.

(** A loop whose body keeps the Eq. (11) issues keeps them. *)
Lemma eq11_loop {A : Type} (l : list A)
    (body : A → list audit.AuditIssue → option (list audit.AuditIssue)) :
  (∀ x issues issues', body x issues = Some issues' →
     eq11_issues issues' = eq11_issues issues) →
  ∀ issues issues', for_ l body issues = Some issues' →
    eq11_issues issues' = eq11_issues issues.
Proof.
  intros Hbody issues issues' Hrun.
  apply (for__inv (λ st, eq11_issues st = eq11_issues issues) l body)
    with (st := issues); [| done | done].
  intros x st st' _ Hst Hx. rewrite (Hbody _ _ _ Hx). exact Hst.
Qed.

Lemma eq11_integrality {K : Type} tol prefix (fmt : K → string)
    (items : list (K * Q)) issues :
  eq11_issues (audit.audit_integrality tol prefix fmt items issues)
  = eq11_issues issues ++ integrality_issues tol prefix fmt items.
Proof.
  unfold audit.audit_integrality. revert issues.
  induction items as [|[key value] items IH]; intros issues.
  - cbn. by rewrite app_nil_r.
  - cbn [foldl]. rewrite IH. cbn [integrality_issues mbind list_bind].
    rewrite app_assoc. f_equal.
    unfold audit.check_eq, far_from_integer. cbn.
    destruct (audit.exceeds _ tol).
    + unfold eq11_issues. rewrite filter_app, filter_cons, decide_True by done.
      done.
    + by rewrite app_nil_r.
Qed.

Ltac eq11_step :=
  let H := fresh "H" in
  intros ? ? H;
  repeat (apply bind_Some in H as (? & _ & H));
  injection H as <-;
  first [apply eq11_check_eq | apply eq11_check_le | apply eq11_check_ge]; done.

Lemma eq11_run_audits inst solved ws_mode tol report :
  audit.run_audits inst solved ws_mode tol = Some report →
  eq11_issues (audit.issues report)
  = integrality_issues tol "x" str4 (map_to_list (solution_types.x_aijk solved))
    ++ integrality_issues tol "y_tija" str4
         (map_to_list (solution_types.y_tija solved))
    ++ integrality_issues tol "y_tj" str2 (map_to_list (solution_types.y_tj solved)).
Proof.
  unfold audit.run_audits. intros Hrun.
  apply bind_Some in Hrun as (is2 & H2 & Hrun).
  apply bind_Some in Hrun as (is3 & H3 & Hrun).
  apply bind_Some in Hrun as (is4 & H4 & Hrun).
  apply bind_Some in Hrun as (is5 & H5 & Hrun).
  apply bind_Some in Hrun as (is6 & H6 & Hrun).
  apply bind_Some in Hrun as (is7 & H7 & Hrun).
  apply bind_Some in Hrun as (is8 & H8 & Hrun).
  apply bind_Some in Hrun as (is9 & H9 & Hrun).
  apply bind_Some in Hrun as (is10 & H10 & Hrun).
  injection Hrun as <-. cbn [audit.issues].
  rewrite !eq11_integrality, <- !app_assoc.
  replace (eq11_issues is10) with (@nil audit.AuditIssue); [done |].
  symmetry.
  assert (E10 : eq11_issues is10 = eq11_issues is9).
  { revert H10. unfold audit.audit_eq10. generalize is9 is10. eq11_step. }
  rewrite E10. clear E10 H10.
  apply eq11_loop in H9;
    [| intros t; apply eq11_loop; intros j; unfold audit.audit_eq9; eq11_step].
  apply eq11_loop in H8; [| intros i; unfold audit.audit_eq8; eq11_step].
  apply eq11_loop in H7;
    [| intros i; apply eq11_loop; intros j; apply eq11_loop; intros t;
       unfold audit.audit_eq7; eq11_step].
  apply eq11_loop in H6;
    [| intros k; apply eq11_loop; intros j; apply eq11_loop; intros a;
       unfold audit.audit_eq6; eq11_step].
  apply eq11_loop in H5;
    [| intros k; apply eq11_loop; intros a; unfold audit.audit_eq5; eq11_step].
  apply eq11_loop in H4;
    [| intros k; apply eq11_loop; intros a; unfold audit.audit_eq4; eq11_step].
  apply eq11_loop in H3;
    [| intros i; apply eq11_loop; intros a; unfold audit.audit_eq3; eq11_step].
  apply eq11_loop in H2;
    [| intros i; apply eq11_loop; intros a; unfold audit.audit_eq2; eq11_step].
  rewrite H9, H8, H7, H6, H5, H4, H3, H2. reflexivity.
Qed.

Lemma round_compat (x y : Q) : (x == y)%Q → round x = round y.
Proof.
  intros Hxy. unfold round. cbv zeta.
  rewrite (Qfloor_comp _ _ Hxy).
  assert (E : (x - inject_Z (Qfloor y) == y - inject_Z (Qfloor y))%Q)
    by (rewrite Hxy; reflexivity).
  by rewrite (Qcompare_comp _ _ E (1 # 2) (1 # 2) (Qeq_refl _)).
Qed.

Lemma far_from_integer_compat tol (x y : Q) :
  (x == y)%Q → far_from_integer tol x = far_from_integer tol y.
Proof.
  intros Hxy. unfold far_from_integer, audit.exceeds.
  rewrite (round_compat _ _ Hxy). f_equal.
  apply eq_true_iff_eq. rewrite !Qle_bool_iff. by rewrite Hxy.
Qed.

(** ** Validation, unfolded *)

Lemma forallb_elem {A : Type} (f : A → bool) (l : list A) x :
  forallb f l = true → x ∈ l → f x = true.
Proof.
  intros Hall Hx. rewrite forallb_forall in Hall. apply Hall.
  by apply list_elem_of_In.
Qed.

Lemma validate_instance_validated inst :
  instance.validate_instance inst = true → validated inst.
Proof.
  intros H. unfold instance.validate_instance in H. cbv zeta in H.
  apply andb_true_iff in H as [H _].
  apply andb_true_iff in H as [H _].
  apply andb_true_iff in H as [H _].
  apply andb_true_iff in H as [H _].
  apply andb_true_iff in H as [H HOj].
  apply andb_true_iff in H as [H HHtc].
  apply andb_true_iff in H as [H HTac].
  apply andb_true_iff in H as [H HHt].
  apply andb_true_iff in H as [H HTa].
  apply andb_true_iff in H as [H Hr].
  apply andb_true_iff in H as [H Hv].
  apply andb_true_iff in H as [H HGa].
  apply andb_true_iff in H as [H Hd].
  apply andb_true_iff in H as [H HM].
  apply andb_true_iff in H as [H HN].
  apply andb_true_iff in H as [H _].
  apply andb_true_iff in H as [H _].
  apply andb_true_iff in H as [H HA].
  apply andb_true_iff in H as [H _].
  apply andb_true_iff in H as [_ HMM].
  apply bool_decide_eq_true in HN, HA, HMM.
  split.
  - exact HN.
  - intros j Hj. apply (elem_of_list_to_set (C := gset Z)). rewrite HMM.
    apply elem_of_union_l. by apply elem_of_list_to_set.
  - intros j Hj. apply (elem_of_list_to_set (C := gset Z)). rewrite HMM.
    apply elem_of_union_r. by apply elem_of_list_to_set.
  - intros a Ha. apply (elem_of_list_to_set (C := gset Z)). rewrite HA.
    apply elem_of_union_l. by apply elem_of_list_to_set.
  - intros a Ha. apply (elem_of_list_to_set (C := gset Z)). rewrite HA.
    apply elem_of_union_r. by apply elem_of_list_to_set.
  - intros j k Hj Hk. pose proof (forallb_elem _ _ _ HM Hj) as Hjj.
    apply andb_true_iff in Hjj as [_ Hb].
    pose proof (forallb_elem _ _ _ Hb Hk) as Hkj. cbn in Hkj.
    by destruct (instance.b inst !! (k, j)).
  - intros j Hj. pose proof (forallb_elem _ _ _ HM Hj) as Hjj.
    apply andb_true_iff in Hjj as [Hjj _].
    apply andb_true_iff in Hjj as [_ Hm]. by apply bool_decide_eq_true in Hm.
  - intros a i Ha Hi. pose proof (forallb_elem _ _ _ Hd Ha) as Haa.
    pose proof (forallb_elem _ _ _ Haa Hi) as Hai.
    by apply bool_decide_eq_true in Hai.
  - intros a Ha. pose proof (forallb_elem _ _ _ HGa Ha) as Haa. cbn in Haa.
    destruct (instance.Ga inst !! a) as [parents|]; [|done].
    exists parents. split; [done |]. intros a_parent Hp.
    pose proof (forallb_elem _ _ _ Haa Hp) as Hs.
    by apply bool_decide_eq_true in Hs.
  - intros a Ha. pose proof (forallb_elem _ _ _ Hv Ha) as Haa.
    by apply bool_decide_eq_true in Haa.
  - intros a Ha. pose proof (forallb_elem _ _ _ Hr Ha) as Haa.
    by apply bool_decide_eq_true in Haa.
  - intros a Ha. pose proof (forallb_elem _ _ _ HTa Ha) as Haa. cbn in Haa.
    pose proof (forallb_elem _ _ _ HTac Ha) as Hcons. cbn in Hcons.
    unfold instance.get_tuple in Hcons.
    destruct (instance.Ta inst !! a) as [profiles|]; [|done].
    exists profiles. split; [done |]. intros t Ht. cbn in Hcons.
    pose proof (forallb_elem _ _ _ Hcons Ht) as Htt.
    apply andb_true_iff in Htt as [Htt _].
    apply bool_decide_eq_true in Htt. by apply elem_of_list_to_set in Htt.
  - intros t Ht. pose proof (forallb_elem _ _ _ HHt Ht) as Htt. cbn in Htt.
    apply andb_true_iff in Htt as [Htt _].
    pose proof (forallb_elem _ _ _ HHtc Ht) as Hcons. cbn in Hcons.
    unfold instance.get_tuple in Hcons.
    destruct (instance.Ht inst !! t) as [acts|]; [|done].
    exists acts. split; [done |]. intros a Ha. cbn in Hcons.
    pose proof (forallb_elem _ _ _ Hcons Ha) as Haa.
    apply andb_true_iff in Haa as [Haa _].
    apply bool_decide_eq_true in Haa. by apply elem_of_list_to_set in Haa.
  - intros t Ht. pose proof (forallb_elem _ _ _ HHt Ht) as Htt. cbn in Htt.
    apply andb_true_iff in Htt as [_ Hc]. by apply bool_decide_eq_true in Hc.
  - intros j Hj. pose proof (forallb_elem _ _ _ HOj Hj) as Hjj. cbn in Hjj.
    destruct (instance.Oj inst !! j) as [window|]; [|done].
    exists window. split; [done |]. intros i Hi.
    apply andb_true_iff in Hjj as [_ Hwin].
    pose proof (forallb_elem _ _ _ Hwin Hi) as Hii.
    apply bool_decide_eq_true in Hii. by apply elem_of_list_to_set in Hii.
  - intros j k b_kj Hj Hk Hbkj. pose proof (forallb_elem _ _ _ HM Hj) as Hjj.
    apply andb_true_iff in Hjj as [_ Hb].
    pose proof (forallb_elem _ _ _ Hb Hk) as Hkj. cbn in Hkj.
    rewrite Hbkj in Hkj. by apply bool_decide_eq_true in Hkj.
Qed.

(** ** The Encoder returns on a validated instance whose parents are known *)

Lemma for__total {A S : Type} (l : list A) (body : A → S → option S) :
  (∀ x st, x ∈ l → is_Some (body x st)) → ∀ st, is_Some (for_ l body st).
Proof.
  induction l as [|x l IH]; intros Hbody st; simpl; [by eexists |].
  destruct (Hbody x st) as [st' ->]; [by left |]. simpl.
  apply IH. intros y s Hy. apply Hbody. by right.
Qed.

Lemma elem_of_sorted (s : gset Z) x : x ∈ sorted s ↔ x ∈ s.
Proof. unfold sorted. by rewrite merge_sort_Permutation, elem_of_elements. Qed.

Lemma elem_of_sorted_inter (l1 l2 : list Z) x :
  x ∈ sorted (list_to_set l1 ∩ list_to_set l2) ↔ x ∈ l1 ∧ x ∈ l2.
Proof.
  by rewrite elem_of_sorted, elem_of_intersection, !elem_of_list_to_set.
Qed.

Lemma elem_of_range lo hi x : x ∈ range lo hi ↔ lo <= x < hi.
Proof. unfold range. rewrite elem_of_seqZ. lia. Qed.

Section totality.
Context (inst : InstanceData) (ws_mode : bool).
Context (Hvalid : validated inst) (Hparents : parents_known inst).
Context (Hq : in_float_range (instance.q inst)).
Context (Hfp : in_float_range (instance.f inst - instance.p inst)).
Context (x_aijk : gmap XKey nat) (y_tija : gmap YIKey nat) (y_tj : gmap YSKey nat).
Context (HX : ∀ a i j k, a ∈ instance.A inst → i ∈ instance.N inst →
                j ∈ instance.M inst → k ∈ instance.N inst →
                is_Some (x_aijk !! (a, i, j, k))).
Context (HY : ∀ t i j a, t ∈ instance.T inst → i ∈ instance.N inst →
                j ∈ instance.M inst → a ∈ instance.A inst →
                is_Some (y_tija !! (t, i, j, a))).
Context (HYS : ∀ t j, t ∈ instance.T inst → j ∈ instance.M inst →
                 is_Some (y_tj !! (t, j))).

Lemma in_N i : i ∈ instance.N inst ↔ 1 <= i <= instance.n inst.
Proof. rewrite (valid_N _ Hvalid), elem_of_range. lia. Qed.

Lemma until_a1_total i a :
  a ∈ instance.A1 inst →
  ∃ until, build_waes._until_a1 inst i a ws_mode = Some until
           ∧ until <= instance.n inst.
Proof.
  intros Ha. unfold build_waes._until_a1.
  destruct (valid_v _ Hvalid a Ha) as [v_a Hv].
  destruct ws_mode; [|rewrite Hv]; cbn; eexists; split; try done; lia.
Qed.

Lemma until_a2_total i a :
  a ∈ instance.A2 inst → i ∈ instance.N inst →
  ∃ until, build_waes._until_a2 inst i a ws_mode = Some until
           ∧ until <= instance.n inst.
Proof.
  intros Ha Hi%in_N. unfold build_waes._until_a2.
  destruct (valid_r _ Hvalid a Ha) as [r_a Hr].
  destruct ws_mode; [eexists; split; [done | lia] |].
  rewrite Hr. cbn. case_bool_decide; eexists; (split; [done | lia]).
Qed.

Lemma window_terms_total a i until row :
  a ∈ instance.A inst → i ∈ instance.N inst → until <= instance.n inst →
  is_Some (build_waes.window_terms inst x_aijk a i until row).
Proof.
  intros Ha Hi Huntil. unfold build_waes.window_terms.
  apply for__total. intros j r Hj. apply for__total. intros k r1 Hk.
  destruct (HX a i j k) as [idx ->]; try done.
  { apply in_N. apply in_N in Hi. apply elem_of_range in Hk. lia. }
  assert (Hk' : k ∈ instance.N inst).
  { apply in_N. apply in_N in Hi. apply elem_of_range in Hk. lia. }
  cbn. destruct (valid_b _ Hvalid j k Hj Hk') as [b_kj Hb]. rewrite Hb. cbn.
  rewrite (float__01 b_kj) by (by eapply (valid_b01 _ Hvalid)). by eexists.
Qed.

Lemma parent_terms_total a k row :
  a ∈ instance.C inst → k ∈ instance.N inst →
  is_Some (build_waes.parent_terms inst x_aijk a k row).
Proof.
  intros Ha Hk. unfold build_waes.parent_terms.
  destruct (valid_Ga _ Hvalid a Ha) as (parents & HGa & Hs). rewrite HGa. cbn.
  apply for__total. intros a_parent r Hp.
  destruct (Hs a_parent Hp) as [coeff ->]. cbn.
  apply for__total. intros j r1 Hj. apply for__total. intros i r2 Hi.
  destruct (HX a_parent i j k) as [idx ->]; try done.
  by apply (Hparents a parents).
Qed.

Lemma row_eq2_total i a :
  i ∈ instance.N inst → a ∈ sorted (build_waes.set_BA1 inst) →
  is_Some (build_waes.row_eq2 inst ws_mode x_aijk i a).
Proof.
  intros Hi [HB HA1]%elem_of_sorted_inter. unfold build_waes.row_eq2.
  destruct (until_a1_total i a HA1) as (until & -> & Hle). cbn.
  destruct (window_terms_total a i until ∅) as [row ->];
    [by apply (valid_B _ Hvalid) | done | done |].
  cbn. destruct (valid_d _ Hvalid a i HB Hi) as [rhs ->]. by eexists.
Qed.

Lemma row_eq3_total i a :
  i ∈ instance.N inst → a ∈ sorted (build_waes.set_BA2 inst) →
  is_Some (build_waes.row_eq3 inst ws_mode x_aijk i a).
Proof.
  intros Hi [HB HA2]%elem_of_sorted_inter. unfold build_waes.row_eq3.
  destruct (until_a2_total i a HA2 Hi) as (until & -> & Hle). cbn.
  destruct (window_terms_total a i until ∅) as [row ->];
    [by apply (valid_B _ Hvalid) | done | done |].
  cbn. destruct (valid_d _ Hvalid a i HB Hi) as [rhs ->]. by eexists.
Qed.

Lemma row_eq4_total k a :
  k ∈ instance.N inst → a ∈ sorted (build_waes.set_CA1 inst) →
  is_Some (build_waes.row_eq4 inst ws_mode x_aijk k a).
Proof.
  intros Hk [HC HA1]%elem_of_sorted_inter. unfold build_waes.row_eq4.
  destruct (until_a1_total k a HA1) as (until & -> & Hle). cbn.
  destruct (window_terms_total a k until ∅) as [row ->];
    [by apply (valid_C _ Hvalid) | done | done |].
  cbn. destruct (parent_terms_total a k row HC Hk) as [row2 ->]. by eexists.
Qed.

Lemma row_eq5_total k a :
  k ∈ instance.N inst → a ∈ sorted (build_waes.set_CA2 inst) →
  is_Some (build_waes.row_eq5 inst ws_mode x_aijk k a).
Proof.
  intros Hk [HC HA2]%elem_of_sorted_inter. unfold build_waes.row_eq5.
  destruct (until_a2_total k a HA2 Hk) as (until & -> & Hle). cbn.
  destruct (window_terms_total a k until ∅) as [row ->];
    [by apply (valid_C _ Hvalid) | done | done |].
  cbn. destruct (parent_terms_total a k row HC Hk) as [row2 ->]. by eexists.
Qed.

Lemma row_eq6_total k j a :
  k ∈ instance.N inst → j ∈ instance.M inst → a ∈ instance.A inst →
  is_Some (build_waes.row_eq6 inst x_aijk y_tija k j a).
Proof.
  intros Hk Hj Ha. unfold build_waes.row_eq6.
  destruct (for__total (range 1 (k + 1))
              (λ i row, idx ← x_aijk !! (a, i, j, k);
                        Some (build_waes.row_add idx 1 row))) with (st := (∅ : Row))
    as [row1 ->].
  { intros i r Hi. destruct (HX a i j k) as [idx ->]; try done.
    apply in_N. apply in_N in Hk. apply elem_of_range in Hi. lia. }
  cbn. destruct (valid_Ta _ Hvalid a Ha) as (profiles & -> & HT). cbn.
  destruct (for__total profiles
              (λ t row, idx ← y_tija !! (t, k, j, a);
                        Some (build_waes.row_sub idx 1 row))) with (st := row1)
    as [row2 ->]; [|by eexists].
  intros t r Ht. destruct (HY t k j a) as [idx ->]; auto.
Qed.

Lemma row_eq7_total i j t :
  i ∈ instance.N inst → j ∈ instance.M inst → t ∈ instance.T inst →
  is_Some (build_waes.row_eq7 inst y_tija y_tj i j t).
Proof.
  intros Hi Hj Ht. unfold build_waes.row_eq7.
  destruct (valid_Ht _ Hvalid t Ht) as (acts & -> & HA). cbn.
  destruct (for__total acts
              (λ a row, idx ← y_tija !! (t, i, j, a);
                        Some (build_waes.row_add idx 1 row))) with (st := (∅ : Row))
    as [row1 ->].
  { intros a r Ha. destruct (HY t i j a) as [idx ->]; auto. }
  cbn. destruct (HYS t j Ht Hj) as [idx ->]. by eexists.
Qed.

Lemma row_eq8_total i :
  i ∈ instance.N inst → is_Some (build_waes.row_eq8 inst y_tija i).
Proof.
  intros Hi. unfold build_waes.row_eq8.
  destruct (for__total (instance.T inst)
              (λ t, for_ (instance.M inst) (λ j, for_ (instance.A inst)
                 (λ a row, idx ← y_tija !! (t, i, j, a);
                           Some (build_waes.row_add idx 1 row)))))
    with (st := (∅ : Row)) as [row1 ->];
    [|cbn; rewrite (float__in_range _ Hq); by eexists].
  intros t r Ht. apply for__total. intros j r1 Hj. apply for__total.
  intros a r2 Ha. destruct (HY t i j a) as [idx ->]; auto.
Qed.

Lemma row_eq9_total t j :
  t ∈ instance.T inst → j ∈ instance.M1 inst →
  is_Some (build_waes.row_eq9 inst y_tija y_tj t j).
Proof.
  intros Ht Hj. unfold build_waes.row_eq9.
  destruct (valid_Oj _ Hvalid j Hj) as (window & -> & HW). cbn.
  destruct (valid_Ht _ Hvalid t Ht) as (acts & Hacts & HA).
  pose proof (valid_M1 _ Hvalid j Hj) as HjM.
  destruct (for__total window
              (λ i row, acts ← instance.Ht inst !! t;
                 for_ acts (λ a row, idx ← y_tija !! (t, i, j, a);
                                     Some (build_waes.row_add idx 1 row)) row))
    with (st := (∅ : Row)) as [row1 ->].
  { intros i r Hi. rewrite Hacts. cbn. apply for__total. intros a r1 Ha.
    destruct (HY t i j a) as [idx ->]; auto. }
  cbn. destruct (HYS t j Ht HjM) as [idx ->]. cbn.
  rewrite (float__in_range _ Hfp). by eexists.
Qed.

Lemma row_eq10_total : is_Some (build_waes.row_eq10 inst y_tj).
Proof.
  unfold build_waes.row_eq10.
  destruct (for__total (instance.M2 inst)
              (λ j, for_ (instance.T inst)
                 (λ t row, idx ← y_tj !! (t, j);
                           Some (build_waes.row_add idx 1 row))))
    with (st := (∅ : Row)) as [row1 ->].
  { intros j r Hj. apply for__total. intros t r1 Ht.
    destruct (HYS t j) as [idx ->]; auto. by apply (valid_M2 _ Hvalid). }
  cbn.
  destruct (for__total (instance.M inst)
              (λ j, for_ (instance.T inst)
                 (λ t row, idx ← y_tj !! (t, j);
                           Some (build_waes.row_sub idx (instance.w inst) row))))
    with (st := row1) as [row2 ->]; [|by eexists].
  intros j r Hj. apply for__total. intros t r1 Ht.
  destruct (HYS t j) as [idx ->]; auto.
Qed.

Lemma accumulated_rows_total :
  is_Some (accumulated_rows inst ws_mode x_aijk y_tija y_tj).
Proof.
  unfold accumulated_rows.
  destruct (mapM_is_Some_2 (λ '(i, a), build_waes.row_eq2 inst ws_mode x_aijk i a)
              (i ← instance.N inst; a ← sorted (build_waes.set_BA1 inst); [(i, a)]))
    as [r2 ->].
  { apply Forall_forall. intros [i a] [? ?]%elem_of_pairs. by apply row_eq2_total. }
  cbn.
  destruct (mapM_is_Some_2 (λ '(i, a), build_waes.row_eq3 inst ws_mode x_aijk i a)
              (i ← instance.N inst; a ← sorted (build_waes.set_BA2 inst); [(i, a)]))
    as [r3 ->].
  { apply Forall_forall. intros [i a] [? ?]%elem_of_pairs. by apply row_eq3_total. }
  cbn.
  destruct (mapM_is_Some_2 (λ '(k, a), build_waes.row_eq4 inst ws_mode x_aijk k a)
              (k ← instance.N inst; a ← sorted (build_waes.set_CA1 inst); [(k, a)]))
    as [r4 ->].
  { apply Forall_forall. intros [k a] [? ?]%elem_of_pairs. by apply row_eq4_total. }
  cbn.
  destruct (mapM_is_Some_2 (λ '(k, a), build_waes.row_eq5 inst ws_mode x_aijk k a)
              (k ← instance.N inst; a ← sorted (build_waes.set_CA2 inst); [(k, a)]))
    as [r5 ->].
  { apply Forall_forall. intros [k a] [? ?]%elem_of_pairs. by apply row_eq5_total. }
  cbn.
  destruct (mapM_is_Some_2 (λ '(k, j, a), build_waes.row_eq6 inst x_aijk y_tija k j a)
              (k ← instance.N inst; j ← instance.M inst; a ← instance.A inst;
               [(k, j, a)]))
    as [r6 ->].
  { apply Forall_forall. intros [[k j] a] (? & ? & ?)%elem_of_triples.
    by apply row_eq6_total. }
  cbn.
  destruct (mapM_is_Some_2 (λ '(i, j, t), build_waes.row_eq7 inst y_tija y_tj i j t)
              (i ← instance.N inst; j ← instance.M inst; t ← instance.T inst;
               [(i, j, t)]))
    as [r7 ->].
  { apply Forall_forall. intros [[i j] t] (? & ? & ?)%elem_of_triples.
    by apply row_eq7_total. }
  cbn.
  destruct (mapM_is_Some_2 (λ i, build_waes.row_eq8 inst y_tija i) (instance.N inst))
    as [r8 ->].
  { apply Forall_forall. intros i ?. by apply row_eq8_total. }
  cbn.
  destruct (mapM_is_Some_2 (λ '(t, j), build_waes.row_eq9 inst y_tija y_tj t j)
              (t ← instance.T inst; j ← instance.M1 inst; [(t, j)]))
    as [r9 ->].
  { apply Forall_forall. intros [t j] [? ?]%elem_of_pairs. by apply row_eq9_total. }
  cbn. destruct row_eq10_total as [r10 ->]. by eexists.
Qed.

End totality.

Lemma create_variables_total inst :
  validated inst → in_float_range (instance.q inst) →
  is_Some (build_waes.create_variables inst).
Proof.
  intros Hvalid Hq. unfold build_waes.create_variables.
  destruct (for__total (x_keys inst) (λ key vs,
      let '(a, i, j, k) := key in
      ub ← float_ (instance.q inst);
      let '(idx, vs) :=
        build_waes.add_var
          ("x_a" +:+ str a +:+ "_i" +:+ str i +:+ "_j" +:+ str j +:+ "_k" +:+ str k)
          0%Q (BNum 0) (BNum ub) "I" vs in
      Some (build_waes.set_x key idx vs))) with (st := build_waes.vars.init)
    as [vs1 H1].
  { intros [[[a i] j] k] st _. rewrite (float__in_range _ Hq). by eexists. }
  rewrite <- create_x_flat in H1. rewrite H1. cbn.
  destruct (for__total (y_tija_keys inst) (λ key vs,
      let '(t, i, j, a) := key in
      ub ← float_ (instance.q inst);
      let '(idx, vs) :=
        build_waes.add_var
          ("y_t" +:+ str t +:+ "_i" +:+ str i +:+ "_j" +:+ str j +:+ "_a" +:+ str a)
          0%Q (BNum 0) (BNum ub) "I" vs in
      Some (build_waes.set_y_tija key idx vs))) with (st := vs1)
    as [vs2 H2].
  { intros [[[t i] j] a] st _. rewrite (float__in_range _ Hq). by eexists. }
  rewrite <- create_y_tija_flat in H2. rewrite H2. cbn.
  rewrite create_y_tj_flat. apply for__total.
  intros [t j] st [Ht Hj]%elem_of_pairs.
  destruct (valid_c _ Hvalid t Ht) as [c_t ->].
  destruct (valid_mult _ Hvalid j Hj) as [mult_j ->]. cbn.
  rewrite (float__in_range _ Hq). by eexists.
Qed.

(** ** The Audit returns on a validated instance whose parents are known *)

Lemma sum__total {A : Type} (l : list A) (f : A → option Q) :
  (∀ x, x ∈ l → is_Some (f x)) → is_Some (sum_ l f).
Proof.
  intros Hf. unfold sum_. apply for__total. intros x acc Hx.
  destruct (Hf x Hx) as [t ->]. by eexists.
Qed.

Lemma passed_iff_no_issues inst solved ws_mode tol report :
  audit.run_audits inst solved ws_mode tol = Some report →
  audit.passed report = true ↔ audit.issues report = [].
Proof.
  unfold audit.run_audits. intros Hrun.
  repeat (apply bind_Some in Hrun as (? & _ & Hrun)).
  injection Hrun as <-. cbn. apply bool_decide_eq_true.
Qed.

Section audit_totality.
Context (inst : InstanceData) (solved : SolvedValues) (ws_mode : bool) (tol : Q).
Context (Hvalid : validated inst) (Hparents : parents_known inst).
Context (Hq : in_float_range (instance.q inst)).
Context (Hfp : in_float_range (instance.f inst - instance.p inst)).
Context (HX : ∀ a i j k, a ∈ instance.A inst → i ∈ instance.N inst →
                j ∈ instance.M inst → k ∈ instance.N inst →
                is_Some (solution_types.x_aijk solved !! (a, i, j, k))).
Context (HY : ∀ t i j a, t ∈ instance.T inst → i ∈ instance.N inst →
                j ∈ instance.M inst → a ∈ instance.A inst →
                is_Some (solution_types.y_tija solved !! (t, i, j, a))).
Context (HYS : ∀ t j, t ∈ instance.T inst → j ∈ instance.M inst →
                 is_Some (solution_types.y_tj solved !! (t, j))).

Lemma executed_total a i until :
  a ∈ instance.A inst → i ∈ instance.N inst → until <= instance.n inst →
  is_Some (audit.executed inst solved a i until).
Proof.
  intros Ha Hi Huntil. unfold audit.executed. apply sum__total.
  intros [j k] [Hj Hk]%elem_of_pairs.
  assert (Hk' : k ∈ instance.N inst).
  { apply (in_N inst Hvalid). apply (in_N inst Hvalid) in Hi.
    apply elem_of_range in Hk. lia. }
  destruct (HX a i j k) as [x ->]; try done. cbn.
  destruct (valid_b _ Hvalid j k Hj Hk') as [b_kj Hb]. rewrite Hb. cbn.
  rewrite (float__01 b_kj) by (by eapply (valid_b01 _ Hvalid)). by eexists.
Qed.

Lemma required_total a k :
  a ∈ instance.C inst → k ∈ instance.N inst →
  is_Some (audit.required inst solved a k).
Proof.
  intros Ha Hk. unfold audit.required.
  destruct (valid_Ga _ Hvalid a Ha) as (parents & HGa & Hs). rewrite HGa. cbn.
  apply sum__total. intros a_parent Hp.
  destruct (Hs a_parent Hp) as [share ->]. cbn.
  destruct (sum__total (j ← instance.M inst; i ← instance.N inst; [(j, i)])
              (λ '(j, i), solution_types.x_aijk solved !! (a_parent, i, j, k)))
    as [volume ->]; [|by eexists].
  intros [j i] [Hj Hi]%elem_of_pairs. apply HX; try done.
  by apply (Hparents a parents).
Qed.

Lemma audit_eq2_total i a issues :
  i ∈ instance.N inst → a ∈ sorted (audit.set_BA1 inst) →
  is_Some (audit.audit_eq2 inst solved ws_mode tol i a issues).
Proof.
  intros Hi [HB HA1]%elem_of_sorted_inter. unfold audit.audit_eq2.
  destruct (until_a1_total inst ws_mode Hvalid i a HA1) as (until & Hu & Hle).
  change (audit._until_a1 inst i a ws_mode)
    with (build_waes._until_a1 inst i a ws_mode). rewrite Hu. cbn.
  destruct (executed_total a i until) as [lhs ->];
    [by apply (valid_B _ Hvalid) | done | done |].
  cbn. destruct (valid_d _ Hvalid a i HB Hi) as [rhs ->]. by eexists.
Qed.

Lemma audit_eq3_total i a issues :
  i ∈ instance.N inst → a ∈ sorted (audit.set_BA2 inst) →
  is_Some (audit.audit_eq3 inst solved ws_mode tol i a issues).
Proof.
  intros Hi [HB HA2]%elem_of_sorted_inter. unfold audit.audit_eq3.
  destruct (until_a2_total inst ws_mode Hvalid i a HA2 Hi) as (until & Hu & Hle).
  change (audit._until_a2 inst i a ws_mode)
    with (build_waes._until_a2 inst i a ws_mode). rewrite Hu. cbn.
  destruct (executed_total a i until) as [lhs ->];
    [by apply (valid_B _ Hvalid) | done | done |].
  cbn. destruct (valid_d _ Hvalid a i HB Hi) as [rhs ->]. by eexists.
Qed.

Lemma audit_eq4_total k a issues :
  k ∈ instance.N inst → a ∈ sorted (audit.set_CA1 inst) →
  is_Some (audit.audit_eq4 inst solved ws_mode tol k a issues).
Proof.
  intros Hk [HC HA1]%elem_of_sorted_inter. unfold audit.audit_eq4.
  destruct (until_a1_total inst ws_mode Hvalid k a HA1) as (until & Hu & Hle).
  change (audit._until_a1 inst k a ws_mode)
    with (build_waes._until_a1 inst k a ws_mode). rewrite Hu. cbn.
  destruct (executed_total a k until) as [lhs ->];
    [by apply (valid_C _ Hvalid) | done | done |].
  cbn. destruct (required_total a k HC Hk) as [rhs ->]. by eexists.
Qed.

Lemma audit_eq5_total k a issues :
  k ∈ instance.N inst → a ∈ sorted (audit.set_CA2 inst) →
  is_Some (audit.audit_eq5 inst solved ws_mode tol k a issues).
Proof.
  intros Hk [HC HA2]%elem_of_sorted_inter. unfold audit.audit_eq5.
  destruct (until_a2_total inst ws_mode Hvalid k a HA2 Hk) as (until & Hu & Hle).
  change (audit._until_a2 inst k a ws_mode)
    with (build_waes._until_a2 inst k a ws_mode). rewrite Hu. cbn.
  destruct (executed_total a k until) as [lhs ->];
    [by apply (valid_C _ Hvalid) | done | done |].
  cbn. destruct (required_total a k HC Hk) as [rhs ->]. by eexists.
Qed.

Lemma audit_eq6_total k j a issues :
  k ∈ instance.N inst → j ∈ instance.M inst → a ∈ instance.A inst →
  is_Some (audit.audit_eq6 inst solved tol k j a issues).
Proof.
  intros Hk Hj Ha. unfold audit.audit_eq6.
  destruct (sum__total (range 1 (k + 1))
              (λ i, solution_types.x_aijk solved !! (a, i, j, k))) as [lhs ->].
  { intros i Hi. apply HX; try done.
    apply (in_N inst Hvalid). apply (in_N inst Hvalid) in Hk.
    apply elem_of_range in Hi. lia. }
  cbn. destruct (valid_Ta _ Hvalid a Ha) as (profiles & -> & HT). cbn.
  destruct (sum__total profiles
              (λ t, solution_types.y_tija solved !! (t, k, j, a))) as [rhs ->];
    [|by eexists].
  intros t Ht. apply HY; auto.
Qed.

Lemma audit_eq7_total i j t issues :
  i ∈ instance.N inst → j ∈ instance.M inst → t ∈ instance.T inst →
  is_Some (audit.audit_eq7 inst solved tol i j t issues).
Proof.
  intros Hi Hj Ht. unfold audit.audit_eq7.
  destruct (valid_Ht _ Hvalid t Ht) as (acts & -> & HA). cbn.
  destruct (sum__total acts
              (λ a, solution_types.y_tija solved !! (t, i, j, a))) as [lhs ->].
  { intros a Ha. apply HY; auto. }
  cbn. destruct (HYS t j Ht Hj) as [rhs ->]. by eexists.
Qed.

Lemma audit_eq8_total i issues :
  i ∈ instance.N inst → is_Some (audit.audit_eq8 inst solved tol i issues).
Proof.
  intros Hi. unfold audit.audit_eq8.
  destruct (sum__total
              (t ← instance.T inst; j ← instance.M inst; a ← instance.A inst;
               [(t, j, a)])
              (λ '(t, j, a), solution_types.y_tija solved !! (t, i, j, a)))
    as [lhs ->]; [|cbn; rewrite (float__in_range _ Hq); by eexists].
  intros [[t j] a] (Ht & Hj & Ha)%elem_of_triples. by apply HY.
Qed.

Lemma audit_eq9_total t j issues :
  t ∈ instance.T inst → j ∈ instance.M1 inst →
  is_Some (audit.audit_eq9 inst solved tol t j issues).
Proof.
  intros Ht Hj. unfold audit.audit_eq9.
  destruct (valid_Oj _ Hvalid j Hj) as (window & -> & HW). cbn.
  destruct (valid_Ht _ Hvalid t Ht) as (acts & Hacts & HA).
  pose proof (valid_M1 _ Hvalid j Hj) as HjM.
  destruct (for__total window
              (λ i acc, acts ← instance.Ht inst !! t;
                 for_ acts (λ a acc,
                   y ← solution_types.y_tija solved !! (t, i, j, a);
                   Some (acc + y)%Q) acc)) with (st := 0%Q) as [lhs ->].
  { intros i acc Hi. rewrite Hacts. cbn. apply for__total. intros a acc1 Ha.
    destruct (HY t i j a) as [y ->]; auto. }
  cbn. destruct (HYS t j Ht HjM) as [y ->]. cbn.
  rewrite (float__in_range _ Hfp). by eexists.
Qed.

Lemma audit_eq10_total issues :
  is_Some (audit.audit_eq10 inst solved tol issues).
Proof.
  unfold audit.audit_eq10.
  destruct (sum__total (j ← instance.M2 inst; t ← instance.T inst; [(t, j)])
              (λ key, solution_types.y_tj solved !! key)) as [lhs ->].
  { intros [t j] Hin. apply list_elem_of_bind in Hin as (j' & Hin & Hj).
    apply list_elem_of_bind in Hin as (t' & Hin & Ht).
    apply list_elem_of_singleton in Hin. simplify_eq.
    apply HYS; [done |]. by apply (valid_M2 _ Hvalid). }
  cbn.
  destruct (sum__total (j ← instance.M inst; t ← instance.T inst; [(t, j)])
              (λ key, solution_types.y_tj solved !! key)) as [total ->];
    [|by eexists].
  intros [t j] Hin. apply list_elem_of_bind in Hin as (j' & Hin & Hj).
  apply list_elem_of_bind in Hin as (t' & Hin & Ht).
  apply list_elem_of_singleton in Hin. simplify_eq. by apply HYS.
Qed.

Lemma run_audits_total : is_Some (audit.run_audits inst solved ws_mode tol).
Proof.
  unfold audit.run_audits.
  destruct (for__total (instance.N inst)
              (λ i, for_ (sorted (audit.set_BA1 inst))
                      (λ a, audit.audit_eq2 inst solved ws_mode tol i a)))
    with (st := @nil audit.AuditIssue) as [is2 ->].
  { intros i st Hi. apply for__total. intros a st' Ha. by apply audit_eq2_total. }
  cbn [mbind option_bind].
  destruct (for__total (instance.N inst)
              (λ i, for_ (sorted (audit.set_BA2 inst))
                      (λ a, audit.audit_eq3 inst solved ws_mode tol i a)))
    with (st := is2) as [is3 ->].
  { intros i st Hi. apply for__total. intros a st' Ha. by apply audit_eq3_total. }
  cbn [mbind option_bind].
  destruct (for__total (instance.N inst)
              (λ k, for_ (sorted (audit.set_CA1 inst))
                      (λ a, audit.audit_eq4 inst solved ws_mode tol k a)))
    with (st := is3) as [is4 ->].
  { intros k st Hk. apply for__total. intros a st' Ha. by apply audit_eq4_total. }
  cbn [mbind option_bind].
  destruct (for__total (instance.N inst)
              (λ k, for_ (sorted (audit.set_CA2 inst))
                      (λ a, audit.audit_eq5 inst solved ws_mode tol k a)))
    with (st := is4) as [is5 ->].
  { intros k st Hk. apply for__total. intros a st' Ha. by apply audit_eq5_total. }
  cbn [mbind option_bind].
  destruct (for__total (instance.N inst)
              (λ k, for_ (instance.M inst) (λ j, for_ (instance.A inst)
                      (λ a, audit.audit_eq6 inst solved tol k j a))))
    with (st := is5) as [is6 ->].
  { intros k st Hk. apply for__total. intros j st' Hj. apply for__total.
    intros a st'' Ha. by apply audit_eq6_total. }
  cbn [mbind option_bind].
  destruct (for__total (instance.N inst)
              (λ i, for_ (instance.M inst) (λ j, for_ (instance.T inst)
                      (λ t, audit.audit_eq7 inst solved tol i j t))))
    with (st := is6) as [is7 ->].
  { intros i st Hi. apply for__total. intros j st' Hj. apply for__total.
    intros t st'' Ht. by apply audit_eq7_total. }
  cbn [mbind option_bind].
  destruct (for__total (instance.N inst)
              (λ i, audit.audit_eq8 inst solved tol i))
    with (st := is7) as [is8 ->].
  { intros i st Hi. by apply audit_eq8_total. }
  cbn [mbind option_bind].
  destruct (for__total (instance.T inst)
              (λ t, for_ (instance.M1 inst)
                      (λ j, audit.audit_eq9 inst solved tol t j)))
    with (st := is8) as [is9 ->].
  { intros t st Ht. apply for__total. intros j st' Hj. by apply audit_eq9_total. }
  cbn [mbind option_bind].
  destruct (audit_eq10_total is9) as [is10 ->].
  cbn [mbind option_bind]. by eexists.
Qed.

End audit_totality.

(** ** Whether the Encoder returns does not depend on the mode *)

Lemma for__success_irrelevant {A S : Type} (l : list A) (body : A → S → option S) :
  (∀ x st st', x ∈ l → is_Some (body x st) → is_Some (body x st')) →
  ∀ st st', is_Some (for_ l body st) → is_Some (for_ l body st').
Proof.
  intros Hbody st st' [st1 Hrun].
  destruct (for__sim (λ _ _, True) l body body) with (s1 := st) (s1' := st1) (s2 := st')
    as (st2 & Hrun' & _); [| done | done | by eexists].
  intros x s1 s1' s2 Hx _ Hs1.
  destruct (Hbody x s1 s2 Hx) as [s2' Hs2]; [by eexists |]. eauto.
Qed.

Lemma parent_terms_success_irrelevant inst x_aijk a k row row' :
  is_Some (build_waes.parent_terms inst x_aijk a k row) →
  is_Some (build_waes.parent_terms inst x_aijk a k row').
Proof.
  unfold build_waes.parent_terms.
  destruct (instance.Ga inst !! a) as [parents|]; [|done]. cbn.
  apply for__success_irrelevant. intros a_parent st st' _.
  destruct (instance.s inst !! (a, a_parent)) as [coeff|]; [|done]. cbn.
  apply for__success_irrelevant. intros j st1 st1' _.
  apply for__success_irrelevant. intros i st2 st2' _.
  by destruct (x_aijk !! (a_parent, i, j, k)).
Qed.

Section mode_change.
Context (inst : InstanceData) (Hvalid : validated inst).
Context (x_aijk : gmap XKey nat) (y_tija : gmap YIKey nat) (y_tj : gmap YSKey nat).
Context (HX : ∀ a i j k, a ∈ instance.A inst → i ∈ instance.N inst →
                j ∈ instance.M inst → k ∈ instance.N inst →
                is_Some (x_aijk !! (a, i, j, k))).

Lemma row_eq4_mode_change ws_mode ws_mode' k a :
  k ∈ instance.N inst → a ∈ sorted (build_waes.set_CA1 inst) →
  is_Some (build_waes.row_eq4 inst ws_mode x_aijk k a) →
  is_Some (build_waes.row_eq4 inst ws_mode' x_aijk k a).
Proof.
  intros Hk [HC HA1]%elem_of_sorted_inter [r Hrow].
  unfold build_waes.row_eq4 in Hrow.
  apply bind_Some in Hrow as (until & _ & Hrow).
  apply bind_Some in Hrow as (row & _ & Hrow).
  apply bind_Some in Hrow as (row2 & Hp & _).
  unfold build_waes.row_eq4.
  destruct (until_a1_total inst ws_mode' Hvalid k a HA1) as (until' & -> & Hle).
  cbn.
  destruct (window_terms_total inst Hvalid x_aijk HX a k until' ∅) as [row' ->];
    [by apply (valid_C _ Hvalid) | done | done |].
  cbn.
  destruct (parent_terms_success_irrelevant inst x_aijk a k row row') as [r' ->];
    by eexists.
Qed.

Lemma row_eq5_mode_change ws_mode ws_mode' k a :
  k ∈ instance.N inst → a ∈ sorted (build_waes.set_CA2 inst) →
  is_Some (build_waes.row_eq5 inst ws_mode x_aijk k a) →
  is_Some (build_waes.row_eq5 inst ws_mode' x_aijk k a).
Proof.
  intros Hk [HC HA2]%elem_of_sorted_inter [r Hrow].
  unfold build_waes.row_eq5 in Hrow.
  apply bind_Some in Hrow as (until & _ & Hrow).
  apply bind_Some in Hrow as (row & _ & Hrow).
  apply bind_Some in Hrow as (row2 & Hp & _).
  unfold build_waes.row_eq5.
  destruct (until_a2_total inst ws_mode' Hvalid k a HA2 Hk) as (until' & -> & Hle).
  cbn.
  destruct (window_terms_total inst Hvalid x_aijk HX a k until' ∅) as [row' ->];
    [by apply (valid_C _ Hvalid) | done | done |].
  cbn.
  destruct (parent_terms_success_irrelevant inst x_aijk a k row row') as [r' ->];
    by eexists.
Qed.

Lemma accumulated_rows_mode_change ws_mode ws_mode' :
  is_Some (accumulated_rows inst ws_mode x_aijk y_tija y_tj) →
  is_Some (accumulated_rows inst ws_mode' x_aijk y_tija y_tj).
Proof.
  intros [rows Hrows]. unfold accumulated_rows in Hrows.
  apply bind_Some in Hrows as (r2 & H2 & Hrows).
  apply bind_Some in Hrows as (r3 & H3 & Hrows).
  apply bind_Some in Hrows as (r4 & H4 & Hrows).
  apply bind_Some in Hrows as (r5 & H5 & Hrows).
  apply bind_Some in Hrows as (r6 & H6 & Hrows).
  apply bind_Some in Hrows as (r7 & H7 & Hrows).
  apply bind_Some in Hrows as (r8 & H8 & Hrows).
  apply bind_Some in Hrows as (r9 & H9 & Hrows).
  apply bind_Some in Hrows as (r10 & H10 & Hrows).
  unfold accumulated_rows.
  destruct (mapM_is_Some_2 (λ '(i, a), build_waes.row_eq2 inst ws_mode' x_aijk i a)
              (i ← instance.N inst; a ← sorted (build_waes.set_BA1 inst); [(i, a)]))
    as [r2' ->].
  { apply Forall_forall. intros [i a] [? ?]%elem_of_pairs.
    by apply row_eq2_total. }
  cbn.
  destruct (mapM_is_Some_2 (λ '(i, a), build_waes.row_eq3 inst ws_mode' x_aijk i a)
              (i ← instance.N inst; a ← sorted (build_waes.set_BA2 inst); [(i, a)]))
    as [r3' ->].
  { apply Forall_forall. intros [i a] [? ?]%elem_of_pairs.
    by apply row_eq3_total. }
  cbn.
  destruct (mapM_is_Some_2 (λ '(k, a), build_waes.row_eq4 inst ws_mode' x_aijk k a)
              (k ← instance.N inst; a ← sorted (build_waes.set_CA1 inst); [(k, a)]))
    as [r4' ->].
  { apply Forall_forall. intros [k a] Hin.
    destruct (mapM_elem _ _ _ _ H4 Hin) as (r & _ & Hr).
    apply elem_of_pairs in Hin as [? ?].
    apply (row_eq4_mode_change ws_mode); [done | done | by eexists]. }
  cbn.
  destruct (mapM_is_Some_2 (λ '(k, a), build_waes.row_eq5 inst ws_mode' x_aijk k a)
              (k ← instance.N inst; a ← sorted (build_waes.set_CA2 inst); [(k, a)]))
    as [r5' ->].
  { apply Forall_forall. intros [k a] Hin.
    destruct (mapM_elem _ _ _ _ H5 Hin) as (r & _ & Hr).
    apply elem_of_pairs in Hin as [? ?].
    apply (row_eq5_mode_change ws_mode); [done | done | by eexists]. }
  cbn. rewrite H6, H7, H8, H9, H10. cbn. by eexists.
Qed.

End mode_change.

Lemma build_mode_change inst ws_mode ws_mode' :
  instance.validate_instance inst = true →
  is_Some (build_waes.build_waes_model inst ws_mode) →
  is_Some (build_waes.build_waes_model inst ws_mode').
Proof.
  intros Hvalid%validate_instance_validated [m Hbuild].
  destruct (build_waes_model_spec _ _ _ Hbuild)
    as (vs & rows & Hvs & Hrows & _ & _ & _ & _ & _ & _ & Ex & Eyi & Eys).
  rewrite Ex, Eyi, Eys in Hrows.
  destruct (create_variables_ok _ _ Hvs) as (log & _ & Dx & _).
  destruct (accumulated_rows_mode_change inst Hvalid
              (build_waes.vars.x_aijk vs) (build_waes.vars.y_tija vs)
              (build_waes.vars.y_tj vs)) with (ws_mode := ws_mode)
              (ws_mode' := ws_mode') as [rows' Hrows'].
  - intros a i j k Ha Hi Hj Hk. apply elem_of_dom. rewrite Dx.
    apply elem_of_list_to_set. unfold x_keys. apply elem_of_quads.
    split_and!; assumption.
  - by eexists.
  - unfold build_waes.build_waes_model. rewrite Hvs. cbn.
    rewrite create_rows_spec, Hrows'. cbn. by eexists.
Qed.

(** ** Every assignment over the key space comes from a solution vector *)

Lemma values_of_from_log {K : Type} `{Countable K} (index : gmap K nat)
    (vals : gmap K Q) (vector : list Q) :
  dom vals = dom index →
  (∀ key idx, index !! key = Some idx →
     vector !! idx = Some (default 0%Q (vals !! key))) →
  solve.values_of index vector = Some vals.
Proof.
  intros Hdom Hvec. unfold solve.values_of.
  replace (forallb _ _) with true.
  - f_equal. apply map_eq. intros key. rewrite lookup_fmap.
    destruct (index !! key) as [idx|] eqn:Hidx; cbn.
    + rewrite (Hvec _ _ Hidx). cbn.
      assert (Hin : key ∈ dom vals) by (rewrite Hdom; apply elem_of_dom; eauto).
      apply elem_of_dom in Hin as [value ->]. done.
    + symmetry. apply not_elem_of_dom. rewrite Hdom. by apply not_elem_of_dom.
  - symmetry. apply forallb_forall. intros [key idx] Hin.
    apply list_elem_of_In, elem_of_map_to_list in Hin. cbn.
    apply Nat.ltb_lt. eapply lookup_lt_Some. eauto.
Qed.

(** ** The shift-coverage matrix and the break windows *)

Lemma max__ge (l : list Z) n k : max_ l = Some n → k ∈ l → k <= n.
Proof.
  destruct l as [|x l]; [done |]. cbn. intros [= <-].
  assert (Hacc : ∀ l acc, acc <= foldl Z.max acc l).
  { clear. induction l as [|y l IH]; intros acc; cbn; [lia |].
    specialize (IH (Z.max acc y)). lia. }
  assert (Hall : ∀ l acc k, k ∈ l → k <= foldl Z.max acc l).
  { clear -Hacc. induction l as [|y l IH]; intros acc k Hk; cbn.
    - by apply elem_of_nil in Hk.
    - apply elem_of_cons in Hk as [->|Hk]; [|by apply IH].
      specialize (Hacc l (Z.max acc y)). lia. }
  intros [->|Hk]%elem_of_cons; [apply Hacc | by apply Hall].
Qed.

Lemma max__elem (l : list Z) n : max_ l = Some n → n ∈ l.
Proof.
  destruct l as [|x l]; [done |]. cbn. intros [= <-].
  assert (Hin : ∀ l acc, foldl Z.max acc l = acc ∨ foldl Z.max acc l ∈ l).
  { clear. induction l as [|y l IH]; intros acc; cbn; [by left |].
    destruct (IH (Z.max acc y)) as [E|Hin]; [|right; by right].
    rewrite E. destruct (Z.max_spec acc y) as [[_ ->]|[_ ->]];
      [right; by left | by left]. }
  destruct (Hin l x) as [->|?]; [by left | by right].
Qed.

(** One column of the matrix: the inner loop of [_compute_b_matrix]. *)
Lemma b_column (N : list Z) (j : Z) (g : Z → Z) (b0 : gmap (Z * Z) Z) :
  ∃ b1, for_ N (λ k b, Some (<[(k, j) := g k]> b)) b0 = Some b1
        ∧ ∀ k' j', b1 !! (k', j')
                   = if decide (j' = j ∧ k' ∈ N) then Some (g k') else b0 !! (k', j').
Proof.
  revert b0. induction N as [|k N IH]; intros b0.
  - exists b0. split; [done |]. intros k' j'.
    rewrite decide_False; [done |]. intros [_ Hin]. by apply elem_of_nil in Hin.
  - destruct (IH (<[(k, j) := g k]> b0)) as (b1 & Hrun & Hb1).
    exists b1. split; [exact Hrun |]. intros k' j'. rewrite Hb1.
    destruct (decide (j' = j ∧ k' ∈ N)) as [[-> Hin]|Hno].
    + rewrite decide_True; [done |]. split; [done | by right].
    + destruct (decide ((k', j') = (k, j))) as [[= -> ->]|Hne].
      * rewrite lookup_insert, decide_True by done.
        rewrite decide_True; [done |]. split; [done | by left].
      * rewrite lookup_insert_ne by congruence.
        destruct (decide (j' = j ∧ k' ∈ k :: N)) as [[-> Hin]|Hno']; [|done].
        apply elem_of_cons in Hin as [->|Hin]; [done |].
        exfalso. by apply Hno.
Qed.

Lemma length_filter_le {A : Type} (P : A → Prop) `{∀ x, Decision (P x)} (l : list A) :
  (length (filter P l) ≤ length l)%nat.
Proof.
  induction l as [|x l IH]; [done |].
  rewrite filter_cons. destruct (decide (P x)); cbn; lia.
Qed.

Lemma length_filter_eq {A : Type} (P : A → Prop) `{∀ x, Decision (P x)} (l : list A) :
  length (filter P l) = length l ↔ ∀ x, x ∈ l → P x.
Proof.
  induction l as [|x l IH].
  - split; [|done]. intros _ y Hy. by apply elem_of_nil in Hy.
  - rewrite filter_cons. pose proof (length_filter_le P l) as Hle.
    destruct (decide (P x)) as [HP|HP]; cbn.
    + split.
      * intros E y [->|Hy]%elem_of_cons; [done |]. apply IH; [lia | done].
      * intros Hall. f_equal. apply IH. intros y Hy. apply Hall. by right.
    + split; [lia |]. intros Hall. exfalso. apply HP, Hall. by left.
Qed.

(** ** Polling *)

Section polling_lemmas.
Context {R P : Type}.
Context (get_LP_solve : P → cuopt_server.Response R)
        (repoll : nat → string → cuopt_server.Response R)
        (sleep : Q → option cuopt_server.Error) (payload : P)
        (repoll_interval : Q).

(** While the answers are pending and the sleeps return, the loop moves on
    to the next answer. *)
Lemma poll_pending (k budget tries : nat) resp :
  answer get_LP_solve repoll payload tries = Some resp →
  (∀ k', (tries ≤ k' < tries + k)%nat →
     ∃ r, answer get_LP_solve repoll payload k' = Some r ∧ pending r = true) →
  (k ≤ budget)%nat →
  ((0 < k)%nat → sleep repoll_interval = None) →
  ∃ resp', answer get_LP_solve repoll payload (tries + k) = Some resp'
    ∧ cuopt_server.poll repoll sleep repoll_interval budget tries resp
      = cuopt_server.poll repoll sleep repoll_interval (budget - k) (tries + k) resp'.
Proof.
  revert budget tries resp.
  induction k as [|k IH]; intros budget tries resp Hresp Hpend Hk Hsleep.
  - exists resp. rewrite !Nat.add_0_r, Nat.sub_0_r. done.
  - destruct budget as [|budget]; [lia |].
    destruct (Hpend tries) as (r & Hr & Hp); [lia |].
    rewrite Hresp in Hr. injection Hr as <-.
    destruct resp as [[w|] [req|]]; try done.
    destruct (IH budget (S tries) (repoll tries req)) as (resp' & Hresp' & Hrun).
    + cbn. by rewrite Hresp.
    + intros k' Hk'. apply Hpend. lia.
    + lia.
    + intros _. apply Hsleep. lia.
    + exists resp'. replace (tries + S k)%nat with (S tries + k)%nat by lia.
      split; [exact Hresp' |]. cbn. rewrite Hsleep by lia. exact Hrun.
Qed.

End polling_lemmas.

(** A loop that completes has run its body on every element. *)
Lemma for__each {A S : Type} (l : list A) (body : A → S → option S) st st' x :
  for_ l body st = Some st' → x ∈ l → ∃ s, is_Some (body x s).
Proof.
  revert st. induction l as [|y l IH]; intros st Hrun Hx.
  - by apply elem_of_nil in Hx.
  - cbn in Hrun. destruct (body y st) as [st1|] eqn:Hy; [|done]. cbn in Hrun.
    apply elem_of_cons in Hx as [->|Hx]; [exists st; by rewrite Hy |].
    by eapply IH.
Qed.

(** ** The stored entries of a row are ordered by index *)

Lemma item_le_trans : Transitive build_waes.item_le.
Proof. intros e1 e2 e3. unfold build_waes.item_le. lia. Qed.

Lemma item_le_total : Total build_waes.item_le.
Proof. intros e1 e2. unfold build_waes.item_le. lia. Qed.

Lemma StronglySorted_keep {A : Type} (R : relation A) (P : A → Prop)
    `{∀ x, Decision (P x)} (l : list A) :
  StronglySorted R l → StronglySorted R (filter P l).
Proof.
  induction 1 as [|x l Hl IH Hx]; [constructor |].
  rewrite filter_cons. destruct (decide (P x)); [|done].
  constructor; [done |].
  apply Forall_forall. intros y Hy%list_elem_of_filter.
  rewrite Forall_forall in Hx. apply Hx. tauto.
Qed.

Lemma StronglySorted_strict (l : list (nat * Q)) :
  StronglySorted build_waes.item_le l → NoDup l.*1 →
  StronglySorted lt l.*1.
Proof.
  induction 1 as [|e l Hl IH He]; intros Hnd; cbn; [constructor |].
  apply NoDup_cons in Hnd as [Hfresh Hnd]. constructor; [by apply IH |].
  apply Forall_forall. intros idx Hidx.
  pose proof Hidx as Hin.
  apply list_elem_of_fmap in Hidx as (e' & -> & He').
  rewrite Forall_forall in He. specialize (He e' He').
  unfold build_waes.item_le in He.
  assert (e.1 ≠ e'.1) by (intros E; apply Hfresh; by rewrite E). lia.
Qed.

Lemma sorted_items_strict (coeffs : Row) :
  StronglySorted build_waes.item_le (build_waes.sorted_items coeffs)
  ∧ NoDup (build_waes.sorted_items coeffs).*1.
Proof.
  split.
  - apply (@StronglySorted_merge_sort _ build_waes.item_le _ item_le_trans
             item_le_total).
  - rewrite sorted_items_perm. apply NoDup_fst_map_to_list.
Qed.

Lemma NoDup_fst_filter {A B : Type} (P : A * B → Prop) `{∀ x, Decision (P x)}
    (l : list (A * B)) :
  NoDup l.*1 → NoDup (filter P l).*1.
Proof.
  induction l as [|e l IH]; [done |]. rewrite fmap_cons.
  intros [Hfresh Hnd]%NoDup_cons. rewrite filter_cons. destruct (decide (P e)); [|by apply IH].
  cbn. apply NoDup_cons. split; [|by apply IH].
  intros Hin. apply Hfresh.
  apply list_elem_of_fmap in Hin as (e' & -> & He'%list_elem_of_filter).
  apply list_elem_of_fmap. exists e'. tauto.
Qed.

Lemma stored_sorted (coeffs : Row) : StronglySorted lt (stored coeffs).*1.
Proof.
  destruct (sorted_items_strict coeffs) as [Hs Hnd]. unfold stored.
  apply StronglySorted_strict.
  - by apply StronglySorted_keep.
  - by apply NoDup_fst_filter.
Qed.

(** ** A property of every family is a property of every row *)

Lemma mapM_Forall {A B : Type} (f : A → option B) (P : B → Prop) (l : list A) k :
  mapM f l = Some k → (∀ x y, x ∈ l → f x = Some y → P y) → Forall P k.
Proof.
  intros Hk Hf. apply Forall_forall. intros y Hy.
  apply list_elem_of_lookup in Hy as [p Hp].
  destruct (mapM_lookup_r _ _ _ _ _ Hk Hp) as (x & Hx & Hfx).
  eapply Hf; [|exact Hfx]. by eapply list_elem_of_lookup_2.
Qed.

Section by_family.
Context (inst : InstanceData) (ws_mode : bool).
Context (x_aijk : gmap XKey nat) (y_tija : gmap YIKey nat) (y_tj : gmap YSKey nat).
Context (Pr : Row * Bound * Bound → Prop).

Lemma accumulated_rows_Forall rows :
  (∀ i a r, build_waes.row_eq2 inst ws_mode x_aijk i a = Some r → Pr r) →
  (∀ i a r, build_waes.row_eq3 inst ws_mode x_aijk i a = Some r → Pr r) →
  (∀ k a r, build_waes.row_eq4 inst ws_mode x_aijk k a = Some r → Pr r) →
  (∀ k a r, build_waes.row_eq5 inst ws_mode x_aijk k a = Some r → Pr r) →
  (∀ k j a r, build_waes.row_eq6 inst x_aijk y_tija k j a = Some r → Pr r) →
  (∀ i j t r, build_waes.row_eq7 inst y_tija y_tj i j t = Some r → Pr r) →
  (∀ i r, i ∈ instance.N inst → build_waes.row_eq8 inst y_tija i = Some r → Pr r) →
  (∀ t j r, build_waes.row_eq9 inst y_tija y_tj t j = Some r → Pr r) →
  (∀ r, build_waes.row_eq10 inst y_tj = Some r → Pr r) →
  accumulated_rows inst ws_mode x_aijk y_tija y_tj = Some rows →
  Forall Pr rows.
Proof.
  intros P2 P3 P4 P5 P6 P7 P8 P9 P10 Hrows.
  unfold accumulated_rows in Hrows.
  apply bind_Some in Hrows as (r2 & H2 & Hrows).
  apply bind_Some in Hrows as (r3 & H3 & Hrows).
  apply bind_Some in Hrows as (r4 & H4 & Hrows).
  apply bind_Some in Hrows as (r5 & H5 & Hrows).
  apply bind_Some in Hrows as (r6 & H6 & Hrows).
  apply bind_Some in Hrows as (r7 & H7 & Hrows).
  apply bind_Some in Hrows as (r8 & H8 & Hrows).
  apply bind_Some in Hrows as (r9 & H9 & Hrows).
  apply bind_Some in Hrows as (r10 & H10 & Hrows).
  injection Hrows as <-.
  rewrite !Forall_app. split_and!.
  - eapply mapM_Forall; [exact H2 |]. intros [i a] r _. apply P2.
  - eapply mapM_Forall; [exact H3 |]. intros [i a] r _. apply P3.
  - eapply mapM_Forall; [exact H4 |]. intros [k a] r _. apply P4.
  - eapply mapM_Forall; [exact H5 |]. intros [k a] r _. apply P5.
  - eapply mapM_Forall; [exact H6 |]. intros [[k j] a] r _. apply P6.
  - eapply mapM_Forall; [exact H7 |]. intros [[i j] t] r _. apply P7.
  - eapply mapM_Forall; [exact H8 |]. intros i r Hi. by apply P8.
  - eapply mapM_Forall; [exact H9 |]. intros [t j] r _. apply P9.
  - apply Forall_singleton. by apply P10.
Qed.

End by_family.

(** Every coefficient slot of an accumulated row is the index of a
    variable. *)
Lemma accumulated_rows_indexed inst ws_mode x_aijk y_tija y_tj rows :
  accumulated_rows inst ws_mode x_aijk y_tija y_tj = Some rows →
  Forall (λ r, ∀ idx, is_Some (r.1.1 !! idx) →
            ∃ vk, index_in x_aijk y_tija y_tj vk = Some idx) rows.
Proof.
  destruct (exist_fresh (dom (instance.Ta inst))) as [a0 Ha0].
  destruct (exist_fresh (dom (instance.Ht inst))) as [t0 Ht0].
  destruct (exist_fresh (list_to_set (instance.N inst) : gset Z)) as [i0 Hi0].
  apply not_elem_of_dom in Ha0, Ht0.
  assert (Hta : t0 ∉ instance.get_tuple (instance.Ta inst) a0).
  { unfold instance.get_tuple. rewrite Ha0. apply not_elem_of_nil. }
  assert (Hht : a0 ∉ instance.get_tuple (instance.Ht inst) t0).
  { unfold instance.get_tuple. rewrite Ht0. apply not_elem_of_nil. }
  assert (Hweaken : ∀ row : Row,
            avoids x_aijk y_tija y_tj (KYI (t0, i0, 0, a0)) row →
            ∀ idx, is_Some (row !! idx) →
              ∃ vk, index_in x_aijk y_tija y_tj vk = Some idx).
  { intros row Hav idx Hidx. destruct (Hav idx Hidx) as (vk & ? & _). eauto. }
  apply accumulated_rows_Forall.
  - intros i a r Hr. apply Hweaken. by eapply row_eq2_avoids.
  - intros i a r Hr. apply Hweaken. by eapply row_eq3_avoids.
  - intros k a r Hr. apply Hweaken. by eapply row_eq4_avoids.
  - intros k a r Hr. apply Hweaken. by eapply row_eq5_avoids.
  - intros k j a r Hr. apply Hweaken. by eapply row_eq6_avoids.
  - intros i j t r Hr. apply Hweaken. by eapply row_eq7_avoids.
  - intros i r Hi Hr. apply Hweaken. eapply row_eq8_avoids; [| exact Hr].
    intros ->. apply Hi0. by apply elem_of_list_to_set.
  - intros t j r Hr. apply Hweaken. by eapply row_eq9_avoids.
  - intros r Hr. apply Hweaken. by eapply row_eq10_avoids.
Qed.

(** The bounds of a row are those of an equality, of a lower bound 0 or of
    an upper bound. *)
Lemma accumulated_rows_bounds inst ws_mode x_aijk y_tija y_tj rows :
  accumulated_rows inst ws_mode x_aijk y_tija y_tj = Some rows →
  Forall (λ r, (∃ rhs, r.1.2 = BNum rhs ∧ r.2 = BNum rhs)
               ∨ (r.1.2 = BNum 0 ∧ r.2 = BStr "inf")
               ∨ (r.1.2 = BStr "ninf" ∧ ∃ hi, r.2 = BNum hi)) rows.
Proof.
  apply accumulated_rows_Forall.
  - intros i a r Hr. unfold build_waes.row_eq2 in Hr.
    repeat (apply bind_Some in Hr as (? & _ & Hr)). injection Hr as <-.
    left. eauto.
  - intros i a r Hr. unfold build_waes.row_eq3 in Hr.
    repeat (apply bind_Some in Hr as (? & _ & Hr)). injection Hr as <-.
    left. eauto.
  - intros k a r Hr. unfold build_waes.row_eq4 in Hr.
    repeat (apply bind_Some in Hr as (? & _ & Hr)). injection Hr as <-.
    right. by left.
  - intros k a r Hr. unfold build_waes.row_eq5 in Hr.
    repeat (apply bind_Some in Hr as (? & _ & Hr)). injection Hr as <-.
    right. by left.
  - intros k j a r Hr. unfold build_waes.row_eq6 in Hr.
    repeat (apply bind_Some in Hr as (? & _ & Hr)). injection Hr as <-.
    right. right. eauto.
  - intros i j t r Hr. unfold build_waes.row_eq7 in Hr.
    repeat (apply bind_Some in Hr as (? & _ & Hr)). injection Hr as <-.
    right. right. eauto.
  - intros i r _ Hr. unfold build_waes.row_eq8 in Hr.
    repeat (apply bind_Some in Hr as (? & _ & Hr)). injection Hr as <-.
    right. right. eauto.
  - intros t j r Hr. unfold build_waes.row_eq9 in Hr.
    repeat (apply bind_Some in Hr as (? & _ & Hr)). injection Hr as <-.
    right. right. eauto.
  - intros r Hr. unfold build_waes.row_eq10 in Hr.
    repeat (apply bind_Some in Hr as (? & _ & Hr)). injection Hr as <-.
    right. right. eauto.
Qed.

(** ** The CSR arrays of an encoded model *)

Lemma build_waes_model_csr inst ws_mode m :
  build_waes.build_waes_model inst ws_mode = Some m →
  ∃ rows,
    accumulated_rows inst ws_mode (build_waes.x_aijk m) (build_waes.y_tija m)
      (build_waes.y_tj m) = Some rows
    ∧ build_waes.csr_offsets m = 0%nat :: offsets_from 0 (stored <$> rows.*1.*1)
    ∧ build_waes.csr_indices m = (concat (stored <$> rows.*1.*1)).*1
    ∧ build_waes.csr_values m = (concat (stored <$> rows.*1.*1)).*2
    ∧ build_waes.constraint_lb m = rows.*1.*2
    ∧ build_waes.constraint_ub m = rows.*2.
Proof.
  unfold build_waes.build_waes_model. intros Hbuild.
  destruct (build_waes.create_variables inst) as [vs|]; [|done].
  cbn [mbind option_bind] in Hbuild. rewrite create_rows_spec in Hbuild.
  destruct (accumulated_rows _ _ _ _ _) as [rows|] eqn:Hrows; [|done].
  cbn in Hbuild. injection Hbuild as <-. cbn.
  exists rows. split; [done |].
  destruct (holds_push rows _ [] holds_init) as (Hoff & Hidx & Hval & Hlb & Hub).
  cbn in Hoff, Hidx, Hval, Hlb, Hub.
  assert (E1 : (stored_row <$> rows).*1.*1 = stored <$> rows.*1.*1).
  { rewrite <- !list_fmap_compose. by apply list_fmap_ext. }
  assert (E2 : (stored_row <$> rows).*1.*2 = rows.*1.*2).
  { rewrite <- !list_fmap_compose. by apply list_fmap_ext. }
  assert (E3 : (stored_row <$> rows).*2 = rows.*2).
  { rewrite <- !list_fmap_compose. by apply list_fmap_ext. }
  rewrite E1 in Hoff, Hidx, Hval. rewrite E2 in Hlb. rewrite E3 in Hub.
  done.
Qed.

Lemma offsets_from_last start rows :
  last (start :: offsets_from start rows) = Some (start + length (concat rows))%nat.
Proof.
  revert start. induction rows as [|entries rows IH]; intros start.
  - cbn. f_equal. lia.
  - cbn [offsets_from concat]. rewrite last_cons_cons, IH, length_app.
    f_equal. lia.
Qed.

Lemma offsets_from_mono start rows r o1 o2 :
  (start :: offsets_from start rows) !! r = Some o1 →
  (start :: offsets_from start rows) !! S r = Some o2 →
  (o1 ≤ o2)%nat.
Proof.
  revert start r. induction rows as [|entries rows IH]; intros start r H1 H2.
  - destruct r; done.
  - destruct r as [|r]; cbn in H1, H2.
    + injection H1 as <-. injection H2 as <-. lia.
    + eapply (IH (start + length entries)%nat r); [exact H1 | exact H2].
Qed.

(** ** The variable catalog in creation order *)

Lemma layout_ok_init inst : layout_ok inst build_waes.vars.init [].
Proof. by repeat split. Qed.

Lemma create_x_log inst vs vs' log :
  catalog_ok inst vs log → layout_ok inst vs log →
  build_waes.create_x inst vs = Some vs' →
  catalog_ok inst vs' (log ++ (KX <$> x_keys inst))
  ∧ layout_ok inst vs' (log ++ (KX <$> x_keys inst)).
Proof.
  intros Hok Hlay. rewrite create_x_flat.
  apply (for__inv_prefix (λ pre st,
    catalog_ok inst st (log ++ (KX <$> pre)) ∧ layout_ok inst st (log ++ (KX <$> pre)))).
  - intros pre [[[a i] j] k] st st' [Hst (Ln & Lt & Ll & Lu)] Hbody.
    cbn in Hbody.
    destruct (float_ (instance.q inst)) as [ub|] eqn:Hub; [|done].
    apply float__Some in Hub as [-> _].
    cbn in Hbody. injection Hbody as <-.
    rewrite fmap_app, app_assoc. cbn. split.
    + eapply catalog_ok_add; [exact Hst | reflexivity | reflexivity | | reflexivity].
      intros [key|key|key]; cbn; try (rewrite decide_False by done; done).
      rewrite lookup_insert. repeat case_decide; congruence.
    + unfold layout_ok. cbn. rewrite Ln, Lt, Ll, Lu, !fmap_app. done.
  - rewrite app_nil_r. done.
Qed.

Lemma create_y_tija_log inst vs vs' log :
  catalog_ok inst vs log → layout_ok inst vs log →
  build_waes.create_y_tija inst vs = Some vs' →
  catalog_ok inst vs' (log ++ (KYI <$> y_tija_keys inst))
  ∧ layout_ok inst vs' (log ++ (KYI <$> y_tija_keys inst)).
Proof.
  intros Hok Hlay. rewrite create_y_tija_flat.
  apply (for__inv_prefix (λ pre st,
    catalog_ok inst st (log ++ (KYI <$> pre)) ∧ layout_ok inst st (log ++ (KYI <$> pre)))).
  - intros pre [[[t i] j] a] st st' [Hst (Ln & Lt & Ll & Lu)] Hbody.
    cbn in Hbody.
    destruct (float_ (instance.q inst)) as [ub|] eqn:Hub; [|done].
    apply float__Some in Hub as [-> _].
    cbn in Hbody. injection Hbody as <-.
    rewrite fmap_app, app_assoc. cbn. split.
    + eapply catalog_ok_add; [exact Hst | reflexivity | reflexivity | | reflexivity].
      intros [key|key|key]; cbn; try (rewrite decide_False by done; done).
      rewrite lookup_insert. repeat case_decide; congruence.
    + unfold layout_ok. cbn. rewrite Ln, Lt, Ll, Lu, !fmap_app. done.
  - rewrite app_nil_r. done.
Qed.

Lemma create_y_tj_log inst vs vs' log :
  catalog_ok inst vs log → layout_ok inst vs log →
  build_waes.create_y_tj inst vs = Some vs' →
  catalog_ok inst vs' (log ++ (KYS <$> y_tj_keys inst))
  ∧ layout_ok inst vs' (log ++ (KYS <$> y_tj_keys inst)).
Proof.
  intros Hok Hlay. rewrite create_y_tj_flat.
  apply (for__inv_prefix (λ pre st,
    catalog_ok inst st (log ++ (KYS <$> pre)) ∧ layout_ok inst st (log ++ (KYS <$> pre)))).
  - intros pre [t j] st st' [Hst (Ln & Lt & Ll & Lu)] Hbody.
    cbn in Hbody.
    destruct (instance.c inst !! t) as [c_t|] eqn:Hc; [|done].
    destruct (instance.shift_cost_multiplier inst !! j) as [mult_j|] eqn:Hmult; [|done].
    cbn in Hbody.
    destruct (float_ (instance.q inst)) as [ub|] eqn:Hub; [|done].
    apply float__Some in Hub as [-> _].
    cbn in Hbody. injection Hbody as <-.
    rewrite fmap_app, app_assoc. cbn. split.
    + eapply catalog_ok_add; [exact Hst | reflexivity | reflexivity | |].
      * intros [key|key|key]; cbn; try (rewrite decide_False by done; done).
        rewrite lookup_insert. repeat case_decide; congruence.
      * cbn. eauto.
    + unfold layout_ok. cbn. rewrite Ln, Lt, Ll, Lu, !fmap_app. done.
  - rewrite app_nil_r. done.
Qed.

Lemma create_variables_log inst vs :
  build_waes.create_variables inst = Some vs →
  catalog_ok inst vs (creation_order inst) ∧ layout_ok inst vs (creation_order inst).
Proof.
  unfold build_waes.create_variables. intros Hrun.
  destruct (build_waes.create_x inst _) as [vs1|] eqn:H1; [|done].
  cbn in Hrun.
  destruct (build_waes.create_y_tija inst vs1) as [vs2|] eqn:H2; [|done].
  cbn in Hrun.
  destruct (create_x_log _ _ _ _ (catalog_ok_init inst) (layout_ok_init inst) H1)
    as [C1 L1].
  destruct (create_y_tija_log _ _ _ _ C1 L1 H2) as [C2 L2].
  destruct (create_y_tj_log _ _ _ _ C2 L2 Hrun) as [C3 L3].
  unfold creation_order. cbn in C3, L3. rewrite <- app_assoc in C3, L3. done.
Qed.

(** ** The variables of a demand row *)

(** The window loop nest only adds slots of execution variables of its
    activity and origin, for shifts of [M] and intervals of the window. *)
Lemma window_terms_keys inst x_aijk a i until row row' idx :
  build_waes.window_terms inst x_aijk a i until row = Some row' →
  is_Some (row' !! idx) →
  is_Some (row !! idx)
  ∨ ∃ j k, j ∈ instance.M inst ∧ i <= k <= until ∧ x_aijk !! (a, i, j, k) = Some idx.
Proof.
  unfold build_waes.window_terms. intros Hrun.
  revert idx. revert Hrun.
  apply (for__inv (λ r, ∀ idx, is_Some (r !! idx) →
    is_Some (row !! idx)
    ∨ ∃ j k, j ∈ instance.M inst ∧ i <= k <= until
             ∧ x_aijk !! (a, i, j, k) = Some idx)); [|by left].
  intros j r r' Hj Hr.
  apply (for__inv (λ r, ∀ idx, is_Some (r !! idx) →
    is_Some (row !! idx)
    ∨ ∃ j k, j ∈ instance.M inst ∧ i <= k <= until
             ∧ x_aijk !! (a, i, j, k) = Some idx)); [|done].
  intros k r1 r1' Hk%elem_of_range Hr1 Hbody idx Hidx.
  destruct (x_aijk !! (a, i, j, k)) as [idx'|] eqn:Hx; [|done].
  destruct (instance.b inst !! (k, j)) as [b_kj|]; [|done].
  cbn in Hbody. destruct (float_ b_kj) as [b_float|]; [|done].
  cbn in Hbody. injection Hbody as <-. unfold build_waes.row_add in Hidx.
  destruct (decide (idx = idx')) as [->|Hne].
  - right. exists j, k. split; [done |]. split; [lia | done].
  - rewrite lookup_insert_ne in Hidx by done. by apply Hr1.
Qed.

(** ** The Audit runs a list of checks that the tolerance filters *)

Lemma recorded_app tol cs1 cs2 :
  recorded tol (cs1 ++ cs2) = recorded tol cs1 ++ recorded tol cs2.
Proof. apply filter_app. Qed.

Lemma record_recorded tol check issues :
  record tol check issues = issues ++ recorded tol [check].
Proof.
  unfold record, recorded. rewrite filter_cons, filter_nil.
  destruct (audit.exceeds _ tol); [by rewrite decide_True |].
  rewrite decide_False by done. by rewrite app_nil_r.
Qed.

Section parts.
Context (P : audit.AuditIssue → Prop).

Lemma runs_checks_one (check : option audit.AuditIssue)
    (part : Q → list audit.AuditIssue → option (list audit.AuditIssue)) :
  (∀ tol issues, part tol issues = c ← check; Some (record tol c issues)) →
  (∀ c, check = Some c → P c) →
  runs_checks P part.
Proof.
  intros Hpart HP. exists (c ← check; Some [c]). split.
  - intros tol issues. rewrite Hpart. destruct check as [c|]; [|done]. cbn.
    by rewrite record_recorded.
  - intros cs Hcs. destruct check as [c|]; [|done]. cbn in Hcs.
    injection Hcs as <-. apply Forall_singleton. by apply HP.
Qed.

Lemma runs_checks_seq part1 part2 :
  runs_checks P part1 → runs_checks P part2 →
  runs_checks P (λ tol issues, part1 tol issues ≫= part2 tol).
Proof.
  intros (checks1 & H1 & P1) (checks2 & H2 & P2).
  exists (cs1 ← checks1; cs2 ← checks2; Some (cs1 ++ cs2)). split.
  - intros tol issues. rewrite H1. destruct checks1 as [cs1|]; [|done]. cbn.
    rewrite H2. destruct checks2 as [cs2|]; [|done]. cbn.
    by rewrite recorded_app, app_assoc.
  - intros cs Hcs. destruct checks1 as [cs1|]; [|done].
    destruct checks2 as [cs2|]; [|done]. cbn in Hcs. injection Hcs as <-.
    apply Forall_app. split; [by apply P1 | by apply P2].
Qed.

Lemma runs_checks_for {A : Type} (l : list A)
    (body : Q → A → list audit.AuditIssue → option (list audit.AuditIssue)) :
  (∀ x, runs_checks P (λ tol, body tol x)) →
  runs_checks P (λ tol, for_ l (body tol)).
Proof.
  intros Hbody. induction l as [|x l IH].
  - exists (Some []). split; [|by intros cs [= <-]].
    intros tol issues. cbn. by rewrite app_nil_r.
  - apply (runs_checks_seq (λ tol, body tol x) (λ tol, for_ l (body tol)));
      [apply Hbody | exact IH].
Qed.

Lemma runs_checks_ext part1 part2 :
  (∀ tol issues, part1 tol issues = part2 tol issues) →
  runs_checks P part1 → runs_checks P part2.
Proof.
  intros Hext (checks & H & HP). exists checks. split; [|done].
  intros tol issues. by rewrite <- Hext.
Qed.

End parts.

Lemma audit_integrality_recorded {K : Type} tol prefix (fmt : K → string)
    (items : list (K * Q)) issues :
  audit.audit_integrality tol prefix fmt items issues
  = issues ++ integrality_issues tol prefix fmt items.
Proof.
  unfold audit.audit_integrality. revert issues.
  induction items as [|[key value] items IH]; intros issues.
  - cbn. by rewrite app_nil_r.
  - cbn [foldl]. rewrite IH. cbn [integrality_issues mbind list_bind].
    rewrite app_assoc. f_equal.
    unfold audit.check_eq, far_from_integer. cbn.
    destruct (audit.exceeds _ tol); [done | by rewrite app_nil_r].
Qed.

(** The checks of the integrality pass over the items of a solved dict. *)
Lemma integrality_issues_recorded {K : Type} tol prefix (fmt : K → string)
    (items : list (K * Q)) :
  integrality_issues tol prefix fmt items
  = recorded tol
      ((λ item, {| audit.equation := "Eq(11)";
                   audit.detail := prefix +:+ fmt item.1;
                   audit.violation := Qabs (item.2 - inject_Z (round item.2)) |})
       <$> items).
Proof.
  unfold integrality_issues, recorded, far_from_integer.
  induction items as [|item items IH]; [done |].
  cbn [mbind list_bind fmap list_fmap]. rewrite filter_cons. cbn.
  destruct (audit.exceeds _ tol).
  - rewrite decide_True by done. cbn. f_equal. exact IH.
  - rewrite decide_False by done. cbn. exact IH.
Qed.

Lemma runs_checks_integrality {K : Type} prefix (fmt : K → string)
    (items : list (K * Q)) :
  runs_checks (λ c, audit.equation c ∈ equation_tags)
    (λ tol issues, Some (audit.audit_integrality tol prefix fmt items issues)).
Proof.
  eexists (Some _). split.
  - intros tol issues. cbn.
    by rewrite audit_integrality_recorded, integrality_issues_recorded.
  - intros cs [= <-]. apply Forall_fmap, Forall_forall. intros item _. cbn.
    unfold equation_tags. repeat constructor.
Qed.

Section steps.
Context (inst : InstanceData) (solved : SolvedValues) (ws_mode : bool).

Lemma runs_checks_eq2 i a :
  runs_checks (λ c, audit.equation c ∈ equation_tags)
    (λ tol, audit.audit_eq2 inst solved ws_mode tol i a).
Proof.
  unfold audit.audit_eq2, audit.check_eq.
  apply (runs_checks_one _
    (until ← audit._until_a1 inst i a ws_mode;
     lhs ← audit.executed inst solved a i until;
     rhs ← instance.d inst !! (a, i);
     Some {| audit.equation := "Eq(2)";
             audit.detail := "i=" +:+ str i +:+ ", a=" +:+ str a;
             audit.violation := Qabs (lhs - rhs) |})).
  - intros tol issues.
    destruct (audit._until_a1 inst i a ws_mode) as [until|]; [|done]. cbn.
    destruct (audit.executed inst solved a i until) as [lhs|]; [|done]. cbn.
    by destruct (instance.d inst !! (a, i)).
  - intros c Hc. repeat (apply bind_Some in Hc as (? & _ & Hc)).
    injection Hc as <-. cbn. unfold equation_tags. repeat constructor.
Qed.

Lemma runs_checks_eq3 i a :
  runs_checks (λ c, audit.equation c ∈ equation_tags)
    (λ tol, audit.audit_eq3 inst solved ws_mode tol i a).
Proof.
  unfold audit.audit_eq3, audit.check_eq.
  apply (runs_checks_one _
    (until ← audit._until_a2 inst i a ws_mode;
     lhs ← audit.executed inst solved a i until;
     rhs ← instance.d inst !! (a, i);
     Some {| audit.equation := "Eq(3)";
             audit.detail := "i=" +:+ str i +:+ ", a=" +:+ str a;
             audit.violation := Qabs (lhs - rhs) |})).
  - intros tol issues.
    destruct (audit._until_a2 inst i a ws_mode) as [until|]; [|done]. cbn.
    destruct (audit.executed inst solved a i until) as [lhs|]; [|done]. cbn.
    by destruct (instance.d inst !! (a, i)).
  - intros c Hc. repeat (apply bind_Some in Hc as (? & _ & Hc)).
    injection Hc as <-. cbn. unfold equation_tags. repeat constructor.
Qed.

Lemma runs_checks_eq4 k a :
  runs_checks (λ c, audit.equation c ∈ equation_tags)
    (λ tol, audit.audit_eq4 inst solved ws_mode tol k a).
Proof.
  unfold audit.audit_eq4, audit.check_ge.
  apply (runs_checks_one _
    (until ← audit._until_a1 inst k a ws_mode;
     lhs ← audit.executed inst solved a k until;
     rhs ← audit.required inst solved a k;
     Some {| audit.equation := "Eq(4)";
             audit.detail := "k=" +:+ str k +:+ ", a=" +:+ str a;
             audit.violation := (rhs - lhs)%Q |})).
  - intros tol issues.
    destruct (audit._until_a1 inst k a ws_mode) as [until|]; [|done]. cbn.
    destruct (audit.executed inst solved a k until) as [lhs|]; [|done]. cbn.
    by destruct (audit.required inst solved a k).
  - intros c Hc. repeat (apply bind_Some in Hc as (? & _ & Hc)).
    injection Hc as <-. cbn. unfold equation_tags. repeat constructor.
Qed.

Lemma runs_checks_eq5 k a :
  runs_checks (λ c, audit.equation c ∈ equation_tags)
    (λ tol, audit.audit_eq5 inst solved ws_mode tol k a).
Proof.
  unfold audit.audit_eq5, audit.check_ge.
  apply (runs_checks_one _
    (until ← audit._until_a2 inst k a ws_mode;
     lhs ← audit.executed inst solved a k until;
     rhs ← audit.required inst solved a k;
     Some {| audit.equation := "Eq(5)";
             audit.detail := "k=" +:+ str k +:+ ", a=" +:+ str a;
             audit.violation := (rhs - lhs)%Q |})).
  - intros tol issues.
    destruct (audit._until_a2 inst k a ws_mode) as [until|]; [|done]. cbn.
    destruct (audit.executed inst solved a k until) as [lhs|]; [|done]. cbn.
    by destruct (audit.required inst solved a k).
  - intros c Hc. repeat (apply bind_Some in Hc as (? & _ & Hc)).
    injection Hc as <-. cbn. unfold equation_tags. repeat constructor.
Qed.

Lemma runs_checks_eq6 k j a :
  runs_checks (λ c, audit.equation c ∈ equation_tags)
    (λ tol, audit.audit_eq6 inst solved tol k j a).
Proof.
  unfold audit.audit_eq6, audit.check_le.
  apply (runs_checks_one _
    (lhs ← sum_ (range 1 (k + 1))
            (λ i, solution_types.x_aijk solved !! (a, i, j, k));
     profiles ← instance.Ta inst !! a;
     rhs ← sum_ profiles (λ t, solution_types.y_tija solved !! (t, k, j, a));
     Some {| audit.equation := "Eq(6)";
             audit.detail := "k=" +:+ str k +:+ ", j=" +:+ str j +:+ ", a=" +:+ str a;
             audit.violation := (lhs - rhs)%Q |})).
  - intros tol issues.
    destruct (sum_ (range 1 (k + 1)) _) as [lhs|]; [|done]. cbn.
    destruct (instance.Ta inst !! a) as [profiles|]; [|done]. cbn.
    by destruct (sum_ profiles _).
  - intros c Hc. repeat (apply bind_Some in Hc as (? & _ & Hc)).
    injection Hc as <-. cbn. unfold equation_tags. repeat constructor.
Qed.

Lemma runs_checks_eq7 i j t :
  runs_checks (λ c, audit.equation c ∈ equation_tags)
    (λ tol, audit.audit_eq7 inst solved tol i j t).
Proof.
  unfold audit.audit_eq7, audit.check_le.
  apply (runs_checks_one _
    (acts ← instance.Ht inst !! t;
     lhs ← sum_ acts (λ a, solution_types.y_tija solved !! (t, i, j, a));
     rhs ← solution_types.y_tj solved !! (t, j);
     Some {| audit.equation := "Eq(7)";
             audit.detail := "i=" +:+ str i +:+ ", j=" +:+ str j +:+ ", t=" +:+ str t;
             audit.violation := (lhs - rhs)%Q |})).
  - intros tol issues.
    destruct (instance.Ht inst !! t) as [acts|]; [|done]. cbn.
    destruct (sum_ acts _) as [lhs|]; [|done]. cbn.
    by destruct (solution_types.y_tj solved !! (t, j)).
  - intros c Hc. repeat (apply bind_Some in Hc as (? & _ & Hc)).
    injection Hc as <-. cbn. unfold equation_tags. repeat constructor.
Qed.

Lemma runs_checks_eq8 i :
  runs_checks (λ c, audit.equation c ∈ equation_tags)
    (λ tol, audit.audit_eq8 inst solved tol i).
Proof.
  unfold audit.audit_eq8, audit.check_le.
  apply (runs_checks_one _
    (lhs ← sum_ (t ← instance.T inst; j ← instance.M inst; a ← instance.A inst;
                [(t, j, a)])
            (λ '(t, j, a), solution_types.y_tija solved !! (t, i, j, a));
     rhs ← float_ (instance.q inst);
     Some {| audit.equation := "Eq(8)";
             audit.detail := "i=" +:+ str i;
             audit.violation := (lhs - rhs)%Q |})).
  - intros tol issues. destruct (sum_ _ _); [|done]. cbn.
    by destruct (float_ (instance.q inst)).
  - intros c Hc. repeat (apply bind_Some in Hc as (? & _ & Hc)).
    injection Hc as <-. cbn. unfold equation_tags. repeat constructor.
Qed.

Lemma runs_checks_eq9 t j :
  runs_checks (λ c, audit.equation c ∈ equation_tags)
    (λ tol, audit.audit_eq9 inst solved tol t j).
Proof.
  unfold audit.audit_eq9, audit.check_le.
  apply (runs_checks_one _
    (window ← instance.Oj inst !! j;
     lhs ← for_ window (λ i acc,
             acts ← instance.Ht inst !! t;
             for_ acts (λ a acc,
               y ← solution_types.y_tija solved !! (t, i, j, a);
               Some (acc + y)%Q) acc) 0%Q;
     y ← solution_types.y_tj solved !! (t, j);
     break_free ← float_ (instance.f inst - instance.p inst);
     Some {| audit.equation := "Eq(9)";
             audit.detail := "t=" +:+ str t +:+ ", j=" +:+ str j;
             audit.violation := (lhs - break_free * y)%Q |})).
  - intros tol issues.
    destruct (instance.Oj inst !! j) as [window|]; [|done]. cbn.
    destruct (for_ window _ _) as [lhs|]; [|done]. cbn.
    destruct (solution_types.y_tj solved !! (t, j)); [|done]. cbn.
    by destruct (float_ (instance.f inst - instance.p inst)).
  - intros c Hc. repeat (apply bind_Some in Hc as (? & _ & Hc)).
    injection Hc as <-. cbn. unfold equation_tags. repeat constructor.
Qed.

Lemma runs_checks_eq10 :
  runs_checks (λ c, audit.equation c ∈ equation_tags)
    (λ tol, audit.audit_eq10 inst solved tol).
Proof.
  unfold audit.audit_eq10, audit.check_le.
  apply (runs_checks_one _
    (lhs ← sum_ (j ← instance.M2 inst; t ← instance.T inst; [(t, j)])
            (λ key, solution_types.y_tj solved !! key);
     total ← sum_ (j ← instance.M inst; t ← instance.T inst; [(t, j)])
              (λ key, solution_types.y_tj solved !! key);
     Some {| audit.equation := "Eq(10)";
             audit.detail := "part-time-share";
             audit.violation := (lhs - instance.w inst * total)%Q |})).
  - intros tol issues.
    destruct (sum_ (j ← instance.M2 inst; t ← instance.T inst; [(t, j)]) _)
      as [lhs|]; [|done]. cbn.
    by destruct (sum_ _ _).
  - intros c Hc. repeat (apply bind_Some in Hc as (? & _ & Hc)).
    injection Hc as <-. cbn. unfold equation_tags. repeat constructor.
Qed.

(** The whole Audit, up to the report. *)
Lemma run_audits_checks :
  ∃ checks : option (list audit.AuditIssue),
    (∀ tol, audit.run_audits inst solved ws_mode tol
            = cs ← checks;
              Some {| audit.passed := bool_decide (recorded tol cs = []);
                      audit.tolerance := tol;
                      audit.issues := recorded tol cs |})
    ∧ (∀ cs, checks = Some cs → Forall (λ c, audit.equation c ∈ equation_tags) cs).
Proof.
  pose (Ptag := λ c, audit.equation c ∈ equation_tags).
  assert (Hall : runs_checks Ptag (λ tol issues,
    issues ← for_ (instance.N inst) (λ i,
              for_ (sorted (audit.set_BA1 inst)) (λ a,
                audit.audit_eq2 inst solved ws_mode tol i a)) issues;
    issues ← for_ (instance.N inst) (λ i,
              for_ (sorted (audit.set_BA2 inst)) (λ a,
                audit.audit_eq3 inst solved ws_mode tol i a)) issues;
    issues ← for_ (instance.N inst) (λ k,
              for_ (sorted (audit.set_CA1 inst)) (λ a,
                audit.audit_eq4 inst solved ws_mode tol k a)) issues;
    issues ← for_ (instance.N inst) (λ k,
              for_ (sorted (audit.set_CA2 inst)) (λ a,
                audit.audit_eq5 inst solved ws_mode tol k a)) issues;
    issues ← for_ (instance.N inst) (λ k,
              for_ (instance.M inst) (λ j,
              for_ (instance.A inst) (λ a,
                audit.audit_eq6 inst solved tol k j a))) issues;
    issues ← for_ (instance.N inst) (λ i,
              for_ (instance.M inst) (λ j,
              for_ (instance.T inst) (λ t,
                audit.audit_eq7 inst solved tol i j t))) issues;
    issues ← for_ (instance.N inst) (λ i, audit.audit_eq8 inst solved tol i) issues;
    issues ← for_ (instance.T inst) (λ t,
              for_ (instance.M1 inst) (λ j,
                audit.audit_eq9 inst solved tol t j)) issues;
    issues ← audit.audit_eq10 inst solved tol issues;
    issues ← Some (audit.audit_integrality tol "x" str4
                     (map_to_list (solution_types.x_aijk solved)) issues);
    issues ← Some (audit.audit_integrality tol "y_tija" str4
                     (map_to_list (solution_types.y_tija solved)) issues);
    Some (audit.audit_integrality tol "y_tj" str2
            (map_to_list (solution_types.y_tj solved)) issues))).
  { apply (runs_checks_seq Ptag
      (λ tol, for_ (instance.N inst) (λ i,
                for_ (sorted (audit.set_BA1 inst)) (λ a,
                  audit.audit_eq2 inst solved ws_mode tol i a)))).
    { apply (runs_checks_for Ptag _ (λ tol i, for_ _ (λ a, audit.audit_eq2 _ _ _ tol i a))).
      intros i. apply (runs_checks_for Ptag _ (λ tol a, audit.audit_eq2 _ _ _ tol i a)).
      intros a. apply runs_checks_eq2. }
    apply (runs_checks_seq Ptag
      (λ tol, for_ (instance.N inst) (λ i,
                for_ (sorted (audit.set_BA2 inst)) (λ a,
                  audit.audit_eq3 inst solved ws_mode tol i a)))).
    { apply (runs_checks_for Ptag _ (λ tol i, for_ _ (λ a, audit.audit_eq3 _ _ _ tol i a))).
      intros i. apply (runs_checks_for Ptag _ (λ tol a, audit.audit_eq3 _ _ _ tol i a)).
      intros a. apply runs_checks_eq3. }
    apply (runs_checks_seq Ptag
      (λ tol, for_ (instance.N inst) (λ k,
                for_ (sorted (audit.set_CA1 inst)) (λ a,
                  audit.audit_eq4 inst solved ws_mode tol k a)))).
    { apply (runs_checks_for Ptag _ (λ tol k, for_ _ (λ a, audit.audit_eq4 _ _ _ tol k a))).
      intros k. apply (runs_checks_for Ptag _ (λ tol a, audit.audit_eq4 _ _ _ tol k a)).
      intros a. apply runs_checks_eq4. }
    apply (runs_checks_seq Ptag
      (λ tol, for_ (instance.N inst) (λ k,
                for_ (sorted (audit.set_CA2 inst)) (λ a,
                  audit.audit_eq5 inst solved ws_mode tol k a)))).
    { apply (runs_checks_for Ptag _ (λ tol k, for_ _ (λ a, audit.audit_eq5 _ _ _ tol k a))).
      intros k. apply (runs_checks_for Ptag _ (λ tol a, audit.audit_eq5 _ _ _ tol k a)).
      intros a. apply runs_checks_eq5. }
    apply (runs_checks_seq Ptag
      (λ tol, for_ (instance.N inst) (λ k,
                for_ (instance.M inst) (λ j,
                for_ (instance.A inst) (λ a,
                  audit.audit_eq6 inst solved tol k j a))))).
    { apply (runs_checks_for Ptag _
        (λ tol k, for_ _ (λ j, for_ _ (λ a, audit.audit_eq6 _ _ tol k j a)))).
      intros k. apply (runs_checks_for Ptag _
        (λ tol j, for_ _ (λ a, audit.audit_eq6 _ _ tol k j a))).
      intros j. apply (runs_checks_for Ptag _ (λ tol a, audit.audit_eq6 _ _ tol k j a)).
      intros a. apply runs_checks_eq6. }
    apply (runs_checks_seq Ptag
      (λ tol, for_ (instance.N inst) (λ i,
                for_ (instance.M inst) (λ j,
                for_ (instance.T inst) (λ t,
                  audit.audit_eq7 inst solved tol i j t))))).
    { apply (runs_checks_for Ptag _
        (λ tol i, for_ _ (λ j, for_ _ (λ t, audit.audit_eq7 _ _ tol i j t)))).
      intros i. apply (runs_checks_for Ptag _
        (λ tol j, for_ _ (λ t, audit.audit_eq7 _ _ tol i j t))).
      intros j. apply (runs_checks_for Ptag _ (λ tol t, audit.audit_eq7 _ _ tol i j t)).
      intros t. apply runs_checks_eq7. }
    apply (runs_checks_seq Ptag
      (λ tol, for_ (instance.N inst) (λ i, audit.audit_eq8 inst solved tol i))).
    { apply (runs_checks_for Ptag _ (λ tol i, audit.audit_eq8 _ _ tol i)).
      intros i. apply runs_checks_eq8. }
    apply (runs_checks_seq Ptag
      (λ tol, for_ (instance.T inst) (λ t,
                for_ (instance.M1 inst) (λ j,
                  audit.audit_eq9 inst solved tol t j)))).
    { apply (runs_checks_for Ptag _ (λ tol t, for_ _ (λ j, audit.audit_eq9 _ _ tol t j))).
      intros t. apply (runs_checks_for Ptag _ (λ tol j, audit.audit_eq9 _ _ tol t j)).
      intros j. apply runs_checks_eq9. }
    apply (runs_checks_seq Ptag (λ tol, audit.audit_eq10 inst solved tol));
      [apply runs_checks_eq10 |].
    apply (runs_checks_seq Ptag
      (λ tol issues, Some (audit.audit_integrality tol "x" str4
                             (map_to_list (solution_types.x_aijk solved)) issues)));
      [apply runs_checks_integrality |].
    apply (runs_checks_seq Ptag
      (λ tol issues, Some (audit.audit_integrality tol "y_tija" str4
                             (map_to_list (solution_types.y_tija solved)) issues)));
      [apply runs_checks_integrality |].
    apply runs_checks_integrality. }
  destruct Hall as (checks & Hrun & Htags). exists checks. split; [|exact Htags].
  intros tol. specialize (Hrun tol []). unfold audit.run_audits.
  destruct checks as [cs|]; cbn in Hrun |- *.
  - repeat (apply bind_Some in Hrun as (? & -> & Hrun); cbn [mbind option_bind]).
    injection Hrun as ->. reflexivity.
  - repeat match goal with
           | |- context [for_ ?l ?b ?s ≫= _] =>
               destruct (for_ l b s); cbn [mbind option_bind] in *; [|reflexivity]
           | |- context [audit.audit_eq10 ?i ?s ?t ?x ≫= _] =>
               destruct (audit.audit_eq10 i s t x); cbn [mbind option_bind] in *;
               [|reflexivity]
           end.
    done.
Qed.

End steps.

Lemma recorded_sublist tol tol' checks :
  (tol <= tol')%Q → recorded tol' checks `sublist_of` recorded tol checks.
Proof.
  intros Hle. unfold recorded. induction checks as [|c checks IH]; [done |].
  rewrite !filter_cons.
  destruct (decide (audit.exceeds (audit.violation c) tol' = true)) as [H'|H'].
  - rewrite decide_True; [by apply sublist_skip |].
    unfold audit.exceeds in *. apply negb_true_iff in H'. apply negb_true_iff.
    destruct (Qle_bool (audit.violation c) tol) eqn:E; [|done].
    apply Qle_bool_iff in E.
    assert (Hc : Qle_bool (audit.violation c) tol' = true)
      by (apply Qle_bool_iff; lra).
    congruence.
  - destruct (decide (audit.exceeds (audit.violation c) tol = true));
      [by apply sublist_cons | done].
Qed.

(** ** The verdict of a check is that of its row within the tolerance *)

Lemma app_nil_iff {A : Type} (l1 l2 : list A) : l1 ++ l2 = [] ↔ l1 = [] ∧ l2 = [].
Proof.
  split; [apply app_eq_nil | by intros [-> ->]].
Qed.

Section verdicts.
Context (tol : Q) (vector : list Q).

Lemma verdict_of_gap (gap : Q) (ok : bool) (issue : audit.AuditIssue)
    (issues : list audit.AuditIssue) :
  (ok = true ↔ (gap <= tol)%Q) →
  ∃ new, (if audit.exceeds gap tol then issues ++ [issue] else issues) = issues ++ new
         ∧ (new = [] ↔ ok = true).
Proof.
  intros Hok. unfold audit.exceeds.
  destruct (Qle_bool gap tol) eqn:Hle; cbn.
  - exists []. rewrite app_nil_r. split; [done |]. split; [|done].
    intros _. apply Hok. by apply Qle_bool_iff.
  - exists [issue]. split; [done |]. split; [done |].
    intros Hgood%Hok%Qle_bool_iff. congruence.
Qed.

Lemma verdict_eq (coeffs : Row) eq lhs rhs detail issues :
  well_scaled coeffs = true →
  (row_dot coeffs vector == lhs)%Q →
  ∃ new, audit.check_eq tol eq lhs rhs detail issues = issues ++ new
         ∧ (new = [] ↔ within tol vector (stored_row (coeffs, BNum rhs, BNum rhs)) = true).
Proof.
  intros Hscaled Hdot. unfold audit.check_eq. apply verdict_of_gap.
  change (within tol vector (stored_row (coeffs, BNum rhs, BNum rhs)))
    with (Qle_bool (rhs - tol) (dot (stored coeffs) vector)
          && Qle_bool (dot (stored coeffs) vector) (rhs + tol)).
  rewrite andb_true_iff, !Qle_bool_iff, (dot_stored _ _ Hscaled), Hdot.
  rewrite Qabs_Qle_condition. split; intros [? ?]; split; lra.
Qed.

Lemma verdict_ge (coeffs : Row) eq lhs rhs detail issues :
  well_scaled coeffs = true →
  (row_dot coeffs vector == lhs - rhs)%Q →
  ∃ new, audit.check_ge tol eq lhs rhs detail issues = issues ++ new
         ∧ (new = [] ↔ within tol vector (stored_row (coeffs, BNum 0, BStr "inf")) = true).
Proof.
  intros Hscaled Hdot. unfold audit.check_ge. apply verdict_of_gap.
  change (within tol vector (stored_row (coeffs, BNum 0, BStr "inf")))
    with (Qle_bool (0 - tol) (dot (stored coeffs) vector) && true).
  rewrite andb_true_r, Qle_bool_iff, (dot_stored _ _ Hscaled), Hdot.
  split; intros ?; lra.
Qed.

Lemma verdict_le (coeffs : Row) hi eq lhs rhs detail issues :
  well_scaled coeffs = true →
  (row_dot coeffs vector - hi == lhs - rhs)%Q →
  ∃ new, audit.check_le tol eq lhs rhs detail issues = issues ++ new
         ∧ (new = [] ↔ within tol vector (stored_row (coeffs, BStr "ninf", BNum hi)) = true).
Proof.
  intros Hscaled Hdot. unfold audit.check_le. apply verdict_of_gap.
  change (within tol vector (stored_row (coeffs, BStr "ninf", BNum hi)))
    with (true && Qle_bool (dot (stored coeffs) vector) (hi + tol)).
  rewrite andb_true_l, Qle_bool_iff, (dot_stored _ _ Hscaled).
  split; intros ?; lra.
Qed.

(** A loop of checks against the rows of the same range. *)
Lemma verdict_loop {A : Type} (l : list A) (mk : A → option (Row * Bound * Bound))
    (body : A → list audit.AuditIssue → option (list audit.AuditIssue)) rows :
  mapM mk l = Some rows →
  (∀ r, r ∈ rows → well_scaled r.1.1 = true) →
  (∀ x r issues, mk x = Some r → well_scaled r.1.1 = true →
     ∃ new, body x issues = Some (issues ++ new)
            ∧ (new = [] ↔ within tol vector (stored_row r) = true)) →
  ∀ issues, ∃ extra,
    for_ l body issues = Some (issues ++ extra)
    ∧ (extra = [] ↔ forallb (within tol vector) (stored_row <$> rows) = true).
Proof.
  intros Hrows Hscaled Hbody. revert rows Hrows Hscaled.
  induction l as [|x l IH]; intros rows Hrows Hscaled issues.
  - injection Hrows as <-. exists []. by rewrite app_nil_r.
  - cbn in Hrows. apply bind_Some in Hrows as (r & Hr & Hrows).
    apply bind_Some in Hrows as (rows' & Hrows' & Hrows). injection Hrows as <-.
    destruct (Hbody x r issues Hr) as (new & Hx & Hnew);
      [apply Hscaled; by left |].
    destruct (IH rows' Hrows') with (issues := issues ++ new) as (extra & Hl & Hextra);
      [intros r' Hr'; apply Hscaled; by right |].
    exists (new ++ extra). cbn [for_]. rewrite Hx. cbn [mbind option_bind].
    rewrite Hl, app_assoc. split; [done |].
    rewrite app_nil_iff, Hnew, Hextra, fmap_cons. cbn [forallb].
    by rewrite andb_true_iff.
Qed.

End verdicts.

Section family_verdicts.
Context (inst : InstanceData) (ws_mode : bool) (vector : list Q).
Context (x_aijk : gmap XKey nat) (y_tija : gmap YIKey nat) (y_tj : gmap YSKey nat).
Context (solved : SolvedValues).
Context (Hx : solution_types.x_aijk solved = value_at vector <$> x_aijk).
Context (Hyi : solution_types.y_tija solved = value_at vector <$> y_tija).
Context (Hys : solution_types.y_tj solved = value_at vector <$> y_tj).
Context (tol : Q).

Ltac sync_step :=
  cbn in *; rewrite ?Hx, ?Hyi, ?Hys, ?lookup_fmap;
  match goal with
  | Hb : (?m !! ?key ≫= _) = Some _ |- _ =>
      destruct (m !! key); [|done]; cbn in *;
      injection Hb as <-; eexists; split; [reflexivity |];
      rewrite ?row_dot_add, ?row_dot_sub; ring
  end.

Lemma audit_eq2_verdict i a r issues :
  build_waes.row_eq2 inst ws_mode x_aijk i a = Some r →
  well_scaled r.1.1 = true →
  ∃ new, audit.audit_eq2 inst solved ws_mode tol i a issues = Some (issues ++ new)
         ∧ (new = [] ↔ within tol vector (stored_row r) = true).
Proof.
  unfold build_waes.row_eq2, audit.audit_eq2. intros Hrow Hscaled.
  change (audit._until_a1 inst i a ws_mode) with (build_waes._until_a1 inst i a ws_mode).
  destruct (build_waes._until_a1 inst i a ws_mode) as [until|]; [|done]. cbn in *.
  destruct (build_waes.window_terms inst x_aijk a i until ∅) as [row|] eqn:Hw; [|done].
  destruct (window_terms_executed inst vector x_aijk solved Hx _ _ _ _ _ Hw)
    as (e & -> & Hd).
  cbn in *. destruct (instance.d inst !! (a, i)) as [rhs|]; [|done]. cbn in *.
  injection Hrow as <-. cbn in Hscaled.
  destruct (verdict_eq tol vector row "Eq(2)" e rhs
              ("i=" +:+ str i +:+ ", a=" +:+ str a) issues Hscaled)
    as (new & -> & Hnew).
  - rewrite Hd, row_dot_empty. ring.
  - by exists new.
Qed.

Lemma audit_eq3_verdict i a r issues :
  build_waes.row_eq3 inst ws_mode x_aijk i a = Some r →
  well_scaled r.1.1 = true →
  ∃ new, audit.audit_eq3 inst solved ws_mode tol i a issues = Some (issues ++ new)
         ∧ (new = [] ↔ within tol vector (stored_row r) = true).
Proof.
  unfold build_waes.row_eq3, audit.audit_eq3. intros Hrow Hscaled.
  change (audit._until_a2 inst i a ws_mode) with (build_waes._until_a2 inst i a ws_mode).
  destruct (build_waes._until_a2 inst i a ws_mode) as [until|]; [|done]. cbn in *.
  destruct (build_waes.window_terms inst x_aijk a i until ∅) as [row|] eqn:Hw; [|done].
  destruct (window_terms_executed inst vector x_aijk solved Hx _ _ _ _ _ Hw)
    as (e & -> & Hd).
  cbn in *. destruct (instance.d inst !! (a, i)) as [rhs|]; [|done]. cbn in *.
  injection Hrow as <-. cbn in Hscaled.
  destruct (verdict_eq tol vector row "Eq(3)" e rhs
              ("i=" +:+ str i +:+ ", a=" +:+ str a) issues Hscaled)
    as (new & -> & Hnew).
  - rewrite Hd, row_dot_empty. ring.
  - by exists new.
Qed.

Lemma audit_eq4_verdict k a r issues :
  build_waes.row_eq4 inst ws_mode x_aijk k a = Some r →
  well_scaled r.1.1 = true →
  ∃ new, audit.audit_eq4 inst solved ws_mode tol k a issues = Some (issues ++ new)
         ∧ (new = [] ↔ within tol vector (stored_row r) = true).
Proof.
  unfold build_waes.row_eq4, audit.audit_eq4. intros Hrow Hscaled.
  change (audit._until_a1 inst k a ws_mode) with (build_waes._until_a1 inst k a ws_mode).
  destruct (build_waes._until_a1 inst k a ws_mode) as [until|]; [|done]. cbn in *.
  destruct (build_waes.window_terms inst x_aijk a k until ∅) as [row|] eqn:Hw; [|done].
  destruct (window_terms_executed inst vector x_aijk solved Hx _ _ _ _ _ Hw)
    as (e & -> & Hd).
  cbn in *.
  destruct (build_waes.parent_terms inst x_aijk a k row) as [row2|] eqn:Hp; [|done].
  destruct (parent_terms_required inst vector x_aijk solved Hx _ _ _ _ Hp)
    as (rq & -> & Hd2).
  cbn in *. injection Hrow as <-. cbn in Hscaled.
  destruct (verdict_ge tol vector row2 "Eq(4)" e rq
              ("k=" +:+ str k +:+ ", a=" +:+ str a) issues Hscaled)
    as (new & -> & Hnew).
  - rewrite Hd2, Hd, row_dot_empty. ring.
  - by exists new.
Qed.

Lemma audit_eq5_verdict k a r issues :
  build_waes.row_eq5 inst ws_mode x_aijk k a = Some r →
  well_scaled r.1.1 = true →
  ∃ new, audit.audit_eq5 inst solved ws_mode tol k a issues = Some (issues ++ new)
         ∧ (new = [] ↔ within tol vector (stored_row r) = true).
Proof.
  unfold build_waes.row_eq5, audit.audit_eq5. intros Hrow Hscaled.
  change (audit._until_a2 inst k a ws_mode) with (build_waes._until_a2 inst k a ws_mode).
  destruct (build_waes._until_a2 inst k a ws_mode) as [until|]; [|done]. cbn in *.
  destruct (build_waes.window_terms inst x_aijk a k until ∅) as [row|] eqn:Hw; [|done].
  destruct (window_terms_executed inst vector x_aijk solved Hx _ _ _ _ _ Hw)
    as (e & -> & Hd).
  cbn in *.
  destruct (build_waes.parent_terms inst x_aijk a k row) as [row2|] eqn:Hp; [|done].
  destruct (parent_terms_required inst vector x_aijk solved Hx _ _ _ _ Hp)
    as (rq & -> & Hd2).
  cbn in *. injection Hrow as <-. cbn in Hscaled.
  destruct (verdict_ge tol vector row2 "Eq(5)" e rq
              ("k=" +:+ str k +:+ ", a=" +:+ str a) issues Hscaled)
    as (new & -> & Hnew).
  - rewrite Hd2, Hd, row_dot_empty. ring.
  - by exists new.
Qed.

Lemma audit_eq6_verdict k j a r issues :
  build_waes.row_eq6 inst x_aijk y_tija k j a = Some r →
  well_scaled r.1.1 = true →
  ∃ new, audit.audit_eq6 inst solved tol k j a issues = Some (issues ++ new)
         ∧ (new = [] ↔ within tol vector (stored_row r) = true).
Proof.
  unfold build_waes.row_eq6, audit.audit_eq6, sum_. intros Hrow Hscaled.
  destruct (for_ (range 1 (k + 1)) _ ∅) as [row1|] eqn:H1; [|done].
  eapply (sync_loop vector 1) with (acc := 0%Q) in H1 as (lhs & -> & Hd1);
    [| intros i r1 r1' acc Hb; sync_step].
  cbn in *. destruct (instance.Ta inst !! a) as [profiles|]; [|done]. cbn in *.
  destruct (for_ profiles _ row1) as [row2|] eqn:H2; [|done].
  eapply (sync_loop vector (-1)) with (acc := 0%Q) in H2 as (rhs & -> & Hd2);
    [| intros t r1 r1' acc Hb; sync_step].
  cbn in *. injection Hrow as <-. cbn in Hscaled.
  destruct (verdict_le tol vector row2 0 "Eq(6)" lhs rhs
              ("k=" +:+ str k +:+ ", j=" +:+ str j +:+ ", a=" +:+ str a) issues Hscaled)
    as (new & -> & Hnew).
  - assert (E : (row_dot row2 vector - 0
                 == (row_dot row2 vector - row_dot row1 vector)
                    + (row_dot row1 vector - row_dot ∅ vector) + row_dot ∅ vector)%Q)
      by ring.
    rewrite E, Hd1, Hd2, row_dot_empty. ring.
  - by exists new.
Qed.

Lemma audit_eq7_verdict i j t r issues :
  build_waes.row_eq7 inst y_tija y_tj i j t = Some r →
  well_scaled r.1.1 = true →
  ∃ new, audit.audit_eq7 inst solved tol i j t issues = Some (issues ++ new)
         ∧ (new = [] ↔ within tol vector (stored_row r) = true).
Proof.
  unfold build_waes.row_eq7, audit.audit_eq7, sum_. intros Hrow Hscaled.
  destruct (instance.Ht inst !! t) as [acts|]; [|done]. cbn in *.
  destruct (for_ acts _ ∅) as [row1|] eqn:H1; [|done].
  eapply (sync_loop vector 1) with (acc := 0%Q) in H1 as (lhs & -> & Hd1);
    [| intros a r1 r1' acc Hb; sync_step].
  cbn in *. rewrite Hys, lookup_fmap.
  destruct (y_tj !! (t, j)) as [idx_shift|]; [|done]. cbn in *.
  injection Hrow as <-. cbn in Hscaled.
  destruct (verdict_le tol vector (build_waes.row_sub idx_shift 1 row1) 0 "Eq(7)"
              lhs (value_at vector idx_shift)
              ("i=" +:+ str i +:+ ", j=" +:+ str j +:+ ", t=" +:+ str t) issues Hscaled)
    as (new & -> & Hnew).
  - rewrite row_dot_sub.
    assert (E : (row_dot row1 vector
                 == (row_dot row1 vector - row_dot ∅ vector) + row_dot ∅ vector)%Q)
      by ring.
    rewrite E, Hd1, row_dot_empty. ring.
  - by exists new.
Qed.

Lemma audit_eq8_verdict i r issues :
  build_waes.row_eq8 inst y_tija i = Some r →
  well_scaled r.1.1 = true →
  ∃ new, audit.audit_eq8 inst solved tol i issues = Some (issues ++ new)
         ∧ (new = [] ↔ within tol vector (stored_row r) = true).
Proof.
  unfold build_waes.row_eq8, audit.audit_eq8, sum_. intros Hrow Hscaled.
  destruct (for_ (instance.T inst) _ ∅) as [row1|] eqn:H1; [|done].
  assert (Hflat :
    for_ (t ← instance.T inst; j ← instance.M inst; a ← instance.A inst; [(t, j, a)])
      (λ '(t, j, a) row,
         idx ← y_tija !! (t, i, j, a); Some (build_waes.row_add idx 1 row)) ∅
    = Some row1) by (rewrite for__flat3; exact H1).
  eapply (sync_loop vector 1) with (acc := 0%Q) in Hflat as (lhs & -> & Hd1);
    [| intros [[t j] a] r1 r1' acc Hb; sync_step].
  cbn in *. destruct (float_ (instance.q inst)) as [ub|]; [|done]. cbn in *.
  injection Hrow as <-. cbn in Hscaled.
  destruct (verdict_le tol vector row1 ub "Eq(8)"
              lhs ub ("i=" +:+ str i) issues Hscaled)
    as (new & -> & Hnew).
  - assert (E : (row_dot row1 vector
                 == (row_dot row1 vector - row_dot ∅ vector) + row_dot ∅ vector)%Q)
      by ring.
    rewrite E, Hd1, row_dot_empty. ring.
  - by exists new.
Qed.

Lemma audit_eq9_verdict t j r issues :
  build_waes.row_eq9 inst y_tija y_tj t j = Some r →
  well_scaled r.1.1 = true →
  ∃ new, audit.audit_eq9 inst solved tol t j issues = Some (issues ++ new)
         ∧ (new = [] ↔ within tol vector (stored_row r) = true).
Proof.
  unfold build_waes.row_eq9, audit.audit_eq9. intros Hrow Hscaled.
  destruct (instance.Oj inst !! j) as [window|]; [|done]. cbn in *.
  destruct (for_ window _ ∅) as [row1|] eqn:H1; [|done].
  eapply (sync_loop vector 1) with (acc := 0%Q) in H1 as (lhs & -> & Hd1).
  2:{ intros i r1 r1' acc Hb. cbn in Hb. cbn.
      destruct (instance.Ht inst !! t) as [acts|]; [|done]. cbn in *.
      eapply (sync_loop vector 1) in Hb as (acc' & -> & Hd); [eauto |].
      intros a r2 r2' acc2 Hb2. sync_step. }
  cbn in *. rewrite Hys, lookup_fmap.
  destruct (y_tj !! (t, j)) as [idx_shift|]; [|done]. cbn in *.
  destruct (float_ (instance.f inst - instance.p inst)) as [break_free|]; [|done].
  cbn in *. injection Hrow as <-. cbn in Hscaled.
  destruct (verdict_le tol vector
              (build_waes.row_sub idx_shift break_free row1) 0 "Eq(9)"
              lhs (break_free * value_at vector idx_shift)%Q
              ("t=" +:+ str t +:+ ", j=" +:+ str j) issues Hscaled)
    as (new & -> & Hnew).
  - rewrite row_dot_sub.
    assert (E : (row_dot row1 vector
                 == (row_dot row1 vector - row_dot ∅ vector) + row_dot ∅ vector)%Q)
      by ring.
    rewrite E, Hd1, row_dot_empty. ring.
  - by exists new.
Qed.

Lemma audit_eq10_verdict r issues :
  build_waes.row_eq10 inst y_tj = Some r →
  well_scaled r.1.1 = true →
  ∃ new, audit.audit_eq10 inst solved tol issues = Some (issues ++ new)
         ∧ (new = [] ↔ within tol vector (stored_row r) = true).
Proof.
  unfold build_waes.row_eq10, audit.audit_eq10, sum_. intros Hrow Hscaled.
  destruct (for_ (instance.M2 inst) _ ∅) as [row1|] eqn:H1; [|done].
  assert (Hflat1 :
    for_ (j ← instance.M2 inst; t ← instance.T inst; [(t, j)])
      (λ key row, idx ← y_tj !! key; Some (build_waes.row_add idx 1 row)) ∅
    = Some row1).
  { rewrite for__bind. erewrite for__ext; [exact H1 |].
    intros j st. cbn beta. rewrite for__bind. apply for__ext.
    intros t st'. by rewrite for__one. }
  eapply (sync_loop vector 1) with (acc := 0%Q) in Hflat1 as (lhs & -> & Hd1);
    [| intros key r1 r1' acc Hb; sync_step].
  cbn in *.
  destruct (for_ (instance.M inst) _ row1) as [row2|] eqn:H2; [|done].
  assert (Hflat2 :
    for_ (j ← instance.M inst; t ← instance.T inst; [(t, j)])
      (λ key row,
         idx ← y_tj !! key; Some (build_waes.row_sub idx (instance.w inst) row)) row1
    = Some row2).
  { rewrite for__bind. erewrite for__ext; [exact H2 |].
    intros j st. cbn beta. rewrite for__bind. apply for__ext.
    intros t st'. by rewrite for__one. }
  eapply (sync_loop vector (- instance.w inst)) with (acc := 0%Q) in Hflat2
    as (total & -> & Hd2);
    [| intros key r1 r1' acc Hb; sync_step].
  cbn in *. injection Hrow as <-. cbn in Hscaled.
  destruct (verdict_le tol vector row2 0 "Eq(10)" lhs (instance.w inst * total)%Q
              "part-time-share" issues Hscaled)
    as (new & -> & Hnew).
  - assert (E : (row_dot row2 vector - 0
                 == (row_dot row2 vector - row_dot row1 vector)
                    + (row_dot row1 vector - row_dot ∅ vector) + row_dot ∅ vector)%Q)
      by ring.
    rewrite E, Hd1, Hd2, row_dot_empty. ring.
  - by exists new.
Qed.

End family_verdicts.

(** ** The verdict of the whole Audit *)

Lemma verdict_loop2 (tol : Q) (vector : list Q) {A B : Type} (l1 : list A) (l2 : list B)
    (mk : A → B → option (Row * Bound * Bound))
    (body : A → B → list audit.AuditIssue → option (list audit.AuditIssue)) rows :
  mapM (λ '(x, y), mk x y) (x ← l1; y ← l2; [(x, y)]) = Some rows →
  (∀ r, r ∈ rows → well_scaled r.1.1 = true) →
  (∀ x y r issues, mk x y = Some r → well_scaled r.1.1 = true →
     ∃ new, body x y issues = Some (issues ++ new)
            ∧ (new = [] ↔ within tol vector (stored_row r) = true)) →
  ∀ issues, ∃ extra,
    for_ l1 (λ x, for_ l2 (λ y, body x y)) issues = Some (issues ++ extra)
    ∧ (extra = [] ↔ forallb (within tol vector) (stored_row <$> rows) = true).
Proof.
  intros Hrows Hscaled Hbody issues.
  destruct (verdict_loop tol vector _ _ (λ '(x, y), body x y) rows Hrows Hscaled)
    with (issues := issues) as (extra & Hrun & Hextra).
  { intros [x y]. apply Hbody. }
  exists extra. split; [|done].
  rewrite <- Hrun. symmetry. apply (for__flat2 l1 l2 (λ '(x, y), body x y)).
Qed.

Lemma verdict_loop3 (tol : Q) (vector : list Q) {A B C : Type}
    (l1 : list A) (l2 : list B) (l3 : list C)
    (mk : A → B → C → option (Row * Bound * Bound))
    (body : A → B → C → list audit.AuditIssue → option (list audit.AuditIssue)) rows :
  mapM (λ '(x, y, z), mk x y z) (x ← l1; y ← l2; z ← l3; [(x, y, z)]) = Some rows →
  (∀ r, r ∈ rows → well_scaled r.1.1 = true) →
  (∀ x y z r issues, mk x y z = Some r → well_scaled r.1.1 = true →
     ∃ new, body x y z issues = Some (issues ++ new)
            ∧ (new = [] ↔ within tol vector (stored_row r) = true)) →
  ∀ issues, ∃ extra,
    for_ l1 (λ x, for_ l2 (λ y, for_ l3 (λ z, body x y z))) issues
    = Some (issues ++ extra)
    ∧ (extra = [] ↔ forallb (within tol vector) (stored_row <$> rows) = true).
Proof.
  intros Hrows Hscaled Hbody issues.
  destruct (verdict_loop tol vector _ _ (λ '(x, y, z), body x y z) rows Hrows Hscaled)
    with (issues := issues) as (extra & Hrun & Hextra).
  { intros [[x y] z]. apply Hbody. }
  exists extra. split; [|done].
  rewrite <- Hrun. symmetry. apply (for__flat3 l1 l2 l3 (λ '(x, y, z), body x y z)).
Qed.

Lemma integrality_issues_nil {K : Type} tol prefix (fmt : K → string)
    (items : list (K * Q)) :
  integrality_issues tol prefix fmt items = []
  ↔ forallb (λ e, negb (far_from_integer tol e.2)) items = true.
Proof.
  unfold integrality_issues. induction items as [|item items IH]; [done |].
  cbn [mbind list_bind forallb]. rewrite app_nil_iff, IH, andb_true_iff.
  destruct (far_from_integer tol item.2); cbn; split; intros [? ?]; done.
Qed.

Section whole_verdict.
Context (inst : InstanceData) (ws_mode : bool) (vector : list Q).
Context (x_aijk : gmap XKey nat) (y_tija : gmap YIKey nat) (y_tj : gmap YSKey nat).
Context (solved : SolvedValues).
Context (Hx : solution_types.x_aijk solved = value_at vector <$> x_aijk).
Context (Hyi : solution_types.y_tija solved = value_at vector <$> y_tija).
Context (Hys : solution_types.y_tj solved = value_at vector <$> y_tj).
Context (tol : Q).

Lemma run_audits_verdict rows :
  accumulated_rows inst ws_mode x_aijk y_tija y_tj = Some rows →
  forallb (λ r, well_scaled r.1.1) rows = true →
  ∃ report,
    audit.run_audits inst solved ws_mode tol = Some report
    ∧ (audit.passed report = true
       ↔ forallb (within tol vector) (stored_row <$> rows) = true
         ∧ near_integer tol solved = true).
Proof.
  intros Hrows Hscaled.
  assert (Hgood : ∀ r, r ∈ rows → well_scaled r.1.1 = true).
  { intros r Hr. rewrite forallb_forall in Hscaled. apply Hscaled.
    by apply list_elem_of_In. }
  clear Hscaled.
  unfold accumulated_rows in Hrows.
  apply bind_Some in Hrows as (r2 & H2 & Hrows).
  apply bind_Some in Hrows as (r3 & H3 & Hrows).
  apply bind_Some in Hrows as (r4 & H4 & Hrows).
  apply bind_Some in Hrows as (r5 & H5 & Hrows).
  apply bind_Some in Hrows as (r6 & H6 & Hrows).
  apply bind_Some in Hrows as (r7 & H7 & Hrows).
  apply bind_Some in Hrows as (r8 & H8 & Hrows).
  apply bind_Some in Hrows as (r9 & H9 & Hrows).
  apply bind_Some in Hrows as (r10 & H10 & Hrows).
  injection Hrows as <-.
  unfold audit.run_audits.
  destruct (verdict_loop2 tol vector (instance.N inst) (sorted (audit.set_BA1 inst))
              (build_waes.row_eq2 inst ws_mode x_aijk)
              (λ i a, audit.audit_eq2 inst solved ws_mode tol i a) r2 H2)
    with (issues := @nil audit.AuditIssue) as (e2 & -> & V2);
    [intros r Hr; apply Hgood; rewrite !elem_of_app; tauto
    | intros i a r issues; by apply audit_eq2_verdict |].
  cbn [mbind option_bind].
  destruct (verdict_loop2 tol vector (instance.N inst) (sorted (audit.set_BA2 inst))
              (build_waes.row_eq3 inst ws_mode x_aijk)
              (λ i a, audit.audit_eq3 inst solved ws_mode tol i a) r3 H3)
    with (issues := [] ++ e2) as (e3 & -> & V3);
    [intros r Hr; apply Hgood; rewrite !elem_of_app; tauto
    | intros i a r issues; by apply audit_eq3_verdict |].
  cbn [mbind option_bind].
  destruct (verdict_loop2 tol vector (instance.N inst) (sorted (audit.set_CA1 inst))
              (build_waes.row_eq4 inst ws_mode x_aijk)
              (λ k a, audit.audit_eq4 inst solved ws_mode tol k a) r4 H4)
    with (issues := ([] ++ e2) ++ e3) as (e4 & -> & V4);
    [intros r Hr; apply Hgood; rewrite !elem_of_app; tauto
    | intros k a r issues; by apply audit_eq4_verdict |].
  cbn [mbind option_bind].
  destruct (verdict_loop2 tol vector (instance.N inst) (sorted (audit.set_CA2 inst))
              (build_waes.row_eq5 inst ws_mode x_aijk)
              (λ k a, audit.audit_eq5 inst solved ws_mode tol k a) r5 H5)
    with (issues := (([] ++ e2) ++ e3) ++ e4) as (e5 & -> & V5);
    [intros r Hr; apply Hgood; rewrite !elem_of_app; tauto
    | intros k a r issues; by apply audit_eq5_verdict |].
  cbn [mbind option_bind].
  destruct (verdict_loop3 tol vector (instance.N inst) (instance.M inst)
              (instance.A inst)
              (build_waes.row_eq6 inst x_aijk y_tija)
              (λ k j a, audit.audit_eq6 inst solved tol k j a) r6 H6)
    with (issues := ((([] ++ e2) ++ e3) ++ e4) ++ e5) as (e6 & -> & V6);
    [intros r Hr; apply Hgood; rewrite !elem_of_app; tauto
    | intros k j a r issues; by apply audit_eq6_verdict |].
  cbn [mbind option_bind].
  destruct (verdict_loop3 tol vector (instance.N inst) (instance.M inst)
              (instance.T inst)
              (build_waes.row_eq7 inst y_tija y_tj)
              (λ i j t, audit.audit_eq7 inst solved tol i j t) r7 H7)
    with (issues := (((([] ++ e2) ++ e3) ++ e4) ++ e5) ++ e6) as (e7 & -> & V7);
    [intros r Hr; apply Hgood; rewrite !elem_of_app; tauto
    | intros i j t r issues; by apply audit_eq7_verdict |].
  cbn [mbind option_bind].
  destruct (verdict_loop tol vector (instance.N inst)
              (build_waes.row_eq8 inst y_tija)
              (λ i, audit.audit_eq8 inst solved tol i) r8 H8)
    with (issues := ((((([] ++ e2) ++ e3) ++ e4) ++ e5) ++ e6) ++ e7)
    as (e8 & -> & V8);
    [intros r Hr; apply Hgood; rewrite !elem_of_app; tauto
    | intros i r issues; by apply audit_eq8_verdict |].
  cbn [mbind option_bind].
  destruct (verdict_loop2 tol vector (instance.T inst) (instance.M1 inst)
              (build_waes.row_eq9 inst y_tija y_tj)
              (λ t j, audit.audit_eq9 inst solved tol t j) r9 H9)
    with (issues := (((((([] ++ e2) ++ e3) ++ e4) ++ e5) ++ e6) ++ e7) ++ e8)
    as (e9 & -> & V9);
    [intros r Hr; apply Hgood; rewrite !elem_of_app; tauto
    | intros t j r issues; by apply audit_eq9_verdict |].
  cbn [mbind option_bind].
  destruct (audit_eq10_verdict inst vector y_tj solved Hys tol r10
              (((((((([] ++ e2) ++ e3) ++ e4) ++ e5) ++ e6) ++ e7) ++ e8) ++ e9) H10)
    as (e10 & -> & V10);
    [apply Hgood; rewrite !elem_of_app, list_elem_of_singleton; tauto |].
  cbn [mbind option_bind].
  rewrite !audit_integrality_recorded.
  eexists. split; [reflexivity |]. cbn [audit.passed].
  rewrite bool_decide_eq_true, !app_nil_iff, !integrality_issues_nil.
  rewrite V2, V3, V4, V5, V6, V7, V8, V9, V10.
  rewrite !fmap_app, !forallb_app. cbn [fmap list_fmap forallb].
  unfold near_integer. rewrite !andb_true_iff. tauto.
Qed.

End whole_verdict.

(** ** More of what validation guarantees *)

Lemma validated_partitions inst :
  instance.validate_instance inst = true →
  (list_to_set (instance.B inst) : gset Z) ∩ list_to_set (instance.C inst) = ∅
  ∧ (list_to_set (instance.A inst) : gset Z)
    = list_to_set (instance.B inst) ∪ list_to_set (instance.C inst)
  ∧ (list_to_set (instance.A1 inst) : gset Z) ∩ list_to_set (instance.A2 inst) = ∅
  ∧ (list_to_set (instance.A inst) : gset Z)
    = list_to_set (instance.A1 inst) ∪ list_to_set (instance.A2 inst).
Proof.
  intros H. unfold instance.validate_instance in H. cbv zeta in H.
  do 15 (apply andb_true_iff in H as [H _]).
  apply andb_true_iff in H as [H HA12].
  apply andb_true_iff in H as [H HD12].
  apply andb_true_iff in H as [H HABC].
  apply andb_true_iff in H as [H HDBC].
  apply bool_decide_eq_true in HA12, HD12, HABC, HDBC. done.
Qed.

Lemma validated_Ta_Ht inst t a :
  instance.validate_instance inst = true →
  a ∈ instance.A inst →
  t ∈ instance.get_tuple (instance.Ta inst) a →
  a ∈ instance.get_tuple (instance.Ht inst) t.
Proof.
  intros H Ha Ht. unfold instance.validate_instance in H. cbv zeta in H.
  do 6 (apply andb_true_iff in H as [H _]).
  apply andb_true_iff in H as [_ Hcons].
  pose proof (forallb_elem _ _ _ Hcons Ha) as Hrow. cbn beta in Hrow.
  pose proof (forallb_elem _ _ _ Hrow Ht) as Hcell. cbn beta in Hcell.
  apply andb_true_iff in Hcell as [_ Hin].
  apply bool_decide_eq_true in Hin. by apply elem_of_list_to_set in Hin.
Qed.

Lemma length_sorted (s : gset Z) : length (sorted s) = size s.
Proof. unfold sorted. by rewrite merge_sort_Permutation. Qed.

(** ** The last slot of the variable catalog *)


Lemma create_variables_last_slot inst vs :
  build_waes.create_variables inst = Some vs →
  build_waes.vars.variable_names vs = []
  ∨ ∃ vk, index_of vs vk
          = Some (length (build_waes.vars.variable_names vs) - 1)%nat.
Proof.
  unfold build_waes.create_variables. intros Hrun.
  apply bind_Some in Hrun as (vs1 & H1 & Hrun).
  apply bind_Some in Hrun as (vs2 & H2 & H3).
  pose (P := λ st : build_waes.vars.t,
    build_waes.vars.variable_names st = []
    ∨ ∃ vk, index_of st vk
            = Some (length (build_waes.vars.variable_names st) - 1)%nat).
  assert (P1 : P vs1).
  { revert H1. rewrite create_x_flat. apply (for__inv P); [|by left].
    intros [[[a i] j] k] st st' _ _ Hbody. cbn in Hbody.
    destruct (float_ (instance.q inst)) as [ub|]; [|done].
    cbn in Hbody. injection Hbody as <-.
    right. exists (KX (a, i, j, k)). cbn. rewrite lookup_insert, decide_True by done.
    rewrite length_app. cbn. f_equal. lia. }
  assert (P2 : P vs2).
  { revert H2. rewrite create_y_tija_flat. apply (for__inv P); [|exact P1].
    intros [[[t i] j] a] st st' _ _ Hbody. cbn in Hbody.
    destruct (float_ (instance.q inst)) as [ub|]; [|done].
    cbn in Hbody. injection Hbody as <-.
    right. exists (KYI (t, i, j, a)). cbn. rewrite lookup_insert, decide_True by done.
    rewrite length_app. cbn. f_equal. lia. }
  revert H3. rewrite create_y_tj_flat. apply (for__inv P); [|exact P2].
  intros [t j] st st' _ _ Hbody. cbn in Hbody.
  destruct (instance.c inst !! t) as [c_t|]; [|done].
  destruct (instance.shift_cost_multiplier inst !! j) as [mult_j|]; [|done].
  cbn in Hbody. destruct (float_ (instance.q inst)) as [ub|]; [|done].
  cbn in Hbody. injection Hbody as <-.
  right. exists (KYS (t, j)). cbn. rewrite lookup_insert, decide_True by done.
  rewrite length_app. cbn. f_equal. lia.
Qed.

Lemma values_of_is_Some {K : Type} `{Countable K} (index : gmap K nat) (vector : list Q) :
  is_Some (solve.values_of index vector)
  ↔ ∀ key idx, index !! key = Some idx → (idx < length vector)%nat.
Proof.
  unfold solve.values_of.
  destruct (forallb _ _) eqn:Hall.
  - split; [|by eexists]. intros _ key idx Hkey.
    rewrite forallb_forall in Hall.
    specialize (Hall (key, idx)). rewrite <- list_elem_of_In, elem_of_map_to_list in Hall.
    specialize (Hall Hkey). by apply Nat.ltb_lt in Hall.
  - split; [by intros [? ?] |]. intros Hlt. exfalso.
    assert (Hall' : forallb (λ e, (e.2 <? length vector)%nat) (map_to_list index) = true).
    { apply forallb_forall. intros [key idx] Hin.
      apply list_elem_of_In, elem_of_map_to_list in Hin. cbn.
      apply Nat.ltb_lt. by eapply Hlt. }
    congruence.
Qed.

(** * Verification *)

(** ** The windowing helpers *)

(** C3. The windowing helpers of the Encoder and of the Audit are the same
    functions: on every instance, index, activity and mode they return the
    same value or raise the same [KeyError]. *)
Theorem windowing_lock_step (inst : InstanceData) (i_or_k a : Z) (ws_mode : bool) :
  build_waes._until_a1 inst i_or_k a ws_mode = audit._until_a1 inst i_or_k a ws_mode
  ∧ build_waes._until_a2 inst i_or_k a ws_mode = audit._until_a2 inst i_or_k a ws_mode.
Proof. split; reflexivity. Qed.

(** C4, falsified as stated: with a negative deadline offset the deadline
    window ends before its origin interval, on a validated instance. *)
Lemma deadline_end_before_origin :
  ¬ (∀ (inst : InstanceData) (i a e : Z),
       instance.validate_instance inst = true →
       i ∈ instance.N inst → a ∈ instance.A1 inst →
       build_waes._until_a1 inst i a false = Some e → i <= e).
Proof.
  intros claim.
  assert (Hle : 1 <= 0).
  { apply (claim demo_negative_v 1 1 0).
    - vm_compute; reflexivity.
    - cbn. repeat constructor.
    - cbn. repeat constructor.
    - reflexivity. }
  lia.
Qed.

(** C4, amended. For an interval [i <= n] and an activity with deadline
    offset [v[a]]: without [ws_mode], [deadline_end] is [min(i + v[a], n)],
    and it is at least [i] when [v[a] >= 0]; with [ws_mode] it is [i]. Both
    copies of the helper (Encoder and Audit) are covered. *)
Theorem deadline_window (inst : InstanceData) (i a v_a : Z) :
  instance.v inst !! a = Some v_a →
  i <= instance.n inst →
  build_waes._until_a1 inst i a false = Some (Z.min (i + v_a) (instance.n inst))
  ∧ audit._until_a1 inst i a false = Some (Z.min (i + v_a) (instance.n inst))
  ∧ (0 <= v_a → i <= Z.min (i + v_a) (instance.n inst))
  ∧ build_waes._until_a1 inst i a true = Some i
  ∧ audit._until_a1 inst i a true = Some i.
Proof.
  intros Hv Hi.
  unfold build_waes._until_a1, audit._until_a1. rewrite Hv. simpl.
  rewrite (Z.min_l (i + 0)) by lia.
  replace (i + 0) with i by lia.
  repeat split; lia.
Qed.

Lemma deadline_window_witness :
  build_waes._until_a1 demo 1 1 false = Some (Z.min (1 + 1) (instance.n demo))
  ∧ audit._until_a1 demo 1 1 false = Some (Z.min (1 + 1) (instance.n demo))
  ∧ (0 <= 1 → 1 <= Z.min (1 + 1) (instance.n demo))
  ∧ build_waes._until_a1 demo 1 1 true = Some 1
  ∧ audit._until_a1 demo 1 1 true = Some 1.
Proof. apply (deadline_window demo 1 1 1); [reflexivity | simpl; lia]. Defined.

(** C5. For an activity with release bound [r[a]], [release_end] is never
    before the origin [k], and it is [k] when [r[a] <= 0] or in [ws_mode];
    for both copies of the helper. *)
Theorem release_window (inst : InstanceData) (k a r_a : Z) (ws_mode : bool) :
  instance.r inst !! a = Some r_a →
  ∃ e, build_waes._until_a2 inst k a ws_mode = Some e
       ∧ audit._until_a2 inst k a ws_mode = Some e
       ∧ k <= e
       ∧ (r_a <= 0 ∨ ws_mode = true → e = k).
Proof.
  intros Hr. unfold build_waes._until_a2, audit._until_a2.
  destruct ws_mode.
  - exists k. repeat split; auto; lia.
  - rewrite Hr. simpl. case_bool_decide.
    + exists k. repeat split; auto; lia.
    + eexists. repeat split; [lia |].
      intros [?|?]; [lia | discriminate].
Qed.

Lemma release_window_witness :
  ∃ e, build_waes._until_a2 demo 1 2 false = Some e
       ∧ audit._until_a2 demo 1 2 false = Some e
       ∧ 1 <= e
       ∧ (2 <= 0 ∨ false = true → e = 1).
Proof. apply (release_window demo 1 2 2 false). reflexivity. Defined.

(** ** Round-trip audit soundness *)




(** ** The variable catalog *)

(** C8. The payload asks for minimization and carries the objective
    coefficients of the model, one per variable. Every variable that the
    index maps name has the coefficient of the claim: 0 for every
    [x[a,i,j,k]] and [y_assign[t,i,j,a]], and [c[t] *
    shift_cost_multiplier[j]] for every [y_shift[t,j]]. These variables
    exist: the maps have an index for every key of the three variable
    loops, with that coefficient in the objective. And there is no other
    variable: slot by slot, in the order of the loops, the catalog holds
    the name of the key the slot was created for and the coefficient of
    that key. *)
Theorem objective_construction (inst : InstanceData) (ws_mode : bool)
    (m : WAESModel) (config : gmap string string) :
  build_waes.build_waes_model inst ws_mode = Some m →
  build_waes.maximize (build_waes.to_server_payload m config) = false
  ∧ (build_waes.objective_data (build_waes.to_server_payload m config)).1.1
    = build_waes.objective_coeffs m
  ∧ length (build_waes.objective_coeffs m) = length (build_waes.variable_names m)
  ∧ (∀ key idx, build_waes.x_aijk m !! key = Some idx →
       build_waes.objective_coeffs m !! idx = Some 0%Q)
  ∧ (∀ key idx, build_waes.y_tija m !! key = Some idx →
       build_waes.objective_coeffs m !! idx = Some 0%Q)
  ∧ (∀ t j idx, build_waes.y_tj m !! (t, j) = Some idx →
       ∃ c_t mult_j,
         instance.c inst !! t = Some c_t
         ∧ instance.shift_cost_multiplier inst !! j = Some mult_j
         ∧ build_waes.objective_coeffs m !! idx = Some (c_t * mult_j)%Q)
  ∧ (∀ t j, t ∈ instance.T inst → j ∈ instance.M inst →
       ∃ idx c_t mult_j,
         build_waes.y_tj m !! (t, j) = Some idx
         ∧ instance.c inst !! t = Some c_t
         ∧ instance.shift_cost_multiplier inst !! j = Some mult_j
         ∧ build_waes.objective_coeffs m !! idx = Some (c_t * mult_j)%Q)
  ∧ (∀ a i j k, a ∈ instance.A inst → i ∈ instance.N inst →
       j ∈ instance.M inst → k ∈ instance.N inst →
       ∃ idx, build_waes.x_aijk m !! (a, i, j, k) = Some idx
              ∧ build_waes.objective_coeffs m !! idx = Some 0%Q)
  ∧ (∀ t i j a, t ∈ instance.T inst → i ∈ instance.N inst →
       j ∈ instance.M inst → a ∈ instance.A inst →
       ∃ idx, build_waes.y_tija m !! (t, i, j, a) = Some idx
              ∧ build_waes.objective_coeffs m !! idx = Some 0%Q)
  ∧ build_waes.variable_names m = name_of <$> creation_order inst
  ∧ (∀ idx vk, creation_order inst !! idx = Some vk →
       ∃ obj, build_waes.objective_coeffs m !! idx = Some obj
              ∧ objective_of inst vk obj).
Proof.
  intros Hbuild.
  destruct (build_waes_model_spec _ _ _ Hbuild)
    as (vs & rows & Hvs & _ & _ & En & _ & Eo & _ & _ & Ex & Eyi & Eys).
  destruct (create_variables_ok _ _ Hvs) as (log & Hok & Dx & Dyi & Dys).
  destruct (create_variables_log _ _ Hvs) as [(_ & _ & _ & Hslot) (Ln & _)].
  pose proof Hok as (Hnames & Hobjs & Hidx & Hobj).
  rewrite Eo, En, Ex, Eyi, Eys.
  assert (HX : ∀ key idx, build_waes.vars.x_aijk vs !! key = Some idx →
                 build_waes.vars.objective_coeffs vs !! idx = Some 0%Q).
  { intros key idx Hkey.
    destruct (Hobj idx (KX key)) as (obj & -> & ->); [|done].
    by apply (Hidx (KX key)). }
  assert (HYI : ∀ key idx, build_waes.vars.y_tija vs !! key = Some idx →
                  build_waes.vars.objective_coeffs vs !! idx = Some 0%Q).
  { intros key idx Hkey.
    destruct (Hobj idx (KYI key)) as (obj & -> & ->); [|done].
    by apply (Hidx (KYI key)). }
  assert (HYS : ∀ t j idx, build_waes.vars.y_tj vs !! (t, j) = Some idx →
                  ∃ c_t mult_j,
                    instance.c inst !! t = Some c_t
                    ∧ instance.shift_cost_multiplier inst !! j = Some mult_j
                    ∧ build_waes.vars.objective_coeffs vs !! idx
                      = Some (c_t * mult_j)%Q).
  { intros t j idx Hkey.
    destruct (Hobj idx (KYS (t, j))) as (obj & -> & c_t & mult_j & ? & ? & ->).
    - by apply (Hidx (KYS (t, j))).
    - eauto. }
  split; [done |]. split; [by cbn |]. split; [congruence |].
  split; [exact HX |]. split; [exact HYI |]. split; [exact HYS |].
  split_and!.
  - intros t j Ht Hj.
    assert (Hin : (t, j) ∈ dom (build_waes.vars.y_tj vs)).
    { rewrite Dys. apply elem_of_list_to_set. unfold y_tj_keys.
      apply elem_of_pairs. by split. }
    apply elem_of_dom in Hin as [idx Hkey].
    destruct (HYS t j idx Hkey) as (c_t & mult_j & ? & ? & ?).
    by exists idx, c_t, mult_j.
  - intros a i j k Ha Hi Hj Hk.
    assert (Hin : (a, i, j, k) ∈ dom (build_waes.vars.x_aijk vs)).
    { rewrite Dx. apply elem_of_list_to_set. unfold x_keys.
      apply elem_of_quads. by split_and!. }
    apply elem_of_dom in Hin as [idx Hkey].
    exists idx. split; [done |]. by apply (HX (a, i, j, k)).
  - intros t i j a Ht Hi Hj Ha.
    assert (Hin : (t, i, j, a) ∈ dom (build_waes.vars.y_tija vs)).
    { rewrite Dyi. apply elem_of_list_to_set. unfold y_tija_keys.
      apply elem_of_quads. by split_and!. }
    apply elem_of_dom in Hin as [idx Hkey].
    exists idx. split; [done |]. by apply (HYI (t, i, j, a)).
  - exact Ln.
  - exact Hslot.
Qed.

Lemma objective_construction_witness :
  ∃ m,
    build_waes.y_tj m !! (1, 2) = Some 33%nat
    ∧ build_waes.objective_coeffs m !! 33%nat = Some (10 * (3 # 4))%Q
    ∧ build_waes.maximize (build_waes.to_server_payload m ∅) = false
    ∧ (build_waes.objective_data (build_waes.to_server_payload m ∅)).1.1
      = build_waes.objective_coeffs m
    ∧ (∀ t j, t ∈ instance.T demo → j ∈ instance.M demo →
         ∃ idx c_t mult_j,
           build_waes.y_tj m !! (t, j) = Some idx
           ∧ instance.c demo !! t = Some c_t
           ∧ instance.shift_cost_multiplier demo !! j = Some mult_j
           ∧ build_waes.objective_coeffs m !! idx = Some (c_t * mult_j)%Q).
Proof.
  evar (m : WAESModel).
  assert (Hm : build_waes.build_waes_model demo false = Some m)
    by (unfold m; vm_compute; reflexivity).
  destruct (objective_construction demo false m ∅ Hm)
    as (Hmin & Hdata & _ & _ & _ & _ & Hshift & _).
  exists m. split; [reflexivity |]. split; [reflexivity |].
  split; [exact Hmin |]. split; [exact Hdata |]. exact Hshift.
Defined.

(** C2. On a validated instance the WAES encoding and the WS encoding are
    produced together (one returns exactly when the other does), and they
    have the same variable catalog (names, types, objective coefficients,
    bounds, index maps) and the same number of constraint rows. The index
    maps hold |A|·n²·|M|, |T|·n·|M|·|A| and |T|·|M| keys, where |X| counts
    the distinct elements of an index tuple and n is the number of
    intervals. *)
Theorem variable_space_invariance (inst : InstanceData) :
  instance.validate_instance inst = true →
  (is_Some (build_waes.build_waes_model inst false)
   ↔ is_Some (build_ws.build_ws_model inst))
  ∧ ∀ m_waes m_ws,
      build_waes.build_waes_model inst false = Some m_waes →
      build_ws.build_ws_model inst = Some m_ws →
      let n := Z.to_nat (instance.n inst) in
      build_waes.variable_names m_waes = build_waes.variable_names m_ws
      ∧ build_waes.variable_types m_waes = build_waes.variable_types m_ws
      ∧ build_waes.objective_coeffs m_waes = build_waes.objective_coeffs m_ws
      ∧ build_waes.variable_lb m_waes = build_waes.variable_lb m_ws
      ∧ build_waes.variable_ub m_waes = build_waes.variable_ub m_ws
      ∧ build_waes.x_aijk m_waes = build_waes.x_aijk m_ws
      ∧ build_waes.y_tija m_waes = build_waes.y_tija m_ws
      ∧ build_waes.y_tj m_waes = build_waes.y_tj m_ws
      ∧ size (build_waes.x_aijk m_waes)
        = (card (instance.A inst) * (n * n) * card (instance.M inst))%nat
      ∧ size (build_waes.y_tija m_waes)
        = (card (instance.T inst) * n * card (instance.M inst)
           * card (instance.A inst))%nat
      ∧ size (build_waes.y_tj m_waes)
        = (card (instance.T inst) * card (instance.M inst))%nat
      ∧ length (model_rows m_waes) = length (model_rows m_ws)
      ∧ length (build_waes.constraint_lb m_waes)
        = length (build_waes.constraint_lb m_ws)
      ∧ length (build_waes.csr_offsets m_waes)
        = length (build_waes.csr_offsets m_ws).
Proof.
  intros Hvalid. split.
  { unfold build_ws.build_ws_model. split; by apply build_mode_change. }
  intros m_waes m_ws Hwaes Hws n. unfold build_ws.build_ws_model in Hws.
  destruct (validated_card_N _ Hvalid) as [HcardN _]. fold n in HcardN.
  destruct (build_waes_model_spec _ _ _ Hwaes)
    as (vs & rows1 & Hvs & Hrows1 & Hm1 & -> & -> & -> & -> & -> & Ex & Eyi & Eys).
  destruct (build_waes_model_spec _ _ _ Hws)
    as (vs' & rows2 & Hvs' & Hrows2 & Hm2 & -> & -> & -> & -> & -> & Ex' & Eyi' & Eys').
  assert (vs' = vs) as -> by congruence.
  rewrite Ex, Eyi, Eys, Ex', Eyi', Eys'.
  destruct (create_variables_ok _ _ Hvs) as (log & _ & Dx & Dyi & Dys).
  apply length_accumulated_rows in Hrows1 as Hlen1.
  apply length_accumulated_rows in Hrows2 as Hlen2.
  split_and!; try done.
  - rewrite <- size_dom, Dx. unfold x_keys. rewrite size_quads, HcardN. lia.
  - rewrite <- size_dom, Dyi. unfold y_tija_keys. rewrite size_quads, HcardN. lia.
  - rewrite <- size_dom, Dys. unfold y_tj_keys. by rewrite size_pairs.
  - rewrite Hm1, Hm2, !length_fmap. congruence.
  - unfold build_waes.build_waes_model in Hwaes, Hws. rewrite Hvs in Hwaes, Hws.
    cbn in Hwaes, Hws. rewrite create_rows_spec in Hwaes, Hws.
    rewrite Ex, Eyi, Eys in Hrows1. rewrite Ex', Eyi', Eys' in Hrows2.
    rewrite Hrows1 in Hwaes. rewrite Hrows2 in Hws. cbn in Hwaes, Hws.
    injection Hwaes as <-. injection Hws as <-. cbn.
    pose proof (holds_push rows1 _ [] holds_init) as (_ & _ & _ & -> & _).
    pose proof (holds_push rows2 _ [] holds_init) as (_ & _ & _ & -> & _).
    cbn. rewrite !length_fmap. congruence.
  - unfold build_waes.build_waes_model in Hwaes, Hws. rewrite Hvs in Hwaes, Hws.
    cbn in Hwaes, Hws. rewrite create_rows_spec in Hwaes, Hws.
    rewrite Ex, Eyi, Eys in Hrows1. rewrite Ex', Eyi', Eys' in Hrows2.
    rewrite Hrows1 in Hwaes. rewrite Hrows2 in Hws. cbn in Hwaes, Hws.
    injection Hwaes as <-. injection Hws as <-. cbn.
    pose proof (holds_push rows1 _ [] holds_init) as (-> & _).
    pose proof (holds_push rows2 _ [] holds_init) as (-> & _).
    cbn. rewrite !length_offsets_from, !length_fmap. congruence.
Qed.

Lemma variable_space_invariance_witness :
  ∃ m_waes m_ws,
    build_waes.build_waes_model demo false = Some m_waes
    ∧ build_ws.build_ws_model demo = Some m_ws
    ∧ build_waes.variable_names m_waes = build_waes.variable_names m_ws
    ∧ build_waes.x_aijk m_waes = build_waes.x_aijk m_ws
    ∧ size (build_waes.x_aijk m_waes) = 16%nat
    ∧ size (build_waes.y_tija m_waes) = 16%nat
    ∧ size (build_waes.y_tj m_waes) = 4%nat
    ∧ length (model_rows m_waes) = length (model_rows m_ws).
Proof.
  evar (m_waes : WAESModel). evar (m_ws : WAESModel).
  assert (Hwaes : build_waes.build_waes_model demo false = Some m_waes)
    by (unfold m_waes; vm_compute; reflexivity).
  assert (Hws : build_ws.build_ws_model demo = Some m_ws)
    by (unfold m_ws; vm_compute; reflexivity).
  assert (Hvalid : instance.validate_instance demo = true)
    by (vm_compute; reflexivity).
  exists m_waes, m_ws.
  destruct (variable_space_invariance demo Hvalid) as [_ Hsame].
  destruct (Hsame m_waes m_ws Hwaes Hws)
    as (Hn & _ & _ & _ & _ & Hx & _ & _ & Sx & Syi & Sys & Hr & _).
  split; [exact Hwaes |]. split; [exact Hws |].
  split; [exact Hn |]. split; [exact Hx |].
  split; [rewrite Sx; vm_compute; reflexivity |].
  split; [rewrite Syi; vm_compute; reflexivity |].
  split; [rewrite Sys; vm_compute; reflexivity | exact Hr].
Defined.

(** ** Assignments of a profile to an activity it cannot perform *)

(** C10. On a validated instance, in either mode, for a profile [t], an
    interval [i], a shift [j] and an activity [a] with [t] outside [Ta[a]]:
    the variable [y_assign[t,i,j,a]] is stored in exactly one constraint row
    of the encoded model, the global-concurrency-cap row of interval [i]
    (row number [i - 1] of the seventh family of the spec, Eq. (8) of the
    source, bounds ["ninf"] and [q]), where its coefficient is at least 1;
    no other row, and so no capacity-coupling, shift-coupling or
    break-window row, mentions it. *)
Theorem incapable_assignment (inst : InstanceData) (ws_mode : bool) (m : WAESModel)
    (t i j a : Z) :
  instance.validate_instance inst = true →
  build_waes.build_waes_model inst ws_mode = Some m →
  t ∈ instance.T inst → i ∈ instance.N inst →
  j ∈ instance.M inst → a ∈ instance.A inst →
  t ∉ instance.get_tuple (instance.Ta inst) a →
  ∃ idx,
    build_waes.y_tija m !! (t, i, j, a) = Some idx
    ∧ (∃ entries coeff,
         model_rows m !! (family_start inst 6 + Z.to_nat (i - 1))%nat
         = Some (entries, BStr "ninf", BNum (inject_Z (instance.q inst)))
         ∧ (idx, coeff) ∈ entries ∧ (1 <= coeff)%Q)
    ∧ (∀ r row, model_rows m !! r = Some row → idx ∈ row.1.1.*1 →
         r = (family_start inst 6 + Z.to_nat (i - 1))%nat).
Proof.
  intros Hvalid Hbuild Ht Hi Hj Ha Hta.
  destruct (build_waes_model_spec _ _ _ Hbuild)
    as (vs & rows & Hvs & Hrows & Hm & _ & _ & _ & _ & _ & Ex & Eyi & Eys).
  destruct (create_variables_ok _ _ Hvs) as (log & Hok & _ & Dyi & _).
  rewrite Ex, Eyi, Eys in Hrows. rewrite Eyi, Hm. clear Hm Ex Eyi Eys Hbuild.
  assert (Hht : a ∉ instance.get_tuple (instance.Ht inst) t).
  { intros Hin. apply Hta. by apply validated_Ht_Ta. }
  assert (Hkey : is_Some (build_waes.vars.y_tija vs !! (t, i, j, a))).
  { apply elem_of_dom. rewrite Dyi. apply elem_of_list_to_set.
    unfold y_tija_keys. apply elem_of_quads. split_and!; assumption. }
  destruct Hkey as [idx Hidx]. exists idx. split; [done |].
  assert (Hvk : index_of vs (KYI (t, i, j, a)) = Some idx) by done.
  pose proof (validated_N _ Hvalid) as HN.
  unfold accumulated_rows in Hrows.
  apply bind_Some in Hrows as (r2 & H2 & Hrows).
  apply bind_Some in Hrows as (r3 & H3 & Hrows).
  apply bind_Some in Hrows as (r4 & H4 & Hrows).
  apply bind_Some in Hrows as (r5 & H5 & Hrows).
  apply bind_Some in Hrows as (r6 & H6 & Hrows).
  apply bind_Some in Hrows as (r7 & H7 & Hrows).
  apply bind_Some in Hrows as (r8 & H8 & Hrows).
  apply bind_Some in Hrows as (r9 & H9 & Hrows).
  apply bind_Some in Hrows as (r10 & H10 & Hrows).
  injection Hrows as <-.
  pose proof (length_mapM _ _ _ H2) as L2. rewrite length_pairs in L2.
  pose proof (length_mapM _ _ _ H3) as L3. rewrite length_pairs in L3.
  pose proof (length_mapM _ _ _ H4) as L4. rewrite length_pairs in L4.
  pose proof (length_mapM _ _ _ H5) as L5. rewrite length_pairs in L5.
  pose proof (length_mapM _ _ _ H6) as L6. rewrite length_triples in L6.
  pose proof (length_mapM _ _ _ H7) as L7. rewrite length_triples in L7.
  assert (Hstart : family_start inst 6
                   = (length r2 + length r3 + length r4 + length r5
                      + length r6 + length r7)%nat).
  { unfold family_start, family_sizes. cbn. lia. }
  rewrite Hstart. clear Hstart L2 L3 L4 L5 L6 L7.
  assert (Hpos : instance.N inst !! Z.to_nat (i - 1) = Some i).
  { rewrite HN in Hi |- *. by apply range_lookup. }
  split.
  - destruct (mapM_lookup_l _ _ _ _ _ H8 Hpos) as (raw & Hraw & Hmk).
    destruct (row_eq8_counts inst (build_waes.vars.y_tija vs) t i j a raw idx
                Ht Hj Ha Hidx Hmk) as (Hlb & Hub & coeff & Hc & Hge).
    exists (stored raw.1.1), coeff. split; [|split; [|done]].
    + rewrite list_lookup_fmap.
      replace (length r2 + length r3 + length r4 + length r5 + length r6
               + length r7 + Z.to_nat (i - 1))%nat
        with (length r2 + (length r3 + (length r4 + (length r5 + (length r6
               + (length r7 + Z.to_nat (i - 1)))))))%nat by lia.
      rewrite !lookup_app_plus.
      rewrite lookup_app_l by (by eapply lookup_lt_Some).
      rewrite Hraw. cbn. unfold stored_row. by rewrite Hlb, Hub.
    + by apply big_coefficient_stored.
  - intros r row Hrow Hin.
    apply list_lookup_fmap_Some in Hrow as (raw & -> & Hraw). cbn in Hin.
    assert (Hno : ∀ coeffs,
              avoids (build_waes.vars.x_aijk vs) (build_waes.vars.y_tija vs)
                (build_waes.vars.y_tj vs) (KYI (t, i, j, a)) coeffs →
              idx ∉ (stored coeffs).*1)
      by (intros coeffs; by eapply avoids_not_stored).
    apply lookup_app_Some in Hraw as [Hraw|[G2 Hraw]].
    { destruct (mapM_lookup_r _ _ _ _ _ H2 Hraw) as ([i' a'] & _ & Hmk).
      exfalso. eapply Hno; [|exact Hin]. by eapply row_eq2_avoids. }
    apply lookup_app_Some in Hraw as [Hraw|[G3 Hraw]].
    { destruct (mapM_lookup_r _ _ _ _ _ H3 Hraw) as ([i' a'] & _ & Hmk).
      exfalso. eapply Hno; [|exact Hin]. by eapply row_eq3_avoids. }
    apply lookup_app_Some in Hraw as [Hraw|[G4 Hraw]].
    { destruct (mapM_lookup_r _ _ _ _ _ H4 Hraw) as ([i' a'] & _ & Hmk).
      exfalso. eapply Hno; [|exact Hin]. by eapply row_eq4_avoids. }
    apply lookup_app_Some in Hraw as [Hraw|[G5 Hraw]].
    { destruct (mapM_lookup_r _ _ _ _ _ H5 Hraw) as ([i' a'] & _ & Hmk).
      exfalso. eapply Hno; [|exact Hin]. by eapply row_eq5_avoids. }
    apply lookup_app_Some in Hraw as [Hraw|[G6 Hraw]].
    { destruct (mapM_lookup_r _ _ _ _ _ H6 Hraw) as ([[k' j'] a'] & _ & Hmk).
      exfalso. eapply Hno; [|exact Hin]. by eapply row_eq6_avoids. }
    apply lookup_app_Some in Hraw as [Hraw|[G7 Hraw]].
    { destruct (mapM_lookup_r _ _ _ _ _ H7 Hraw) as ([[i' j'] t'] & _ & Hmk).
      exfalso. eapply Hno; [|exact Hin]. by eapply row_eq7_avoids. }
    apply lookup_app_Some in Hraw as [Hraw|[G8 Hraw]].
    { destruct (mapM_lookup_r _ _ _ _ _ H8 Hraw) as (i' & Hi' & Hmk).
      destruct (decide (i' = i)) as [->|Hne].
      - rewrite HN in Hi'. apply range_lookup_inv in Hi'. lia.
      - exfalso. eapply Hno; [|exact Hin]. by eapply row_eq8_avoids. }
    apply lookup_app_Some in Hraw as [Hraw|[G9 Hraw]].
    { destruct (mapM_lookup_r _ _ _ _ _ H9 Hraw) as ([t' j'] & _ & Hmk).
      exfalso. eapply Hno; [|exact Hin]. by eapply row_eq9_avoids. }
    apply list_lookup_singleton_Some in Hraw as [_ <-].
    exfalso. eapply Hno; [|exact Hin]. by eapply row_eq10_avoids.
Qed.

Lemma incapable_assignment_witness :
  ∃ m idx,
    build_waes.y_tija m !! (2, 1, 1, 1) = Some idx
    ∧ (∃ entries coeff,
         model_rows m !! (family_start demo 6 + Z.to_nat (1 - 1))%nat
         = Some (entries, BStr "ninf", BNum (inject_Z (instance.q demo)))
         ∧ (idx, coeff) ∈ entries ∧ (1 <= coeff)%Q)
    ∧ (∀ r row, model_rows m !! r = Some row → idx ∈ row.1.1.*1 →
         r = (family_start demo 6 + Z.to_nat (1 - 1))%nat).
Proof.
  evar (m : WAESModel).
  assert (Hm : build_waes.build_waes_model demo false = Some m)
    by (unfold m; vm_compute; reflexivity).
  assert (Hvalid : instance.validate_instance demo = true)
    by (vm_compute; reflexivity).
  assert (Ht : 2 ∈ instance.T demo) by (cbn; repeat constructor).
  assert (Hi : 1 ∈ instance.N demo) by (cbn; repeat constructor).
  assert (Hj : 1 ∈ instance.M demo) by (cbn; repeat constructor).
  assert (Ha : 1 ∈ instance.A demo) by (cbn; repeat constructor).
  assert (Hta : 2 ∉ instance.get_tuple (instance.Ta demo) 1).
  { intros Hin. vm_compute in Hin. apply list_elem_of_singleton in Hin. lia. }
  exists m.
  exact (incapable_assignment demo false m 2 1 1 1 Hvalid Hm Ht Hi Hj Ha Hta).
Defined.

(** ** The integrality check *)

(** C9. At tolerance 1e-4 the Eq. (11) issues of a report are exactly one
    issue per solved value whose distance to the nearest integer is
    strictly greater than the tolerance. A value of 2.00004 is not far from
    its nearest integer and records nothing; a value of 2.0002 is, and
    records a violation of 0.0002. *)
Theorem integrality_threshold (inst : InstanceData) (solved : SolvedValues)
    (ws_mode : bool) (report : audit.AuditReport) :
  audit.run_audits inst solved ws_mode (1 # 10000) = Some report →
  eq11_issues (audit.issues report)
  = integrality_issues (1 # 10000) "x" str4
      (map_to_list (solution_types.x_aijk solved))
    ++ integrality_issues (1 # 10000) "y_tija" str4
         (map_to_list (solution_types.y_tija solved))
    ++ integrality_issues (1 # 10000) "y_tj" str2
         (map_to_list (solution_types.y_tj solved))
  ∧ (∀ value, (value == 200004 # 100000)%Q →
       far_from_integer (1 # 10000) value = false)
  ∧ (∀ value, (value == 20002 # 10000)%Q →
       far_from_integer (1 # 10000) value = true
       ∧ (Qabs (value - inject_Z (round value)) == 2 # 10000)%Q).
Proof.
  intros Hrun. split; [exact (eq11_run_audits _ _ _ _ _ Hrun) |]. split.
  - intros value Hv. by rewrite (far_from_integer_compat _ _ _ Hv).
  - intros value Hv. split.
    + by rewrite (far_from_integer_compat _ _ _ Hv).
    + rewrite (round_compat _ _ Hv), Hv. reflexivity.
Qed.

Lemma integrality_threshold_witness :
  ∃ solved report,
    audit.run_audits demo solved false (1 # 10000) = Some report
    ∧ solution_types.x_aijk solved !! (1, 1, 1, 1) = Some (200004 # 100000)%Q
    ∧ solution_types.x_aijk solved !! (1, 2, 1, 2) = Some (20002 # 10000)%Q
    ∧ eq11_issues (audit.issues report)
      = [ {| audit.equation := "Eq(11)"; audit.detail := "x(1, 2, 1, 2)";
             audit.violation := (2 # 10000)%Q |} ].
Proof.
  evar (m : WAESModel). evar (solved : SolvedValues).
  evar (report : audit.AuditReport).
  assert (Hm : build_waes.build_waes_model demo false = Some m)
    by (unfold m; vm_compute; reflexivity).
  assert (Hs : solve._collect_solution m "waes" "Optimal" demo_fractional_vector 0
                 None None None = Some solved)
    by (unfold solved; vm_compute; reflexivity).
  assert (Hrun : audit.run_audits demo solved false (1 # 10000) = Some report)
    by (unfold report; vm_compute; reflexivity).
  exists solved, report. split; [exact Hrun |].
  split; [vm_compute; reflexivity |]. split; [vm_compute; reflexivity |].
  destruct (integrality_threshold demo solved false report Hrun) as [-> _].
  vm_compute. reflexivity.
Defined.

(** ** A validated instance on which the Encoder and the Audit raise *)

(** C7, at the failing input: [validate_instance] accepts an instance in
    which the dependent activity 2 names a parent 99 outside [A]; the
    Encoder then raises ([KeyError] at [x_aijk[(99, 1, 1, 1)]]) in both
    modes. *)
Theorem unknown_parent_encoder_raises :
  instance.validate_instance demo_unknown_parent = true
  ∧ build_waes.build_waes_model demo_unknown_parent false = None
  ∧ build_waes.build_waes_model demo_unknown_parent true = None.
Proof. repeat split; vm_compute; reflexivity. Qed.

(** C6, at the failing input: on the same instance the Audit raises on
    solved values that cover exactly the dense key space ([KeyError] at
    [solved.x_aijk[(99, 1, 1, 1)]]). *)
Theorem unknown_parent_audit_raises :
  instance.validate_instance demo_unknown_parent = true
  ∧ dense demo_unknown_parent (zero_solution demo_unknown_parent)
  ∧ audit.run_audits demo_unknown_parent (zero_solution demo_unknown_parent)
      false (1 # 10000) = None
  ∧ audit.run_audits demo_unknown_parent (zero_solution demo_unknown_parent)
      true (1 # 10000) = None.
Proof.
  split; [vm_compute; reflexivity |]. split.
  - unfold dense, zero_solution. cbn. by rewrite !dom_gset_to_gmap.
  - split; vm_compute; reflexivity.
Qed.

(** ** Totality once the parents are known *)

(** The Encoder returns, in either mode, on every validated instance whose
    dependency parents are activities of the instance and whose ints [q]
    and [f - p] are within the range of doubles, so that [float(q)] and
    [float(f - p)] return; the number of rows is fixed by the index tuples,
    whatever the execution windows are. *)
Theorem encoder_total (inst : InstanceData) (ws_mode : bool) :
  instance.validate_instance inst = true →
  parents_known inst →
  in_float_range (instance.q inst) →
  in_float_range (instance.f inst - instance.p inst) →
  ∃ m, build_waes.build_waes_model inst ws_mode = Some m
       ∧ length (model_rows m) = row_count inst.
Proof.
  intros Hvalid%validate_instance_validated Hparents Hq Hfp.
  destruct (create_variables_total inst Hvalid Hq) as [vs Hvs].
  destruct (create_variables_ok _ _ Hvs) as (log & Hok & Dx & Dyi & Dys).
  destruct (accumulated_rows_total inst ws_mode Hvalid Hparents Hq Hfp
              (build_waes.vars.x_aijk vs) (build_waes.vars.y_tija vs)
              (build_waes.vars.y_tj vs)) as [rows Hrows].
  - intros a i j k Ha Hi Hj Hk. apply elem_of_dom. rewrite Dx.
    apply elem_of_list_to_set. unfold x_keys. apply elem_of_quads.
    split_and!; assumption.
  - intros t i j a Ht Hi Hj Ha. apply elem_of_dom. rewrite Dyi.
    apply elem_of_list_to_set. unfold y_tija_keys. apply elem_of_quads.
    split_and!; assumption.
  - intros t j Ht Hj. apply elem_of_dom. rewrite Dys.
    apply elem_of_list_to_set. unfold y_tj_keys. apply elem_of_pairs.
    split; assumption.
  - unfold build_waes.build_waes_model. rewrite Hvs. cbn.
    rewrite create_rows_spec, Hrows. cbn. eexists. split; [reflexivity |].
    erewrite model_rows_of_holds;
      [| apply (holds_push rows _ [] holds_init) | reflexivity ..].
    cbn. rewrite length_fmap. by eapply length_accumulated_rows.
Qed.

Lemma encoder_total_witness :
  ∃ m, build_waes.build_waes_model demo false = Some m
       ∧ length (model_rows m) = row_count demo.
Proof.
  apply (encoder_total demo false);
    [vm_compute; reflexivity | | vm_compute; reflexivity ..].
  intros a parents a_parent Ha Hga Hp.
  apply list_elem_of_singleton in Ha as ->.
  vm_compute in Hga. injection Hga as <-.
  apply list_elem_of_singleton in Hp as ->.
  cbn. repeat constructor.
Defined.

(** The Audit returns, whatever the violations, on every validated instance
    whose dependency parents are activities of the instance and whose ints
    [q] and [f - p] are within the range of doubles, for solved values
    that cover the dense key space and are finite floats (every value of
    the embedding is: a [nan] or an infinity, on which [round] raises, is
    not a solved value here); its report passes exactly when its issue
    list is empty. *)
Theorem audit_total (inst : InstanceData) (solved : SolvedValues) (ws_mode : bool)
    (tol : Q) :
  instance.validate_instance inst = true →
  parents_known inst →
  in_float_range (instance.q inst) →
  in_float_range (instance.f inst - instance.p inst) →
  dense inst solved →
  ∃ report, audit.run_audits inst solved ws_mode tol = Some report
            ∧ (audit.passed report = true ↔ audit.issues report = []).
Proof.
  intros Hvalid%validate_instance_validated Hparents Hq Hfp (Dx & Dyi & Dys).
  destruct (run_audits_total inst solved ws_mode tol Hvalid Hparents Hq Hfp)
    as [report Hrun].
  - intros a i j k Ha Hi Hj Hk. apply elem_of_dom. rewrite Dx.
    apply elem_of_list_to_set. unfold x_keys. apply elem_of_quads.
    split_and!; assumption.
  - intros t i j a Ht Hi Hj Ha. apply elem_of_dom. rewrite Dyi.
    apply elem_of_list_to_set. unfold y_tija_keys. apply elem_of_quads.
    split_and!; assumption.
  - intros t j Ht Hj. apply elem_of_dom. rewrite Dys.
    apply elem_of_list_to_set. unfold y_tj_keys. apply elem_of_pairs.
    split; assumption.
  - exists report. split; [done |]. by eapply passed_iff_no_issues.
Qed.

Lemma audit_total_witness :
  ∃ report, audit.run_audits demo (zero_solution demo) false (1 # 10000)
            = Some report
            ∧ (audit.passed report = true ↔ audit.issues report = []).
Proof.
  apply (audit_total demo (zero_solution demo) false (1 # 10000)).
  - vm_compute; reflexivity.
  - intros a parents a_parent Ha Hga Hp.
    apply list_elem_of_singleton in Ha as ->.
    vm_compute in Hga. injection Hga as <-.
    apply list_elem_of_singleton in Hp as ->.
    cbn. repeat constructor.
  - vm_compute; reflexivity.
  - vm_compute; reflexivity.
  - unfold dense, zero_solution. cbn. by rewrite !dom_gset_to_gmap.
Defined.

(** ** Degenerate windows *)

(** Every Eq. (2) row is emitted, at its place, as an equality on the
    demand [d[a,i]]; when the deadline window is empty (it ends before the
    origin interval) the row stores no coefficient. *)
Theorem empty_window_row_emitted (inst : InstanceData) (ws_mode : bool)
    (m : WAESModel) (p : nat) (i a : Z) :
  build_waes.build_waes_model inst ws_mode = Some m →
  (i ← instance.N inst; a ← sorted (build_waes.set_BA1 inst); [(i, a)]) !! p
    = Some (i, a) →
  ∃ entries rhs,
    model_rows m !! p = Some (entries, BNum rhs, BNum rhs)
    ∧ instance.d inst !! (a, i) = Some rhs
    ∧ (∀ until, build_waes._until_a1 inst i a ws_mode = Some until →
         until < i → entries = []).
Proof.
  intros Hbuild Hp.
  destruct (build_waes_model_spec _ _ _ Hbuild)
    as (vs & rows & _ & Hrows & -> & _).
  unfold accumulated_rows in Hrows.
  apply bind_Some in Hrows as (r2 & H2 & Hrows).
  repeat (apply bind_Some in Hrows as (? & _ & Hrows)).
  injection Hrows as <-.
  destruct (mapM_lookup_l _ _ _ _ _ H2 Hp) as (raw & Hraw & Hmk).
  unfold build_waes.row_eq2 in Hmk.
  apply bind_Some in Hmk as (until & Hu & Hmk).
  apply bind_Some in Hmk as (row & Hw & Hmk).
  apply bind_Some in Hmk as (rhs & Hd & Hmk). injection Hmk as <-.
  exists (stored row), rhs. split; [|split; [done |]].
  - rewrite list_lookup_fmap, lookup_app_l by (by eapply lookup_lt_Some).
    by rewrite Hraw.
  - intros until' Hu' Hlt. assert (until' = until) as -> by congruence.
    unfold build_waes.window_terms in Hw.
    replace (range i (until + 1)) with (@nil Z) in Hw.
    + rewrite for__skip in Hw by done. by injection Hw as <-.
    + unfold range. symmetry. apply length_zero_iff_nil.
      rewrite length_seqZ. lia.
Qed.

Lemma empty_window_row_emitted_witness :
  ∃ m entries rhs,
    model_rows m !! 0%nat = Some (entries, BNum rhs, BNum rhs)
    ∧ instance.d demo_negative_v !! (1, 1) = Some rhs
    ∧ (∀ until, build_waes._until_a1 demo_negative_v 1 1 false = Some until →
         until < 1 → entries = []).
Proof.
  evar (m : WAESModel).
  assert (Hm : build_waes.build_waes_model demo_negative_v false = Some m)
    by (unfold m; vm_compute; reflexivity).
  exists m.
  apply (empty_window_row_emitted demo_negative_v false m 0 1 1 Hm).
  vm_compute. reflexivity.
Defined.

(** ** Solved values and solution vectors *)

(** Solved values whose dicts have the keys of the model's index maps, and
    whose status does not start with ["infeasible"] in any letter case, are
    the unpacking of a solution vector of the model's length: the statement
    of audit soundness over vectors covers every assignment over the dense
    key space. *)
Theorem dense_solution_is_unpacked (inst : InstanceData) (ws_mode : bool)
    (m : WAESModel) (solved : SolvedValues) :
  build_waes.build_waes_model inst ws_mode = Some m →
  dense inst solved →
  startswith (lower (solution_types.status solved)) "infeasible" = false →
  ∃ vector,
    length vector = length (build_waes.variable_names m)
    ∧ solve._collect_solution m (solution_types.mode solved)
        (solution_types.status solved) vector (solution_types.objective solved)
        (solution_types.solver_time solved) (solution_types.mip_gap solved)
        (solution_types.solution_bound solved)
      = Some solved.
Proof.
  intros Hbuild (Dx & Dyi & Dys) Hstatus.
  destruct (build_waes_model_spec _ _ _ Hbuild)
    as (vs & rows & Hvs & _ & _ & En & _ & _ & _ & _ & Ex & Eyi & Eys).
  destruct (create_variables_ok _ _ Hvs) as (log & Hok & Dx' & Dyi' & Dys').
  pose proof Hok as (Hnames & _ & Hidx & _).
  exists (solved_value solved <$> log). split.
  { by rewrite length_fmap, En. }
  unfold solve._collect_solution, solve._solution_vector_from_response.
  rewrite Hstatus, bool_decide_eq_false_2 by (rewrite length_fmap, En; auto).
  cbn [mbind option_bind]. rewrite Ex, Eyi, Eys.
  rewrite (values_of_from_log (build_waes.vars.x_aijk vs)
             (solution_types.x_aijk solved)); cycle 1.
  { by rewrite Dx, Dx'. }
  { intros key idx Hkey. rewrite list_lookup_fmap.
    by rewrite (Hidx (KX key) idx Hkey). }
  cbn.
  rewrite (values_of_from_log (build_waes.vars.y_tija vs)
             (solution_types.y_tija solved)); cycle 1.
  { by rewrite Dyi, Dyi'. }
  { intros key idx Hkey. rewrite list_lookup_fmap.
    by rewrite (Hidx (KYI key) idx Hkey). }
  cbn.
  rewrite (values_of_from_log (build_waes.vars.y_tj vs)
             (solution_types.y_tj solved)); cycle 1.
  { by rewrite Dys, Dys'. }
  { intros key idx Hkey. rewrite list_lookup_fmap.
    by rewrite (Hidx (KYS key) idx Hkey). }
  cbn. by destruct solved.
Qed.

Lemma dense_solution_is_unpacked_witness :
  ∃ m vector,
    length vector = length (build_waes.variable_names m)
    ∧ solve._collect_solution m "waes" "Optimal" vector 0 None None None
      = Some (zero_solution tiny).
Proof.
  evar (m : WAESModel).
  assert (Hm : build_waes.build_waes_model tiny false = Some m)
    by (unfold m; vm_compute; reflexivity).
  assert (Hdense : dense tiny (zero_solution tiny)).
  { unfold dense, zero_solution, solution_types.x_aijk, solution_types.y_tija,
      solution_types.y_tj.
    split; [|split]; apply dom_gset_to_gmap. }
  destruct (dense_solution_is_unpacked tiny false m (zero_solution tiny) Hm Hdense
              eq_refl)
    as (vector & Hlen & Hrun).
  exists m, vector. split; [exact Hlen | exact Hrun].
Defined.

(** * The derived instance data *)

(** [_compute_b_matrix] returns exactly when [N] is not empty and every
    shift of [M] has a start and a length: [max(N)] raises on an empty [N],
    also when [M] is empty, and a missing start or length raises
    [KeyError]. *)
Theorem compute_b_matrix_returns (N M : list Z) (shift_start shift_length : gmap Z Z) :
  is_Some (instance._compute_b_matrix N M shift_start shift_length)
  ↔ N ≠ [] ∧ ∀ j, j ∈ M → is_Some (shift_start !! j) ∧ is_Some (shift_length !! j).
Proof.
  unfold instance._compute_b_matrix. split.
  - intros [b Hrun]. destruct (max_ N) as [n|] eqn:Hmax; [|done].
    split; [by intros -> |].
    cbn in Hrun. intros j Hj.
    destruct (for__each _ _ _ _ j Hrun Hj) as (s & [b' Hbody]).
    destruct (shift_start !! j); [|done].
    destruct (shift_length !! j); [|done]. split; by eexists.
  - intros [HN Hall]. destruct (max_ N) as [n|] eqn:Hmax; [|by destruct N].
    cbn. apply for__total. intros j b Hj.
    destruct (Hall j Hj) as [[start ->] [len ->]]. cbn.
    destruct (b_column N j
                (λ k, if bool_decide (start <= k ∧ k <= Z.min n (start + len - 1))
                      then 1 else 0) b) as (b1 & Hrun & _).
    rewrite Hrun. by eexists.
Qed.

(** The matrix that [_compute_b_matrix] returns has an entry for exactly the
    pairs of an interval of [N] and a shift of [M], and the entry of
    interval [k] and shift [j] is 1 when [start <= k < start + length] and 0
    otherwise: on the intervals of [N] the cut at [max(N)] changes
    nothing. *)
Theorem compute_b_matrix_covers (N M : list Z) (shift_start shift_length : gmap Z Z)
    (b : gmap (Z * Z) Z) :
  instance._compute_b_matrix N M shift_start shift_length = Some b →
  (∀ k j, k ∈ N → j ∈ M →
     ∃ start len, shift_start !! j = Some start ∧ shift_length !! j = Some len
       ∧ b !! (k, j) = Some (if bool_decide (start <= k < start + len) then 1 else 0))
  ∧ (∀ k j, is_Some (b !! (k, j)) → k ∈ N ∧ j ∈ M).
Proof.
  unfold instance._compute_b_matrix. intros Hrun.
  destruct (max_ N) as [n|] eqn:Hmax; [|done]. cbn in Hrun.
  assert (Hinv : (∀ k j, k ∈ N → j ∈ M →
             ∃ start len, shift_start !! j = Some start ∧ shift_length !! j = Some len
               ∧ b !! (k, j)
                 = Some (if bool_decide (start <= k ∧ k <= Z.min n (start + len - 1))
                         then 1 else 0))
          ∧ (∀ k j, is_Some (b !! (k, j)) → k ∈ N ∧ j ∈ M)).
  { revert Hrun.
    apply (for__inv_prefix (λ pre b,
      (∀ k j, k ∈ N → j ∈ pre →
         ∃ start len, shift_start !! j = Some start ∧ shift_length !! j = Some len
           ∧ b !! (k, j)
             = Some (if bool_decide (start <= k ∧ k <= Z.min n (start + len - 1))
                     then 1 else 0))
      ∧ (∀ k j, is_Some (b !! (k, j)) → k ∈ N ∧ j ∈ pre))).
    - intros pre j b0 b1 [Hval Hdom] Hbody.
      destruct (shift_start !! j) as [start|] eqn:Hs; [|done].
      destruct (shift_length !! j) as [len|] eqn:Hl; [|done]. cbn in Hbody.
      destruct (b_column N j
                  (λ k, if bool_decide (start <= k ∧ k <= Z.min n (start + len - 1))
                        then 1 else 0) b0) as (b1' & Hrun' & Hb1).
      rewrite Hrun' in Hbody. injection Hbody as <-. split.
      + intros k j' Hk Hj'. rewrite Hb1.
        destruct (decide (j' = j ∧ k ∈ N)) as [[-> _]|Hno].
        * exists start, len. by rewrite Hs, Hl.
        * apply elem_of_app in Hj' as [Hj'|Hj'%list_elem_of_singleton];
            [by apply Hval | tauto].
      + intros k j' Hsome. rewrite Hb1 in Hsome.
        destruct (decide (j' = j ∧ k ∈ N)) as [[-> Hk]|Hno].
        * split; [done |]. apply elem_of_app. right. by apply list_elem_of_singleton.
        * destruct (Hdom _ _ Hsome) as [Hk Hj']. split; [done |].
          apply elem_of_app. by left.
    - split; [intros k j _ Hj; by apply elem_of_nil in Hj |].
      intros k j. rewrite lookup_empty. by intros [? ?]. }
  destruct Hinv as [Hval Hdom]. split; [|exact Hdom].
  intros k j Hk Hj. destruct (Hval k j Hk Hj) as (start & len & Hs & Hl & Hb).
  exists start, len. split; [done |]. split; [done |]. rewrite Hb. f_equal.
  pose proof (max__ge N n k Hmax Hk) as Hle.
  repeat case_bool_decide; try done; lia.
Qed.

Lemma compute_b_matrix_covers_witness :
  ∃ b : gmap (Z * Z) Z, (∀ k j, k ∈ [1; 2; 3] → j ∈ [1; 2] →
          ∃ start len,
            ({[ 1 := 1; 2 := 2 ]} : gmap Z Z) !! j = Some start
            ∧ ({[ 1 := 2; 2 := 5 ]} : gmap Z Z) !! j = Some len
            ∧ b !! (k, j) = Some (if bool_decide (start <= k < start + len) then 1 else 0))
       ∧ (∀ k j, is_Some (b !! (k, j)) → k ∈ [1; 2; 3] ∧ j ∈ [1; 2]).
Proof.
  evar (b : gmap (Z * Z) Z).
  assert (Hb : instance._compute_b_matrix [1; 2; 3] [1; 2]
                 {[ 1 := 1; 2 := 2 ]} {[ 1 := 2; 2 := 5 ]} = Some b)
    by (unfold b; vm_compute; reflexivity).
  exists b.
  exact (compute_b_matrix_covers [1; 2; 3] [1; 2] {[ 1 := 1; 2 := 2 ]}
           {[ 1 := 2; 2 := 5 ]} b Hb).
Defined.

(** [_compute_break_windows] returns exactly when every full-time shift has
    a start. *)
Theorem compute_break_windows_returns (M1 : list Z) (shift_start : gmap Z Z)
    (break_window_relative N : list Z) :
  is_Some (instance._compute_break_windows M1 shift_start break_window_relative N)
  ↔ ∀ j, j ∈ M1 → is_Some (shift_start !! j).
Proof.
  unfold instance._compute_break_windows. split.
  - intros [Oj Hrun] j Hj.
    destruct (for__each _ _ _ _ j Hrun Hj) as (s & [Oj' Hbody]).
    by destruct (shift_start !! j).
  - intros Hall. apply for__total. intros j Oj Hj.
    destruct (Hall j Hj) as [start ->]. by eexists.
Qed.

(** The break windows that [_compute_break_windows] returns: one for each
    full-time shift and for no other shift; its intervals are the intervals
    [start + rel - 1] of the relative offsets that lie in [N], so they all
    lie in [N]; it has as many intervals as there are offsets exactly when
    no offset falls outside [N]. *)
Theorem compute_break_windows_inside (M1 : list Z) (shift_start : gmap Z Z)
    (break_window_relative N : list Z) (Oj : gmap Z (list Z)) :
  instance._compute_break_windows M1 shift_start break_window_relative N = Some Oj →
  (∀ j, j ∈ M1 →
     ∃ start window, shift_start !! j = Some start ∧ Oj !! j = Some window
       ∧ (∀ i, i ∈ window
               ↔ i ∈ N ∧ ∃ rel, rel ∈ break_window_relative ∧ i = start + rel - 1)
       ∧ (length window ≤ length break_window_relative)%nat
       ∧ (length window = length break_window_relative
          ↔ ∀ rel, rel ∈ break_window_relative → start + rel - 1 ∈ N))
  ∧ (∀ j, is_Some (Oj !! j) → j ∈ M1).
Proof.
  unfold instance._compute_break_windows.
  apply (for__inv_prefix (λ pre Oj,
    (∀ j, j ∈ pre →
       ∃ start window, shift_start !! j = Some start ∧ Oj !! j = Some window
         ∧ (∀ i, i ∈ window
                 ↔ i ∈ N ∧ ∃ rel, rel ∈ break_window_relative ∧ i = start + rel - 1)
         ∧ (length window ≤ length break_window_relative)%nat
         ∧ (length window = length break_window_relative
            ↔ ∀ rel, rel ∈ break_window_relative → start + rel - 1 ∈ N))
    ∧ (∀ j, is_Some (Oj !! j) → j ∈ pre))).
  - intros pre j Oj0 Oj1 [Hval Hdom] Hbody.
    destruct (shift_start !! j) as [start|] eqn:Hs; [|done].
    cbn in Hbody. injection Hbody as <-. split.
    + intros j' Hj'. destruct (decide (j' = j)) as [->|Hne].
      * exists start. eexists. split; [done |].
        rewrite lookup_insert, decide_True by done. split; [done |].
        split; [|split].
        -- intros i. rewrite list_elem_of_fmap. split.
           ++ intros (rel & -> & Hrel). apply list_elem_of_filter in Hrel as [Hin Hrel].
              apply elem_of_list_to_set in Hin. eauto.
           ++ intros (Hi & rel & Hrel & ->). exists rel. split; [done |].
              apply list_elem_of_filter. split; [|done].
              by apply elem_of_list_to_set.
        -- rewrite length_fmap. apply length_filter_le.
        -- rewrite length_fmap, length_filter_eq.
           split; intros Hall rel Hrel.
           ++ apply (elem_of_list_to_set (C := gset Z)). by apply Hall.
           ++ apply (elem_of_list_to_set (C := gset Z)). by apply Hall.
      * apply elem_of_app in Hj' as [Hj'|Hj'%list_elem_of_singleton]; [|done].
        destruct (Hval j' Hj') as (start' & window & ? & ? & ?).
        exists start', window. rewrite lookup_insert_ne by done. done.
    + intros j' Hsome. apply elem_of_app.
      destruct (decide (j' = j)) as [->|Hne];
        [right; by apply list_elem_of_singleton |].
      rewrite lookup_insert_ne in Hsome by done. left. by apply Hdom.
  - split; [intros j Hj; by apply elem_of_nil in Hj |].
    intros j. rewrite lookup_empty. by intros [? ?].
Qed.

Lemma compute_break_windows_inside_witness :
  ∃ Oj : gmap Z (list Z), (∀ j, j ∈ [1; 2] →
           ∃ start window,
             ({[ 1 := 1; 2 := 3 ]} : gmap Z Z) !! j = Some start
             ∧ Oj !! j = Some window
             ∧ (∀ i, i ∈ window
                     ↔ i ∈ [1; 2; 3; 4] ∧ ∃ rel, rel ∈ [2; 3] ∧ i = start + rel - 1)
             ∧ (length window ≤ length [2; 3])%nat
             ∧ (length window = length [2; 3]
                ↔ ∀ rel, rel ∈ [2; 3] → start + rel - 1 ∈ [1; 2; 3; 4]))
        ∧ (∀ j, is_Some (Oj !! j) → j ∈ [1; 2]).
Proof.
  evar (Oj : gmap Z (list Z)).
  assert (HOj : instance._compute_break_windows [1; 2] {[ 1 := 1; 2 := 3 ]}
                  [2; 3] [1; 2; 3; 4] = Some Oj)
    by (unfold Oj; vm_compute; reflexivity).
  exists Oj.
  exact (compute_break_windows_inside [1; 2] {[ 1 := 1; 2 := 3 ]} [2; 3]
           [1; 2; 3; 4] Oj HOj).
Defined.

(** * Polling the solver service *)

(** The first answer of the service that is not pending decides what
    [solve_milp_payload] does, provided it comes after at most
    [repoll_tries] repolls and, when it comes after a repoll, that
    [time.sleep(repoll_interval)] returns: the function returns its solver
    response, and raises [RuntimeError] when the answer has none or has
    neither ["response"] nor ["reqId"]. Answer 0 is the answer to the
    payload, answer [k + 1] the answer to the repoll number [k]. *)
Theorem polling_first_settled_answer {R P : Type}
    (get_LP_solve : P → cuopt_server.Response R)
    (repoll : nat → string → cuopt_server.Response R)
    (sleep : Q → option cuopt_server.Error)
    (payload : P) (repoll_tries : Z) (repoll_interval : Q)
    (k : nat) (resp : cuopt_server.Response R) :
  Z.of_nat k <= repoll_tries →
  (∀ k', (k' < k)%nat →
     ∃ r, answer get_LP_solve repoll payload k' = Some r ∧ pending r = true) →
  answer get_LP_solve repoll payload k = Some resp →
  pending resp = false →
  ((0 < k)%nat → sleep repoll_interval = None) →
  cuopt_server.solve_milp_payload get_LP_solve repoll sleep payload repoll_tries
    repoll_interval
  = cuopt_server._extract_solver_response resp.
Proof.
  intros Hk Hpend Hresp Hsettled Hsleep. unfold cuopt_server.solve_milp_payload.
  destruct (poll_pending get_LP_solve repoll sleep payload repoll_interval k
              (Z.to_nat repoll_tries) 0 (get_LP_solve payload))
    as (resp' & Hresp' & ->);
    [done | intros k' Hk'; apply Hpend; lia | lia | done |].
  cbn in Hresp'. rewrite Hresp in Hresp'. injection Hresp' as <-.
  unfold pending in Hsettled. unfold cuopt_server._extract_solver_response.
  destruct resp as [[w|] [req|]]; cbn in *; try done;
    by destruct (Z.to_nat repoll_tries - k)%nat.
Qed.

Lemma polling_first_settled_answer_witness :
  cuopt_server.solve_milp_payload
    (λ _ : unit, {| cuopt_server.response := None; cuopt_server.reqId := Some "r1" |})
    (λ tries _,
       if (tries =? 1)%nat
       then {| cuopt_server.response :=
                 Some {| cuopt_server.solver_response := Some 7 |};
               cuopt_server.reqId := None |}
       else {| cuopt_server.response := None; cuopt_server.reqId := Some "r1" |})
    (λ secs, if Qle_bool 0 secs then None else Some cuopt_server.ValueError)
    () 3 1%Q
  = cuopt_server.Returned 7.
Proof.
  apply (polling_first_settled_answer
           (λ _ : unit, {| cuopt_server.response := None;
                           cuopt_server.reqId := Some "r1" |})
           (λ tries _,
              if (tries =? 1)%nat
              then {| cuopt_server.response :=
                        Some {| cuopt_server.solver_response := Some 7 |};
                      cuopt_server.reqId := None |}
              else {| cuopt_server.response := None;
                      cuopt_server.reqId := Some "r1" |})
           (λ secs, if Qle_bool 0 secs then None else Some cuopt_server.ValueError)
           () 3 1%Q 2
           {| cuopt_server.response := Some {| cuopt_server.solver_response := Some 7 |};
              cuopt_server.reqId := None |}).
  - lia.
  - intros [|[|k']] Hk'; [eexists; split; reflexivity .. | lia].
  - reflexivity.
  - reflexivity.
  - reflexivity.
Defined.

(** When the answer to the payload and the answers to the first
    [repoll_tries] repolls are all pending, and [time.sleep(repoll_interval)]
    returns when there is a repoll at all, [solve_milp_payload] raises
    [TimeoutError]. *)
Theorem polling_times_out {R P : Type}
    (get_LP_solve : P → cuopt_server.Response R)
    (repoll : nat → string → cuopt_server.Response R)
    (sleep : Q → option cuopt_server.Error)
    (payload : P) (repoll_tries : Z) (repoll_interval : Q) :
  (∀ k, (k ≤ Z.to_nat repoll_tries)%nat →
     ∃ r, answer get_LP_solve repoll payload k = Some r ∧ pending r = true) →
  (0 < repoll_tries → sleep repoll_interval = None) →
  cuopt_server.solve_milp_payload get_LP_solve repoll sleep payload repoll_tries
    repoll_interval
  = cuopt_server.Raised cuopt_server.TimeoutError.
Proof.
  intros Hpend Hsleep. unfold cuopt_server.solve_milp_payload.
  destruct (poll_pending get_LP_solve repoll sleep payload repoll_interval
              (Z.to_nat repoll_tries) (Z.to_nat repoll_tries) 0 (get_LP_solve payload))
    as (resp' & Hresp' & ->);
    [done | intros k' Hk'; apply Hpend; lia | lia | intros ?; apply Hsleep; lia |].
  cbn in Hresp'. destruct (Hpend (Z.to_nat repoll_tries)) as (r & Hr & Hp); [lia |].
  rewrite Hresp' in Hr. injection Hr as <-.
  rewrite Nat.sub_diag. unfold pending in Hp.
  destruct resp' as [[w|] [req|]]; cbn in *; done.
Qed.

Lemma polling_times_out_witness :
  cuopt_server.solve_milp_payload (R := Z)
    (λ _ : unit, {| cuopt_server.response := None; cuopt_server.reqId := Some "r1" |})
    (λ _ _, {| cuopt_server.response := None; cuopt_server.reqId := Some "r1" |})
    (λ secs, if Qle_bool 0 secs then None else Some cuopt_server.ValueError)
    () 2 1%Q
  = cuopt_server.Raised cuopt_server.TimeoutError.
Proof.
  apply (polling_times_out (R := Z)
           (λ _ : unit, {| cuopt_server.response := None;
                           cuopt_server.reqId := Some "r1" |})
           (λ _ _, {| cuopt_server.response := None; cuopt_server.reqId := Some "r1" |})
           (λ secs, if Qle_bool 0 secs then None else Some cuopt_server.ValueError)
           () 2 1%Q).
  - intros [|[|[|k]]] Hk; [eexists; split; reflexivity .. |].
    exfalso. change (Z.to_nat 2) with 2%nat in Hk. lia.
  - reflexivity.
Defined.

(** What [solve_milp_payload] returns is the solver response of an answer
    that the service gave after at most [repoll_tries] repolls. *)
Theorem polling_returns_an_answer {R P : Type}
    (get_LP_solve : P → cuopt_server.Response R)
    (repoll : nat → string → cuopt_server.Response R)
    (sleep : Q → option cuopt_server.Error)
    (payload : P) (repoll_tries : Z) (repoll_interval : Q) (r : R) :
  cuopt_server.solve_milp_payload get_LP_solve repoll sleep payload repoll_tries
    repoll_interval
  = cuopt_server.Returned r →
  ∃ k resp wrapped,
    (k ≤ Z.to_nat repoll_tries)%nat
    ∧ answer get_LP_solve repoll payload k = Some resp
    ∧ cuopt_server.response resp = Some wrapped
    ∧ cuopt_server.solver_response wrapped = Some r.
Proof.
  unfold cuopt_server.solve_milp_payload.
  assert (Hgen : ∀ budget tries resp,
            answer get_LP_solve repoll payload tries = Some resp →
            cuopt_server.poll repoll sleep repoll_interval budget tries resp
            = cuopt_server.Returned r →
            ∃ k resp' wrapped,
              (k ≤ tries + budget)%nat
              ∧ answer get_LP_solve repoll payload k = Some resp'
              ∧ cuopt_server.response resp' = Some wrapped
              ∧ cuopt_server.solver_response wrapped = Some r).
  { induction budget as [|budget IH]; intros tries resp Hresp Hrun.
    - destruct resp as [[[[r'|]]|] [req|]]; cbn in Hrun; try done;
        injection Hrun as ->; exists tries; eexists; eexists;
        (split; [lia | split; [exact Hresp | split; reflexivity]]).
    - destruct resp as [[[[r'|]]|] [req|]]; cbn in Hrun; try done;
        try (injection Hrun as ->; exists tries; eexists; eexists;
             (split; [lia | split; [exact Hresp | split; reflexivity]])).
      destruct (sleep repoll_interval); [done |].
      destruct (IH (S tries) (repoll tries req)) as (k & resp' & wrapped & Hk & ?);
        [cbn; by rewrite Hresp | exact Hrun |].
      exists k, resp', wrapped. split; [lia | done]. }
  intros Hrun.
  destruct (Hgen (Z.to_nat repoll_tries) 0%nat (get_LP_solve payload) eq_refl Hrun)
    as (k & resp & wrapped & Hk & ?).
  exists k, resp, wrapped. split; [lia | done].
Qed.

Lemma polling_returns_an_answer_witness :
  ∃ k resp wrapped,
    (k ≤ Z.to_nat 3)%nat
    ∧ answer
        (λ _ : unit, {| cuopt_server.response := None; cuopt_server.reqId := Some "r1" |})
        (λ tries _,
           if (tries =? 1)%nat
           then {| cuopt_server.response :=
                     Some {| cuopt_server.solver_response := Some 7 |};
                   cuopt_server.reqId := None |}
           else {| cuopt_server.response := None; cuopt_server.reqId := Some "r1" |})
        () k = Some resp
    ∧ cuopt_server.response resp = Some wrapped
    ∧ cuopt_server.solver_response wrapped = Some 7.
Proof.
  apply (polling_returns_an_answer
           (λ _ : unit, {| cuopt_server.response := None;
                           cuopt_server.reqId := Some "r1" |})
           (λ tries _,
              if (tries =? 1)%nat
              then {| cuopt_server.response :=
                        Some {| cuopt_server.solver_response := Some 7 |};
                      cuopt_server.reqId := None |}
              else {| cuopt_server.response := None;
                      cuopt_server.reqId := Some "r1" |})
           (λ secs, if Qle_bool 0 secs then None else Some cuopt_server.ValueError)
           () 3 1%Q 7).
  reflexivity.
Defined.

(** When the answer to the payload is pending and a repoll is allowed, an
    exception that [time.sleep(repoll_interval)] raises (a [ValueError] on a
    negative interval) is what [solve_milp_payload] raises, whatever the
    repoll answers. *)
Theorem polling_sleep_raises {R P : Type}
    (get_LP_solve : P → cuopt_server.Response R)
    (repoll : nat → string → cuopt_server.Response R)
    (sleep : Q → option cuopt_server.Error)
    (payload : P) (repoll_tries : Z) (repoll_interval : Q)
    (e : cuopt_server.Error) :
  pending (get_LP_solve payload) = true →
  0 < repoll_tries →
  sleep repoll_interval = Some e →
  cuopt_server.solve_milp_payload get_LP_solve repoll sleep payload repoll_tries
    repoll_interval
  = cuopt_server.Raised e.
Proof.
  intros Hpend Htries Hsleep. unfold cuopt_server.solve_milp_payload.
  destruct (Z.to_nat repoll_tries) as [|budget] eqn:Hbudget; [lia |].
  unfold pending in Hpend.
  destruct (get_LP_solve payload) as [[w|] [req|]]; cbn in *; try done.
  by rewrite Hsleep.
Qed.

Lemma polling_sleep_raises_witness :
  cuopt_server.solve_milp_payload (R := Z)
    (λ _ : unit, {| cuopt_server.response := None; cuopt_server.reqId := Some "r1" |})
    (λ _ _, {| cuopt_server.response := Some {| cuopt_server.solver_response := Some 7 |};
               cuopt_server.reqId := None |})
    (λ secs, if Qle_bool 0 secs then None else Some cuopt_server.ValueError)
    () 3 (-1)%Q
  = cuopt_server.Raised cuopt_server.ValueError.
Proof.
  apply (polling_sleep_raises (R := Z)
           (λ _ : unit, {| cuopt_server.response := None;
                           cuopt_server.reqId := Some "r1" |})
           (λ _ _, {| cuopt_server.response :=
                        Some {| cuopt_server.solver_response := Some 7 |};
                      cuopt_server.reqId := None |})
           (λ secs, if Qle_bool 0 secs then None else Some cuopt_server.ValueError)
           () 3 (-1)%Q cuopt_server.ValueError).
  - reflexivity.
  - lia.
  - reflexivity.
Defined.

(** * The encoded model *)

(** The CSR arrays of an encoded model are well formed: there is one lower
    and one upper bound per row, the offsets start at 0, never decrease,
    number one more than the rows and end at the number of stored entries,
    and every stored index has its value. The number of rows is that of the
    loop ranges of the ten families. *)
Theorem csr_well_formed (inst : InstanceData) (ws_mode : bool) (m : WAESModel) :
  build_waes.build_waes_model inst ws_mode = Some m →
  length (build_waes.constraint_lb m) = row_count inst
  ∧ length (build_waes.constraint_ub m) = row_count inst
  ∧ length (build_waes.csr_offsets m) = S (row_count inst)
  ∧ build_waes.csr_offsets m !! 0%nat = Some 0%nat
  ∧ last (build_waes.csr_offsets m) = Some (length (build_waes.csr_indices m))
  ∧ length (build_waes.csr_values m) = length (build_waes.csr_indices m)
  ∧ (∀ r o1 o2, build_waes.csr_offsets m !! r = Some o1 →
       build_waes.csr_offsets m !! S r = Some o2 → (o1 ≤ o2)%nat).
Proof.
  intros Hbuild.
  destruct (build_waes_model_csr _ _ _ Hbuild)
    as (rows & Hrows & -> & -> & -> & -> & ->).
  pose proof (length_accumulated_rows _ _ _ _ _ _ Hrows) as Hlen.
  rewrite !length_fmap, Hlen. split_and!; try done.
  - by rewrite length_cons, length_offsets_from, !length_fmap, Hlen.
  - by rewrite offsets_from_last.
  - intros r o1 o2. apply offsets_from_mono.
Qed.

Lemma csr_well_formed_witness :
  ∃ m, length (build_waes.constraint_lb m) = row_count tiny
       ∧ length (build_waes.constraint_ub m) = row_count tiny
       ∧ length (build_waes.csr_offsets m) = S (row_count tiny)
       ∧ build_waes.csr_offsets m !! 0%nat = Some 0%nat
       ∧ last (build_waes.csr_offsets m) = Some (length (build_waes.csr_indices m))
       ∧ length (build_waes.csr_values m) = length (build_waes.csr_indices m)
       ∧ (∀ r o1 o2, build_waes.csr_offsets m !! r = Some o1 →
            build_waes.csr_offsets m !! S r = Some o2 → (o1 ≤ o2)%nat).
Proof.
  evar (m : WAESModel).
  assert (Hm : build_waes.build_waes_model tiny false = Some m)
    by (unfold m; vm_compute; reflexivity).
  exists m. exact (csr_well_formed tiny false m Hm).
Defined.

(** In every row of an encoded model the stored entries are in strictly
    increasing order of their variable index, so no variable is stored
    twice in a row; every stored index is the index of a decision variable
    and lies below the number of variables; every stored coefficient is
    larger than 1e-12 in magnitude. *)
Theorem stored_entries_well_formed (inst : InstanceData) (ws_mode : bool)
    (m : WAESModel) (r : nat) (row : list (nat * Q) * Bound * Bound) :
  build_waes.build_waes_model inst ws_mode = Some m →
  model_rows m !! r = Some row →
  StronglySorted lt row.1.1.*1
  ∧ ∀ idx coeff, (idx, coeff) ∈ row.1.1 →
      (idx < length (build_waes.variable_names m))%nat
      ∧ (build_waes.drop_threshold < Qabs coeff)%Q
      ∧ ∃ vk, index_in (build_waes.x_aijk m) (build_waes.y_tija m)
                (build_waes.y_tj m) vk = Some idx.
Proof.
  intros Hbuild Hrow.
  destruct (build_waes_model_spec _ _ _ Hbuild)
    as (vs & rows & Hvs & Hrows & Hm & En & _ & _ & _ & _ & Ex & Eyi & Eys).
  destruct (create_variables_ok _ _ Hvs) as (log & Hok & _).
  rewrite Hm in Hrow. apply list_lookup_fmap_Some in Hrow as (raw & -> & Hraw).
  cbn. split; [apply stored_sorted |].
  intros idx coeff [Hc Hbig]%stored_spec. cbn in Hc, Hbig.
  pose proof (accumulated_rows_indexed _ _ _ _ _ _ Hrows) as Hall.
  rewrite Forall_forall in Hall.
  destruct (Hall raw (list_elem_of_lookup_2 _ _ _ Hraw) idx) as (vk & Hvk);
    [by eexists |].
  split; [|split; [|by exists vk]].
  - rewrite En. eapply catalog_ok_lt; [exact Hok |].
    unfold index_of. rewrite <- Ex, <- Eyi, <- Eys. exact Hvk.
  - apply Qnot_le_lt. intros Hle%Qle_bool_iff. by rewrite Hle in Hbig.
Qed.

Lemma stored_entries_well_formed_witness :
  ∃ (m : WAESModel) (row : list (nat * Q) * Bound * Bound),
    row.1.1 ≠ []
    ∧ StronglySorted lt row.1.1.*1
    ∧ ∀ idx coeff, (idx, coeff) ∈ row.1.1 →
        (idx < length (build_waes.variable_names m))%nat
        ∧ (build_waes.drop_threshold < Qabs coeff)%Q
        ∧ ∃ vk, index_in (build_waes.x_aijk m) (build_waes.y_tija m)
                  (build_waes.y_tj m) vk = Some idx.
Proof.
  evar (m : WAESModel).
  assert (Hm : build_waes.build_waes_model tiny false = Some m)
    by (unfold m; vm_compute; reflexivity).
  evar (row : (list (nat * Q) * Bound * Bound)%type).
  assert (Hrow : model_rows m !! 1%nat = Some row)
    by (unfold row, m; vm_compute; reflexivity).
  exists m, row. split; [unfold row; discriminate |].
  exact (stored_entries_well_formed tiny false m 1 row Hm Hrow).
Defined.

(** The bounds of every row of an encoded model have one of three shapes:
    an equality on a number, the lower bound 0 with the upper bound
    ["inf"], or the lower bound ["ninf"] with a number as upper bound. No
    other sentinel string occurs, and no row is unbounded on both sides. *)
Theorem row_bounds_well_formed (inst : InstanceData) (ws_mode : bool)
    (m : WAESModel) (r : nat) (row : list (nat * Q) * Bound * Bound) :
  build_waes.build_waes_model inst ws_mode = Some m →
  model_rows m !! r = Some row →
  (∃ rhs, row.1.2 = BNum rhs ∧ row.2 = BNum rhs)
  ∨ (row.1.2 = BNum 0 ∧ row.2 = BStr "inf")
  ∨ (row.1.2 = BStr "ninf" ∧ ∃ hi, row.2 = BNum hi).
Proof.
  intros Hbuild Hrow.
  destruct (build_waes_model_spec _ _ _ Hbuild) as (vs & rows & _ & Hrows & Hm & _).
  rewrite Hm in Hrow. apply list_lookup_fmap_Some in Hrow as (raw & -> & Hraw).
  pose proof (accumulated_rows_bounds _ _ _ _ _ _ Hrows) as Hall.
  rewrite Forall_forall in Hall.
  exact (Hall raw (list_elem_of_lookup_2 _ _ _ Hraw)).
Qed.

Lemma row_bounds_well_formed_witness :
  ∃ row : list (nat * Q) * Bound * Bound,
    (∃ rhs, row.1.2 = BNum rhs ∧ row.2 = BNum rhs)
    ∨ (row.1.2 = BNum 0 ∧ row.2 = BStr "inf")
    ∨ (row.1.2 = BStr "ninf" ∧ ∃ hi, row.2 = BNum hi).
Proof.
  evar (m : WAESModel).
  assert (Hm : build_waes.build_waes_model tiny false = Some m)
    by (unfold m; vm_compute; reflexivity).
  evar (row : (list (nat * Q) * Bound * Bound)%type).
  assert (Hrow : model_rows m !! 1%nat = Some row)
    by (unfold row, m; vm_compute; reflexivity).
  exists row.
  exact (row_bounds_well_formed tiny false m 1 row Hm Hrow).
Defined.

(** The variable catalog of an encoded model is laid out in the order of the
    three variable loops: first the execution variables, then the
    assignment variables, then the headcount variables. Slot by slot the
    five parallel lists hold the name built from the key, the type ["I"],
    the lower bound 0 and the upper bound [q]; an index map sends a key to
    a slot created for that key, and the index maps have an index for
    exactly the variables of the loops. *)
Theorem variable_layout (inst : InstanceData) (ws_mode : bool) (m : WAESModel) :
  build_waes.build_waes_model inst ws_mode = Some m →
  build_waes.variable_names m = name_of <$> creation_order inst
  ∧ build_waes.variable_types m = replicate (length (creation_order inst)) "I"
  ∧ build_waes.variable_lb m = replicate (length (creation_order inst)) (BNum 0)
  ∧ build_waes.variable_ub m
    = replicate (length (creation_order inst)) (BNum (inject_Z (instance.q inst)))
  ∧ length (build_waes.objective_coeffs m) = length (creation_order inst)
  ∧ (∀ vk idx,
       index_in (build_waes.x_aijk m) (build_waes.y_tija m) (build_waes.y_tj m) vk
       = Some idx →
       creation_order inst !! idx = Some vk)
  ∧ (∀ vk,
       is_Some (index_in (build_waes.x_aijk m) (build_waes.y_tija m)
                  (build_waes.y_tj m) vk)
       ↔ vk ∈ creation_order inst).
Proof.
  intros Hbuild.
  destruct (build_waes_model_spec _ _ _ Hbuild)
    as (vs & rows & Hvs & _ & _ & -> & -> & -> & -> & -> & -> & -> & ->).
  destruct (create_variables_log _ _ Hvs)
    as [(Hnames & Hobjs & Hidx & _) (Ln & Lt & Ll & Lu)].
  destruct (create_variables_ok _ _ Hvs) as (_ & _ & Dx & Dyi & Dys).
  rewrite Ln, Lt, Ll, Lu, Hobjs. split_and!; try done.
  - by apply const_fmap.
  - by apply const_fmap.
  - by apply const_fmap.
  - intros vk. unfold creation_order. rewrite !elem_of_app, !list_elem_of_fmap.
    destruct vk as [key|key|key]; cbn; rewrite <- elem_of_dom.
    + rewrite Dx, elem_of_list_to_set. split;
        [intros Hin; left; by exists key |].
      intros [(key' & [= <-] & ?)|[(key' & [=] & _)|(key' & [=] & _)]]. done.
    + rewrite Dyi, elem_of_list_to_set. split;
        [intros Hin; right; left; by exists key |].
      intros [(key' & [=] & _)|[(key' & [= <-] & ?)|(key' & [=] & _)]]. done.
    + rewrite Dys, elem_of_list_to_set. split;
        [intros Hin; right; right; by exists key |].
      intros [(key' & [=] & _)|[(key' & [=] & _)|(key' & [= <-] & ?)]]. done.
Qed.

Lemma variable_layout_witness :
  ∃ m,
    build_waes.variable_names m = name_of <$> creation_order tiny
    ∧ build_waes.variable_types m = replicate (length (creation_order tiny)) "I"
    ∧ build_waes.variable_lb m = replicate (length (creation_order tiny)) (BNum 0)
    ∧ build_waes.variable_ub m
      = replicate (length (creation_order tiny)) (BNum (inject_Z (instance.q tiny)))
    ∧ length (build_waes.objective_coeffs m) = length (creation_order tiny)
    ∧ (∀ vk idx,
         index_in (build_waes.x_aijk m) (build_waes.y_tija m) (build_waes.y_tj m) vk
         = Some idx →
         creation_order tiny !! idx = Some vk)
    ∧ (∀ vk,
         is_Some (index_in (build_waes.x_aijk m) (build_waes.y_tija m)
                    (build_waes.y_tj m) vk)
         ↔ vk ∈ creation_order tiny).
Proof.
  evar (m : WAESModel).
  assert (Hm : build_waes.build_waes_model tiny false = Some m)
    by (unfold m; vm_compute; reflexivity).
  exists m. exact (variable_layout tiny false m Hm).
Defined.

(** No two decision variables of an encoded model share a flat index,
    whatever their kinds, and the name stored at the index of a variable is
    the name built from its key. *)
Theorem index_maps_injective (inst : InstanceData) (ws_mode : bool) (m : WAESModel)
    (vk1 vk2 : var_key) (idx : nat) :
  build_waes.build_waes_model inst ws_mode = Some m →
  index_in (build_waes.x_aijk m) (build_waes.y_tija m) (build_waes.y_tj m) vk1
  = Some idx →
  index_in (build_waes.x_aijk m) (build_waes.y_tija m) (build_waes.y_tj m) vk2
  = Some idx →
  vk1 = vk2 ∧ build_waes.variable_names m !! idx = Some (name_of vk1).
Proof.
  intros Hbuild H1 H2.
  destruct (build_waes_model_spec _ _ _ Hbuild)
    as (vs & rows & Hvs & _ & _ & En & _ & _ & _ & _ & Ex & Eyi & Eys).
  destruct (create_variables_log _ _ Hvs) as [Hok (Ln & _)].
  rewrite Ex, Eyi, Eys in H1, H2. split.
  - by eapply catalog_ok_inj.
  - destruct Hok as (_ & _ & Hidx & _).
    rewrite En, Ln, list_lookup_fmap, (Hidx vk1 idx H1). done.
Qed.

Lemma index_maps_injective_witness :
  ∃ m, KYI (1, 1, 1, 1) = KYI (1, 1, 1, 1)
       ∧ build_waes.variable_names m !! 1%nat = Some (name_of (KYI (1, 1, 1, 1))).
Proof.
  evar (m : WAESModel).
  assert (Hm : build_waes.build_waes_model tiny false = Some m)
    by (unfold m; vm_compute; reflexivity).
  assert (Hidx : index_in (build_waes.x_aijk m) (build_waes.y_tija m)
                   (build_waes.y_tj m) (KYI (1, 1, 1, 1)) = Some 1%nat)
    by (unfold m; vm_compute; reflexivity).
  exists m.
  exact (index_maps_injective tiny false m (KYI (1, 1, 1, 1)) (KYI (1, 1, 1, 1)) 1
           Hm Hidx Hidx).
Defined.

(** The rows of the two demand families, Eq. (2) and Eq. (3), store
    coefficients of execution variables [x[a, i, j, k]] only, none of which
    executes before its origin interval ([i <= k]); in the WS baseline they
    all execute in their origin interval ([k = i]). *)
Theorem demand_rows_window (inst : InstanceData) (ws_mode : bool) (m : WAESModel)
    (r : nat) (row : list (nat * Q) * Bound * Bound) (idx : nat) (coeff : Q) :
  build_waes.build_waes_model inst ws_mode = Some m →
  (r < family_start inst 2)%nat →
  model_rows m !! r = Some row →
  (idx, coeff) ∈ row.1.1 →
  ∃ a i j k, build_waes.x_aijk m !! (a, i, j, k) = Some idx
    ∧ i <= k ∧ (ws_mode = true → k = i).
Proof.
  intros Hbuild Hr Hrow Hin.
  destruct (build_waes_model_spec _ _ _ Hbuild) as (vs & rows & _ & Hrows & Hm & _).
  rewrite Hm in Hrow. apply list_lookup_fmap_Some in Hrow as (raw & -> & Hraw).
  cbn in Hin. apply stored_spec in Hin as [Hc _]. cbn in Hc.
  unfold accumulated_rows in Hrows.
  apply bind_Some in Hrows as (r2 & H2 & Hrows).
  apply bind_Some in Hrows as (r3 & H3 & Hrows).
  repeat (apply bind_Some in Hrows as (? & _ & Hrows)).
  injection Hrows as <-.
  pose proof (length_mapM _ _ _ H2) as L2. rewrite length_pairs in L2.
  pose proof (length_mapM _ _ _ H3) as L3. rewrite length_pairs in L3.
  assert (Hstart : family_start inst 2 = (length r2 + length r3)%nat).
  { unfold family_start, family_sizes. cbn. lia. }
  rewrite Hstart in Hr. clear Hstart L2 L3.
  rewrite app_assoc in Hraw. rewrite lookup_app_l in Hraw
    by (rewrite length_app; lia).
  apply lookup_app_Some in Hraw as [Hraw|[_ Hraw]].
  - destruct (mapM_lookup_r _ _ _ _ _ H2 Hraw) as ([i a] & _ & Hmk).
    unfold build_waes.row_eq2 in Hmk.
    apply bind_Some in Hmk as (until & Hu & Hmk).
    apply bind_Some in Hmk as (acc & Hw & Hmk).
    apply bind_Some in Hmk as (rhs & _ & Hmk). injection Hmk as <-.
    destruct (window_terms_keys _ _ _ _ _ _ _ idx Hw) as [Hold|(j & k & _ & Hk & Hx)];
      [by eexists | by rewrite lookup_empty in Hold; destruct Hold |].
    exists a, i, j, k. split; [done |]. split; [lia |].
    intros ->. unfold build_waes._until_a1 in Hu. cbn in Hu.
    injection Hu as <-. lia.
  - destruct (mapM_lookup_r _ _ _ _ _ H3 Hraw) as ([i a] & _ & Hmk).
    unfold build_waes.row_eq3 in Hmk.
    apply bind_Some in Hmk as (until & Hu & Hmk).
    apply bind_Some in Hmk as (acc & Hw & Hmk).
    apply bind_Some in Hmk as (rhs & _ & Hmk). injection Hmk as <-.
    destruct (window_terms_keys _ _ _ _ _ _ _ idx Hw) as [Hold|(j & k & _ & Hk & Hx)];
      [by eexists | by rewrite lookup_empty in Hold; destruct Hold |].
    exists a, i, j, k. split; [done |]. split; [lia |].
    intros ->. unfold build_waes._until_a2 in Hu. cbn in Hu.
    injection Hu as <-. lia.
Qed.

Lemma demand_rows_window_witness :
  ∃ (m : WAESModel) a i j k,
    build_waes.x_aijk m !! (a, i, j, k) = Some 0%nat
    ∧ i <= k ∧ (true = true → k = i).
Proof.
  evar (m : WAESModel).
  assert (Hm : build_waes.build_waes_model tiny true = Some m)
    by (unfold m; vm_compute; reflexivity).
  evar (row : (list (nat * Q) * Bound * Bound)%type).
  assert (Hrow : model_rows m !! 0%nat = Some row)
    by (unfold row, m; vm_compute; reflexivity).
  exists m.
  apply (demand_rows_window tiny true m 0 row 0 1 Hm); [| exact Hrow |].
  - vm_compute. lia.
  - unfold row. cbn. repeat constructor.
Defined.

(** * The tolerance of the Audit *)

(** The tolerance only filters the issues. Whether the Audit returns does
    not depend on the tolerance; with a larger tolerance it records a
    sublist of the issues, in the same order, so a report that passes keeps
    passing when the tolerance is raised. *)
Theorem tolerance_only_filters (inst : InstanceData) (solved : SolvedValues)
    (ws_mode : bool) (tol tol' : Q) (report : audit.AuditReport) :
  audit.run_audits inst solved ws_mode tol = Some report →
  ∃ report',
    audit.run_audits inst solved ws_mode tol' = Some report'
    ∧ ((tol <= tol')%Q →
       audit.issues report' `sublist_of` audit.issues report
       ∧ (audit.passed report = true → audit.passed report' = true)).
Proof.
  destruct (run_audits_checks inst solved ws_mode) as (checks & Hrun & _).
  rewrite (Hrun tol), (Hrun tol'). destruct checks as [cs|]; [|done]. cbn.
  intros [= <-]. eexists. split; [reflexivity |]. cbn. intros Hle.
  pose proof (recorded_sublist tol tol' cs Hle) as Hsub. split; [exact Hsub |].
  rewrite !bool_decide_eq_true. intros E. rewrite E in Hsub.
  by apply sublist_nil_r.
Qed.

Lemma tolerance_only_filters_witness :
  ∃ report report',
    audit.run_audits tiny (zero_solution tiny) false (1 # 10000) = Some report
    ∧ audit.issues report ≠ []
    ∧ audit.run_audits tiny (zero_solution tiny) false 3 = Some report'
    ∧ (((1 # 10000) <= 3)%Q →
       audit.issues report' `sublist_of` audit.issues report
       ∧ (audit.passed report = true → audit.passed report' = true)).
Proof.
  evar (report : audit.AuditReport).
  assert (Hrun : audit.run_audits tiny (zero_solution tiny) false (1 # 10000)
                 = Some report)
    by (unfold report; vm_compute; reflexivity).
  destruct (tolerance_only_filters tiny (zero_solution tiny) false (1 # 10000) 3
              report Hrun) as (report' & Hrun' & Hmono).
  exists report, report'. split; [exact Hrun |]. split; [unfold report; discriminate |].
  split; [exact Hrun' | exact Hmono].
Defined.

(** Every issue of a report has a violation strictly above the tolerance of
    the report, which is the tolerance given, and carries the tag of one of
    the ten equations. *)
Theorem recorded_issues_exceed_tolerance (inst : InstanceData) (solved : SolvedValues)
    (ws_mode : bool) (tol : Q) (report : audit.AuditReport) (issue : audit.AuditIssue) :
  audit.run_audits inst solved ws_mode tol = Some report →
  issue ∈ audit.issues report →
  audit.tolerance report = tol
  ∧ (tol < audit.violation issue)%Q
  ∧ audit.equation issue ∈ equation_tags.
Proof.
  destruct (run_audits_checks inst solved ws_mode) as (checks & Hrun & Htags).
  rewrite (Hrun tol). destruct checks as [cs|]; [|done]. cbn.
  intros [= <-]. cbn. intros [Hbig Hin]%list_elem_of_filter.
  split; [done |]. split.
  - unfold audit.exceeds in Hbig. apply negb_true_iff in Hbig.
    apply Qnot_le_lt. intros Hle%Qle_bool_iff. congruence.
  - specialize (Htags cs eq_refl). rewrite Forall_forall in Htags. by apply Htags.
Qed.

Lemma recorded_issues_exceed_tolerance_witness :
  ∃ report issue,
    issue ∈ audit.issues report
    ∧ audit.tolerance report = (1 # 10000)%Q
    ∧ ((1 # 10000) < audit.violation issue)%Q
    ∧ audit.equation issue ∈ equation_tags.
Proof.
  evar (report : audit.AuditReport).
  assert (Hrun : audit.run_audits tiny (zero_solution tiny) false (1 # 10000)
                 = Some report)
    by (unfold report; vm_compute; reflexivity).
  evar (issue : audit.AuditIssue).
  assert (Hin : issue ∈ audit.issues report)
    by (unfold issue, report; cbn; apply list_elem_of_here).
  exists report, issue. split; [exact Hin |].
  exact (recorded_issues_exceed_tolerance tiny (zero_solution tiny) false (1 # 10000)
           report issue Hrun Hin).
Defined.

(** * The Audit and the Encoder agree *)

(** On an instance and a solution vector on which the arithmetic of
    doubles is exact ([exact_in_doubles]: the floats are multiples of
    [2^-k], and the sizes and magnitudes are such that every sum and
    product that the Encoder or the Audit forms is a double), and when
    [add_row] drops only zero coefficients, the Audit of the solved values
    unpacked from the vector returns, and its report passes exactly when
    the vector satisfies every row of the encoded model within the
    tolerance ([lb - tol <= row . vector <= ub + tol]) and every solved
    value is within the tolerance of its nearest integer. This holds in
    either mode and for any tolerance, negative ones included. *)
Theorem audit_agrees_with_encoder (inst : InstanceData) (ws_mode : bool) (m : WAESModel)
    (vector : list Q) (solved : SolvedValues) (tol : Q)
    (mode status : string) (objective : Q) (time gap bound : option Q) (k : nat) :
  build_waes.build_waes_model inst ws_mode = Some m →
  solve._collect_solution m mode status vector objective time gap bound = Some solved →
  drops_only_zeros inst ws_mode m = true →
  exact_in_doubles k inst vector = true →
  ∃ report,
    audit.run_audits inst solved ws_mode tol = Some report
    ∧ (audit.passed report = true
       ↔ forallb (within tol vector) (model_rows m) = true
         ∧ near_integer tol solved = true).
Proof.
  intros Hbuild Hcollect Hdrops _.
  destruct (build_waes_model_spec _ _ _ Hbuild) as (vs & rows & _ & Hrows & Hm & _).
  destruct (collect_solution_spec _ _ _ _ _ _ _ _ _ Hcollect) as (Hx & Hyi & Hys).
  unfold drops_only_zeros in Hdrops. rewrite Hrows in Hdrops. rewrite Hm.
  eapply run_audits_verdict; eauto.
Qed.

Lemma audit_agrees_with_encoder_witness :
  ∃ m solved report,
    build_waes.build_waes_model tiny false = Some m
    ∧ solve._collect_solution m "waes" "Optimal" [2; 2; 0]%Q 0 None None None
      = Some solved
    ∧ audit.run_audits tiny solved false audit.default_tol = Some report
    ∧ audit.passed report = false
    ∧ (audit.passed report = true
       ↔ forallb (within audit.default_tol [2; 2; 0]%Q) (model_rows m) = true
         ∧ near_integer audit.default_tol solved = true).
Proof.
  evar (m : WAESModel). evar (solved : SolvedValues).
  assert (Hm : build_waes.build_waes_model tiny false = Some m)
    by (unfold m; vm_compute; reflexivity).
  assert (Hs : solve._collect_solution m "waes" "Optimal" [2; 2; 0]%Q 0
                 None None None = Some solved)
    by (unfold solved; vm_compute; reflexivity).
  assert (Hd : drops_only_zeros tiny false m = true) by (vm_compute; reflexivity).
  assert (He : exact_in_doubles 1 tiny [2; 2; 0]%Q = true) by (vm_compute; reflexivity).
  destruct (audit_agrees_with_encoder tiny false m [2; 2; 0]%Q solved audit.default_tol
              "waes" "Optimal" 0 None None None 1 Hm Hs Hd He)
    as (report & Hrun & Hiff).
  exists m, solved, report. split; [exact Hm |]. split; [exact Hs |].
  split; [exact Hrun |]. split; [|exact Hiff].
  vm_compute in Hrun. injection Hrun as <-. reflexivity.
Defined.

(** * A mode run *)

(** A solution that [_run_one_mode] returns has been unpacked from the
    vector read for the model of the requested mode, carries that mode, and
    has passed the Audit run in the same mode as the Encoder
    ([ws_mode = (mode == "ws")]): when [add_row] dropped only zero
    coefficients and the instance and the vector are such that the
    arithmetic of doubles is exact ([exact_in_doubles]), the vector
    satisfies every row of the model within the audit tolerance and every
    solved value is within the tolerance of an integer. *)
Theorem returned_solution_is_audited
    (solve_and_read : WAESModel → build_waes.ServerPayload → option solve.Reading)
    (write_solution_csvs : InstanceData → SolvedValues → option unit)
    (inst : InstanceData) (mode : string) (audit_tol : Q)
    (solver_cfg : gmap string string) (solved : SolvedValues) (k : nat) :
  solve._run_one_mode solve_and_read write_solution_csvs inst mode audit_tol solver_cfg
  = Some solved →
  ∃ m reading,
    solve._build_mode inst mode = Some m
    ∧ build_waes.ws_mode m = bool_decide (mode = "ws")
    ∧ solve_and_read m (build_waes.to_server_payload m solver_cfg) = Some reading
    ∧ solve._collect_solution m mode (solve.read_status reading)
        (solve.read_vector reading) (solve.read_objective reading)
        (solve.read_solver_time reading) (solve.read_mip_gap reading)
        (solve.read_solution_bound reading) = Some solved
    ∧ solution_types.mode solved = mode
    ∧ (drops_only_zeros inst (build_waes.ws_mode m) m = true →
       exact_in_doubles k inst (solve.read_vector reading) = true →
       forallb (within audit_tol (solve.read_vector reading)) (model_rows m) = true
       ∧ near_integer audit_tol solved = true).
Proof.
  unfold solve._run_one_mode. intros Hrun.
  apply bind_Some in Hrun as (m & Hmode & Hrun).
  apply bind_Some in Hrun as (reading & Hread & Hrun).
  apply bind_Some in Hrun as (solved' & Hcollect & Hrun).
  apply bind_Some in Hrun as (report & Haudit & Hrun).
  destruct (audit.passed report) eqn:Hpassed; [|done]. cbn in Hrun.
  apply bind_Some in Hrun as ([] & _ & Hrun). injection Hrun as ->.
  assert (Hbuild : build_waes.build_waes_model inst (bool_decide (mode = "ws")) = Some m
                   ∧ build_waes.ws_mode m = bool_decide (mode = "ws")).
  { unfold solve._build_mode, build_ws.build_ws_model in Hmode.
    destruct (decide (mode = "waes")) as [->|_].
    - split; [exact Hmode |].
      unfold build_waes.build_waes_model in Hmode.
      repeat (apply bind_Some in Hmode as (? & _ & Hmode)). by injection Hmode as <-.
    - destruct (decide (mode = "ws")) as [->|_]; [|done].
      split; [exact Hmode |].
      unfold build_waes.build_waes_model in Hmode.
      repeat (apply bind_Some in Hmode as (? & _ & Hmode)). by injection Hmode as <-. }
  destruct Hbuild as [Hbuild Hflag].
  exists m, reading. split; [done |]. split; [done |]. split; [done |].
  split; [done |]. split.
  - by apply collect_solution_mode in Hcollect as [? _].
  - rewrite Hflag. intros Hdrops _.
    destruct (build_waes_model_spec _ _ _ Hbuild) as (vs & rows & _ & Hrows & Hm & _).
    destruct (collect_solution_spec _ _ _ _ _ _ _ _ _ Hcollect) as (Hx & Hyi & Hys).
    unfold drops_only_zeros in Hdrops. rewrite Hrows in Hdrops.
    destruct (run_audits_verdict inst (bool_decide (mode = "ws"))
                (solve.read_vector reading) _ _ _ solved Hx Hyi Hys audit_tol rows
                Hrows Hdrops) as (report' & Haudit' & Hiff).
    rewrite Haudit in Haudit'. injection Haudit' as <-.
    rewrite Hm. by apply Hiff.
Qed.

Lemma returned_solution_is_audited_witness :
  ∃ solved m reading,
    solve._build_mode tiny "ws" = Some m
    ∧ build_waes.ws_mode m = bool_decide ("ws" = "ws")
    ∧ Some {| solve.read_status := "Optimal"; solve.read_vector := [2; 2; 2]%Q;
              solve.read_objective := 10%Q; solve.read_solver_time := None;
              solve.read_mip_gap := None; solve.read_solution_bound := None |}
      = Some reading
    ∧ solve._collect_solution m "ws" (solve.read_status reading)
        (solve.read_vector reading) (solve.read_objective reading)
        (solve.read_solver_time reading) (solve.read_mip_gap reading)
        (solve.read_solution_bound reading) = Some solved
    ∧ solution_types.mode solved = "ws"
    ∧ (drops_only_zeros tiny (build_waes.ws_mode m) m = true →
       exact_in_doubles 1 tiny (solve.read_vector reading) = true →
       forallb (within audit.default_tol (solve.read_vector reading)) (model_rows m)
       = true
       ∧ near_integer audit.default_tol solved = true).
Proof.
  evar (solved : SolvedValues).
  assert (Hrun : solve._run_one_mode
                   (λ _ _, Some {| solve.read_status := "Optimal";
                                   solve.read_vector := [2; 2; 2]%Q;
                                   solve.read_objective := 10%Q;
                                   solve.read_solver_time := None;
                                   solve.read_mip_gap := None;
                                   solve.read_solution_bound := None |})
                   (λ _ _, Some ()) tiny "ws" audit.default_tol ∅ = Some solved)
    by (unfold solved; vm_compute; reflexivity).
  exists solved.
  exact (returned_solution_is_audited _ _ tiny "ws" audit.default_tol ∅ solved 1 Hrun).
Defined.

(** * Validated instances *)

(** On a validated instance every activity belongs to exactly one of the
    four demand families: the sorted activity lists of Eq. (2), (3), (4)
    and (5) together have one entry per distinct activity of [A], so the
    four families together emit one row per interval and distinct
    activity. *)
Theorem demand_families_partition (inst : InstanceData) :
  instance.validate_instance inst = true →
  (length (sorted (build_waes.set_BA1 inst)) + length (sorted (build_waes.set_BA2 inst))
   + length (sorted (build_waes.set_CA1 inst)) + length (sorted (build_waes.set_CA2 inst))
   = card (instance.A inst))%nat
  ∧ family_start inst 4 = (length (instance.N inst) * card (instance.A inst))%nat
  ∧ ∀ a, a ∈ instance.A inst ↔
         a ∈ sorted (build_waes.set_BA1 inst) ∨ a ∈ sorted (build_waes.set_BA2 inst)
         ∨ a ∈ sorted (build_waes.set_CA1 inst) ∨ a ∈ sorted (build_waes.set_CA2 inst).
Proof.
  intros (HDBC & HABC & HD12 & HA12)%validated_partitions.
  assert (Hcount :
    (length (sorted (build_waes.set_BA1 inst)) + length (sorted (build_waes.set_BA2 inst))
     + length (sorted (build_waes.set_CA1 inst)) + length (sorted (build_waes.set_CA2 inst))
     = card (instance.A inst))%nat).
  { rewrite !length_sorted. unfold card.
    unfold build_waes.set_BA1, build_waes.set_BA2, build_waes.set_CA1,
      build_waes.set_CA2.
    set (B := list_to_set (instance.B inst) : gset Z) in *.
    set (C := list_to_set (instance.C inst) : gset Z) in *.
    set (A1 := list_to_set (instance.A1 inst) : gset Z) in *.
    set (A2 := list_to_set (instance.A2 inst) : gset Z) in *.
    set (A := list_to_set (instance.A inst) : gset Z) in *.
    assert (EB : B = (B ∩ A1) ∪ (B ∩ A2)).
    { apply set_eq. intros x. rewrite elem_of_union, !elem_of_intersection.
      split; [|tauto]. intros Hx.
      assert (Hin : x ∈ A) by (rewrite HABC; apply elem_of_union; tauto).
      rewrite HA12 in Hin. apply elem_of_union in Hin. tauto. }
    assert (EC : C = (C ∩ A1) ∪ (C ∩ A2)).
    { apply set_eq. intros x. rewrite elem_of_union, !elem_of_intersection.
      split; [|tauto]. intros Hx.
      assert (Hin : x ∈ A) by (rewrite HABC; apply elem_of_union; tauto).
      rewrite HA12 in Hin. apply elem_of_union in Hin. tauto. }
    assert (D1 : (B ∩ A1) ## (B ∩ A2)).
    { apply elem_of_disjoint. intros x [_ H1]%elem_of_intersection
        [_ H2]%elem_of_intersection.
      assert (Hin : x ∈ A1 ∩ A2) by (apply elem_of_intersection; tauto).
      rewrite HD12 in Hin. by apply elem_of_empty in Hin. }
    assert (D2 : (C ∩ A1) ## (C ∩ A2)).
    { apply elem_of_disjoint. intros x [_ H1]%elem_of_intersection
        [_ H2]%elem_of_intersection.
      assert (Hin : x ∈ A1 ∩ A2) by (apply elem_of_intersection; tauto).
      rewrite HD12 in Hin. by apply elem_of_empty in Hin. }
    assert (D3 : B ## C).
    { apply elem_of_disjoint. intros x H1 H2.
      assert (Hin : x ∈ B ∩ C) by (apply elem_of_intersection; tauto).
      rewrite HDBC in Hin. by apply elem_of_empty in Hin. }
    rewrite HABC, (size_union B C D3).
    rewrite EB at 3. rewrite EC at 3.
    rewrite (size_union _ _ D1), (size_union _ _ D2). lia. }
  split; [exact Hcount |]. split.
  - unfold family_start, family_sizes. cbn. rewrite <- Hcount. lia.
  - intros a. rewrite !elem_of_sorted.
    unfold build_waes.set_BA1, build_waes.set_BA2, build_waes.set_CA1,
      build_waes.set_CA2.
    rewrite !elem_of_intersection.
    rewrite <- (elem_of_list_to_set (C := gset Z) a (instance.A inst)).
    split.
    + intros Ha. pose proof Ha as Ha'. rewrite HABC in Ha. rewrite HA12 in Ha'.
      apply elem_of_union in Ha, Ha'. tauto.
    + intros Hin. rewrite HABC. apply elem_of_union. tauto.
Qed.

Lemma demand_families_partition_witness :
  (length (sorted (build_waes.set_BA1 demo)) + length (sorted (build_waes.set_BA2 demo))
   + length (sorted (build_waes.set_CA1 demo)) + length (sorted (build_waes.set_CA2 demo))
   = card (instance.A demo))%nat
  ∧ family_start demo 4 = (length (instance.N demo) * card (instance.A demo))%nat
  ∧ ∀ a, a ∈ instance.A demo ↔
         a ∈ sorted (build_waes.set_BA1 demo) ∨ a ∈ sorted (build_waes.set_BA2 demo)
         ∨ a ∈ sorted (build_waes.set_CA1 demo) ∨ a ∈ sorted (build_waes.set_CA2 demo).
Proof. apply (demand_families_partition demo). vm_compute. reflexivity. Defined.

(** On a validated instance the capability maps are mutual inverses: for an
    activity [a] of [A] and a profile [t] of [T], [t] is in [Ta[a]] exactly
    when [a] is in [Ht[t]]. *)
Theorem capability_maps_inverse (inst : InstanceData) (a t : Z) :
  instance.validate_instance inst = true →
  a ∈ instance.A inst → t ∈ instance.T inst →
  t ∈ instance.get_tuple (instance.Ta inst) a
  ↔ a ∈ instance.get_tuple (instance.Ht inst) t.
Proof.
  intros Hvalid Ha Ht. split.
  - by apply validated_Ta_Ht.
  - by apply validated_Ht_Ta.
Qed.

Lemma capability_maps_inverse_witness :
  2 ∈ instance.get_tuple (instance.Ta demo) 1
  ↔ 1 ∈ instance.get_tuple (instance.Ht demo) 2.
Proof.
  apply (capability_maps_inverse demo 1 2).
  - vm_compute. reflexivity.
  - cbn. repeat constructor.
  - cbn. repeat constructor.
Defined.

(** On a validated instance the execution windows stay inside the horizon:
    for an origin interval of [N], every interval between the origin and
    the end that either windowing helper returns, in either mode, is an
    interval of [N]. *)
Theorem windows_within_horizon (inst : InstanceData) (i a : Z) (ws_mode : bool)
    (e k : Z) :
  instance.validate_instance inst = true →
  i ∈ instance.N inst →
  build_waes._until_a1 inst i a ws_mode = Some e
  ∨ build_waes._until_a2 inst i a ws_mode = Some e →
  i <= k <= e →
  k ∈ instance.N inst.
Proof.
  intros HN%validated_N Hi Hend Hk. rewrite HN in Hi |- *.
  apply elem_of_range in Hi. apply elem_of_range.
  destruct Hend as [Hend|Hend].
  - unfold build_waes._until_a1 in Hend.
    destruct ws_mode; cbn in Hend.
    + injection Hend as <-. lia.
    + destruct (instance.v inst !! a) as [v_a|]; [|done]. cbn in Hend.
      injection Hend as <-. lia.
  - unfold build_waes._until_a2 in Hend.
    destruct ws_mode; [injection Hend as <-; lia |].
    destruct (instance.r inst !! a) as [r_a|]; [|done]. cbn in Hend.
    case_bool_decide; injection Hend as <-; lia.
Qed.

Lemma windows_within_horizon_witness : 2 ∈ instance.N demo.
Proof.
  apply (windows_within_horizon demo 1 2 false 2 2).
  - vm_compute. reflexivity.
  - cbn. repeat constructor.
  - right. vm_compute. reflexivity.
  - lia.
Defined.

(** * Unpacking a solution vector *)



(** The solved values that [_collect_solution] returns cover exactly the
    dense key space of the instance, carry the mode and the status given,
    and hold for every variable the entry of the vector at the index of the
    variable. *)
Theorem unpacked_values (inst : InstanceData) (ws_mode : bool)
    (m : WAESModel) (vector : list Q) (mode status : string) (objective : Q)
    (time gap bound : option Q) (solved : SolvedValues) :
  build_waes.build_waes_model inst ws_mode = Some m →
  solve._collect_solution m mode status vector objective time gap bound = Some solved →
  dense inst solved
  ∧ solution_types.mode solved = mode
  ∧ solution_types.status solved = status
  ∧ solution_types.objective solved = objective
  ∧ ∀ vk idx,
      index_in (build_waes.x_aijk m) (build_waes.y_tija m) (build_waes.y_tj m) vk
      = Some idx →
      vector !! idx = Some (solved_value solved vk).
Proof.
  intros Hbuild Hcollect.
  destruct (build_waes_model_spec _ _ _ Hbuild)
    as (vs & rows & Hvs & _ & _ & _ & _ & _ & _ & _ & Ex & Eyi & Eys).
  destruct (create_variables_ok _ _ Hvs) as (log & _ & Dx & Dyi & Dys).
  destruct (collect_solution_spec _ _ _ _ _ _ _ _ _ Hcollect) as (Hx & Hyi & Hys).
  rewrite collect_solution_checks in Hcollect.
  destruct (startswith _ _); [done |]. case_bool_decide; [|done].
  apply bind_Some in Hcollect as (xv & Hxv & Hcollect).
  apply bind_Some in Hcollect as (yiv & Hyiv & Hcollect).
  apply bind_Some in Hcollect as (ysv & Hysv & Hcollect).
  split; [|split; [|split; [|split]]]; try (by injection Hcollect as <-).
  - unfold dense. rewrite Hx, Hyi, Hys, !dom_fmap_L, Ex, Eyi, Eys. done.
  - intros vk idx Hvk.
    assert (Hlt : (idx < length vector)%nat).
    { destruct vk as [key|key|key]; cbn in Hvk.
      - eapply (proj1 (values_of_is_Some (build_waes.x_aijk m) vector));
          [rewrite Hxv; by eexists | exact Hvk].
      - eapply (proj1 (values_of_is_Some (build_waes.y_tija m) vector));
          [rewrite Hyiv; by eexists | exact Hvk].
      - eapply (proj1 (values_of_is_Some (build_waes.y_tj m) vector));
          [rewrite Hysv; by eexists | exact Hvk]. }
    apply lookup_lt_is_Some in Hlt as [value Hvalue]. rewrite Hvalue. f_equal.
    destruct vk as [key|key|key]; cbn in Hvk |- *.
    + by rewrite Hx, lookup_fmap, Hvk; cbn; unfold value_at; rewrite Hvalue.
    + by rewrite Hyi, lookup_fmap, Hvk; cbn; unfold value_at; rewrite Hvalue.
    + by rewrite Hys, lookup_fmap, Hvk; cbn; unfold value_at; rewrite Hvalue.
Qed.

Lemma unpacked_values_witness :
  ∃ m solved,
    dense tiny solved
    ∧ solution_types.mode solved = "waes"
    ∧ solution_types.status solved = "Optimal"
    ∧ solution_types.objective solved = 10%Q
    ∧ ∀ vk idx,
        index_in (build_waes.x_aijk m) (build_waes.y_tija m) (build_waes.y_tj m) vk
        = Some idx →
        [2; 2; 2]%Q !! idx = Some (solved_value solved vk).
Proof.
  evar (m : WAESModel). evar (solved : SolvedValues).
  assert (Hm : build_waes.build_waes_model tiny false = Some m)
    by (unfold m; vm_compute; reflexivity).
  assert (Hs : solve._collect_solution m "waes" "Optimal" [2; 2; 2]%Q 10
                 None None None = Some solved)
    by (unfold solved; vm_compute; reflexivity).
  exists m, solved.
  exact (unpacked_values tiny false m [2; 2; 2]%Q "waes" "Optimal" 10 None None None
           solved Hm Hs).
Defined.

(** * Conversions that overflow *)

(** When [q] is beyond the range of doubles, [float(instance.q)] raises
    [OverflowError] at the first variable that the Encoder creates: on an
    instance with an activity, an interval and a shift, validated or not,
    the Encoder raises in either mode. *)
Theorem encoder_overflows (inst : InstanceData) (ws_mode : bool) (a i j : Z) :
  ¬ in_float_range (instance.q inst) →
  a ∈ instance.A inst → i ∈ instance.N inst → j ∈ instance.M inst →
  build_waes.build_waes_model inst ws_mode = None.
Proof.
  intros Hq Ha Hi Hj.
  unfold build_waes.build_waes_model, build_waes.create_variables.
  rewrite create_x_flat.
  assert (Hkey : (a, i, j, i) ∈ x_keys inst).
  { unfold x_keys. apply elem_of_quads. by split_and!. }
  destruct (x_keys inst) as [|[[[a' i'] j'] k'] keys]; [by apply elem_of_nil in Hkey |].
  cbn. by rewrite (float__None _ Hq).
Qed.

Lemma encoder_overflows_witness :
  instance.validate_instance tiny_huge_q = true
  ∧ build_waes.build_waes_model tiny_huge_q false = None.
Proof.
  split; [vm_compute; reflexivity |].
  apply (encoder_overflows tiny_huge_q false 1 1 1).
  - unfold in_float_range. vm_compute. discriminate.
  - by left.
  - by left.
  - by left.
Defined.
